(* ===== verification/_CoqProject ===== *)
-Q . S2P
Prelude.v
Abi.v
Ring.v
Memory.v
Pmm.v
Kheap.v
Untyped.v
PageTable.v
Vm.v
Pipe.v
Socket.v
Shm.v
Tcb.v
Sched.v
Cmdline.v
Bootinfo.v
Hwio.v
Font.v
Fbconsole.v
Console.v
Kinfo.v
Pages.v
Elf.v
Kstate.v
Captable.v
Exec.v
Kernel.v
Spawn.v
Ipc.v
Syscall.v
Resume.v
Lifecycle.v
Process.v
Rendezvous.v
Privilege.v
Ext2Journal.v
Ext2Crash.v
Ext2Txn.v
Ext2Disk.v
Ext2Store.v
Ext2Alloc.v
Ext2Map.v
Ext2Dir.v
