(* ===== verification/Prelude.v ===== *)
(** * Robu microkernel: a verification development

    Robu is an x86-64 microkernel in C.  The kernel ([src/src/core/],
    [src/arch/x86_64/]) has threads, address spaces, capabilities and messages,
    and, for Unix programs, pipes, local sockets, shared memory, signals and
    processes.  One system call, [sys_ipc], serves all of it: the registers of
    the caller select the branch.  File systems and drivers are programs outside
    the kernel ([src/src/servers/]).  The kernel and the storage layers of the
    ext2 server are modelled here, as functions on explicit states that follow
    the C text, with the names of the source.

    ** How the code is modelled

    - Integers are [Z]; a C operation that can wrap is followed by [u8], [u16],
      [u32] or [u64].  Structs are records ([r <| f := v |>] is an assignment),
      arrays are lists updated in bounds, and memory is a map from physical
      addresses to bytes, since the kernel runs identity-mapped.
    - A function that changes static data takes and returns the state; one that
      can fail returns the error code of the source.
    - All handlers run under the kernel lock, so one call is one step.  Where
      others run beside it (readers of the information page, wake-ups from
      other CPUs, the ends of a pipe) the theorems range over sequences of steps.
    - Code outside the sources is an interface: [Hwio.Ports] for the instructions
      of devices, [Hwio.PciConfig] for what the code expects of PCI, and
      [Ext2Journal.Blockdev] with [BlockdevLaws] for a drive.  [demo_ports],
      [demo_config] and [ramdisk_laws] show that they can be met.
      [Kstate.Config] holds what the linker and the boot code fix.

    ** The files

    Shared:
    - [Prelude]: record update, fixed-width integers, lists, tactics;
      [Abi]: constants of [src/include/robu/];
      [Ring]: circular buffers and the sequence one holds;
      [Pages]: the effect of filling an address space page by page.

    Memory:
    - [Memory]: bytes and words, [klib.c];
      [Pmm]: frames, [pmm.c];
      [Kheap]: the heap, [kheap.c];
      [Untyped]: [untyped.c] and [dma.c];
      [PageTable]: four-level tables, [vm_arch.c];
      [Vm]: mappings, user copies and the fault queue, [vm.c].

    Communication and threads:
    - [Pipe], [Socket], [Shm]: [pipe.c], [socket.c], [shm.c];
      [Tcb]: the thread record and the queues linked through it, [tcb.h];
      [Sched]: ready queues, inbox and choice of a thread, [sched.c];
      [Captable]: capabilities, notifications and timers, [captable.c].

    Boot, devices and console:
    - [Cmdline], [Bootinfo]: [cmdline.c], [pvh_mem.c], [rootfs.c];
      [Hwio]: [hwio.c], [pci.c], [random.c];
      [Font], [Fbconsole], [Console]: [font8x16.h], [fbconsole.c], [console.c],
      [kprintf.c];
      [Kinfo]: the information page and the mounts, [kinfo.c], [linux_vfs.c].

    The kernel as a whole:
    - [Elf]: images and their loading, [elf.c];
      [Kstate]: the static data of the core as one record;
      [Exec]: spawn and exec of an image, [elf.c], [execreq.c];
      [Kernel]: termination, exit and wait, signals, page faults, the tick and
      the return to user mode, [sched.c], [spawn.c], [signal.c], [vm.c];
      [Spawn]: request blocks and fork, [spawn.c];
      [Ipc], [Syscall]: messages, [sys_ipc] with every branch, [ipc.c], and the
      dispatch of traps, [trap.c], [intr.c].

    The ext2 server:
    - [Ext2Journal]: the drive, buffers and [journal.c];
      [Ext2Disk]: [disk.c] and the mount;
      [Ext2Dir]: [path.c].

    ** What the theorems show

    - Memory: no frame or heap block is owned twice and none is lost
      ([Pmm], [Kheap]); mapping and unmapping change one translation and no other
      ([PageTable]); user copies move exactly the bytes of the range ([Vm]).
    - Streams: pipes, sockets, console input and rings deliver every byte once and
      in order; handles that were closed are refused ([Pipe], [Socket], [Console]).
    - Scheduling: [schedule] refines a first-come-first-served scheduler with
      priorities; wake-ups are not lost ([Sched]); the return to user mode ends
      ([Resume]).
    - Messages: the queues of senders are lists, and what was sent arrives
      ([Rendezvous]).
    - Processes: a dead thread is named nowhere ([Lifecycle]); an exit status
      is reported once, and a handler returns to the context it interrupted
      ([Process]).
    - Isolation: only the holder of a grant reaches a device ([Privilege]), and
      capabilities of a thread change only by its own operations ([Captable]).
    - Programs and boot: exactly the well-formed images are accepted and they are
      loaded as written ([Elf]); boot modules and the command line are read
      as the loader wrote them ([Bootinfo], [Cmdline]).
    - Display and information page: the pixels show the text grid ([Fbconsole]),
      and a block-device query returns one published record ([Kinfo]).
    - ext2: a commit is atomic under any failure of the drive and any number of
      power failures, and recovery succeeds on a healthy drive with one exception,
      which is exhibited ([Ext2Crash]); a transaction reads its own writes and
      commits all of them ([Ext2Txn]); inodes are stored independently
      ([Ext2Store]); the allocators hand out what is free ([Ext2Alloc]); the
      block map of an inode is the list of its blocks ([Ext2Map]); a directory
      block is a list of entries ([Ext2Dir]).

    ** Bounds

    A loop over an array recurses on the array or its length.  Other loops carry a
    bound that the code cannot exceed:
    - blocks on the free list of the heap: the smallest blocks that fit in it
      ([Kheap]);
    - threads on a queue: the size of the thread table, as no queue holds a thread
      twice ([Sched], [Ipc], [Kernel]);
    - user copies: the bytes left, as each round copies at least one ([Vm]);
    - boot tags: one more than the eight-byte steps in the block; [None] is a walk
      the C code does not leave ([Bootinfo]);
    - characters of a string: its length ([Cmdline], [Console], [Ext2Dir]); digits
      of a 64-bit number: 20 and 16;
    - periodic timers: the periods between the deadline and now ([Captable]);
    - the signal loop of [sched_resume]: the number of threads, as each further
      round ends one; [Resume] proves that it is enough;
    - directory entries: [dir_fuel], the eight-byte steps in a block, as a
      shorter entry ends the loop ([Ext2Disk]); symbolic links: the eight hops of
      the source.

    ** Not modelled

    - Set-up of CPU, interrupt controllers, FPU and the other CPUs, TLB
      invalidation, the locks and the assembly entry paths: privileged
      instructions whose results the modelled code does not compute with.
    - Messages and trace events the kernel prints while it serves a call.
    - uACPI and its glue: the library is not part of the sources.
    - The boot loaders, which are programs of their own against firmware calls.
    - Drivers for IDE and USB: the devices have no specification in the sources;
      the ext2 model sees a drive through [Blockdev].
    - The request loop, open files and extended attributes of the ext2 server
      ([vfs.c], [xattr.c], [ext2fs.c]), the FAT, RAM and pseudo file servers, the
      pager, the console driver and the applications: separate programs above
      the interfaces modelled here. *)
From Stdlib Require Import ZArith Lia.
From stdpp Require Import base numbers sets list list_numbers functions.

#[export] Set Default Goal Selector "!".
Open Scope Z_scope.

(** ** Record update

    [r <| f := v |>] is C's [r->f = v] and [r <| f ::= g |>] its
    read-modify-write form.  A record opts in with one [Eta] instance; the
    setter of each field is then computed by unification. *)
Class Eta (R : Type) := eta : R -> R.
Class Setter {R T : Type} (get : R -> T) := set : (T -> T) -> R -> R.
Arguments set {R T} get {_} _ _ : simpl never.

Ltac derive_setter :=
  match goal with
  | |- @Setter ?R ?T ?get =>
    let s := constr:(fun (f : T -> T) (r : R) =>
      ltac:(let i := constr:(_ : Eta R) in
            let e := eval hnf in i in
            let e := eval cbv beta in (e r) in
            let e := eval pattern (get r) in e in
            match e with
            | ?g _ => let b := eval cbv beta in (g (f (get r))) in exact b
            end)) in exact s
  end.

#[export] Hint Extern 0 (Setter _) => derive_setter : typeclass_instances.

Declare Scope robu_scope.
Delimit Scope robu_scope with robu.
Notation "r <| f := v |>" := (set f (fun _ => v) r)
  (at level 1, left associativity, f at level 0, v at level 200) : robu_scope.
Notation "r <| f ::= g |>" := (set f g r)
  (at level 1, left associativity, f at level 0, g at level 200) : robu_scope.
Open Scope robu_scope.

(** [rsimpl] reduces a projection applied to a record update, and nothing else.
    The equation is checked on a variable, so that nested updates cost nothing. *)
Ltac rsimpl_eq p R T q i f :=
  match goal with
  | _ => let _ := match goal with _ => constr_eq p q end in
         constr:((fun x : R => eq_refl) : forall x : R, p (@set R T q i f x) = f (q x))
  | _ => constr:((fun x : R => eq_refl) : forall x : R, p (@set R T q i f x) = p x)
  end.
Ltac rsimpl_step :=
  match goal with
  | |- context [?p (@set ?R ?T ?q ?i ?f ?r)] =>
      lazymatch p with
      | set _ _ => fail
      | _ => let e := rsimpl_eq p R T q i f in rewrite (e r)
      end; cbv beta
  | H : context [?p (@set ?R ?T ?q ?i ?f ?r)] |- _ =>
      lazymatch p with
      | set _ _ => fail
      | _ => let e := rsimpl_eq p R T q i f in rewrite (e r) in H
      end; cbv beta in H
  end.
Ltac rsimpl := repeat rsimpl_step.

(** ** Machine integers *)
Definition u8 (x : Z) : Z := x mod 2 ^ 8.
Definition u16 (x : Z) : Z := x mod 2 ^ 16.
Definition u32 (x : Z) : Z := x mod 2 ^ 32.
Definition u64 (x : Z) : Z := x mod 2 ^ 64.
(** Conversion to [int] (two's complement, the compiler's behaviour). *)
Definition i32 (x : Z) : Z := (x + 2 ^ 31) mod 2 ^ 32 - 2 ^ 31.
Definition i64 (x : Z) : Z := (x + 2 ^ 63) mod 2 ^ 64 - 2 ^ 63.
(** [~x] on 64 and 32 bits. *)
Definition not64 (x : Z) : Z := u64 (Z.lnot x).
Definition not32 (x : Z) : Z := u32 (Z.lnot x).
(** [1ULL << n] for a shift count below the width. *)
Definition bit (n : Z) : Z := Z.shiftl 1 n.
(** C's truth value of [x & m]. *)
Definition has (x m : Z) : bool := negb (Z.land x m =? 0).
(** C's truth value of an integer. *)
Definition tru (x : Z) : bool := negb (x =? 0).

(** ** Loops over [0 .. n-1] *)
Definition for_range {S : Type} (n : Z) (f : Z -> S -> S) (s : S) : S :=
  foldl (fun s i => f i s) s (seqZ 0 n).
(** [for (i = 0; i < n; i++) if (p(i)) { found i; break; }] *)
Definition find_first (n : Z) (p : Z -> bool) : option Z :=
  List.find p (seqZ 0 n).

(** The same with an early exit: the body returns the new state and whether to
    go on. *)
Definition for_try {S : Type} (n : Z) (f : Z -> S -> S * bool) (s : S) : S * bool :=
  foldl (fun '(s, go) i => if (go : bool) then f i s else (s, false)) (s, true) (seqZ 0 n).

(** ** Automation *)
Create HintDb robu discriminated.

(** Turns the boolean tests of the code into propositions. *)
Ltac bools :=
  repeat match goal with
  | H : _ && _ = true |- _ => apply andb_true_iff in H; destruct H
  | H : _ || _ = false |- _ => apply orb_false_iff in H; destruct H
  | H : negb _ = true |- _ => apply negb_true_iff in H
  | H : negb _ = false |- _ => apply negb_false_iff in H
  | H : (_ =? _) = true |- _ => apply Z.eqb_eq in H
  | H : (_ =? _) = false |- _ => apply Z.eqb_neq in H
  | H : (_ <? _) = true |- _ => apply Z.ltb_lt in H
  | H : (_ <? _) = false |- _ => apply Z.ltb_ge in H
  | H : (_ <=? _) = true |- _ => apply Z.leb_le in H
  | H : (_ <=? _) = false |- _ => apply Z.leb_gt in H
  | H : (_ >=? _) = true |- _ => rewrite Z.geb_leb in H; apply Z.leb_le in H
  | H : (_ >=? _) = false |- _ => rewrite Z.geb_leb in H; apply Z.leb_gt in H
  | H : (_ >? _) = true |- _ => rewrite Z.gtb_ltb in H; apply Z.ltb_lt in H
  | H : (_ >? _) = false |- _ => rewrite Z.gtb_ltb in H; apply Z.ltb_ge in H
  end.

(** Splits the innermost test of the goal (or of a hypothesis). *)
Ltac break_if :=
  match goal with
  | |- context [if ?c then _ else _] =>
      lazymatch c with context [if _ then _ else _] => fail | _ => destruct c eqn:? end
  end.
Ltac break_if_in H :=
  match type of H with
  | context [if ?c then _ else _] =>
      lazymatch c with context [if _ then _ else _] => fail | _ => destruct c eqn:? end
  end.
Ltac break_match :=
  match goal with
  | |- context [match ?c with _ => _ end] =>
      lazymatch c with context [match _ with _ => _ end] => fail | _ => destruct c eqn:? end
  end.
Ltac break_match_in H :=
  match type of H with
  | context [match ?c with _ => _ end] =>
      lazymatch c with context [match _ with _ => _ end] => fail | _ => destruct c eqn:? end
  end.

(** Resolves reads of an array after a write. *)
Ltac fsimpl :=
  repeat first
    [ rewrite fn_lookup_insert
    | rewrite fn_lookup_insert_ne by (congruence || lia)
    | progress simplify_eq/= ].

(** ** Integers *)
Lemma u64_range x : 0 <= u64 x < 2 ^ 64.
Proof. apply Z.mod_pos_bound. lia. Qed.
Lemma u32_range x : 0 <= u32 x < 2 ^ 32.
Proof. apply Z.mod_pos_bound. lia. Qed.
Lemma u16_range x : 0 <= u16 x < 2 ^ 16.
Proof. apply Z.mod_pos_bound. lia. Qed.
Lemma u8_range x : 0 <= u8 x < 2 ^ 8.
Proof. apply Z.mod_pos_bound. lia. Qed.
Lemma u64_small x : 0 <= x < 2 ^ 64 -> u64 x = x.
Proof. apply Z.mod_small. Qed.
Lemma u32_small x : 0 <= x < 2 ^ 32 -> u32 x = x.
Proof. apply Z.mod_small. Qed.
Lemma u16_small x : 0 <= x < 2 ^ 16 -> u16 x = x.
Proof. apply Z.mod_small. Qed.
Lemma u8_small x : 0 <= x < 2 ^ 8 -> u8 x = x.
Proof. apply Z.mod_small. Qed.
Lemma i32_small x : - 2 ^ 31 <= x < 2 ^ 31 -> i32 x = x.
Proof. intros. unfold i32. rewrite Z.mod_small; lia. Qed.
#[export] Hint Resolve u64_range u32_range u16_range u8_range : robu.

(** ** Loops *)
Lemma find_first_Some n p i :
  find_first n p = Some i <->
  0 <= i < n /\ p i = true /\ forall j, 0 <= j < i -> p j = false.
Proof.
  unfold find_first. split.
  - intros H. pose proof (List.find_some _ _ H) as [Hin Hp].
    apply list_elem_of_In, elem_of_seqZ in Hin. split; [lia|split;[done|]].
    intros j Hj. revert H.
    replace n with (j + (n - j)) by lia. rewrite seqZ_app by lia.
    replace (n - j) with (Z.succ (Z.pred (n - j))) by lia.
    rewrite (seqZ_cons (0 + j)) by lia.
    intros H. destruct (p j) eqn:E; [|done]. exfalso.
    assert (Hf : forall (l : list Z) k, List.find p (l ++ j :: k) = Some i ->
                 i ∈ l \/ i = j).
    { induction l as [|x l IH]; simpl; intros k.
      - rewrite E. intros [= ->]. by right.
      - destruct (p x); [intros [= ->]; left; set_solver|].
        intros Hk. destruct (IH _ Hk); [left; set_solver|by right]. }
    rewrite Z.add_0_l in H.
    apply Hf in H as [H|H]; [|lia]. apply elem_of_seqZ in H. lia.
  - intros (Hi & Hp & Hj).
    replace n with (i + (n - i)) by lia. rewrite seqZ_app by lia.
    rewrite (seqZ_cons (0 + i)) by lia. rewrite Z.add_0_l.
    assert (Hf : forall l : list Z, (forall x, x ∈ l -> p x = false) ->
              forall k, List.find p (l ++ i :: k) = Some i).
    { induction l as [|x l IH]; simpl; intros Hl k; [by rewrite Hp|].
      rewrite Hl by set_solver. apply IH. set_solver. }
    apply Hf. intros x Hx. apply elem_of_seqZ in Hx. apply Hj. lia.
Qed.

Lemma find_first_None n p :
  find_first n p = None <-> forall j, 0 <= j < n -> p j = false.
Proof.
  unfold find_first. split.
  - intros H j Hj. apply (List.find_none _ _ H).
    apply list_elem_of_In, elem_of_seqZ. lia.
  - intros H. destruct (List.find p (seqZ 0 n)) eqn:E; [|done].
    apply List.find_some in E as [Hin Hp].
    apply list_elem_of_In, elem_of_seqZ in Hin. rewrite H in Hp; [done|lia].
Qed.

Lemma for_range_0 {S} n (f : Z -> S -> S) s : n <= 0 -> for_range n f s = s.
Proof. intros. unfold for_range. by rewrite seqZ_nil by lia. Qed.

Lemma for_range_S {S} n (f : Z -> S -> S) s :
  0 <= n -> for_range (n + 1) f s = f n (for_range n f s).
Proof.
  intros. unfold for_range. rewrite seqZ_app by lia.
  rewrite foldl_app. by rewrite (seqZ_cons (0 + n)), (seqZ_nil (Z.succ (0 + n))), Z.add_0_l by lia.
Qed.

(** Invariant rule for a counted loop. *)
Lemma for_range_ind {S} (P : Z -> S -> Prop) (f : Z -> S -> S) n s :
  0 <= n -> P 0 s ->
  (forall i s, 0 <= i < n -> P i s -> P (i + 1) (f i s)) ->
  P n (for_range n f s).
Proof.
  intros Hn H0 Hstep.
  cut (forall k, 0 <= k -> k <= n -> P k (for_range k f s)).
  { intros H. apply H; lia. }
  apply (natlike_ind (fun k => k <= n -> P k (for_range k f s))).
  - intros _. by rewrite for_range_0 by lia.
  - intros k Hk IH Hle. unfold Z.succ in *.
    rewrite for_range_S by lia. apply Hstep; [lia|]. apply IH. lia.
Qed.

Lemma for_try_0 {S} n (f : Z -> S -> S * bool) s : n <= 0 -> for_try n f s = (s, true).
Proof. intros. unfold for_try. by rewrite seqZ_nil by lia. Qed.

Lemma for_try_S {S} n (f : Z -> S -> S * bool) s :
  0 <= n -> for_try (n + 1) f s =
  let '(s', go) := for_try n f s in if go then f n s' else (s', false).
Proof.
  intros. unfold for_try. rewrite seqZ_app by lia.
  rewrite foldl_app. rewrite (seqZ_cons (0 + n)), (seqZ_nil (Z.succ (0 + n))), Z.add_0_l by lia.
  simpl. by destruct (foldl _ _ (seqZ 0 n)) as [? []].
Qed.

Lemma for_try_inv {S} (P : S -> Prop) n (f : Z -> S -> S * bool) s s' b :
  P s -> (forall i s s' b, P s -> f i s = (s', b) -> P s') -> for_try n f s = (s', b) -> P s'.
Proof.
  intros H0 Hf. destruct (decide (0 <= n)) as [Hn|];
    [|rewrite for_try_0 by lia; by intros [= <- _]].
  revert n Hn s' b. apply (natlike_ind (fun n => forall s' b, for_try n f s = (s', b) -> P s')).
  - intros s' b. rewrite for_try_0 by lia. by intros [= <- _].
  - intros n Hn IH s' b. unfold Z.succ. rewrite for_try_S by done.
    destruct (for_try n f s) as [s1 []] eqn:E; [|intros [= <- _]; by eapply IH].
    intros E2. by eapply Hf, E2; eapply IH.
Qed.

(** The number of [i < n] with [p i]. *)
Definition count (n : Z) (p : Z -> bool) : Z := Z.of_nat (length (List.filter p (seqZ 0 n))).

Lemma count_S n p : 0 <= n -> count (n + 1) p = count n p + (if p n then 1 else 0).
Proof.
  intros. unfold count. rewrite seqZ_app by lia.
  rewrite List.filter_app, length_app, (seqZ_cons (0 + n)), (seqZ_nil (Z.succ (0 + n))), Z.add_0_l by lia.
  simpl. destruct (p n); simpl; lia.
Qed.

Lemma count_ind (P : Z -> Prop) : P 0 -> (forall n, 0 <= n -> P n -> P (n + 1)) -> forall n, 0 <= n -> P n.
Proof. intros H0 HS. apply natlike_ind; [done|]. exact HS. Qed.

Lemma count_ext n p q : (forall i, 0 <= i < n -> p i = q i) -> count n p = count n q.
Proof.
  destruct (decide (0 <= n)) as [Hn|]; [|intros; unfold count; by rewrite seqZ_nil by lia].
  revert n Hn. apply (count_ind (fun n => _ -> _)); [done|]. intros n Hn IH H.
  rewrite !count_S by done. rewrite IH by (intros; apply H; lia). by rewrite H by lia.
Qed.

Lemma count_0 n p : (forall i, 0 <= i < n -> p i = false) -> count n p = 0.
Proof.
  destruct (decide (0 <= n)) as [Hn|]; [|intros; unfold count; by rewrite seqZ_nil by lia].
  revert n Hn. apply (count_ind (fun n => _ -> _)); [done|]. intros n Hn IH H.
  rewrite count_S, IH by (done || intros; apply H; lia). by rewrite H by lia.
Qed.

Lemma count_range n p : 0 <= n -> 0 <= count n p <= n.
Proof.
  revert n. apply (count_ind (fun n => 0 <= count n p <= n)); [done|].
  intros n Hn IH. rewrite count_S by done. destruct (p n); lia.
Qed.

(** Changing one element changes the count by at most one. *)
Lemma count_update n p q i :
  0 <= i < n -> (forall j, 0 <= j < n -> j <> i -> q j = p j) ->
  count n q = count n p - (if p i then 1 else 0) + (if q i then 1 else 0).
Proof.
  intros Hi. assert (Hn : 0 <= n) by lia. revert n Hn Hi.
  apply (count_ind (fun n => _ -> _ -> _)); [lia|]. intros n Hn IH Hi H. rewrite !count_S by done.
  destruct (decide (i = n)) as [->|].
  - rewrite (count_ext n q p) by (intros; apply H; lia). destruct (p n), (q n); lia.
  - rewrite IH by (lia || intros; apply H; lia). rewrite (H n) by lia. lia.
Qed.

#[global] Opaque count.

(** A loop that rewrites each cell of an array from its own old value. *)
Lemma for_range_pointwise {A} (g : Z -> A -> A) n (a : Z -> A) j :
  for_range n (fun i a => <[i := g i (a i)]> a) a j =
  if (0 <=? j) && (j <? n) then g j (a j) else a j.
Proof.
  destruct (decide (0 <= n)) as [Hn|Hn].
  - pose proof (for_range_ind
      (fun k (b : Z -> A) => forall j, b j = if (0 <=? j) && (j <? k) then g j (a j) else a j)
      (fun i a => <[i := g i (a i)]> a) n a) as HP.
    apply HP; clear HP; [done| |].
    + intros k. destruct (0 <=? k) eqn:?; simpl; [|done].
      destruct (k <? 0) eqn:?; [bools; lia|done].
    + intros i b Hi Hb k. destruct (decide (i = k)) as [->|Hne].
      * rewrite fn_lookup_insert, Hb.
        replace (k <? k) with false by lia. rewrite andb_false_r.
        replace ((0 <=? k) && (k <? k + 1)) with true by lia. done.
      * rewrite fn_lookup_insert_ne by done. rewrite Hb.
        replace (k <? i + 1) with (k <? i) by lia. done.
  - rewrite for_range_0 by lia.
    replace ((0 <=? j) && (j <? n)) with false by lia. done.
Qed.

(** ** Lists *)
Lemma filter_ext_in {A} (P Q : A -> Prop) `{forall x, Decision (P x)} `{forall x, Decision (Q x)} (l : list A) :
  (forall x, x ∈ l -> P x <-> Q x) -> filter P l = filter Q l.
Proof.
  induction l as [|x l IH]; intros Hpq; [done|]. rewrite !filter_cons, IH by (intros; apply Hpq; by right).
  assert (Hx : P x <-> Q x) by (apply Hpq; by left).
  destruct (decide (P x)), (decide (Q x)); naive_solver.
Qed.

(** ** Bit masks *)
Lemma bit_pow n : 0 <= n -> bit n = 2 ^ n.
Proof. intros. unfold bit. rewrite Z.shiftl_mul_pow2 by lia. lia. Qed.

Lemma bit_testbit n j : 0 <= n -> Z.testbit (bit n) j = (n =? j).
Proof. intros. rewrite bit_pow by done. by apply Z.pow2_bits_eqb. Qed.

Lemma bit_range n w : 0 <= n < w -> 0 <= bit n < 2 ^ w.
Proof.
  intros. rewrite bit_pow by lia. split; [lia|]. apply Z.pow_lt_mono_r; lia.
Qed.

Lemma has_bit m n : 0 <= n -> has m (bit n) = Z.testbit m n.
Proof.
  intros. unfold has. destruct (Z.testbit m n) eqn:E.
  - apply negb_true_iff, Z.eqb_neq. intros H0.
    apply (f_equal (fun x => Z.testbit x n)) in H0.
    rewrite Z.land_spec, E, bit_testbit, Z.eqb_refl, Z.bits_0 in H0 by done. done.
  - apply negb_false_iff, Z.eqb_eq. apply Z.bits_inj'. intros k Hk.
    rewrite Z.land_spec, bit_testbit, Z.bits_0 by done.
    destruct (Z.eqb_spec n k); [subst; by rewrite E|by rewrite andb_false_r].
Qed.

Lemma testbit_u64 x j : 0 <= j < 64 -> Z.testbit (u64 x) j = Z.testbit x j.
Proof. intros. unfold u64. apply Z.mod_pow2_bits_low. lia. Qed.

Lemma testbit_high m w j : 0 <= w -> 0 <= m < 2 ^ w -> w <= j -> Z.testbit m j = false.
Proof.
  intros Hw Hm Hj. destruct (decide (m = 0)) as [->|]; [apply Z.bits_0|].
  apply Z.bits_above_log2; [lia|]. apply Z.log2_lt_pow2; [lia|].
  eapply Z.lt_le_trans; [apply Hm|]. apply Z.pow_le_mono_r; lia.
Qed.

Lemma range_of_bits m w :
  0 <= w -> 0 <= m -> (forall j, w <= j -> Z.testbit m j = false) -> 0 <= m < 2 ^ w.
Proof.
  intros Hw Hm Hb. split; [done|]. destruct (decide (m = 0)) as [->|]; [lia|].
  apply Z.log2_lt_pow2; [lia|]. apply Z.nle_gt. intros Hle.
  specialize (Hb (Z.log2 m) Hle). rewrite Z.bit_log2 in Hb by lia. done.
Qed.

Lemma lor_range a b w : 0 <= w -> 0 <= a < 2 ^ w -> 0 <= b < 2 ^ w -> 0 <= Z.lor a b < 2 ^ w.
Proof.
  intros Hw Ha Hb. apply range_of_bits; [done|apply Z.lor_nonneg; lia|].
  intros j Hj. by rewrite Z.lor_spec, (testbit_high a w), (testbit_high b w).
Qed.

Lemma land_range a b w : 0 <= w -> 0 <= a < 2 ^ w -> 0 <= Z.land a b < 2 ^ w.
Proof.
  intros Hw Ha. apply range_of_bits; [done|apply Z.land_nonneg; lia|].
  intros j Hj. by rewrite Z.land_spec, (testbit_high a w).
Qed.

Lemma testbit_not64 b j : 0 <= j < 64 -> Z.testbit (not64 b) j = negb (Z.testbit b j).
Proof. intros. unfold not64. rewrite testbit_u64 by done. apply Z.lnot_spec. lia. Qed.

(** Clearing the low bits rounds down: [x & ~(2^k - 1)]. *)
Lemma align_down_spec k x :
  0 <= k <= 64 -> 0 <= x < 2 ^ 64 -> Z.land x (not64 (2 ^ k - 1)) = x - x mod 2 ^ k.
Proof.
  intros Hk Hx. replace (x - x mod 2 ^ k) with (Z.shiftl (Z.shiftr x k) k).
  - apply Z.bits_inj'. intros j Hj. rewrite Z.land_spec.
    replace (2 ^ k - 1) with (Z.ones k) by (rewrite Z.ones_equiv; lia).
    destruct (decide (j < 64)) as [Hj64|].
    + rewrite testbit_not64, Z.shiftl_spec by lia.
      destruct (decide (j < k)).
      * rewrite Z.ones_spec_low, (Z.testbit_neg_r _ (j - k)), andb_false_r by lia. done.
      * rewrite Z.ones_spec_high, Z.shiftr_spec by lia. rewrite andb_true_r. f_equal. lia.
    + rewrite (testbit_high x 64), Z.shiftl_spec by lia. simpl.
      rewrite Z.shiftr_spec by lia. rewrite (testbit_high x 64) by lia. done.
  - rewrite Z.shiftl_mul_pow2, Z.shiftr_div_pow2 by lia.
    pose proof (Z.div_mod x (2 ^ k)). lia.
Qed.

(** Masking keeps the low bits: [x & (2^k - 1)]. *)
Lemma land_low k x : 0 <= k -> Z.land x (2 ^ k - 1) = x mod 2 ^ k.
Proof.
  intros. replace (2 ^ k - 1) with (Z.ones k) by (rewrite Z.ones_equiv; lia).
  by apply Z.land_ones.
Qed.
