(* ===== verification/Abi.v ===== *)
(** * Constants of the kernel interface

    Error codes, IPC flags, system-information categories, signal numbers and
    sizes, with the names and values of the headers under
    [src/include/robu/].  A macro the proofs only compute with is a notation,
    one they reason about by name is a definition. *)
From Stdlib Require Import ZArith.
From stdpp Require Import base.
From S2P Require Import Prelude.


(** ** IPC flags and error codes ([src/include/robu/ipc.h]) *)
Notation IPC_TID_ANY := (0)%Z (only parsing).
Notation IPC_FLAG_NONE := (0)%Z (only parsing).
Notation IPC_FLAG_MAP := (Z.shiftl 1 0)%Z (only parsing).
Notation IPC_FLAG_RECV := (Z.shiftl 1 1)%Z (only parsing).
Notation IPC_FLAG_XFER := (Z.shiftl 1 2)%Z (only parsing).
Notation IPC_FLAG_SHARE := (Z.shiftl 1 3)%Z (only parsing).
Notation IPC_FLAG_NOBLOCK := (Z.shiftl 1 4)%Z (only parsing).
Notation IPC_FLAG_RETYPE := (Z.shiftl 1 5)%Z (only parsing).
Notation IPC_FLAG_DESTROY := (Z.shiftl 1 6)%Z (only parsing).
Notation IPC_FLAG_CONSOLE_WRITE := (Z.shiftl 1 7)%Z (only parsing).
Notation IPC_FLAG_NOTIFY_SIGNAL := (Z.shiftl 1 8)%Z (only parsing).
Notation IPC_FLAG_NOTIFY_WAIT := (Z.shiftl 1 9)%Z (only parsing).
Notation IPC_FLAG_NOTIFY_POLL := (Z.shiftl 1 10)%Z (only parsing).
Notation IPC_FLAG_TIMER_ARM := (Z.shiftl 1 11)%Z (only parsing).
Notation IPC_FLAG_TIMER_DISARM := (Z.shiftl 1 12)%Z (only parsing).
Notation IPC_FLAG_REVOKE_FRAME := (Z.shiftl 1 13)%Z (only parsing).
Notation IPC_FLAG_EXIT := (Z.shiftl 1 14)%Z (only parsing).
Notation IPC_FLAG_SPAWN := (Z.shiftl 1 15)%Z (only parsing).
Notation IPC_FLAG_WAIT := (Z.shiftl 1 16)%Z (only parsing).
Notation IPC_FLAG_CONSOLE_READ := (Z.shiftl 1 17)%Z (only parsing).
Notation IPC_FLAG_PIPE_CREATE := (Z.shiftl 1 18)%Z (only parsing).
Notation IPC_FLAG_PIPE_READ := (Z.shiftl 1 19)%Z (only parsing).
Notation IPC_FLAG_PIPE_WRITE := (Z.shiftl 1 20)%Z (only parsing).
Notation IPC_FLAG_PIPE_CLOSE := (Z.shiftl 1 21)%Z (only parsing).
Notation IPC_FLAG_THREAD_INFO := (Z.shiftl 1 22)%Z (only parsing).
Notation IPC_FLAG_SYS_INFO := (Z.shiftl 1 23)%Z (only parsing).
Notation IPC_FLAG_FORK := (Z.shiftl 1 24)%Z (only parsing).
Notation IPC_FLAG_SET_FSBASE := (Z.shiftl 1 25)%Z (only parsing).
Notation IPC_FLAG_SELF_TID := (Z.shiftl 1 26)%Z (only parsing).
Notation IPC_FLAG_EXEC := (Z.shiftl 1 27)%Z (only parsing).
Notation IPC_FLAG_MOUNT := (Z.shiftl 1 28)%Z (only parsing).
Notation IPC_FLAG_BOOTFS := (Z.shiftl 1 29)%Z (only parsing).
Notation SYS_INFO_CAT_GETENTROPY := (44)%Z (only parsing).
Notation SYS_INFO_CAT_BLOCK_INFO := (45)%Z (only parsing).
Notation IPC_FLAG_RESOLVE_FAULT := (Z.shiftl 1 31)%Z (only parsing).
Notation IPC_ERR_NONE := (0)%Z (only parsing).
Notation IPC_ERR_NOT_FOUND := ((-1))%Z (only parsing).
Notation IPC_ERR_TIMEOUT := ((-2))%Z (only parsing).
Notation IPC_ERR_CANCELED := ((-3))%Z (only parsing).
Notation IPC_ERR_NO_CAP := ((-4))%Z (only parsing).
Notation IPC_ERR_WOULDBLOCK := ((-5))%Z (only parsing).
Notation IPC_ERR_NO_MEM := ((-6))%Z (only parsing).
Notation IPC_ERR_EXISTS := ((-7))%Z (only parsing).
Notation IPC_ERR_NO_SPACE := ((-8))%Z (only parsing).
Notation IPC_ERR_INVALID := ((-9))%Z (only parsing).
Notation IPC_ERR_BLOCKED := ((-10))%Z (only parsing).
Notation IPC_ERR_NOT_SUPPORTED := ((-11))%Z (only parsing).

(** ** Signals ([src/include/robu/signal.h]) *)
Notation SIGHUP := (1)%Z (only parsing).
Notation SIGINT := (2)%Z (only parsing).
Notation SIGQUIT := (3)%Z (only parsing).
Notation SIGILL := (4)%Z (only parsing).
Notation SIGTRAP := (5)%Z (only parsing).
Notation SIGABRT := (6)%Z (only parsing).
Notation SIGBUS := (7)%Z (only parsing).
Notation SIGFPE := (8)%Z (only parsing).
Notation SIGKILL := (9)%Z (only parsing).
Notation SIGUSR1 := (10)%Z (only parsing).
Notation SIGSEGV := (11)%Z (only parsing).
Notation SIGUSR2 := (12)%Z (only parsing).
Notation SIGPIPE := (13)%Z (only parsing).
Notation SIGALRM := (14)%Z (only parsing).
Notation SIGTERM := (15)%Z (only parsing).
Notation SIGSTKFLT := (16)%Z (only parsing).
Notation SIGCHLD := (17)%Z (only parsing).
Notation SIGCONT := (18)%Z (only parsing).
Notation SIGSTOP := (19)%Z (only parsing).
Notation SIGTSTP := (20)%Z (only parsing).
Notation SIGTTIN := (21)%Z (only parsing).
Notation SIGTTOU := (22)%Z (only parsing).
Notation SIGURG := (23)%Z (only parsing).
Notation SIGXCPU := (24)%Z (only parsing).
Notation SIGXFSZ := (25)%Z (only parsing).
Notation SIGVTALRM := (26)%Z (only parsing).
Notation SIGPROF := (27)%Z (only parsing).
Notation SIGWINCH := (28)%Z (only parsing).
Notation SIGIO := (29)%Z (only parsing).
Notation SIGPWR := (30)%Z (only parsing).
Notation SIGSYS := (31)%Z (only parsing).
Notation ROBU_NSIG := (64)%Z (only parsing).
Notation ROBU_SIG_DFL := (0)%Z (only parsing).
Notation ROBU_SIG_IGN := (1)%Z (only parsing).
Notation SA_NOCLDSTOP := (1)%Z (only parsing).
Notation SA_NOCLDWAIT := (2)%Z (only parsing).
Notation SA_SIGINFO := (4)%Z (only parsing).
Notation SA_ONSTACK := (0x08000000)%Z (only parsing).
Notation SA_RESTART := (0x10000000)%Z (only parsing).
Notation SA_NODEFER := (0x40000000)%Z (only parsing).
Notation SA_RESETHAND := (0x80000000)%Z (only parsing).
Notation SIG_BLOCK := (0)%Z (only parsing).
Notation SIG_UNBLOCK := (1)%Z (only parsing).
Notation SIG_SETMASK := (2)%Z (only parsing).
Notation SYS_INFO_CAT_SIGACTION := (5)%Z (only parsing).
Notation SYS_INFO_CAT_KILL := (6)%Z (only parsing).
Notation SYS_INFO_CAT_SIGPROCMASK := (7)%Z (only parsing).
Notation SYS_INFO_CAT_SIGRETURN := (8)%Z (only parsing).
Notation SYS_INFO_CAT_SIGPENDING := (9)%Z (only parsing).

(** ** Signal trampoline ([src/include/robu/signal.h]) *)
Notation SIGTRAMPOLINE_VA := (0x0000000080001000)%Z (only parsing).

(** ** Process groups ([src/include/robu/tcb.h]) *)
Notation SYS_INFO_CAT_SETPGID := (11)%Z (only parsing).
Notation SYS_INFO_CAT_GETPGID := (12)%Z (only parsing).
Notation SYS_INFO_CAT_SETSID := (13)%Z (only parsing).
Notation SYS_INFO_CAT_TCGETPGRP := (14)%Z (only parsing).
Notation SYS_INFO_CAT_TCSETPGRP := (15)%Z (only parsing).

(** ** Console, shared memory and socket categories ([src/include/robu/kprintf.h]) *)
Notation SYS_INFO_CAT_CONSOLE_MODE := (10)%Z (only parsing).
Notation SYS_INFO_CAT_ACTIVE_VT := (16)%Z (only parsing).
Notation SYS_INFO_CAT_PORT_IO := (17)%Z (only parsing).
Notation SYS_INFO_CAT_CONSOLE_FEED := (18)%Z (only parsing).
Notation SYS_INFO_CAT_CONSOLE_SIGNAL_FG := (19)%Z (only parsing).
Notation SYS_INFO_CAT_SET_ACTIVE_VT := (20)%Z (only parsing).
Notation SYS_INFO_CAT_CONSOLE_SCROLL := (21)%Z (only parsing).
Notation SYS_INFO_CAT_MOUSE_FEED := (22)%Z (only parsing).
Notation SYS_INFO_CAT_MOUSE_READ := (23)%Z (only parsing).
Notation SYS_INFO_CAT_FB_MAP := (24)%Z (only parsing).
Notation SYS_INFO_CAT_SHM_GET := (25)%Z (only parsing).
Notation SYS_INFO_CAT_SHM_AT := (26)%Z (only parsing).
Notation SYS_INFO_CAT_SHM_DT := (27)%Z (only parsing).
Notation SYS_INFO_CAT_SHM_CTL := (28)%Z (only parsing).
Notation SYS_INFO_CAT_SOCK_CREATE := (29)%Z (only parsing).
Notation SYS_INFO_CAT_SOCK_BIND := (30)%Z (only parsing).
Notation SYS_INFO_CAT_SOCK_LISTEN := (31)%Z (only parsing).
Notation SYS_INFO_CAT_SOCK_CONNECT := (32)%Z (only parsing).
Notation SYS_INFO_CAT_SOCK_ACCEPT := (33)%Z (only parsing).
Notation SYS_INFO_CAT_SOCK_READ := (34)%Z (only parsing).
Notation SYS_INFO_CAT_SOCK_WRITE := (35)%Z (only parsing).
Notation SYS_INFO_CAT_SOCK_CLOSE := (36)%Z (only parsing).

(** ** Hardware drivers ([src/include/robu/hwdrv.h]) *)
Notation SYS_INFO_CAT_PCI_CFG := (37)%Z (only parsing).
Notation SYS_INFO_CAT_HW_PORT_IO := (38)%Z (only parsing).
Notation SYS_INFO_CAT_DMA_ALLOC := (39)%Z (only parsing).
Notation SYS_INFO_CAT_HW_PORT_IO_BULK_READ := (40)%Z (only parsing).
Notation SYS_INFO_CAT_HW_PORT_IO_BULK_WRITE := (41)%Z (only parsing).
Notation SYS_INFO_CAT_HW_MMIO_MAP := (43)%Z (only parsing).
Notation HW_PORT_IO_BULK_READ_MAX := (40)%Z (only parsing).
Notation HW_PORT_IO_BULK_WRITE_MAX := (24)%Z (only parsing).
Notation DMA_USER_VA_BASE := (0x0000000180000000)%Z (only parsing).
Notation HW_MMIO_USER_VA_BASE := (0x00000001A0000000)%Z (only parsing).
Notation HW_MMIO_MAP_MAX := (16 * 1024 * 1024)%Z (only parsing).

(** ** Program loading requests ([src/include/robu/execreq.h]) *)
Notation EXECREQ_MAX_SLOTS := (8)%Z (only parsing).
Notation EXECREQ_NAME_MAX := (64)%Z (only parsing).
Notation SYS_INFO_CAT_EXECREQ_REPLY := (42)%Z (only parsing).

(** ** Virtual memory ([src/include/robu/vm.h]) *)
Notation VM_PROT_READ := (Z.shiftl 1 0)%Z (only parsing).
Notation VM_PROT_WRITE := (Z.shiftl 1 1)%Z (only parsing).
Notation VM_PROT_EXEC := (Z.shiftl 1 2)%Z (only parsing).
Notation VM_PROT_USER := (Z.shiftl 1 3)%Z (only parsing).
Definition PAGE_SIZE_4K : Z := 0x1000.
Definition PAGE_SIZE_2M : Z := 0x200000.
Notation VM_MAP_LARGE := (Z.shiftl 1 4)%Z (only parsing).
Notation FAULT_QUEUE_SIZE := (16)%Z (only parsing).
Notation VM_BATCH_MAX := (32)%Z (only parsing).
Notation CAP_PERM_MAP := (Z.shiftl 1 0)%Z (only parsing).
Notation CAP_PERM_GRANT := (Z.shiftl 1 1)%Z (only parsing).
Notation CAP_PERM_REVOKE := (Z.shiftl 1 2)%Z (only parsing).
Notation MAX_FRAME_CAPS := (64)%Z (only parsing).

(** ** Physical memory ([src/include/robu/pmm.h]) *)
Notation PMM_NUM_COLORS := (8)%Z (only parsing).
Notation PMM_COLOR_ANY := ((-1))%Z (only parsing).
Notation ROBU_IDENTITY_MAP_LIMIT := (0x40000000)%Z (only parsing).
Notation PMM_MAX_RESERVED_REGIONS := (16)%Z (only parsing).

(** ** Scheduler ([src/include/robu/sched.h]) *)
Notation SCHED_HZ := (100)%Z (only parsing).
Definition SCHED_PRIO_LEVELS : Z := 32.
Notation SCHED_TIMESLICE_TICKS := (5)%Z (only parsing).
Definition SCHED_MAX_THREADS : Z := 64.
Notation STACK_SIZE := (8192)%Z (only parsing).

(** ** Shared memory ([src/include/robu/shm.h]) *)
Notation SHM_IPC_CREAT := (512)%Z (only parsing).
Notation SHM_IPC_EXCL := (1024)%Z (only parsing).
Definition SHM_IPC_RMID : Z := 0.
Notation SHM_IPC_STAT := (2)%Z (only parsing).
Notation SHM_FLAG_RDONLY := (4096 (* 010000 in octal *))%Z (only parsing).
Notation SHM_USER_VA_BASE := (0x0000000140000000)%Z (only parsing).

(** ** Pipes ([src/include/robu/pipe.h]) *)
Notation PIPE_POOL_SIZE := (16)%Z (only parsing).
Notation PIPE_RING_SIZE := (1024)%Z (only parsing).
Definition PIPE_CHUNK_MAX : Z := 32.

(** ** Sockets ([src/include/robu/socket.h]) *)
Notation SOCK_PATH_MAX := (32)%Z (only parsing).

(** ** Program requests ([src/include/robu/spawn.h]) *)
Notation SPAWN_REQ_MAGIC := (0x314e5053)%Z (only parsing).
Notation SPAWN_MAX_ARGS := (64)%Z (only parsing).
Notation SPAWN_REQ_MAX_LEN := (4096)%Z (only parsing).
Notation SPAWN_FD_KIND_PIPE_READ := (100)%Z (only parsing).
Notation SPAWN_FD_KIND_PIPE_WRITE := (101)%Z (only parsing).
Notation SPAWN_FD_INFO_MAX := (3)%Z (only parsing).
Notation SPAWN_INFO_MAGIC := (0x314e4953)%Z (only parsing).

(** ** Kernel information page ([src/include/robu/kinfo.h]) *)
Notation KINFO_VA := (0x0000000080000000)%Z (only parsing).
Notation ROBU_ABI_VERSION_MAJOR := (1)%Z (only parsing).
Notation ROBU_ABI_VERSION_MINOR := (2)%Z (only parsing).
Notation KINFO_FEATURE_SMP := (Z.shiftl 1 0)%Z (only parsing).
Notation KINFO_FEATURE_ELF_LOADER := (Z.shiftl 1 1)%Z (only parsing).
Notation KINFO_FEATURE_RANDOM := (Z.shiftl 1 2)%Z (only parsing).
Notation KINFO_FEATURE_ROBU_VFS := (Z.shiftl 1 3)%Z (only parsing).
Notation KINFO_FEATURE_LINUX_VFS := (Z.shiftl 1 4)%Z (only parsing).
Notation MOUNT_PREFIX_MAX := (24)%Z (only parsing).
Notation MOUNT_TABLE_MAX := (16)%Z (only parsing).

(** ** Block devices ([src/include/robu/blockinfo.h]) *)
Notation BLOCK_INFO_OP_PUBLISH := (1)%Z (only parsing).
Notation BLOCK_INFO_OP_QUERY := (2)%Z (only parsing).
Notation BLOCK_DEVICE_ROOT := (1)%Z (only parsing).
Notation BLOCK_DEVICE_DATA := (2)%Z (only parsing).
Notation BLOCK_DEVICE_MAX := (2)%Z (only parsing).
Notation BLOCK_TRANSPORT_NONE := (0)%Z (only parsing).
Notation BLOCK_TRANSPORT_IDE := (1)%Z (only parsing).
Notation BLOCK_TRANSPORT_VIRTIO := (2)%Z (only parsing).
Notation BLOCK_TRANSPORT_XHCI := (3)%Z (only parsing).
Notation BLOCK_FS_NONE := (0)%Z (only parsing).
Notation BLOCK_FS_EXT2 := (1)%Z (only parsing).
Notation BLOCK_FS_FAT16 := (2)%Z (only parsing).
Notation BLOCK_FS_FAT32 := (3)%Z (only parsing).
Notation BLOCK_FS_DISKFS := (4)%Z (only parsing).

(** ** ELF images ([src/include/robu/elf.h]) *)
Notation ELF_MAGIC0 := (0x7F)%Z (only parsing).
Notation ELF_MAGIC1 := (69)%Z (only parsing).
Notation ELF_MAGIC2 := (76)%Z (only parsing).
Notation ELF_MAGIC3 := (70)%Z (only parsing).
Notation ELFCLASS64 := (2)%Z (only parsing).
Notation ELFDATA2LSB := (1)%Z (only parsing).
Notation EV_CURRENT := (1)%Z (only parsing).
Notation EM_X86_64 := (62)%Z (only parsing).
Notation ET_EXEC := (2)%Z (only parsing).
Notation ET_DYN := (3)%Z (only parsing).
Notation PT_LOAD := (1)%Z (only parsing).
Notation PF_X := (Z.shiftl 1 0)%Z (only parsing).
Notation PF_W := (Z.shiftl 1 1)%Z (only parsing).
Notation PF_R := (Z.shiftl 1 2)%Z (only parsing).
Notation ELF_MAX_LOAD_SEGMENTS := (4)%Z (only parsing).

(** ** Random bytes ([src/include/robu/random.h]) *)
Notation ROBU_RANDOM_MAX_REQUEST := (256)%Z (only parsing).

(** ** Framebuffer ([src/include/robu/framebuffer.h]) *)
Notation FRAMEBUFFER_VA := (0x0000000088000000)%Z (only parsing).
Notation FRAMEBUFFER_USER_VA := (0x0000000100000000)%Z (only parsing).
