(* ===== verification/Ring.v ===== *)
(** * Circular buffers

    The kernel uses the same idiom in [src/src/core/pipe.c], [socket.c],
    [vm.c] and [arch/x86_64/src/console.c]: an array indexed modulo its size.
    This file gives the sequence a circular buffer holds and the effect of the
    code's copy loops on it; the components instantiate it. *)
From Stdlib Require Import ZArith Lia.
From stdpp Require Import base numbers list list_numbers functions.
From S2P Require Import Prelude.

Section ring.
Context {A : Type} (N : Z).
Implicit Types (r : Z -> A) (h c n : Z).

(** The [c] cells that start at index [h], in order. *)
Definition ring_seq r h c : list A := (fun i => r ((h + i) mod N)) <$> seqZ 0 c.

(** [for (i = 0; i < n; i++) ring[(tail + i) % N] = in[i];] *)
Definition ring_fill r (tail n : Z) (src : Z -> A) : Z -> A :=
  for_range n (fun i r => <[(tail + i) mod N := src i]> r) r.

Hypothesis N_pos : 0 < N.

Lemma ring_seq_length r h c : length (ring_seq r h c) = Z.to_nat c.
Proof. unfold ring_seq. by rewrite length_fmap, length_seqZ. Qed.

Lemma ring_seq_nil r h : ring_seq r h 0 = [].
Proof. done. Qed.

Lemma ring_seq_app r h a b :
  0 <= a -> 0 <= b ->
  ring_seq r h (a + b) = ring_seq r h a ++ ring_seq r (h + a) b.
Proof.
  intros. unfold ring_seq. rewrite seqZ_app, fmap_app by lia. f_equal.
  rewrite Z.add_0_l. rewrite <- (Z.add_0_r a) at 1. rewrite <- fmap_add_seqZ.
  rewrite <- list_fmap_compose. apply list_fmap_ext. intros i x _. simpl.
  by rewrite Z.add_assoc.
Qed.

Lemma ring_seq_mod r h c : ring_seq r (h mod N) c = ring_seq r h c.
Proof.
  unfold ring_seq. apply list_fmap_ext. intros i x _. by rewrite Zplus_mod_idemp_l.
Qed.

(** Reading [n] cells from the head and advancing it leaves the rest. *)
Lemma ring_seq_split r h c n :
  0 <= n <= c ->
  ring_seq r h c = ring_seq r h n ++ ring_seq r ((h + n) mod N) (c - n).
Proof.
  intros. rewrite ring_seq_mod. rewrite <- ring_seq_app by lia. f_equal. lia.
Qed.

Lemma ring_fill_lookup r tail n src j :
  0 <= n <= N -> 0 <= j < n -> ring_fill r tail n src ((tail + j) mod N) = src j.
Proof.
  intros Hn Hj. unfold ring_fill.
  cut (forall k, 0 <= k -> k <= n -> j < k ->
    for_range k (fun i r => <[(tail + i) mod N := src i]> r) r ((tail + j) mod N) = src j).
  { intros H. apply H; lia. }
  apply (natlike_ind (fun k => k <= n -> j < k -> _)); [lia|].
  intros k Hk IH Hle Hlt. unfold Z.succ in *. rewrite for_range_S by lia.
  destruct (decide (j = k)) as [->|Hne]; [by rewrite fn_lookup_insert|].
  rewrite fn_lookup_insert_ne; [apply IH; lia|].
  intros E.
  assert ((k - j) mod N = 0).
  { replace (k - j) with ((tail + k) - (tail + j)) by lia.
    rewrite Zminus_mod, E, Z.sub_diag. by apply Z.mod_0_l; lia. }
  rewrite Z.mod_small in H; lia.
Qed.

Lemma ring_fill_other r tail n src x :
  (forall j, 0 <= j < n -> x <> (tail + j) mod N) -> ring_fill r tail n src x = r x.
Proof.
  intros Hx. destruct (decide (0 <= n)) as [Hn|]; [|unfold ring_fill; by rewrite for_range_0 by lia].
  unfold ring_fill.
  cut (forall k, 0 <= k -> k <= n ->
    for_range k (fun i r => <[(tail + i) mod N := src i]> r) r x = r x).
  { intros H. apply H; lia. }
  apply (natlike_ind (fun k => k <= n -> _)); [intros; by rewrite for_range_0 by lia|].
  intros k Hk IH Hle. unfold Z.succ in *. rewrite for_range_S by lia.
  rewrite fn_lookup_insert_ne; [apply IH; lia|]. intros E. apply (Hx k); [lia|done].
Qed.

(** Filling behind the last element appends, as long as it fits. *)
Lemma ring_fill_app r h c n src :
  0 <= c -> 0 <= n -> c + n <= N ->
  ring_seq (ring_fill r (h + c) n src) h (c + n) =
  ring_seq r h c ++ (src <$> seqZ 0 n).
Proof.
  intros Hc Hn Hfit. rewrite ring_seq_app by lia. f_equal.
  - apply list_fmap_ext. intros i x Hi. apply lookup_seqZ in Hi as [-> Hi].
    apply ring_fill_other. intros j Hj E.
    assert ((c + j - (0 + Z.of_nat i)) mod N = 0) as H0.
    { replace (c + j - (0 + Z.of_nat i)) with ((h + c + j) - (h + (0 + Z.of_nat i))) by lia.
      rewrite Zminus_mod, <- E, Z.sub_diag. apply Z.mod_0_l. lia. }
    rewrite Z.mod_small in H0; lia.
  - apply list_fmap_ext. intros i x Hi. apply lookup_seqZ in Hi as [-> Hi].
    apply ring_fill_lookup; lia.
Qed.

Lemma ring_fill_mod r tail n src x :
  ring_fill r (tail mod N) n src x = ring_fill r tail n src x.
Proof.
  unfold ring_fill, for_range. generalize (seqZ 0 n) as l. intros l. revert r.
  induction l as [|i l IH]; intros r; simpl; [done|].
  rewrite Zplus_mod_idemp_l. apply IH.
Qed.

Lemma ring_seq_ext_in r1 r2 h c :
  (forall i, 0 <= i < c -> r1 ((h + i) mod N) = r2 ((h + i) mod N)) ->
  ring_seq r1 h c = ring_seq r2 h c.
Proof.
  intros E. apply list_fmap_ext. intros k i Hi. apply lookup_seqZ in Hi as [-> Hk]. apply E. lia.
Qed.

Lemma ring_seq_ext r1 r2 h c :
  (forall x, r1 x = r2 x) -> ring_seq r1 h c = ring_seq r2 h c.
Proof. intros E. apply ring_seq_ext_in. auto. Qed.
End ring.

(** A C array of bytes read off a list ([buf[i]], zero past its end). *)
Definition buf_at (l : list Z) (i : Z) : Z := nth (Z.to_nat i) l 0.

Lemma buf_at_seqZ (l : list Z) n :
  0 <= n <= Z.of_nat (length l) -> buf_at l <$> seqZ 0 n = take (Z.to_nat n) l.
Proof.
  intros Hn. apply list_eq. intros i. rewrite list_lookup_fmap.
  destruct (decide (Z.of_nat i < n)).
  - rewrite lookup_seqZ_lt by lia. rewrite lookup_take_lt by lia. simpl.
    unfold buf_at. replace (Z.to_nat (0 + Z.of_nat i)) with i by lia.
    destruct (lookup_lt_is_Some_2 l i) as [x Hx]; [lia|]. rewrite Hx.
    by rewrite (nth_lookup_Some _ _ _ _ Hx).
  - rewrite lookup_seqZ_ge by lia. rewrite lookup_take_ge by lia. done.
Qed.
