(* ===== verification/Memory.v ===== *)
(** * Physical memory and the C string routines ([src/src/lib/klib.c])

    The kernel runs identity-mapped, so a pointer it dereferences is a
    physical address.  Memory is a total map from addresses to bytes; words
    are stored little-endian.  The file models [memset], [memcpy], [memmove],
    [memcmp], [strlen] and [strncmp] byte by byte, as the source writes them,
    and gives each its extensional description. *)
From Stdlib Require Import ZArith Lia.
From stdpp Require Import base numbers list list_numbers functions.
From S2P Require Import Prelude.

Abbreviation mem := (Z -> Z).

(** ** Little-endian words *)
Fixpoint ldn (n : nat) (m : mem) (a : Z) : Z :=
  match n with
  | O => 0
  | S n => m a + 256 * ldn n m (a + 1)
  end.
Fixpoint stn (n : nat) (m : mem) (a v : Z) : mem :=
  match n with
  | O => m
  | S n => <[a := v mod 256]> (stn n m (a + 1) (v / 256))
  end.
Definition ld64 (m : mem) (a : Z) : Z := ldn 8 m a.
Definition ld32 (m : mem) (a : Z) : Z := ldn 4 m a.
Definition ld16 (m : mem) (a : Z) : Z := ldn 2 m a.
Definition st64 (m : mem) (a v : Z) : mem := stn 8 m a v.
Definition st32 (m : mem) (a v : Z) : mem := stn 4 m a v.

(** [table[i]] for a table of 64-bit words. *)
Definition ldw (m : mem) (base i : Z) : Z := ld64 m (base + 8 * i).
Definition stw (m : mem) (base i v : Z) : mem := st64 m (base + 8 * i) v.

(** Every cell is a byte. *)
Definition mem_wf (m : mem) : Prop := forall a, 0 <= m a < 256.

(** ** klib.c *)
Definition memset (m : mem) (s c n : Z) : mem :=
  for_range n (fun i m => <[s + i := u8 c]> m) m.

Definition memcpy (m : mem) (dest src n : Z) : mem :=
  for_range n (fun i m => <[dest + i := m (src + i)]> m) m.

Definition memmove (m : mem) (dest src n : Z) : mem :=
  if dest <? src then
    for_range n (fun i m => <[dest + i := m (src + i)]> m) m
  else if dest >? src then
    for_range n (fun i m => <[dest + n - 1 - i := m (src + n - 1 - i)]> m) m
  else m.

(** [None]: no terminator within [fuel] bytes. *)
Fixpoint strlen (fuel : nat) (m : mem) (p : Z) : option Z :=
  match fuel with
  | O => None
  | S fuel => if m p =? 0 then Some 0 else Z.succ <$> strlen fuel m (p + 1)
  end.

Fixpoint strncmp (m : mem) (a b : Z) (n : nat) : Z :=
  match n with
  | O => 0
  | S n =>
      let ca := m a in
      let cb := m b in
      if negb (ca =? cb) then ca - cb
      else if ca =? 0 then 0
      else strncmp m (a + 1) (b + 1) n
  end.

Fixpoint memcmp (m : mem) (pa pb : Z) (n : nat) : Z :=
  match n with
  | O => 0
  | S n => if negb (m pa =? m pb) then m pa - m pb else memcmp m (pa + 1) (pb + 1) n
  end.

(** The [n] bytes at [a]. *)
Definition bytes_at (m : mem) (a n : Z) : list Z := (fun i => m (a + i)) <$> seqZ 0 n.

(** [n] bytes of a list written from [a] on. *)
Definition put_bytes (m : mem) (a : Z) (l : list Z) : mem :=
  fun x => if (a <=? x) && (x <? a + Z.of_nat (length l))
           then nth (Z.to_nat (x - a)) l 0 else m x.

(** ** Words *)
Lemma ldn_range n m a : mem_wf m -> 0 <= ldn n m a < 256 ^ Z.of_nat n.
Proof.
  intros Hm. revert a. induction n as [|n IH]; intros a; [simpl; lia|].
  rewrite Nat2Z.inj_succ, Z.pow_succ_r by lia. simpl. specialize (IH (a + 1)).
  pose proof (Hm a). nia.
Qed.

Lemma ld64_range m a : mem_wf m -> 0 <= ld64 m a < 2 ^ 64.
Proof. intros Hm. apply (ldn_range 8 m a Hm). Qed.
Lemma ld32_range m a : mem_wf m -> 0 <= ld32 m a < 2 ^ 32.
Proof. intros Hm. apply (ldn_range 4 m a Hm). Qed.
Lemma ld16_range m a : mem_wf m -> 0 <= ld16 m a < 2 ^ 16.
Proof. intros Hm. apply (ldn_range 2 m a Hm). Qed.

(** A word depends only on the bytes it covers. *)
Lemma ldn_ext n m1 m2 a :
  (forall i, 0 <= i < Z.of_nat n -> m1 (a + i) = m2 (a + i)) -> ldn n m1 a = ldn n m2 a.
Proof.
  revert a. induction n as [|n IH]; intros a H; [done|]. simpl. f_equal.
  - specialize (H 0). rewrite Z.add_0_r in H. apply H. lia.
  - f_equal. apply IH. intros i Hi. specialize (H (1 + i)).
    rewrite Z.add_assoc in H. apply H. lia.
Qed.

Lemma stn_out n m a v x : x < a \/ a + Z.of_nat n <= x -> stn n m a v x = m x.
Proof.
  revert m a v. induction n as [|n IH]; intros m a v H; [done|]. simpl.
  rewrite fn_lookup_insert_ne by lia. apply IH. lia.
Qed.

Lemma ldn_stn n m a v : 0 <= v < 256 ^ Z.of_nat n -> ldn n (stn n m a v) a = v.
Proof.
  revert m a v. induction n as [|n IH]; intros m a v Hv; [simpl in *; lia|].
  rewrite Nat2Z.inj_succ, Z.pow_succ_r in Hv by lia. simpl.
  rewrite fn_lookup_insert.
  rewrite (ldn_ext n _ (stn n m (a + 1) (v / 256))).
  - rewrite IH by (split; [apply Z.div_pos; lia|apply Z.div_lt_upper_bound; lia]).
    pose proof (Z.div_mod v 256). lia.
  - intros i Hi. by rewrite fn_lookup_insert_ne by lia.
Qed.

Lemma stn_wf n m a v : mem_wf m -> mem_wf (stn n m a v).
Proof.
  revert a v. induction n as [|n IH]; intros a v Hm; [done|]. simpl. intros x.
  destruct (decide (x = a)) as [->|Hx].
  - rewrite fn_lookup_insert. apply Z.mod_pos_bound. lia.
  - rewrite fn_lookup_insert_ne by done. by apply IH.
Qed.

Lemma ld64_st64 m a v : 0 <= v < 2 ^ 64 -> ld64 (st64 m a v) a = v.
Proof. intros. by apply (ldn_stn 8). Qed.

Lemma ld64_st64_ne m a b v : b + 8 <= a \/ a + 8 <= b -> ld64 (st64 m a v) b = ld64 m b.
Proof. intros H. apply ldn_ext. intros i Hi. apply stn_out. lia. Qed.

Lemma st64_out m a v x : x < a \/ a + 8 <= x -> st64 m a v x = m x.
Proof. intros. apply stn_out. lia. Qed.

Lemma st64_wf m a v : mem_wf m -> mem_wf (st64 m a v).
Proof. apply stn_wf. Qed.

Lemma st32_wf m a v : mem_wf m -> mem_wf (st32 m a v).
Proof. apply stn_wf. Qed.

Lemma put_bytes_wf m a l : mem_wf m -> Forall (fun v => 0 <= v < 256) l -> mem_wf (put_bytes m a l).
Proof.
  intros Hm Hl x. unfold put_bytes. break_if; [|apply Hm].
  rewrite List.Forall_forall in Hl. apply Hl, nth_In. lia.
Qed.

Lemma ld64_ext m1 m2 a :
  (forall x, a <= x < a + 8 -> m1 x = m2 x) -> ld64 m1 a = ld64 m2 a.
Proof. intros H. apply ldn_ext. intros i Hi. apply H. lia. Qed.

Lemma ldw_stw m b i v : 0 <= v < 2 ^ 64 -> ldw (stw m b i v) b i = v.
Proof. apply ld64_st64. Qed.

Lemma ldw_stw_ne m b i c j v :
  c + 8 * j + 8 <= b + 8 * i \/ b + 8 * i + 8 <= c + 8 * j ->
  ldw (stw m b i v) c j = ldw m c j.
Proof. intros. apply ld64_st64_ne. lia. Qed.

(** ** Blocks *)
Lemma memset_spec m s c n a :
  0 <= n -> memset m s c n a = if (s <=? a) && (a <? s + n) then u8 c else m a.
Proof.
  intros Hn. unfold memset.
  apply (for_range_ind (fun k m' => m' a = if (s <=? a) && (a <? s + k) then u8 c else m a));
    [done| |].
  - replace ((s <=? a) && (a <? s + 0)) with false by lia. done.
  - intros i m' Hi IH. destruct (decide (a = s + i)) as [->|Hne].
    + rewrite fn_lookup_insert. by replace ((s <=? s + i) && (s + i <? s + (i + 1))) with true by lia.
    + rewrite fn_lookup_insert_ne, IH by done.
      by replace (a <? s + (i + 1)) with (a <? s + i) by lia.
Qed.

Lemma memset_out m s c n a : a < s \/ s + n <= a -> memset m s c n a = m a.
Proof.
  intros. destruct (decide (0 <= n)).
  - rewrite memset_spec by done. by replace ((s <=? a) && (a <? s + n)) with false by lia.
  - unfold memset. by rewrite for_range_0 by lia.
Qed.

Lemma memset_wf m s c n : mem_wf m -> mem_wf (memset m s c n).
Proof.
  intros Hm a. destruct (decide (0 <= n)) as [Hn|].
  - rewrite memset_spec by done. break_if; [apply u8_range|apply Hm].
  - unfold memset. rewrite for_range_0 by lia. apply Hm.
Qed.

Lemma ld64_zero m a : (forall x, a <= x < a + 8 -> m x = 0) -> ld64 m a = 0.
Proof. intros H. rewrite (ld64_ext m (fun _ => 0)); [done|]. intros. by apply H. Qed.

Lemma ld64_memset0 m s n a : s <= a -> a + 8 <= s + n -> ld64 (memset m s 0 n) a = 0.
Proof.
  intros. apply ld64_zero. intros x Hx. rewrite memset_spec by lia.
  by replace ((s <=? x) && (x <? s + n)) with true by lia.
Qed.

(** A forward copy moves the old source bytes when the destination does not
    start inside the source range. *)
Lemma memcpy_spec m d s n a :
  0 <= n -> d <= s \/ s + n <= d ->
  memcpy m d s n a = if (d <=? a) && (a <? d + n) then m (a - d + s) else m a.
Proof.
  intros Hn Hds. unfold memcpy.
  cut (forall a, for_range n (fun i m => <[d + i := m (s + i)]> m) m a =
         if (d <=? a) && (a <? d + n) then m (a - d + s) else m a); [done|]. clear a.
  apply (for_range_ind (fun k m' => forall a,
    m' a = if (d <=? a) && (a <? d + k) then m (a - d + s) else m a)); [done| |].
  - intros a. by replace ((d <=? a) && (a <? d + 0)) with false by lia.
  - intros i m' Hi IH a. destruct (decide (a = d + i)) as [->|Hne].
    + rewrite fn_lookup_insert, IH.
      replace ((d <=? d + i) && (d + i <? d + (i + 1))) with true by lia.
      replace ((d <=? s + i) && (s + i <? d + i)) with false by lia. f_equal. lia.
    + rewrite fn_lookup_insert_ne, IH by done.
      by replace (a <? d + (i + 1)) with (a <? d + i) by lia.
Qed.

Lemma memcpy_wf m d s n : mem_wf m -> mem_wf (memcpy m d s n).
Proof.
  intros Hm. destruct (decide (0 <= n)) as [Hn|].
  - unfold memcpy. apply (for_range_ind (fun _ m' => mem_wf m')); [done|done|].
    intros i m' _ Hm' a. destruct (decide (a = d + i)) as [->|].
    + rewrite fn_lookup_insert. apply Hm'.
    + rewrite fn_lookup_insert_ne by done. apply Hm'.
  - unfold memcpy. by rewrite for_range_0 by lia.
Qed.

(** C32: [memmove] copies correctly for every overlap of the two ranges: the
    destination receives the source's old bytes and no other byte changes. *)
Theorem memmove_spec m d s n a :
  0 <= n ->
  memmove m d s n a = if (d <=? a) && (a <? d + n) then m (a - d + s) else m a.
Proof.
  intros Hn. unfold memmove. break_if; bools; [apply memcpy_spec; lia|].
  break_if; bools.
  - cut (forall a, for_range n (fun i m => <[d + n - 1 - i := m (s + n - 1 - i)]> m) m a =
         if (d + n - n <=? a) && (a <? d + n) then m (a - d + s) else m a).
    { intros H. rewrite H. by replace (d + n - n) with d by lia. }
    clear a. apply (for_range_ind (fun k m' => forall a,
      m' a = if (d + n - k <=? a) && (a <? d + n) then m (a - d + s) else m a)); [done| |].
    + intros a. by replace ((d + n - 0 <=? a) && (a <? d + n)) with false by lia.
    + intros i m' Hi IH a. destruct (decide (a = d + n - 1 - i)) as [->|Hne].
      * rewrite fn_lookup_insert, IH.
        replace ((d + n - (i + 1) <=? d + n - 1 - i) && (d + n - 1 - i <? d + n)) with true by lia.
        replace ((d + n - i <=? s + n - 1 - i) && (s + n - 1 - i <? d + n)) with false by lia.
        f_equal. lia.
      * rewrite fn_lookup_insert_ne, IH by done.
        by replace (d + n - (i + 1) <=? a) with (d + n - i <=? a) by lia.
  - assert (d = s) as -> by lia. break_if; [|done]. f_equal. lia.
Qed.

Lemma memmove_spec_witness :
  memmove (fun x => x) 12 10 5 14 = 12 /\ 0 <= 5.
Proof. split; [apply (memmove_spec (fun x => x) 12 10 5 14); lia|lia]. Defined.

(** ** Comparisons *)
Lemma memcmp_zero m a b n :
  memcmp m a b n = 0 <-> forall i, 0 <= i < Z.of_nat n -> m (a + i) = m (b + i).
Proof.
  revert a b. induction n as [|n IH]; intros a b; simpl; [split; [lia|done]|].
  destruct (Z.eqb_spec (m a) (m b)) as [E|E]; simpl.
  - rewrite IH. split; intros H i Hi.
    + destruct (decide (i = 0)) as [->|]; [by rewrite !Z.add_0_r|].
      specialize (H (i - 1)). replace (a + 1 + (i - 1)) with (a + i) in H by lia.
      replace (b + 1 + (i - 1)) with (b + i) in H by lia. apply H. lia.
    + specialize (H (i + 1)). replace (a + 1 + i) with (a + (i + 1)) by lia.
      replace (b + 1 + i) with (b + (i + 1)) by lia. apply H. lia.
  - split; [lia|]. intros H. specialize (H 0). rewrite !Z.add_0_r in H. lia.
Qed.

(** [strlen] finds the first terminator, given enough fuel to reach it. *)
Lemma strlen_spec fuel m p n :
  0 <= n < Z.of_nat fuel -> m (p + n) = 0 ->
  (forall i, 0 <= i < n -> m (p + i) <> 0) -> strlen fuel m p = Some n.
Proof.
  revert p n. induction fuel as [|fuel IH]; intros p n Hn Hz Hnz; [lia|]. simpl.
  destruct (decide (n = 0)) as [->|Hn0].
  - rewrite Z.add_0_r in Hz. by rewrite Hz.
  - specialize (Hnz 0 ltac:(lia)) as H0. rewrite Z.add_0_r in H0.
    destruct (Z.eqb_spec (m p) 0); [lia|].
    rewrite (IH (p + 1) (n - 1)); [simpl; f_equal; lia|lia| |].
    + replace (p + 1 + (n - 1)) with (p + n) by lia. done.
    + intros i Hi. replace (p + 1 + i) with (p + (i + 1)) by lia. apply Hnz. lia.
Qed.

Lemma bytes_at_length m a n : length (bytes_at m a n) = Z.to_nat n.
Proof. unfold bytes_at. by rewrite length_fmap, length_seqZ. Qed.

Lemma bytes_at_ext m1 m2 a n :
  (forall x, a <= x < a + n -> m1 x = m2 x) -> bytes_at m1 a n = bytes_at m2 a n.
Proof.
  intros H. apply list_fmap_ext. intros i x Hx. apply lookup_seqZ in Hx as [-> Hi].
  apply H. lia.
Qed.

Lemma bytes_at_app m a n k :
  0 <= n -> 0 <= k -> bytes_at m a (n + k) = bytes_at m a n ++ bytes_at m (a + n) k.
Proof.
  intros. unfold bytes_at. rewrite seqZ_app, fmap_app by lia. f_equal.
  rewrite Z.add_0_l. rewrite <- (Z.add_0_r n) at 1. rewrite <- fmap_add_seqZ.
  rewrite <- list_fmap_compose. apply list_fmap_ext. intros i x _. simpl. f_equal. lia.
Qed.

Lemma put_bytes_out m a l x :
  x < a \/ a + Z.of_nat (length l) <= x -> put_bytes m a l x = m x.
Proof.
  intros. unfold put_bytes.
  by replace ((a <=? x) && (x <? a + Z.of_nat (length l))) with false by lia.
Qed.

(** What was written is read back. *)
Lemma bytes_at_put m a l : bytes_at (put_bytes m a l) a (Z.of_nat (length l)) = l.
Proof.
  apply (list_eq_same_length _ _ (length l)); [done|by rewrite bytes_at_length, Nat2Z.id|].
  intros i x y Hi Hx Hy. unfold bytes_at in Hx.
  rewrite list_lookup_fmap in Hx.
  rewrite (lookup_seqZ_lt 0 (Z.of_nat (length l)) i) in Hx by lia. simplify_eq/=.
  unfold put_bytes.
  replace ((a <=? a + (0 + Z.of_nat i)) && (a + (0 + Z.of_nat i) <? a + Z.of_nat (length l)))
    with true by lia.
  replace (Z.to_nat (a + (0 + Z.of_nat i) - a)) with i by lia.
  apply (nth_lookup_Some l i 0) in Hy. done.
Qed.

#[export] Hint Resolve ld64_range ld32_range ld16_range st64_wf memset_wf memcpy_wf : robu.
