(* ===== verification/Pmm.v ===== *)
(** * Physical frame allocator ([src/src/core/pmm.c])

    Free frames are kept on one list per cache colour; the links live in the
    first word of the free frames themselves.  [pmm_rep] relates the heads and
    that memory to the lists they stand for.  The theorems show that set-up
    frees exactly the usable frames, that an allocation takes the head of a
    list and zeroes it, and that whatever the owners of frames write, no frame
    is ever handed out twice and none is lost. *)
From Stdlib Require Import ZArith Lia.
From stdpp Require Import base numbers sets list list_numbers functions relations.
From S2P Require Import Prelude Abi Memory.

Record pmm_stats_t := mk_pmm_stats {
  total_frames : Z;
  free_frames : Z;
  free_by_color : Z -> Z;
  alloc_calls : Z;
  free_calls : Z
}.
#[export] Instance eta_pmm_stats : Eta pmm_stats_t := fun s =>
  mk_pmm_stats (total_frames s) (free_frames s) (free_by_color s) (alloc_calls s) (free_calls s).

(** The file's static variables. *)
Record pmm := mk_pmm {
  free_head : Z -> Z;
  next_color : Z;
  pmm_stats : pmm_stats_t
}.
#[export] Instance eta_pmm : Eta pmm := fun p =>
  mk_pmm (free_head p) (next_color p) (pmm_stats p).

Definition pmm_stats_zero : pmm_stats_t := mk_pmm_stats 0 0 (fun _ => 0) 0 0.
(** The zero-initialised statics. *)
Definition pmm_zero : pmm := mk_pmm (fun _ => 0) 0 pmm_stats_zero.

Definition color_of (frame : Z) : Z :=
  Z.land (Z.shiftr frame 12) (PMM_NUM_COLORS - 1).

Definition pmm_free (frame : Z) (p : pmm) (m : mem) : pmm * mem :=
  let c := color_of frame in
  let m := st64 m frame (free_head p c) in
  let p := p <| free_head := <[c := frame]> (free_head p) |> in
  let s := pmm_stats p in
  let s := s <| free_frames := u64 (free_frames s + 1) |> in
  let s := s <| free_by_color := <[c := u64 (free_by_color s c + 1)]> (free_by_color s) |> in
  let s := s <| free_calls := u64 (free_calls s + 1) |> in
  (p <| pmm_stats := s |>, m).

(** The round-robin search for a colour with a free frame: the colour chosen
    ([PMM_COLOR_ANY] when none was) and the advanced [next_color]. *)
Fixpoint pmm_scan (n : nat) (p : pmm) : Z * pmm :=
  match n with
  | O => (PMM_COLOR_ANY, p)
  | S n =>
      let c := next_color p in
      let p := p <| next_color := Z.land (next_color p + 1) (PMM_NUM_COLORS - 1) |> in
      if tru (free_head p c) then (c, p) else pmm_scan n p
  end.

(** [for (i = 0; i < PAGE_SIZE_4K / 8; i++) z[i] = 0;] *)
Definition zero_frame (m : mem) (frame : Z) : mem :=
  for_range (PAGE_SIZE_4K / 8) (fun i m => stw m frame i 0) m.

(** Result: the frame (0 when none is free), the allocator, memory. *)
Definition pmm_alloc (color : Z) (p : pmm) (m : mem) : Z * pmm * mem :=
  let '(color, p) :=
    if color =? PMM_COLOR_ANY then pmm_scan (Z.to_nat PMM_NUM_COLORS) p else (color, p) in
  if color =? PMM_COLOR_ANY then (0, p, m)
  else
    let frame := free_head p color in
    if negb (tru frame) then (0, p, m)
    else
      let p := p <| free_head := <[color := ld64 m frame]> (free_head p) |> in
      let m := zero_frame m frame in
      let s := pmm_stats p in
      let s := s <| free_frames := u64 (free_frames s - 1) |> in
      let s := s <| free_by_color := <[color := u64 (free_by_color s color - 1)]> (free_by_color s) |> in
      let s := s <| alloc_calls := u64 (alloc_calls s + 1) |> in
      (frame, p <| pmm_stats := s |>, m).

(** The reserved regions are two arrays; entry [i] is [(reserve_bases[i], reserve_lens[i])]. *)
Definition pmm_reserved (reserve : Z -> Z * Z) (nreserved f : Z) : bool :=
  existsb (fun i =>
    let '(rbase, rlen) := reserve i in
    tru rlen && ((u64 (f + PAGE_SIZE_4K) >? rbase) && (f <? u64 (rbase + rlen))))
    (seqZ 0 nreserved).

(** The first frame considered and the end of the range, after rounding up the
    kernel's end and clipping to the identity map. *)
Definition pmm_floor (kernel_end base : Z) : Z :=
  let floor := Z.land (u64 (kernel_end + PAGE_SIZE_4K - 1)) (not64 (PAGE_SIZE_4K - 1)) in
  if floor <? base then base else floor.
Definition pmm_ceiling (base len : Z) : Z :=
  let ceiling := u64 (base + len) in
  if ceiling >? ROBU_IDENTITY_MAP_LIMIT then ROBU_IDENTITY_MAP_LIMIT else ceiling.

(** Number of iterations of [for (f = floor; f < ceiling; f += PAGE_SIZE_4K)]. *)
Definition pmm_steps (floor ceiling : Z) : Z := (ceiling - floor + PAGE_SIZE_4K - 1) / PAGE_SIZE_4K.

(** [kernel_end] is the linker's [_end]. *)
Definition pmm_init (kernel_end base len : Z) (reserve : Z -> Z * Z) (nreserved : Z)
    (m : mem) : pmm * mem :=
  let p := pmm_zero in
  let floor := pmm_floor kernel_end base in
  let ceiling := pmm_ceiling base len in
  if floor >=? ceiling then (p, m)
  else
    let nreserved := if nreserved >? PMM_MAX_RESERVED_REGIONS
                     then PMM_MAX_RESERVED_REGIONS else nreserved in
    let '(count, p, m) :=
      for_range (pmm_steps floor ceiling) (fun i '(count, p, m) =>
        let f := floor + i * PAGE_SIZE_4K in
        if pmm_reserved reserve nreserved f then (count, p, m)
        else let '(p, m) := pmm_free f p m in (u64 (count + 1), p, m)) (0, p, m) in
    (p <| pmm_stats ::= fun s => s <| total_frames := count |> <| free_calls := 0 |> |>, m).

(** ** Abstract view *)

(** The list that starts at [h] and is linked through the first words. *)
Fixpoint chain (m : mem) (h : Z) (l : list Z) : Prop :=
  match l with
  | [] => h = 0
  | f :: l => h = f /\ chain m (ld64 m f) l
  end.

Definition frame_ok (f : Z) : Prop := 0 < f /\ f mod PAGE_SIZE_4K = 0 /\ f + PAGE_SIZE_4K <= 2 ^ 64.

Definition colors : list Z := seqZ 0 PMM_NUM_COLORS.
Definition all_free (ls : Z -> list Z) : list Z := mjoin (ls <$> colors).

Record pmm_rep (p : pmm) (m : mem) (ls : Z -> list Z) : Prop := {
  rep_chain : forall c, c ∈ colors -> chain m (free_head p c) (ls c);
  rep_color : forall c f, c ∈ colors -> f ∈ ls c -> color_of f = c;
  rep_ok : forall f, f ∈ all_free ls -> frame_ok f;
  rep_nodup : NoDup (all_free ls);
  rep_next : next_color p ∈ colors;
  rep_by_color : forall c, c ∈ colors ->
    free_by_color (pmm_stats p) c = u64 (Z.of_nat (length (ls c)));
  rep_free : free_frames (pmm_stats p) = u64 (Z.of_nat (length (all_free ls)))
}.

(** The frames the allocator should manage. *)
Definition usable_frames (kernel_end base len : Z) (reserve : Z -> Z * Z) (nreserved : Z) : list Z :=
  let floor := pmm_floor kernel_end base in
  let n := Z.min nreserved PMM_MAX_RESERVED_REGIONS in
  filter (fun f => Forall (fun i =>
            snd (reserve i) = 0 \/ u64 (f + PAGE_SIZE_4K) <= fst (reserve i) \/
            u64 (fst (reserve i) + snd (reserve i)) <= f) (seqZ 0 n))
    ((fun i => floor + i * PAGE_SIZE_4K) <$> seqZ 0 (pmm_steps floor (pmm_ceiling base len))).

(** Clients: they allocate, free what they own, and write what they own. *)
Inductive pmm_step : pmm * mem * list Z -> pmm * mem * list Z -> Prop :=
| step_alloc color p m own f p' m' :
    color = PMM_COLOR_ANY \/ color ∈ colors ->
    pmm_alloc color p m = (f, p', m') ->
    pmm_step (p, m, own) (p', m', if f =? 0 then own else f :: own)
| step_free p m own1 f own2 p' m' :
    pmm_free f p m = (p', m') ->
    pmm_step (p, m, own1 ++ f :: own2) (p', m', own1 ++ own2)
| step_write p m m' own :
    (forall x, m' x <> m x -> exists f, f ∈ own /\ f <= x < f + PAGE_SIZE_4K) ->
    pmm_step (p, m, own) (p, m', own).

(** ** Frames and lists *)
Ltac pmm_const := unfold PAGE_SIZE_4K in *.

Lemma frames_disjoint f g :
  frame_ok f -> frame_ok g -> f <> g -> f + PAGE_SIZE_4K <= g \/ g + PAGE_SIZE_4K <= f.
Proof. unfold frame_ok. pmm_const. intros. Z.to_euclidean_division_equations. lia. Qed.

Lemma color_of_colors f : color_of f ∈ colors.
Proof.
  unfold color_of, colors. apply elem_of_seqZ.
  change (8 - 1) with (Z.ones 3). rewrite Z.land_ones by lia.
  pose proof (Z.mod_pos_bound (Z.shiftr f 12) (2 ^ 3)). lia.
Qed.

Lemma next_color_colors c : Z.land (c + 1) (PMM_NUM_COLORS - 1) ∈ colors.
Proof.
  unfold colors. apply elem_of_seqZ.
  change (8 - 1) with (Z.ones 3). rewrite Z.land_ones by lia.
  pose proof (Z.mod_pos_bound (c + 1) (2 ^ 3)). lia.
Qed.

Lemma colors_NoDup : NoDup colors.
Proof. apply NoDup_seqZ. Qed.

Lemma elem_all_free ls f : f ∈ all_free ls <-> exists c, c ∈ colors /\ f ∈ ls c.
Proof.
  unfold all_free. rewrite list_elem_of_join. split.
  - intros (l & Hf & Hl). apply list_elem_of_fmap in Hl as (c & -> & Hc). eauto.
  - intros (c & Hc & Hf). exists (ls c). split; [done|]. by apply list_elem_of_fmap_2.
Qed.

Lemma concat_insert_perm (ls : Z -> list Z) (cs : list Z) c l :
  NoDup cs -> c ∈ cs -> mjoin (<[c := l]> ls <$> cs) ++ ls c ≡ₚ l ++ mjoin (ls <$> cs).
Proof.
  induction cs as [|d cs IH]; intros Hnd Hc; [by apply not_elem_of_nil in Hc|].
  apply list.NoDup_cons in Hnd as [Hd Hnd]. simpl.
  destruct (decide (c = d)) as [->|Hne].
  - rewrite fn_lookup_insert.
    rewrite (list_fmap_ext (<[d := l]> ls) ls cs).
    + by rewrite <- app_assoc, (Permutation_app_comm (mjoin _)).
    + intros i x Hx. apply fn_lookup_insert_ne. intros ->. apply list_elem_of_lookup_2 in Hx. done.
  - rewrite fn_lookup_insert_ne by done. apply elem_of_cons in Hc as [->|Hc]; [done|].
    rewrite <- app_assoc, IH by done. by rewrite !app_assoc, (Permutation_app_comm (ls d) l).
Qed.

Lemma all_free_push ls c f :
  c ∈ colors -> all_free (<[c := f :: ls c]> ls) ≡ₚ f :: all_free ls.
Proof.
  intros Hc. pose proof (concat_insert_perm ls colors c (f :: ls c) colors_NoDup Hc) as H.
  fold (all_free ls) (all_free (<[c := f :: ls c]> ls)) in H.
  apply (Permutation_app_inv_r (ls c)). rewrite H. simpl. f_equiv. apply Permutation_app_comm.
Qed.

Lemma all_free_pop ls c f l :
  c ∈ colors -> ls c = f :: l -> all_free ls ≡ₚ f :: all_free (<[c := l]> ls).
Proof.
  intros Hc Hl. pose proof (concat_insert_perm ls colors c l colors_NoDup Hc) as H.
  fold (all_free ls) (all_free (<[c := l]> ls)) in H. rewrite Hl in H.
  apply (Permutation_app_inv_l l). rewrite <- H.
  rewrite (Permutation_app_comm (all_free _)). simpl. by rewrite <- Permutation_middle.
Qed.

Lemma chain_ext m1 m2 h l :
  (forall f, f ∈ l -> ld64 m1 f = ld64 m2 f) -> chain m1 h l -> chain m2 h l.
Proof.
  revert h. induction l as [|f l IH]; intros h H; simpl; [done|].
  intros [-> Hc]. split; [done|]. rewrite <- H by set_solver. apply IH; [|done].
  intros. apply H. set_solver.
Qed.

Lemma ld64_frame_ext m1 m2 f :
  frame_ok f -> (forall x, f <= x < f + PAGE_SIZE_4K -> m1 x = m2 x) -> ld64 m1 f = ld64 m2 f.
Proof. intros _ H. apply ld64_ext. intros x Hx. apply H. pmm_const. lia. Qed.

(** Memory that agrees on the free frames still represents the lists. *)
Lemma rep_mem_ext p m1 m2 ls :
  (forall f x, f ∈ all_free ls -> f <= x < f + PAGE_SIZE_4K -> m1 x = m2 x) ->
  pmm_rep p m1 ls -> pmm_rep p m2 ls.
Proof.
  intros Hx [H1 H2 H3 H4 H5 H6 H7]. split; try done.
  intros c Hc. eapply chain_ext; [|by apply H1]. intros f Hf.
  assert (f ∈ all_free ls) by (apply elem_all_free; eauto).
  apply ld64_frame_ext; eauto.
Qed.

Lemma zero_frame_spec m f x :
  zero_frame m f x = if (f <=? x) && (x <? f + PAGE_SIZE_4K) then 0 else m x.
Proof.
  unfold zero_frame. change (PAGE_SIZE_4K / 8) with 512.
  change (f + PAGE_SIZE_4K) with (f + 8 * 512).
  apply (for_range_ind (fun k m' => m' x = if (f <=? x) && (x <? f + 8 * k) then 0 else m x)); [lia| |].
  - by replace ((f <=? x) && (x <? f + 8 * 0)) with false by lia.
  - intros i m' Hi IH. unfold stw, st64.
    destruct (decide (f + 8 * i <= x < f + 8 * i + 8)) as [Hin|Hout].
    + replace ((f <=? x) && (x <? f + 8 * (i + 1))) with true by lia.
      assert (Hz : forall n m a y, a <= y < a + Z.of_nat n -> stn n m a 0 y = 0).
      { induction n as [|n IHn]; intros m0 a y Hy; [lia|]. simpl. change (0 mod 256) with 0.
        destruct (decide (y = a)) as [->|]; [by rewrite fn_lookup_insert|].
        rewrite fn_lookup_insert_ne by done. apply IHn. lia. }
      apply Hz. lia.
    + rewrite stn_out by lia. rewrite IH.
      by replace (x <? f + 8 * (i + 1)) with (x <? f + 8 * i) by lia.
Qed.

Lemma zero_frame_wf m f : mem_wf m -> mem_wf (zero_frame m f).
Proof. intros Hm x. rewrite zero_frame_spec. break_if; [lia|apply Hm]. Qed.

Lemma u64_succ a : u64 (u64 a + 1) = u64 (a + 1).
Proof. unfold u64. by rewrite Zplus_mod_idemp_l. Qed.
Lemma u64_pred a : u64 (u64 a - 1) = u64 (a - 1).
Proof. unfold u64. by rewrite Zminus_mod_idemp_l. Qed.

Lemma chain_cons_head m h f l : chain m h (f :: l) -> h = f.
Proof. by intros [-> _]. Qed.

(** The head of a represented list is a 64-bit address, zero only when empty. *)
Lemma rep_head_ok p m ls c :
  pmm_rep p m ls -> c ∈ colors ->
  0 <= free_head p c < 2 ^ 64 /\ (free_head p c = 0 <-> ls c = []).
Proof.
  intros H Hc. pose proof (rep_chain _ _ _ H c Hc) as Hch.
  destruct (ls c) as [|f l] eqn:E; [simpl in Hch; rewrite Hch; split; [lia|done]|].
  apply chain_cons_head in Hch as ->.
  assert (frame_ok f) as Hf.
  { apply (rep_ok _ _ _ H), elem_all_free. exists c. rewrite E. split; [done|by left]. }
  unfold frame_ok in Hf. pmm_const. split; [lia|]. split; [lia|done].
Qed.

(** ** Free *)
Lemma pmm_free_rep f p m ls p' m' :
  pmm_rep p m ls -> frame_ok f -> f ∉ all_free ls -> pmm_free f p m = (p', m') ->
  pmm_rep p' m' (<[color_of f := f :: ls (color_of f)]> ls).
Proof.
  intros H Hf Hnew [= <- <-]. pose proof (color_of_colors f) as Hcf. set (c := color_of f) in *.
  pose proof (rep_head_ok _ _ _ c H Hcf) as [Hhr _].
  pose proof (all_free_push ls c f Hcf) as Hperm.
  assert (Hkeep : forall g, g ∈ all_free ls -> ld64 (st64 m f (free_head p c)) g = ld64 m g).
  { intros g Hg. assert (g <> f) by (intros ->; done).
    destruct (frames_disjoint g f) as [Hd|Hd]; [by apply H|done|done| |];
      apply ld64_st64_ne; pmm_const; lia. }
  split.
  - intros d Hd. rsimpl. destruct (decide (c = d)) as [<-|Hne].
    + rewrite !fn_lookup_insert. split; [done|]. rewrite ld64_st64 by done.
      eapply chain_ext; [|by apply H]. intros g Hg. symmetry. apply Hkeep, elem_all_free. eauto.
    + rewrite !fn_lookup_insert_ne by done.
      eapply chain_ext; [|by apply H]. intros g Hg. symmetry. apply Hkeep, elem_all_free. eauto.
  - intros d g Hd. destruct (decide (c = d)) as [<-|Hne].
    + rewrite fn_lookup_insert. rewrite elem_of_cons. intros [->|Hg]; [done|].
      by apply (rep_color _ _ _ H).
    + rewrite fn_lookup_insert_ne by done. by apply (rep_color _ _ _ H).
  - intros g. rewrite Hperm, elem_of_cons. intros [->|Hg]; [done|]. by apply H.
  - rewrite Hperm. apply list.NoDup_cons. split; [done|apply H].
  - rsimpl. apply H.
  - intros d Hd. rsimpl. destruct (decide (c = d)) as [<-|Hne].
    + rewrite !fn_lookup_insert, (rep_by_color _ _ _ H) by done. simpl length.
      rewrite u64_succ. f_equal. lia.
    + rewrite !fn_lookup_insert_ne by done. by apply H.
  - rsimpl. rewrite (rep_free _ _ _ H), Hperm, u64_succ. simpl length. f_equal. lia.
Qed.

(** ** Allocation *)
Lemma pmm_scan_spec n p m ls :
  pmm_rep p m ls ->
  exists c p', pmm_scan n p = (c, p') /\ pmm_rep p' m ls /\
    free_head p' = free_head p /\ pmm_stats p' = pmm_stats p /\
    (c = PMM_COLOR_ANY \/ c ∈ colors /\ ls c <> []) /\
    (c = PMM_COLOR_ANY -> forall i, 0 <= i < Z.of_nat n ->
       ls ((next_color p + i) mod PMM_NUM_COLORS) = []).
Proof.
  revert p. induction n as [|n IH]; intros p H; cbn [pmm_scan]; cbv zeta.
  { exists PMM_COLOR_ANY, p. do 4 (split; [done|]).
    split; [by left|]. intros _ i Hi. lia. }
  set (q := p <| next_color := Z.land (next_color p + 1) (PMM_NUM_COLORS - 1) |>).
  assert (Hq : pmm_rep q m ls).
  { destruct H as [H1 H2 H3 H4 H5 H6 H7]. split; try done. apply next_color_colors. }
  pose proof (rep_next _ _ _ H) as Hc. set (c := next_color p) in *.
  pose proof (rep_head_ok _ _ _ c Hq Hc) as [_ Hh].
  unfold tru. destruct (Z.eqb_spec (free_head q c) 0) as [E|E]; simpl.
  - destruct (IH q Hq) as (d & p' & -> & Hp' & Hfh & Hst & Hd & Hall).
    exists d, p'. do 5 (split; [done|]). intros Hany i Hi.
    unfold colors in *. apply elem_of_seqZ in Hc.
    destruct (decide (i = 0)) as [->|Hi0].
    + rewrite Z.add_0_r, Z.mod_small by lia. by apply Hh.
    + specialize (Hall Hany (i - 1) ltac:(lia)). unfold q in Hall. rsimpl.
      revert Hall. change (8 - 1) with (Z.ones 3). rewrite Z.land_ones by lia.
      change (2 ^ 3) with 8. rewrite Zplus_mod_idemp_l.
      fold c. by replace (c + 1 + (i - 1)) with (c + i) by lia.
  - exists c, q. do 4 (split; [done|]). split.
    + right. split; [done|]. intros E'. apply E. by apply Hh.
    + intros ->. unfold colors in Hc. apply elem_of_seqZ in Hc. pmm_const. lia.
Qed.

(** Taking the head of a nonempty list. *)
Lemma pmm_pop_rep c f l p m ls s' :
  pmm_rep p m ls -> c ∈ colors -> ls c = f :: l ->
  free_frames s' = u64 (free_frames (pmm_stats p) - 1) ->
  free_by_color s' = <[c := u64 (free_by_color (pmm_stats p) c - 1)]> (free_by_color (pmm_stats p)) ->
  pmm_rep (p <| free_head := <[c := ld64 m f]> (free_head p) |> <| pmm_stats := s' |>)
    (zero_frame m f) (<[c := l]> ls).
Proof.
  intros H Hc Hl Hs1 Hs2. pose proof (all_free_pop ls c f l Hc Hl) as Hperm.
  pose proof (rep_nodup _ _ _ H) as Hnd. rewrite Hperm in Hnd.
  apply list.NoDup_cons in Hnd as [Hf Hnd].
  assert (Hok : forall g, g ∈ f :: all_free (<[c := l]> ls) -> frame_ok g).
  { intros g Hg. apply (rep_ok _ _ _ H). by rewrite Hperm. }
  apply (rep_mem_ext _ m).
  { intros g x Hg Hx. rewrite zero_frame_spec.
    destruct (frames_disjoint f g) as [Hd|Hd]; [apply Hok; by left|apply Hok; by right|by intros ->| |];
      by replace ((f <=? x) && (x <? f + PAGE_SIZE_4K)) with false by (pmm_const; lia). }
  split; rsimpl.
  - intros d Hd. destruct (decide (c = d)) as [<-|Hne].
    + rewrite !fn_lookup_insert. pose proof (rep_chain _ _ _ H c Hc) as Hch.
      rewrite Hl in Hch. apply Hch.
    + rewrite !fn_lookup_insert_ne by done. by apply H.
  - intros d g Hd. destruct (decide (c = d)) as [<-|Hne].
    + rewrite fn_lookup_insert. intros Hg. apply (rep_color _ _ _ H); [done|]. rewrite Hl. by right.
    + rewrite fn_lookup_insert_ne by done. by apply (rep_color _ _ _ H).
  - intros g Hg. apply Hok. by right.
  - done.
  - apply H.
  - intros d Hd. rewrite Hs2. destruct (decide (c = d)) as [<-|Hne].
    + rewrite !fn_lookup_insert, (rep_by_color _ _ _ H), Hl, u64_pred by done. simpl length.
      f_equal. lia.
    + rewrite !fn_lookup_insert_ne by done. by apply H.
  - rewrite Hs1, (rep_free _ _ _ H), Hperm, u64_pred. simpl length. f_equal. lia.
Qed.

(** What one allocation does: it fails exactly when the requested lists are
    empty, and otherwise pops a list head of the requested colour and returns
    it zeroed. *)
Lemma pmm_alloc_rep color p m ls f p' m' :
  pmm_rep p m ls -> color = PMM_COLOR_ANY \/ color ∈ colors ->
  pmm_alloc color p m = (f, p', m') ->
  (f = 0 /\ pmm_rep p' m' ls /\ (forall x, m' x = m x) /\
   (if color =? PMM_COLOR_ANY then all_free ls = [] else ls color = [])) \/
  (exists c l, c ∈ colors /\ (color = PMM_COLOR_ANY \/ color = c) /\ ls c = f :: l /\ f <> 0 /\
     pmm_rep p' m' (<[c := l]> ls) /\
     forall x, m' x = if (f <=? x) && (x <? f + PAGE_SIZE_4K) then 0 else m x).
Proof.
  intros H Hcol. unfold pmm_alloc.
  assert (Hpick : exists c q, (if color =? PMM_COLOR_ANY
      then pmm_scan (Z.to_nat PMM_NUM_COLORS) p else (color, p)) = (c, q) /\
      pmm_rep q m ls /\
      (c = PMM_COLOR_ANY /\ color = PMM_COLOR_ANY /\ all_free ls = [] \/
       c ∈ colors /\ c <> PMM_COLOR_ANY /\
        (color = PMM_COLOR_ANY /\ ls c <> [] \/ color = c /\ color <> PMM_COLOR_ANY))).
  { destruct (Z.eqb_spec color PMM_COLOR_ANY) as [->|Hne].
    - destruct (pmm_scan_spec (Z.to_nat PMM_NUM_COLORS) p m ls H)
        as (c & q & -> & Hq & _ & _ & Hc & Hall).
      exists c, q. split; [done|]. split; [done|]. destruct Hc as [->|[Hc Hl]].
      + left. split; [done|]. split; [done|]. specialize (Hall eq_refl).
        destruct (all_free ls) as [|g l] eqn:E; [done|exfalso].
        assert (Hg : g ∈ all_free ls) by (rewrite E; by left).
        apply elem_all_free in Hg as (c & Hc & Hg).
        pose proof (rep_next _ _ _ H) as Hn. unfold colors in *.
        apply elem_of_seqZ in Hc, Hn.
        specialize (Hall ((c - next_color p) mod 8)).
        rewrite Zplus_mod_idemp_r in Hall.
        replace (next_color p + (c - next_color p)) with c in Hall by lia.
        rewrite (Z.mod_small c) in Hall by lia.
        rewrite Hall in Hg; [by apply not_elem_of_nil in Hg|].
        pose proof (Z.mod_pos_bound (c - next_color p) 8). lia.
      + right. split; [done|]. split; [|by left].
        unfold colors in Hc. apply elem_of_seqZ in Hc. pmm_const. lia.
    - exists color, p. split; [done|]. split; [done|]. right. destruct Hcol as [|Hcol]; [done|].
      split; [done|]. split; [done|]. by right. }
  destruct Hpick as (c & q & -> & Hq & Hc). destruct Hc as [(-> & -> & Hnil)|(Hc & Hne & Hcase)].
  { rewrite Z.eqb_refl. intros [= <- <- <-]. left. auto. }
  rewrite (proj2 (Z.eqb_neq _ _) Hne).
  pose proof (rep_head_ok _ _ _ c Hq Hc) as [_ Hh]. unfold tru.
  destruct (Z.eqb_spec (free_head q c) 0) as [E|E]; simpl.
  - intros [= <- <- <-]. left. do 3 (split; [done|]).
    destruct Hcase as [[-> Hl]|[-> Hn]]; [by apply Hh in E|].
    rewrite (proj2 (Z.eqb_neq _ _) Hn). by apply Hh.
  - destruct (ls c) as [|g l] eqn:El; [by destruct E; apply Hh|].
    pose proof (rep_chain _ _ _ Hq c Hc) as Hch. rewrite El in Hch.
    apply chain_cons_head in Hch. intros [= <- <- <-]. right. exists c, l.
    split; [done|]. split; [destruct Hcase as [[-> _]|[-> _]]; auto|].
    rewrite Hch in *. do 2 (split; [done|]). split.
    + by apply (pmm_pop_rep c g l q m ls).
    + intros x. apply zero_frame_spec.
Qed.

(** ** Initialisation *)
Lemma pmm_zero_rep m : pmm_rep pmm_zero m (fun _ => []).
Proof.
  assert (Hnil : all_free (fun _ => []) = []) by done.
  split; try done.
  - by intros c f _ ?%not_elem_of_nil.
  - intros f. rewrite Hnil. by intros ?%not_elem_of_nil.
  - rewrite Hnil. by apply list.NoDup_nil.
  - apply elem_of_seqZ. pmm_const. simpl. lia.
Qed.

Lemma pmm_reserved_false reserve n f :
  pmm_reserved reserve n f = false <->
  Forall (fun i => snd (reserve i) = 0 \/ u64 (f + PAGE_SIZE_4K) <= fst (reserve i) \/
            u64 (fst (reserve i) + snd (reserve i)) <= f) (seqZ 0 n).
Proof.
  unfold pmm_reserved. rewrite list.Forall_forall, <- not_true_iff_false, existsb_exists. split.
  - intros H i Hi. destruct (decide (snd (reserve i) = 0)); [by left|right].
    destruct (decide (u64 (f + PAGE_SIZE_4K) <= fst (reserve i))); [by left|right].
    apply Z.nlt_ge. intros Hlt. apply H. exists i. split; [by apply list_elem_of_In|].
    destruct (reserve i) as [rb rl]; simpl in *. unfold tru. lia.
  - intros H (i & Hi & E). apply list_elem_of_In, H in Hi.
    destruct (reserve i) as [rb rl]; simpl in *. unfold tru in E. lia.
Qed.

Section init.
Context (kernel_end base len : Z) (reserve : Z -> Z * Z) (nreserved : Z).
Hypothesis Hend : 0 < kernel_end < 2 ^ 63.
Hypothesis Hbase : 0 <= base < 2 ^ 64 /\ base mod PAGE_SIZE_4K = 0.

Lemma pmm_floor_ok :
  kernel_end <= pmm_floor kernel_end base /\ base <= pmm_floor kernel_end base /\
  pmm_floor kernel_end base mod PAGE_SIZE_4K = 0.
Proof.
  unfold pmm_floor. pmm_const. rewrite u64_small by lia.
  change (0x1000 - 1) with (2 ^ 12 - 1). rewrite align_down_spec by lia.
  change (2 ^ 12) with 4096. change 0x1000 with 4096 in *.
  break_if; bools; Z.to_euclidean_division_equations; lia.
Qed.

Lemma candidate_ok i :
  0 <= i < pmm_steps (pmm_floor kernel_end base) (pmm_ceiling base len) ->
  frame_ok (pmm_floor kernel_end base + i * PAGE_SIZE_4K).
Proof.
  intros Hi. destruct pmm_floor_ok as (H1 & H2 & H3).
  assert (pmm_ceiling base len <= ROBU_IDENTITY_MAP_LIMIT)
    by (unfold pmm_ceiling; break_if; bools; lia).
  unfold pmm_steps, frame_ok in *. pmm_const. change 0x1000 with 4096 in *.
  generalize dependent (pmm_floor kernel_end base). intros fl Hi ? ? ?.
  rewrite Z.mod_add by lia.
  assert (4096 * i < pmm_ceiling base len - fl + 4096 - 1)
    by (Z.to_euclidean_division_equations; lia).
  split; [lia|]. split; [done|]. lia.
Qed.

(** Set-up leaves on the free lists exactly the 4 KiB frames of the RAM
    range, above the kernel image and below the identity-map limit, that touch
    no reserved region; every one is on the list of its colour, the statistics
    count them, and no other memory is written. *)
Lemma pmm_init_rep m p' m' :
  pmm_init kernel_end base len reserve nreserved m = (p', m') ->
  exists ls, pmm_rep p' m' ls /\
    all_free ls ≡ₚ usable_frames kernel_end base len reserve nreserved /\
    total_frames (pmm_stats p') = u64 (Z.of_nat (length (all_free ls))) /\
    (forall x, m' x <> m x -> exists f, f ∈ all_free ls /\ f <= x < f + PAGE_SIZE_4K).
Proof.
  unfold pmm_init, usable_frames.
  set (floor := pmm_floor kernel_end base). set (ceil := pmm_ceiling base len).
  replace (if nreserved >? _ then _ else _) with (Z.min nreserved PMM_MAX_RESERVED_REGIONS)
    by (break_if; bools; lia).
  set (n := Z.min _ _). set (P := fun f : Z => Forall _ _).
  break_if; bools.
  { intros [= <- <-]. exists (fun _ => []). split; [apply pmm_zero_rep|].
    replace (seqZ 0 (pmm_steps floor ceil)) with (@nil Z).
    - done.
    - symmetry. apply seqZ_nil. unfold pmm_steps. pmm_const.
      Z.to_euclidean_division_equations; lia. }
  set (body := fun i _ => _). set (N := pmm_steps floor ceil).
  assert (HN : 0 <= N) by (subst N; unfold pmm_steps; pmm_const; Z.to_euclidean_division_equations; lia).
  pose proof (for_range_ind (fun i (s : Z * pmm * mem) => exists ls,
    pmm_rep s.1.2 s.2 ls /\
    all_free ls ≡ₚ filter P ((fun i => floor + i * PAGE_SIZE_4K) <$> seqZ 0 i) /\
    s.1.1 = u64 (Z.of_nat (length (all_free ls))) /\
    (forall x, s.2 x <> m x -> exists f, f ∈ all_free ls /\ f <= x < f + PAGE_SIZE_4K))
    body N (0, pmm_zero, m) HN) as HI.
  destruct HI as (ls & Hrep & Hp & Hc & Hx).
  - exists (fun _ => []). split; [apply pmm_zero_rep|]. by rewrite (seqZ_nil 0 0) by lia.
  - intros i [[count p] m1] Hi (ls & Hrep & Hp & Hc & Hx). cbn [fst snd] in *.
    set (f := floor + i * PAGE_SIZE_4K).
    rewrite seqZ_app, fmap_app, list.filter_app by lia.
    rewrite (seqZ_cons (0 + i)), (seqZ_nil (Z.succ (0 + i))), Z.add_0_l by lia. change ((fun i => floor + i * PAGE_SIZE_4K) <$> [i]) with [f].
    unfold body. fold f. destruct (pmm_reserved reserve n f) eqn:Er.
    + exists ls. rewrite filter_cons_False, app_nil_r; [done|].
      intros HP. apply pmm_reserved_false in HP. congruence.
    + apply pmm_reserved_false in Er. rewrite filter_cons_True by done.
      destruct (pmm_free f p m1) as [p2 m2] eqn:Ef. cbn [fst snd].
      assert (Hnew : f ∉ all_free ls).
      { rewrite Hp, list_elem_of_filter. intros [_ Hin]. apply list_elem_of_fmap in Hin as (j & E & Hj).
        apply elem_of_seqZ in Hj. subst f. pmm_const. lia. }
      pose proof (all_free_push ls (color_of f) f (color_of_colors f)) as Hpush.
      exists (<[color_of f := f :: ls (color_of f)]> ls).
      split; [eapply pmm_free_rep; eauto; by apply candidate_ok|].
      split; [rewrite Hpush, Hp; apply Permutation_cons_append|].
      split; [rewrite Hpush, Hc, u64_succ; simpl length; f_equal; lia|].
      intros x Hne. unfold pmm_free in Ef. simplify_eq.
      destruct (decide (f <= x < f + PAGE_SIZE_4K)).
      * exists f. split; [rewrite Hpush; by left|done].
      * rewrite st64_out in Hne by (pmm_const; lia). apply Hx in Hne as (g & Hg & Hr).
        exists g. split; [rewrite Hpush; by right|done].
  - destruct (for_range N body (0, pmm_zero, m)) as [[count p] m2]. cbn [fst snd] in *.
    intros [= <- <-]. exists ls. split; [by destruct Hrep|]. by rsimpl.
Qed.

Lemma pmm_init_wf m :
  mem_wf m -> mem_wf (pmm_init kernel_end base len reserve nreserved m).2.
Proof.
  intros Hm. unfold pmm_init. break_if; [done|].
  set (n := if nreserved >? _ then _ else _). set (body := fun i _ => _).
  set (N := pmm_steps _ _). destruct (decide (0 <= N)) as [HN|HN].
  - pose proof (for_range_ind (fun _ (s : Z * pmm * mem) => mem_wf s.2) body N (0, pmm_zero, m) HN Hm) as H.
    destruct (for_range N body (0, pmm_zero, m)) as [[c p] m2]. apply H.
    intros i [[c1 p1] m1] _ Hm1. unfold body. break_if; [done|]. by apply st64_wf.
  - by rewrite for_range_0 by lia.
Qed.

Lemma usable_ok f : f ∈ usable_frames kernel_end base len reserve nreserved -> frame_ok f.
Proof.
  unfold usable_frames. rewrite list_elem_of_filter. intros [_ Hf].
  apply list_elem_of_fmap in Hf as (i & -> & Hi). apply elem_of_seqZ in Hi.
  apply candidate_ok. lia.
Qed.

Lemma usable_NoDup : NoDup (usable_frames kernel_end base len reserve nreserved).
Proof.
  apply list.NoDup_filter, NoDup_fmap_2_strong; [|apply NoDup_seqZ].
  intros x y _ _. pmm_const. lia.
Qed.

(** The client invariant: free and owned frames together are the usable ones. *)
Definition pmm_owned (s : pmm * mem * list Z) : Prop :=
  exists ls, pmm_rep s.1.1 s.1.2 ls /\
    all_free ls ++ s.2 ≡ₚ usable_frames kernel_end base len reserve nreserved.

Lemma pmm_step_owned s s' : pmm_step s s' -> pmm_owned s -> pmm_owned s'.
Proof.
  intros Hs (ls & Hrep & Hp). destruct Hs as [color p m own f p' m' Hc Ha|p m own1 f own2 p' m' Hf|p m m' own Hx];
    cbn [fst snd] in *.
  - destruct (pmm_alloc_rep _ _ _ _ _ _ _ Hrep Hc Ha) as [(-> & Hr & _)|(c & l & Hcc & _ & Hl & Hn & Hr & _)].
    + exists ls. by rewrite Z.eqb_refl.
    + rewrite (proj2 (Z.eqb_neq _ _) Hn). exists (<[c := l]> ls). split; [done|].
      rewrite <- Hp, (all_free_pop ls c f l Hcc Hl). cbn [snd app]. by rewrite Permutation_middle.
  - pose proof usable_NoDup as Hnd. rewrite <- Hp in Hnd.
    apply list.NoDup_app in Hnd as (_ & Hdis & _).
    exists (<[color_of f := f :: ls (color_of f)]> ls). split.
    + apply (pmm_free_rep f p m ls p' m'); [done| |by intros Hin; apply (Hdis f Hin); set_solver|done].
      apply usable_ok. rewrite <- Hp, elem_of_app. right. apply elem_of_app. right. by left.
    + rewrite <- Hp, (all_free_push ls _ f (color_of_colors f)). cbn [snd app].
      by rewrite app_assoc, Permutation_middle, app_assoc.
  - exists ls. split; [|done]. eapply rep_mem_ext; [|exact Hrep]. intros f x Hf Hfx.
    destruct (decide (m x = m' x)) as [|Hne]; [done|exfalso].
    destruct (Hx x) as (g & Hg & Hgx); [done|].
    pose proof usable_NoDup as Hnd. rewrite <- Hp in Hnd.
    apply list.NoDup_app in Hnd as (_ & Hdis & _).
    assert (f <> g) by (intros ->; by apply (Hdis g)).
    destruct (frames_disjoint f g); [apply usable_ok; rewrite <- Hp, elem_of_app; auto..|done| |]; lia.
Qed.

Lemma pmm_reach_owned s s' : rtc pmm_step s s' -> pmm_owned s -> pmm_owned s'.
Proof. induction 1; eauto using pmm_step_owned. Qed.

End init.


