(* ===== verification/Kheap.v ===== *)
(** * Kernel heap ([src/src/core/kheap.c])

    A first-fit free list threaded through the free blocks: each block starts
    with its size and, while free, a pointer to the next free block; while
    allocated, the client's bytes follow the size.  [heap_inv] says that the
    free and the allocated blocks tile the heap.  The theorems show that
    [kmalloc] and [kfree] preserve it whatever clients store in their blocks,
    and that the search always terminates within its bound. *)
From Stdlib Require Import ZArith Lia.
From stdpp Require Import base numbers sets list list_numbers functions relations.
From S2P Require Import Prelude Abi Memory.

(** The file's static variables. *)
Record kheap := mk_kheap {
  heap_start : Z;
  heap_end : Z;
  free_list : Z
}.
#[export] Instance eta_kheap : Eta kheap := fun h =>
  mk_kheap (heap_start h) (heap_end h) (free_list h).

Notation KHEAP_ALIGN := (16)%Z (only parsing).
Notation KHEAP_MIN_BLOCK := (16)%Z (only parsing).

(** Fields of [kheap_free_block_t]: [size] at offset 0, [next] at offset 8. *)
Definition blk_size (m : mem) (b : Z) : Z := ld64 m b.
Definition blk_next (m : mem) (b : Z) : Z := ld64 m (b + 8).

Definition align_up (v a : Z) : Z := Z.land (u64 (v + a - 1)) (not64 (a - 1)).

Definition kheap_init (base size : Z) (m : mem) : kheap * mem :=
  let h := mk_kheap base (u64 (base + size)) base in
  let m := st64 m base size in
  (h, st64 m (base + 8) 0).

(** [*prev = v]; [None] is [&free_list], [Some p] the [next] field at [p]. *)
Definition set_link (prev : option Z) (v : Z) (h : kheap) (m : mem) : kheap * mem :=
  match prev with
  | None => (h <| free_list := v |>, m)
  | Some p => (h, st64 m p v)
  end.

(** The search loop; [None] only when [fuel] runs out. *)
Fixpoint kmalloc_loop (fuel : nat) (need : Z) (prev : option Z) (cur : Z) (h : kheap) (m : mem)
  : option (Z * kheap * mem) :=
  match fuel with
  | O => None
  | S fuel =>
      if cur =? 0 then Some (0, h, m)
      else if blk_size m cur >=? need then
        let remaining := u64 (blk_size m cur - need) in
        let '(take, h, m) :=
          if remaining >=? KHEAP_MIN_BLOCK + KHEAP_ALIGN then
            let rest := u64 (cur + need) in
            let m := st64 m rest remaining in
            let m := st64 m (rest + 8) (blk_next m cur) in
            let '(h, m) := set_link prev rest h m in
            (need, h, m)
          else
            let take := blk_size m cur in
            let '(h, m) := set_link prev (blk_next m cur) h m in
            (take, h, m) in
        Some (cur + 8, h, st64 m cur take)
      else kmalloc_loop fuel need (Some (cur + 8)) (blk_next m cur) h m
  end.

(** A heap of [n] bytes has at most [n / KHEAP_MIN_BLOCK] blocks. *)
Definition kheap_fuel (h : kheap) : nat :=
  S (Z.to_nat ((heap_end h - heap_start h) / KHEAP_MIN_BLOCK)).

(** Result: the pointer (0 for NULL), the heap, memory. *)
Definition kmalloc (n : Z) (h : kheap) (m : mem) : Z * kheap * mem :=
  if n =? 0 then (0, h, m)
  else
    let need := align_up (u64 (n + 8)) KHEAP_ALIGN in
    default (0, h, m) (kmalloc_loop (kheap_fuel h) need None (free_list h) h m).

Definition kmalloc_zeroed (n : Z) (h : kheap) (m : mem) : Z * kheap * mem :=
  let '(p, h, m) := kmalloc n h m in
  if p =? 0 then (0, h, m)
  else (p, h, for_range n (fun i m => <[p + i := 0]> m) m).

Definition kfree (ptr : Z) (h : kheap) (m : mem) : kheap * mem :=
  if (ptr =? 0) || (ptr <? heap_start h) || (ptr >=? heap_end h) then (h, m)
  else
    let hdr := ptr - 8 in
    let size := ld64 m hdr in
    let m := st64 m hdr size in
    let m := st64 m (hdr + 8) (free_list h) in
    (h <| free_list := hdr |>, m).

(** ** Abstract view: blocks are (address, size) pairs *)
Abbreviation block := (Z * Z)%type.

Definition disj (x y : block) : Prop := x.1 + x.2 <= y.1 \/ y.1 + y.2 <= x.1.

Fixpoint sep (l : list block) : Prop :=
  match l with
  | [] => True
  | b :: l => Forall (disj b) l /\ sep l
  end.

Definition total (l : list block) : Z := foldr (fun b t => b.2 + t) 0 l.

(** The list segment from [h] to [c] through the blocks' links. *)
Fixpoint seg (m : mem) (h : Z) (l : list block) (c : Z) : Prop :=
  match l with
  | [] => h = c
  | b :: l => h = b.1 /\ blk_size m b.1 = b.2 /\ seg m (blk_next m b.1) l c
  end.

Definition block_ok (h : kheap) (b : block) : Prop :=
  heap_start h <= b.1 /\ b.1 + b.2 <= heap_end h /\ KHEAP_MIN_BLOCK <= b.2 /\
  b.1 mod KHEAP_ALIGN = 0 /\ b.2 mod KHEAP_ALIGN = 0.

(** [fl] are the free blocks in list order, [al] the allocated ones. *)
Record heap_inv (h : kheap) (m : mem) (fl al : list block) : Prop := {
  inv_seg : seg m (free_list h) fl 0;
  inv_hdr : Forall (fun b => blk_size m b.1 = b.2) al;
  inv_sep : sep (fl ++ al);
  inv_ok : Forall (block_ok h) (fl ++ al);
  inv_total : total (fl ++ al) = heap_end h - heap_start h;
  inv_bounds : 0 < heap_start h /\ heap_end h < 2 ^ 64
}.

(** Clients: they allocate, free blocks they own, and write their payloads. *)
Inductive heap_step : kheap * mem * list block -> kheap * mem * list block -> Prop :=
| heap_alloc n h m al p h' m' sz :
    0 <= n < 2 ^ 64 - 32 -> kmalloc n h m = (p, h', m') ->
    sz = blk_size m' (p - 8) ->
    heap_step (h, m, al) (h', m', if p =? 0 then al else (p - 8, sz) :: al)
| heap_free h m al1 b al2 h' m' :
    kfree (b.1 + 8) h m = (h', m') ->
    heap_step (h, m, al1 ++ b :: al2) (h', m', al1 ++ al2)
| heap_write h m m' al :
    (forall x, m' x <> m x -> exists b, b ∈ al /\ b.1 + 8 <= x < b.1 + b.2) ->
    heap_step (h, m, al) (h, m', al).

(** ** Tilings *)
Lemma disj_sym x y : disj x y -> disj y x.
Proof. unfold disj. lia. Qed.

#[export] Instance sep_proper : Proper ((≡ₚ) ==> iff) sep.
Proof.
  intros l1 l2 H. split; revert H.
  - induction 1; simpl; [done| | |auto].
    + intros [Hf Hs]. split; [by rewrite <- H|auto].
    + intros (Hf & Hg & Hs). inversion_clear Hf. repeat split; auto.
      constructor; [by apply disj_sym|done].
  - intros H. symmetry in H. revert H. induction 1; simpl; [done| | |auto].
    + intros [Hf Hs]. split; [by rewrite <- H|auto].
    + intros (Hf & Hg & Hs). inversion_clear Hf. repeat split; auto.
      constructor; [by apply disj_sym|done].
Qed.

#[export] Instance total_proper : Proper ((≡ₚ) ==> eq) total.
Proof. intros l1 l2 H. unfold total. induction H; simpl; lia. Qed.

Lemma total_app l1 l2 : total (l1 ++ l2) = total l1 + total l2.
Proof. unfold total. induction l1; simpl in *; lia. Qed.

Lemma sep_app_cons l b k : sep (l ++ b :: k) <-> Forall (disj b) (l ++ k) /\ sep (l ++ k).
Proof. rewrite <- Permutation_middle. done. Qed.

Lemma total_ge h l : Forall (block_ok h) l -> 16 * Z.of_nat (length l) <= total l.
Proof.
  unfold total. induction 1 as [|b l (_ & _ & Hb & _) _ IH]; [simpl; lia|].
  cbn [foldr length]. lia.
Qed.

(** ** List segments *)
Lemma seg_app m h l1 l2 c : seg m h (l1 ++ l2) c <-> exists d, seg m h l1 d /\ seg m d l2 c.
Proof.
  revert h. induction l1 as [|b l1 IH]; intros h; simpl.
  - split; [eauto|]. by intros (d & -> & ?).
  - rewrite IH. split; [intros (-> & ? & d & ? & ?); eauto 10|].
    intros (d & (-> & ? & ?) & ?). eauto 10.
Qed.

(** A segment depends only on the first sixteen bytes of its blocks. *)
Lemma seg_ext m m' h l c :
  (forall b x, b ∈ l -> b.1 <= x < b.1 + 16 -> m' x = m x) -> seg m h l c -> seg m' h l c.
Proof.
  revert h. induction l as [|b l IH]; intros h Hx; simpl; [done|]. intros (-> & Hs & Hl).
  unfold blk_size, blk_next in *. split; [done|]. split.
  - rewrite <- Hs. apply ld64_ext. intros. apply (Hx b); [by left|lia].
  - rewrite (ld64_ext m' m) by (intros; apply (Hx b); [by left|lia]).
    apply IH; [|done]. intros b' x Hb'. apply Hx. by right.
Qed.

(** ** The search *)
Definition link_of (pre : list block) : option Z := (fun b => b.1 + 8) <$> last pre.

(** Redirecting the last link of a prefix. *)
Lemma set_link_seg pre cur v h m h' m' :
  seg m (free_list h) pre cur -> sep pre -> Forall (block_ok h) pre -> 0 <= v < 2 ^ 64 ->
  set_link (link_of pre) v h m = (h', m') ->
  seg m' (free_list h') pre v /\
  heap_start h' = heap_start h /\ heap_end h' = heap_end h /\
  (forall x, (forall b, b ∈ pre -> x < b.1 + 8 \/ b.1 + 16 <= x) -> m' x = m x).
Proof.
  intros Hseg Hsep Hok Hv. destruct pre as [|b pre _] using rev_ind.
  { simpl. by intros [= <- <-]. }
  unfold link_of. rewrite last_snoc. simpl. intros [= <- <-].
  apply seg_app in Hseg as (d & H1 & H2). simpl in H2. destruct H2 as (-> & Hs & _).
  rewrite sep_app_cons, app_nil_r in Hsep. destruct Hsep as [Hd Hsep].
  apply Forall_app in Hok as [Hok Hb]. inversion_clear Hb as [|? ? (_ & _ & Hb16 & _)].
    split; [|split; [done|split; [done|]]].
  - apply seg_app. exists b.1. split.
    + eapply seg_ext; [|exact H1]. intros b' x Hb' Hx. apply st64_out.
      rewrite list.Forall_forall in Hd, Hok. specialize (Hd b' Hb').
      destruct (Hok b' Hb') as (_ & _ & Hb'16 & _). unfold disj in *. lia.
    + simpl. unfold blk_size, blk_next in *. split; [done|]. split.
      * rewrite ld64_st64_ne by lia. done.
      * by rewrite ld64_st64.
  - intros x Hx. apply st64_out. specialize (Hx b). rewrite elem_of_app in Hx.
    destruct Hx; [right; by left|lia..].
Qed.

Lemma seg_head_range h m fl al c pre l :
  heap_inv h m fl al -> fl = pre ++ l -> seg m c l 0 -> 0 <= c < 2 ^ 64.
Proof.
  intros H -> Hl. destruct l as [|b l]; simpl in Hl; [lia|]. destruct Hl as [-> _].
  pose proof (inv_ok _ _ _ _ H) as Hok. rewrite !Forall_app, Forall_cons in Hok.
  destruct Hok as ((_ & (H1 & H2 & H3 & _) & _) & _).
  pose proof (inv_bounds _ _ _ _ H). lia.
Qed.

(** What a client of the heap may rely on after an allocation. *)
Definition kept (al : list block) (m m' : mem) : Prop :=
  forall b x, b ∈ al -> b.1 <= x < b.1 + b.2 -> m' x = m x.

Section found.
Context (h : kheap) (m : mem) (pre l al : list block) (a s : Z).
Hypothesis Hinv : heap_inv h m (pre ++ (a, s) :: l) al.

Lemma found_disj b : b ∈ pre ++ l ++ al -> disj (a, s) b /\ block_ok h b.
Proof.
  intros Hb. pose proof (inv_sep _ _ _ _ Hinv) as Hs. pose proof (inv_ok _ _ _ _ Hinv) as Hok.
  rewrite <- app_assoc in Hs, Hok. cbn [app] in Hs, Hok. rewrite sep_app_cons in Hs.
  destruct Hs as [Hd _]. rewrite list.Forall_forall in Hd, Hok.
  split; [by apply Hd|]. apply Hok. rewrite elem_of_app in *. destruct Hb; [by left|right; by right].
Qed.

Lemma found_block : block_ok h (a, s).
Proof.
  pose proof (inv_ok _ _ _ _ Hinv) as Hok. rewrite !Forall_app, Forall_cons in Hok. apply Hok.
Qed.

Lemma found_pre_disj b c : b ∈ pre -> c ∈ l ++ al -> disj b c.
Proof.
  intros Hb Hc. pose proof (inv_sep _ _ _ _ Hinv) as Hs.
  apply list_elem_of_split in Hb as (p1 & p2 & ->).
  rewrite <- !app_assoc in Hs. cbn [app] in Hs. rewrite sep_app_cons in Hs.
  destruct Hs as [Hd _]. rewrite list.Forall_forall in Hd. apply Hd. set_solver.
Qed.


(** Both outcomes of the split test: the block found is replaced on the free
    list by [r] (nothing, or the remainder) and a block of size [t] at its
    start becomes allocated. *)
Context (r : list block) (t : Z).
Hypothesis Hr : r = [] /\ t = s \/ r = [(a + t, s - t)] /\ 16 <= s - t.
Hypothesis Ht : 16 <= t /\ t mod 16 = 0.

Lemma found_tiling :
  sep ((pre ++ r ++ l) ++ (a, t) :: al) /\ Forall (block_ok h) ((pre ++ r ++ l) ++ (a, t) :: al) /\
  total ((pre ++ r ++ l) ++ (a, t) :: al) = heap_end h - heap_start h.
Proof.
  destruct Hinv as [_ _ Hs Hok Htot _].
  set (k := pre ++ l ++ al).
  assert (Hp1 : (pre ++ (a, s) :: l) ++ al ≡ₚ (a, s) :: k) by (unfold k; solve_Permutation).
  assert (Hp2 : (pre ++ r ++ l) ++ (a, t) :: al ≡ₚ r ++ (a, t) :: k) by (unfold k; solve_Permutation).
  rewrite Hp1 in Hs, Hok, Htot. rewrite Hp2. clear Hp1 Hp2.
  destruct Hs as [Hd Hs]. apply Forall_cons in Hok as [(H1 & H2 & H3 & H4 & H5) Hok].
  destruct Hr as [[-> ->]|[-> H16]]; [repeat split; try done; by constructor|].
  unfold disj, block_ok in *. cbn [fst snd app sep total foldr] in *.
  split; [|split; [|unfold total in Htot; cbn [foldr snd] in Htot; unfold total; lia]].
  - split; [constructor; [right; cbn [fst snd]; lia|]|split; [|done]];
      (eapply Forall_impl; [exact Hd|]); intros b; unfold disj; cbn [fst snd]; lia.
  - destruct Ht as [Ht1 Ht2].
    constructor; [|constructor; [|done]]; cbn [fst snd]; repeat split; try lia;
      clear Hinv; Z.to_euclidean_division_equations; lia.
Qed.

Lemma found_link v m1 h2 m2 :
  seg m (free_list h) pre a -> seg m a ((a, s) :: l) 0 ->
  (forall x, x < a + t \/ a + s <= x -> m1 x = m x) ->
  seg m1 v r (blk_next m a) ->
  set_link (link_of pre) v h m1 = (h2, m2) ->
  seg m2 (free_list h2) pre v /\ heap_start h2 = heap_start h /\ heap_end h2 = heap_end h /\
  (forall x, a <= x < a + s -> m2 x = m1 x) /\
  (forall b x, b ∈ l ++ al -> b.1 <= x < b.1 + b.2 -> m2 x = m x).
Proof.
  intros Hpre (_ & Hsz & Hl) Hm1 Hsegr Hlink.
  pose proof found_block as (Ha1 & Ha2 & Ha3 & Ha4 & Ha5). cbn [fst snd] in *.
  pose proof (inv_bounds _ _ _ _ Hinv) as Hb.
  assert (Hv : 0 <= v < 2 ^ 64).
  { destruct Hr as [[-> ->]|[-> H16]]; [|destruct Hsegr as [-> _]; cbn [fst]; lia].
    simpl in Hsegr. subst v.
    eapply (seg_head_range h m _ al _ (pre ++ [(a, s)]) l); [exact Hinv| |exact Hl].
    by rewrite <- app_assoc. }
  destruct (set_link_seg pre a v h m1 h2 m2) as (Hs2 & Hst & Hen & Hm2).
  { eapply seg_ext; [|exact Hpre]. intros b x Hbp Hx. apply Hm1.
    destruct (found_disj b) as [Hd (_ & _ & Hb16 & _)]; [set_solver|].
    unfold disj in *. cbn [fst snd] in *. lia. }
  { pose proof (inv_sep _ _ _ _ Hinv) as Hs. clear -Hs.
    induction pre as [|b p IH]; simpl in *; [done|]. destruct Hs as [Hf Hs].
    rewrite <- app_assoc, Forall_app in Hf. split; [apply Hf|by apply IH]. }
  { pose proof (inv_ok _ _ _ _ Hinv) as Hok. rewrite !Forall_app in Hok. apply Hok. }
  { done. }
  { exact Hlink. }
  do 3 (split; [done|]). split.
  - intros x Hx. apply Hm2. intros b Hbp.
    destruct (found_disj b) as [Hd (_ & _ & Hb16 & _)]; [set_solver|].
    unfold disj in *. cbn [fst snd] in *. lia.
  - intros b x Hbl Hx. destruct (found_disj b) as [Hd _]; [set_solver|].
    unfold disj in Hd. cbn [fst snd] in Hd.
    rewrite Hm2; [apply Hm1; lia|]. intros b' Hb'. pose proof (found_pre_disj b' b Hb' Hbl) as Hd'.
    destruct (found_disj b') as [_ (_ & _ & Hb16 & _)]; [set_solver|].
    unfold disj in *. lia.
Qed.

Lemma found_inv v m1 h2 m2 :
  seg m (free_list h) pre a -> seg m a ((a, s) :: l) 0 ->
  (forall x, x < a + t \/ a + s <= x -> m1 x = m x) ->
  seg m1 v r (blk_next m a) ->
  set_link (link_of pre) v h m1 = (h2, m2) ->
  heap_inv h2 (st64 m2 a t) (pre ++ r ++ l) ((a, t) :: al) /\ kept al m (st64 m2 a t).
Proof.
  intros Hpre Hcur Hm1 Hsegr Hlink.
  destruct (found_link v m1 h2 m2 Hpre Hcur Hm1 Hsegr Hlink) as (Hs2 & Hst & Hen & Hin & Hout).
  pose proof found_block as (Ha1 & Ha2 & Ha3 & Ha4 & Ha5). cbn [fst snd] in *.
  pose proof (inv_bounds _ _ _ _ Hinv) as Hb.
  assert (Hfar : forall b x, b ∈ pre ++ l ++ al -> b.1 <= x < b.1 + b.2 -> st64 m2 a t x = m2 x).
  { intros b x Hbl Hx. destruct (found_disj b Hbl) as [Hd _]. unfold disj in Hd.
    cbn [fst snd] in Hd. apply st64_out. lia. }
  assert (H16 : forall b, b ∈ pre ++ l ++ al -> 16 <= b.2) by (intros b Hbl; apply (found_disj b Hbl)).
  split; [|intros b x Hbl Hx; rewrite (Hfar b) by (done || set_solver); apply (Hout b); set_solver].
  destruct found_tiling as (T1 & T2 & T3). split; try done.
  - apply seg_app. exists v. split.
    { eapply seg_ext; [|exact Hs2]. intros b x Hbp Hx. specialize (H16 b ltac:(set_solver)).
      apply (Hfar b); [set_solver|lia]. }
    apply seg_app. exists (blk_next m a). split.
    { eapply seg_ext; [|exact Hsegr]. intros b x Hbr Hx.
      destruct Hr as [[-> ->]|[-> Hrs]]; [by apply not_elem_of_nil in Hbr|].
      apply list_elem_of_singleton in Hbr as ->. cbn [fst snd] in *.
      rewrite st64_out by lia. apply Hin. lia. }
    destruct Hcur as (_ & _ & Hl). eapply seg_ext; [|exact Hl]. intros b x Hbl Hx.
    specialize (H16 b ltac:(set_solver)).
    rewrite (Hfar b) by (lia || set_solver). apply (Hout b); [set_solver|lia].
  - constructor.
    { cbn [fst snd]. apply ld64_st64. destruct Hr as [[-> ->]|[-> ?]]; lia. }
    pose proof (inv_hdr _ _ _ _ Hinv) as Hh. rewrite list.Forall_forall in Hh |- *.
    intros b Hba. rewrite <- Hh by done. apply ld64_ext. intros x Hx.
    specialize (H16 b ltac:(set_solver)).
    rewrite (Hfar b) by (lia || set_solver). apply (Hout b); [set_solver|lia].
  - eapply Forall_impl; [exact T2|]. intros b. unfold block_ok. by rewrite Hst, Hen.
  - by rewrite T3, Hst, Hen.
  - by rewrite Hst, Hen.
Qed.
End found.

(** The branch that takes a block, on a block known to be large enough. *)
Lemma kmalloc_take h m pre a s l al need fuel :
  heap_inv h m (pre ++ (a, s) :: l) al ->
  seg m (free_list h) pre a -> seg m a ((a, s) :: l) 0 ->
  16 <= need <= s -> need mod 16 = 0 ->
  exists h' m' fl' sz, kmalloc_loop (S fuel) need (link_of pre) a h m = Some (a + 8, h', m') /\
    need <= sz <= s /\ heap_inv h' m' fl' ((a, sz) :: al) /\ kept al m m'.
Proof.
  intros Hinv Hpre Hcur Hn Hnm. pose proof Hcur as (_ & Hsz & Hl). cbn [fst snd] in *.
  pose proof (found_block _ _ _ _ _ _ _ Hinv) as (H1 & H2 & H3 & H4 & H5). cbn [fst snd] in *.
  pose proof (inv_bounds _ _ _ _ Hinv) as Hb.
  cbn [kmalloc_loop]. rewrite Hsz. replace (a =? 0) with false by lia.
  replace (s >=? need) with true by lia. rewrite (u64_small (s - need)), (u64_small (a + need)) by lia.
  break_if; bools.
  - set (m1 := st64 (st64 m (a + need) (s - need)) (a + need + 8)
                 (blk_next (st64 m (a + need) (s - need)) a)).
    destruct (set_link (link_of pre) (a + need) h m1) as [h2 m2] eqn:E.
    destruct (found_inv h m pre l al a s Hinv [(a + need, s - need)] need) with
      (v := a + need) (m1 := m1) (h2 := h2) (m2 := m2) as [Hi Hk]; try done.
    + right. split; [done|lia].
    + split; [lia|done].
    + intros x Hx. unfold m1. rewrite !st64_out by lia. done.
    + assert (Hnx : blk_next (st64 m (a + need) (s - need)) a = blk_next m a)
        by (apply ld64_st64_ne; lia).
      unfold m1. rewrite Hnx. cbn [seg fst snd]. unfold blk_size.
      assert (0 <= blk_next m a < 2 ^ 64).
      { eapply (seg_head_range h m _ al _ (pre ++ [(a, s)]) l); [exact Hinv| |exact Hl].
        by rewrite <- app_assoc. }
      split; [done|]. rewrite ld64_st64_ne, ld64_st64 by lia. split; [done|].
      apply ld64_st64. done.
    + exists h2, (st64 m2 a need), (pre ++ [(a + need, s - need)] ++ l), need.
      split; [done|]. split; [lia|done].
  - destruct (set_link (link_of pre) (blk_next m a) h m) as [h2 m2] eqn:E.
    destruct (found_inv h m pre l al a s Hinv [] s) with
      (v := blk_next m a) (m1 := m) (h2 := h2) (m2 := m2) as [Hi Hk]; try done.
    + by left.
    + exists h2, (st64 m2 a s), (pre ++ [] ++ l), s. split; [done|]. split; [lia|done].
Qed.

Lemma kmalloc_loop_spec l : forall fuel need pre al h m cur,
  heap_inv h m (pre ++ l) al ->
  seg m (free_list h) pre cur -> seg m cur l 0 ->
  16 <= need -> need mod 16 = 0 -> (length l < fuel)%nat ->
  Forall (fun b => b.2 < need) pre ->
  exists p h' m', kmalloc_loop fuel need (link_of pre) cur h m = Some (p, h', m') /\
    (p = 0 /\ h' = h /\ m' = m /\ Forall (fun b => b.2 < need) (pre ++ l) \/
     exists a fl' sz, p = a + 8 /\ 0 < a /\ need <= sz /\ heap_inv h' m' fl' ((a, sz) :: al) /\
       kept al m m').
Proof.
  induction l as [|[a s] l IH]; intros fuel need pre al h m cur Hinv Hpre Hcur Hn Hnm Hfuel Hsmall;
    (destruct fuel as [|fuel]; [simpl in Hfuel; lia|]).
  { simpl in Hcur. subst cur. exists 0, h, m. split; [done|]. left. by rewrite app_nil_r. }
  pose proof Hcur as (-> & Hsz & Hl). cbn [fst snd] in *.
  pose proof (found_block _ _ _ _ _ _ _ Hinv) as (H1 & H2 & H3 & H4 & H5). cbn [fst snd] in *.
  pose proof (inv_bounds _ _ _ _ Hinv) as Hb.
  destruct (decide (need <= s)) as [Hfit|Hfit].
  - destruct (kmalloc_take h m pre a s l al need fuel) as (h' & m' & fl' & sz & -> & Hs & Hi & Hk);
      [done..|]. exists (a + 8), h', m'. split; [done|]. right. exists a, fl', sz.
    split; [done|]. split; [lia|]. split; [lia|done].
  - cbn [kmalloc_loop]. replace (a =? 0) with false by lia. rewrite Hsz.
    replace (s >=? need) with false by lia.
    specialize (IH fuel need (pre ++ [(a, s)]) al h m (blk_next m a)).
    unfold link_of in IH. rewrite last_snoc in IH. rewrite <- app_assoc in IH.
    apply IH; try done.
    + apply seg_app. exists a. split; [done|]. cbn [seg fst snd]. done.
    + simpl in Hfuel. lia.
    + apply Forall_app. split; [done|]. constructor; [cbn [snd]; lia|done].
Qed.

(** The requested size, rounded: what [kmalloc] looks for. *)
Lemma kmalloc_need n :
  0 < n < 2 ^ 64 - 32 ->
  let need := align_up (u64 (n + 8)) KHEAP_ALIGN in
  n + 8 <= need < n + 24 /\ need mod 16 = 0 /\ 16 <= need.
Proof.
  intros Hn. unfold align_up. rewrite (u64_small (n + 8)), u64_small by lia.
  change (16 - 1) with (2 ^ 4 - 1). rewrite align_down_spec by lia. cbv zeta.
  change (2 ^ 4) with 16. Z.to_euclidean_division_equations; lia.
Qed.

Lemma kmalloc_inv n h m fl al :
  heap_inv h m fl al -> 0 <= n < 2 ^ 64 - 32 ->
  exists p h' m', kmalloc n h m = (p, h', m') /\
    (p = 0 /\ h' = h /\ m' = m /\
     (n = 0 \/ Forall (fun b => b.2 < align_up (u64 (n + 8)) KHEAP_ALIGN) fl) \/
     exists a fl' sz, p = a + 8 /\ 0 < a /\ n + 8 <= sz /\ heap_inv h' m' fl' ((a, sz) :: al) /\
       kept al m m').
Proof.
  intros Hinv Hn. unfold kmalloc. destruct (Z.eqb_spec n 0) as [->|Hn0].
  { exists 0, h, m. split; [done|]. left. auto. }
  pose proof (kmalloc_need n ltac:(lia)) as (Hneed & Hmod & H16). cbv zeta in *.
  destruct (kmalloc_loop_spec fl (kheap_fuel h) (align_up (u64 (n + 8)) KHEAP_ALIGN) [] al h m
    (free_list h)) as (p & h' & m' & Hloop & Hcase); try done.
  - apply Hinv.
  - unfold kheap_fuel. pose proof (inv_ok _ _ _ _ Hinv) as Hok. apply total_ge in Hok.
    rewrite (inv_total _ _ _ _ Hinv), length_app in Hok.     Z.to_euclidean_division_equations; lia.
  - cbn [link_of last fmap option_fmap option_map] in Hloop. rewrite Hloop.
    exists p, h', m'. split; [done|]. destruct Hcase as [(-> & -> & -> & Hall)|(a & fl' & sz & H)].
    + left. auto.
    + right. exists a, fl', sz. destruct H as (-> & Ha & Hs & Hi & Hk). split; [done|].
      split; [done|]. split; [lia|done].
Qed.

(** The bounds of the heap are fixed. *)
Lemma kmalloc_bounds n h m p h' m' :
  kmalloc n h m = (p, h', m') -> heap_start h' = heap_start h /\ heap_end h' = heap_end h.
Proof.
  assert (Hl : forall fuel need prev cur h m p h' m',
    kmalloc_loop fuel need prev cur h m = Some (p, h', m') ->
    heap_start h' = heap_start h /\ heap_end h' = heap_end h).
  { induction fuel as [|fuel IH]; intros need prev cur h0 m0 q h1 m1; cbn [kmalloc_loop]; [done|].
    break_if; [by intros [= <- <- <-]|]. break_if; [|apply IH].
    break_if; destruct prev; cbn [set_link]; by intros [= <- <- <-]. }
  unfold kmalloc. break_if; [by intros [= <- <- <-]|].
  destruct (kmalloc_loop _ _ _ _ _ _) as [[[q h1] m1]|] eqn:E; cbn [default]; intros [= <- <- <-]; [|done].
  by apply Hl in E.
Qed.

(** ** Freeing *)
Lemma kfree_inv h m fl al1 b al2 h' m' :
  heap_inv h m fl (al1 ++ b :: al2) -> kfree (b.1 + 8) h m = (h', m') ->
  heap_inv h' m' (b :: fl) (al1 ++ al2).
Proof.
  intros Hinv. destruct Hinv as [Hseg Hhdr Hsep Hok Htot Hb].
  assert (Hp : fl ++ al1 ++ b :: al2 ≡ₚ b :: fl ++ al1 ++ al2) by solve_Permutation.
  rewrite Hp in Hsep, Hok, Htot. apply Forall_cons in Hok as [Hbok Hok].
  destruct Hsep as [Hd Hsep]. pose proof Hbok as (H1 & H2 & H3 & _).
  rewrite !Forall_app, Forall_cons in Hhdr. destruct Hhdr as (Hh1 & Hhb & Hh2).
  unfold kfree in *.
  replace ((b.1 + 8 =? 0) || (b.1 + 8 <? heap_start h) || (b.1 + 8 >=? heap_end h)) with false by lia.
  replace (b.1 + 8 - 8) with b.1 by lia. intros [= <- <-].
  set (m1 := st64 (st64 m b.1 (ld64 m b.1)) (b.1 + 8) (free_list h)).
  assert (Hout : forall c x, c ∈ fl ++ al1 ++ al2 -> c.1 <= x < c.1 + 16 -> m1 x = m x).
  { intros c x Hc Hx. rewrite list.Forall_forall in Hd, Hok. specialize (Hd c Hc).
    destruct (Hok c Hc) as (_ & _ & Hc16 & _). unfold disj in *.
    unfold m1. rewrite !st64_out by lia. done. }
  assert (Hfl : 0 <= free_list h < 2 ^ 64).
  { destruct fl as [|c fl]; simpl in Hseg; [lia|]. destruct Hseg as [-> _].
    apply Forall_cons in Hok as [(? & ? & ? & _) _]. lia. }
  split; try done; rsimpl.
  - cbn [seg]. split; [done|]. unfold blk_size, blk_next in *.
    split.
    + unfold m1. rewrite Hhb, ld64_st64_ne, ld64_st64 by lia. done.
    + replace (ld64 m1 (b.1 + 8)) with (free_list h) by (symmetry; by apply ld64_st64). eapply seg_ext; [|exact Hseg].
      intros c x Hc. apply Hout. set_solver.
  - rewrite Forall_app. assert (Hk : forall c, c ∈ al1 ++ al2 -> blk_size m1 c.1 = blk_size m c.1).
    { intros c Hc. apply ld64_ext. intros x Hx. apply (Hout c); [set_solver|lia]. }
    rewrite list.Forall_forall in Hh1, Hh2. rewrite !list.Forall_forall.
    split; intros c Hc; rewrite Hk by set_solver; auto.
  - by constructor.
Qed.

Lemma heap_write_inv h m m' fl al :
  heap_inv h m fl al ->
  (forall x, m' x <> m x -> exists b, b ∈ al /\ b.1 + 8 <= x < b.1 + b.2) ->
  heap_inv h m' fl al.
Proof.
  intros [Hseg Hhdr Hsep Hok Htot Hb] Hx. split; try done.
  - eapply seg_ext; [|exact Hseg]. intros b x Hbf Hbx.
    destruct (decide (m' x = m x)) as [|Hne]; [done|exfalso].
    destruct (Hx x Hne) as (c & Hc & Hcx).
    apply list_elem_of_split in Hbf as (f1 & f2 & ->). rewrite <- app_assoc in Hsep, Hok.
    cbn [app] in Hsep, Hok.
    rewrite sep_app_cons in Hsep. destruct Hsep as [Hd _]. rewrite list.Forall_forall in Hd, Hok.
    specialize (Hd c ltac:(set_solver)). destruct (Hok b ltac:(set_solver)) as (_ & _ & Hb16 & _).
    unfold disj in *. lia.
  - rewrite list.Forall_forall in Hhdr |- *. intros b Hba. rewrite <- Hhdr by done.
    apply ld64_ext. intros x Hbx. destruct (decide (m' x = m x)) as [|Hne]; [done|exfalso].
    destruct (Hx x Hne) as (c & Hc & Hcx).
    destruct (decide (b = c)) as [->|Hbc]; [lia|].
    apply list_elem_of_split in Hba as (a1 & a2 & ->). rewrite app_assoc in Hsep, Hok.
    rewrite sep_app_cons in Hsep. destruct Hsep as [Hd _]. rewrite list.Forall_forall in Hd, Hok.
    specialize (Hd c ltac:(set_solver)). destruct (Hok b ltac:(set_solver)) as (_ & _ & Hb16 & _).
    unfold disj in *. lia.
Qed.

Definition heap_good (s : kheap * mem * list block) : Prop := exists fl, heap_inv s.1.1 s.1.2 fl s.2.

Lemma heap_step_good s s' : heap_step s s' -> heap_good s -> heap_good s'.
Proof.
  intros Hs [fl Hinv]. destruct Hs as [n h m al p h' m' sz Hn Hk Hsz|h m al1 b al2 h' m' Hf|h m m' al Hx];
    cbn [fst snd] in *.
  - destruct (kmalloc_inv n h m fl al Hinv Hn) as (p2 & h2 & m2 & Hk2 & Hcase).
    rewrite Hk in Hk2. injection Hk2 as <- <- <-. subst sz.
    destruct Hcase as [(-> & -> & -> & _)|(a & fl' & sz & -> & Ha & _ & Hi & _)].
    + exists fl. cbn [fst snd]. exact Hinv.
    + exists fl'. cbn [fst snd]. replace (a + 8 =? 0) with false by lia.
      replace (a + 8 - 8) with a by lia. pose proof (inv_hdr _ _ _ _ Hi) as Hh.
      apply Forall_cons in Hh as [Hh _]. cbn [fst snd] in Hh. by rewrite Hh.
  - exists (b :: fl). by apply (kfree_inv h m fl al1 b al2).
  - exists fl. by apply (heap_write_inv h m).
Qed.

Lemma kheap_init_inv base size m :
  0 < base -> base + size < 2 ^ 64 -> KHEAP_MIN_BLOCK <= size ->
  base mod KHEAP_ALIGN = 0 -> size mod KHEAP_ALIGN = 0 ->
  heap_inv (kheap_init base size m).1 (kheap_init base size m).2 [(base, size)] [].
Proof.
  intros. unfold kheap_init. rewrite u64_small by lia. cbn [fst snd].
  split; cbn [heap_start heap_end free_list app].
  - cbn [seg fst snd]. unfold blk_size, blk_next. split; [done|].
    rewrite ld64_st64_ne, !ld64_st64 by lia. done.
  - done.
  - split; [by apply Forall_nil|done].
  - constructor; [|done]. unfold block_ok. cbn [fst snd heap_start heap_end].
    split; [lia|]. split; [lia|]. done.
  - cbn [total foldr snd]. unfold total. simpl. lia.
  - lia.
Qed.



(** A request close to [2^64] bytes wraps to a tiny one: it succeeds, and its
    header then covers the whole heap with a free block of size zero. *)
Lemma kmalloc_wraps :
  let s0 := kheap_init 0x1000 128 (fun _ => 0) in
  let s1 := kmalloc (2 ^ 64 - 8) s0.1 s0.2 in
  s1.1.1 = 0x1008 /\ free_list s1.1.2 = 0x1000 /\ blk_size s1.2 0x1000 = 0.
Proof. vm_compute. auto. Qed.
