(* ===== verification/Untyped.v ===== *)
(** * Untyped and DMA memory ([src/src/core/untyped.c], [src/src/core/dma.c])

    Two bump allocators over a physical region.  The theorems show that a
    sequence of allocations returns page-aligned, pairwise disjoint ranges
    inside the region, and delimit the sizes for which this is true: the
    rounding and the bound test are 64-bit, and a request near [2^64] wraps. *)
From Stdlib Require Import ZArith Lia.
From stdpp Require Import base numbers sets list list_numbers functions.
From S2P Require Import Prelude Abi Memory.

(** ** untyped.c *)
Record untyped := mk_untyped {
  region_base : Z;
  region_size : Z;
  watermark : Z
}.
#[export] Instance eta_untyped : Eta untyped := fun u =>
  mk_untyped (region_base u) (region_size u) (watermark u).

Definition untyped_init (base size : Z) : untyped := mk_untyped base size 0.

(** [(size + PAGE_SIZE_4K - 1) & ~(PAGE_SIZE_4K - 1)] *)
Definition page_round (size : Z) : Z :=
  Z.land (u64 (size + PAGE_SIZE_4K - 1)) (not64 (PAGE_SIZE_4K - 1)).

Definition untyped_alloc (size : Z) (u : untyped) (m : mem) : Z * untyped * mem :=
  let aligned := page_round size in
  let aligned := if aligned =? 0 then PAGE_SIZE_4K else aligned in
  if u64 (watermark u + aligned) >? region_size u then (0, u, m)
  else
    let frame := u64 (region_base u + watermark u) in
    let u := u <| watermark := u64 (watermark u + aligned) |> in
    (frame, u, memset m frame 0 aligned).

Definition untyped_range (u : untyped) : Z * Z := (region_base u, region_size u).

(** ** dma.c *)
Record dma := mk_dma {
  dma_base : Z;
  dma_size : Z;
  dma_used : Z
}.
#[export] Instance eta_dma : Eta dma := fun d => mk_dma (dma_base d) (dma_size d) (dma_used d).

Definition dma_region_init (base size : Z) : dma := mk_dma base size 0.

Definition dma_region_alloc (bytes : Z) (d : dma) : Z * dma :=
  let start := Z.land (u64 (dma_used d + 4095)) (not64 4095) in
  let end_ := u64 (start + Z.land (u64 (bytes + 4095)) (not64 4095)) in
  if end_ >? dma_size d then (0, d)
  else (u64 (dma_base d + start), d <| dma_used := end_ |>).

Definition dma_range (d : dma) : Z * Z := (dma_base d, dma_size d).

(** ** Runs of allocations *)

(** Ranges handed out, oldest first, as (address, requested size). *)
Fixpoint untyped_run (sizes : list Z) (u : untyped) (m : mem) : list (Z * Z) * untyped * mem :=
  match sizes with
  | [] => ([], u, m)
  | s :: sizes =>
      let '(f, u, m) := untyped_alloc s u m in
      let '(l, u, m) := untyped_run sizes u m in
      (if f =? 0 then l else (f, s) :: l, u, m)
  end.

Fixpoint dma_run (sizes : list Z) (d : dma) : list (Z * Z) * dma :=
  match sizes with
  | [] => ([], d)
  | s :: sizes =>
      let '(f, d) := dma_region_alloc s d in
      let '(l, d) := dma_run sizes d in
      (if f =? 0 then l else (f, s) :: l, d)
  end.

(** Page-aligned ranges in increasing order, without overlap, in [lo, hi). *)
Fixpoint packed (lo hi : Z) (l : list (Z * Z)) : Prop :=
  match l with
  | [] => lo <= hi
  | (f, s) :: l => lo <= f /\ f mod PAGE_SIZE_4K = 0 /\ packed (f + s) hi l
  end.

(** ** Lemmas *)
Lemma page_round_spec s :
  0 <= s < 2 ^ 64 - PAGE_SIZE_4K ->
  s <= page_round s < s + PAGE_SIZE_4K /\ page_round s mod PAGE_SIZE_4K = 0.
Proof.
  unfold page_round, PAGE_SIZE_4K. intros. rewrite u64_small by lia.
  change (0x1000 - 1) with (2 ^ 12 - 1). rewrite align_down_spec by lia.
  change (2 ^ 12) with 4096. change 0x1000 with 4096. Z.to_euclidean_division_equations; lia.
Qed.

Lemma packed_weaken lo lo' hi l : lo' <= lo -> packed lo hi l -> packed lo' hi l.
Proof. destruct l as [|[f s] l]; simpl; intros; [lia|]. intuition lia. Qed.

Definition untyped_ok (u : untyped) : Prop :=
  0 < region_base u /\ region_base u mod PAGE_SIZE_4K = 0 /\
  0 <= watermark u <= region_size u /\ watermark u mod PAGE_SIZE_4K = 0 /\
  region_base u + region_size u < 2 ^ 63.

(** One allocation from a well-formed region, for any size that does not wrap. *)
Lemma untyped_alloc_spec s u m f u' m' :
  untyped_ok u -> 0 <= s < 2 ^ 62 -> untyped_alloc s u m = (f, u', m') ->
  untyped_ok u' /\ region_base u' = region_base u /\ region_size u' = region_size u /\
  (f = 0 /\ u' = u /\ m' = m /\ region_size u < watermark u + Z.max s 1 + PAGE_SIZE_4K \/
   f = region_base u + watermark u /\ f + s <= region_base u + watermark u' /\
   f mod PAGE_SIZE_4K = 0 /\ watermark u < watermark u' /\
   forall x, m' x = if (f <=? x) && (x <? region_base u + watermark u') then 0 else m x).
Proof.
  unfold untyped_ok. intros (H1 & H2 & H3 & H4 & H5) Hs.
  unfold untyped_alloc. pose proof (page_round_spec s) as Hr. unfold PAGE_SIZE_4K in *.
  destruct Hr as [Hr1 Hr2]; [lia|]. set (al := if page_round s =? 0 then _ else _).
  assert (Hal : Z.max s 1 <= al < Z.max s 1 + 4096 /\ al mod 4096 = 0).
  { unfold al. break_if; bools; [split; [lia|done]|]. lia. }
  clearbody al. rewrite (u64_small (watermark u + al)) by lia. break_if; bools.
  { intros [= <- <- <-]. split; [auto|]. split; [done|]. split; [done|]. left.
    repeat (split; [done|]). lia. }
  rewrite u64_small by lia. intros [= <- <- <-]. rsimpl.
  split; [repeat split; try lia; Z.to_euclidean_division_equations; lia|].
  do 2 (split; [done|]). right. split; [done|]. split; [lia|].
  split; [Z.to_euclidean_division_equations; lia|]. split; [lia|].
  intros x. rewrite memset_spec by lia. change (u8 0) with 0.
  by replace (region_base u + watermark u + al) with (region_base u + (watermark u + al)) by lia.
Qed.

Lemma untyped_run_packed sizes u m l u' m' :
  untyped_ok u -> Forall (fun s => 0 <= s < 2 ^ 62) sizes ->
  untyped_run sizes u m = (l, u', m') ->
  packed (region_base u + watermark u) (region_base u + region_size u) l /\ untyped_ok u'.
Proof.
  revert u m l. induction sizes as [|s sizes IH]; intros u m l Hu Hs; cbn [untyped_run].
  { intros [= <- <- <-]. split; [|done]. simpl. unfold untyped_ok in Hu. lia. }
  inversion_clear Hs as [|? ? Hs1 Hss].
  destruct (untyped_alloc s u m) as [[f u1] m1] eqn:E.
  destruct (untyped_run sizes u1 m1) as [[l1 u2] m2] eqn:El. intros [= <- <- <-].
  destruct (untyped_alloc_spec s u m f u1 m1 Hu Hs1 E) as (Hu1 & Hb & Hz & Hcase).
  destruct (IH u1 m1 l1 Hu1 Hss El) as [Hp Hu2]. rewrite Hb, Hz in Hp. split; [|done].
  destruct Hcase as [(-> & -> & _)|(Hf & Hfs & Hfm & Hw & _)]; [done|].
  unfold untyped_ok in Hu. replace (f =? 0) with false by lia. cbn [packed].
  split; [lia|]. split; [done|]. eapply packed_weaken; [|exact Hp]. lia.
Qed.

(** Untyped memory is handed out as page-aligned, pairwise disjoint ranges,
    each at least as large as requested and inside the region, for every
    sequence of requests below [2^62] bytes. *)
Theorem untyped_disjoint base size sizes m l u m' :
  0 < base -> base mod PAGE_SIZE_4K = 0 -> 0 <= size -> base + size < 2 ^ 63 ->
  Forall (fun s => 0 <= s < 2 ^ 62) sizes ->
  untyped_run sizes (untyped_init base size) m = (l, u, m') ->
  packed base (base + size) l /\ untyped_range u = (base, size).
Proof.
  intros Hb Hm Hs Hbs Hss Hr.
  assert (Hok : untyped_ok (untyped_init base size)).
  { unfold untyped_ok, untyped_init. simpl. repeat split; try done; lia. }
  destruct (untyped_run_packed _ _ _ _ _ _ Hok Hss Hr) as [Hp _].
  simpl in Hp. rewrite Z.add_0_r in Hp. split; [done|].
  assert (Hkeep : forall sizes v m l v' m', untyped_run sizes v m = (l, v', m') ->
            untyped_range v' = untyped_range v).
  { clear. induction sizes as [|s sizes IH]; intros v m l v' m'; cbn [untyped_run].
    - by intros [= <- <- <-].
    - destruct (untyped_alloc s v m) as [[f v1] m1] eqn:E.
      destruct (untyped_run sizes v1 m1) as [[l1 v2] m2] eqn:El. intros [= <- <- <-].
      apply IH in El as ->. revert E. unfold untyped_alloc. cbv zeta.
      destruct (_ >? _); by intros [= _ <- _]. }
  by apply Hkeep in Hr as ->.
Qed.

Lemma untyped_disjoint_witness :
  exists l u m', untyped_run [1; 0; 100000] (untyped_init 0x100000 0x2000) (fun _ => 1) = (l, u, m') /\
    l = [(0x100000, 1); (0x101000, 0)] /\ packed 0x100000 0x102000 l.
Proof.
  destruct (untyped_run [1; 0; 100000] (untyped_init 0x100000 0x2000) (fun _ => 1))
    as [[l u] m'] eqn:E.
  assert (l = [(0x100000, 1); (0x101000, 0)]) as El.
  { change l with (l, u, m').1.1. rewrite <- E. vm_compute. reflexivity. }
  exists l, u, m'. split; [done|]. split; [done|].
  refine (proj1 (untyped_disjoint 0x100000 0x2000 [1; 0; 100000] (fun _ => 1) l u m' _ _ _ _ _ E));
    [lia|reflexivity|lia|lia|repeat (apply Forall_cons_2; [lia|]); by apply Forall_nil_2].
Defined.

(** The DMA allocator has the same contract, without zeroing. *)
Definition dma_ok (d : dma) : Prop :=
  0 < dma_base d /\ dma_base d mod PAGE_SIZE_4K = 0 /\ 0 <= dma_used d <= dma_size d /\
  dma_base d + dma_size d < 2 ^ 63.

Lemma dma_alloc_spec s d f d' :
  dma_ok d -> 0 <= s < 2 ^ 62 -> dma_region_alloc s d = (f, d') ->
  dma_ok d' /\ dma_range d' = dma_range d /\
  (f = 0 /\ d' = d \/
   f mod PAGE_SIZE_4K = 0 /\ dma_base d + dma_used d <= f /\ f + s <= dma_base d + dma_used d').
Proof.
  unfold dma_ok, dma_region_alloc. intros (H1 & H2 & H3 & H5) Hs. unfold PAGE_SIZE_4K in *.
  change 4095 with (2 ^ 12 - 1).
  rewrite !(u64_small (_ + (2 ^ 12 - 1))), !align_down_spec by lia.
  change (2 ^ 12) with 4096. change 0x1000 with 4096 in *.
  set (st := dma_used d + (4096 - 1) - (dma_used d + (4096 - 1)) mod 4096).
  set (ln := s + (4096 - 1) - (s + (4096 - 1)) mod 4096).
  assert (dma_used d <= st < dma_used d + 4096 /\ st mod 4096 = 0).
  { unfold st. clear. Z.to_euclidean_division_equations; lia. }
  assert (s <= ln < s + 4096 /\ ln mod 4096 = 0).
  { unfold ln. clear. Z.to_euclidean_division_equations; lia. }
  clearbody st ln. rewrite (u64_small (st + ln)) by lia. break_if; bools.
  { intros [= <- <-]. split; [auto|]. split; [done|]. by left. }
  rewrite u64_small by lia. intros [= <- <-]. unfold dma_range. rsimpl. split; [lia|]. split; [done|].
  right. Z.to_euclidean_division_equations; lia.
Qed.

(** DMA memory is handed out as page-aligned, pairwise disjoint ranges
    inside the region, each at least as large as requested, for every sequence
    of requests below [2^62] bytes. *)
Theorem dma_disjoint base size sizes l d :
  0 < base -> base mod PAGE_SIZE_4K = 0 -> 0 <= size -> base + size < 2 ^ 63 ->
  Forall (fun s => 0 <= s < 2 ^ 62) sizes ->
  dma_run sizes (dma_region_init base size) = (l, d) ->
  packed base (base + size) l /\ dma_range d = (base, size).
Proof.
  intros Hb Hm Hs Hbs Hss Hr.
  cut (forall sizes d0 l d, dma_ok d0 -> Forall (fun s => 0 <= s < 2 ^ 62) sizes ->
    dma_run sizes d0 = (l, d) ->
    packed (dma_base d0 + dma_used d0) (dma_base d0 + dma_size d0) l /\ dma_range d = dma_range d0).
  { intros H. destruct (H sizes (dma_region_init base size) l d) as [Hp Hd]; try done.
    simpl in Hp. rewrite Z.add_0_r in Hp. done. }
  clear. induction sizes as [|s sizes IH]; intros d0 l d Hd Hss; cbn [dma_run].
  { intros [= <- <-]. split; [|done]. simpl. unfold dma_ok in Hd. lia. }
  inversion_clear Hss as [|? ? Hs1 Hss']. destruct (dma_region_alloc s d0) as [f d1] eqn:E.
  destruct (dma_run sizes d1) as [l1 d2] eqn:El. intros [= <- <-].
  destruct (dma_alloc_spec s d0 f d1 Hd Hs1 E) as (Hd1 & Hr & Hcase).
  destruct (IH d1 l1 d2 Hd1 Hss' El) as [Hp Hd2]. unfold dma_range in *. injection Hr as Hb Hz.
  rewrite Hb, Hz in Hp. split; [|by rewrite Hd2, Hb, Hz].
  destruct Hcase as [(-> & ->)|(Hfm & Hf & Hfs)]; [done|].
  unfold dma_ok in Hd. replace (f =? 0) with false by lia. cbn [packed].
  split; [lia|]. split; [done|]. eapply packed_weaken; [|exact Hp]. lia.
Qed.

Lemma dma_disjoint_witness :
  exists l d, dma_run [100; 5000; 9000] (dma_region_init 0x100000 0x4000) = (l, d) /\
    l = [(0x100000, 100); (0x101000, 5000)] /\ packed 0x100000 0x104000 l.
Proof.
  exists [(0x100000, 100); (0x101000, 5000)], (mk_dma 0x100000 0x4000 0x3000).
  split; [reflexivity|]. split; [reflexivity|].
  refine (proj1 (dma_disjoint 0x100000 0x4000 [100; 5000; 9000] _ _ _ _ _ _ _ eq_refl));
    [lia|reflexivity|lia|lia|repeat (apply Forall_cons_2; [lia|]); by apply Forall_nil_2].
Defined.

(** Beyond those sizes both allocators wrap: a request of almost [2^64] bytes
    is granted, with one page and with no memory at all. *)
Lemma bump_allocators_wrap :
  (untyped_alloc (2 ^ 64 - 1) (untyped_init 0x100000 0x1000) (fun _ => 0)).1.1 = 0x100000 /\
  dma_region_alloc (2 ^ 64 - 1) (dma_region_init 0x100000 0x1000) = (0x100000, mk_dma 0x100000 0x1000 0).
Proof. vm_compute. auto. Qed.
