(* ===== verification/PageTable.v ===== *)
(** * x86-64 page tables ([src/arch/x86_64/src/vm_arch.c])

    The tables live in physical memory, four levels of 512 words; tables and
    user frames come from the frame allocator.  The file models every
    operation of [vm_arch.c] on the machine state and proves, for the
    four-level tree of an address space: mapping a page gives exactly that
    translation and changes no other one, unmapping removes it, intermediate
    tables are created empty, and no frame outside the tree and the free list
    is written.  TLB invalidation has no effect on this state. *)
From Stdlib Require Import ZArith Lia.
From stdpp Require Import base numbers sets list list_numbers functions.
From S2P Require Import Prelude Abi Memory Pmm Untyped.

(** ** Machine state the memory subsystem works on *)
Record fb_info_t := mk_fb_info {
  phys_addr : Z;
  pitch : Z;
  width : Z;
  height : Z;
  bpp : Z;
  fb_type : Z;
  red_pos : Z; red_size : Z;
  green_pos : Z; green_size : Z;
  blue_pos : Z; blue_size : Z
}.

Record vm_activate_stats_t := mk_vm_activate_stats { loads : Z; skips : Z }.

Record mach := mk_mach {
  ram : mem;
  frames : pmm;
  untyped_st : untyped;
  dma_st : dma;
  g_boot_fb_present : bool;
  g_boot_fb : fb_info_t;
  loaded_cr3 : Z -> Z;
  vm_activate_stats : vm_activate_stats_t
}.
#[export] Instance eta_vm_activate_stats : Eta vm_activate_stats_t := fun s =>
  mk_vm_activate_stats (loads s) (skips s).
#[export] Instance eta_mach : Eta mach := fun s =>
  mk_mach (ram s) (frames s) (untyped_st s) (dma_st s) (g_boot_fb_present s) (g_boot_fb s)
    (loaded_cr3 s) (vm_activate_stats s).

(** ** Entries *)
Definition X86_PTE_P : Z := bit 0.
Definition X86_PTE_RW : Z := bit 1.
Definition X86_PTE_US : Z := bit 2.
Definition X86_PTE_PWT : Z := bit 3.
Definition X86_PTE_PCD : Z := bit 4.
Definition X86_PTE_PS : Z := bit 7.
Definition X86_PTE_NX : Z := bit 63.
Definition PAGE_MASK_4K : Z := not64 (PAGE_SIZE_4K - 1).
Definition PAGE_MASK_2M : Z := not64 (PAGE_SIZE_2M - 1).
Notation LAPIC_PADDR := (0xFEE00000)%Z (only parsing).
Definition PML4_INDEX (vaddr : Z) : Z := Z.land (Z.shiftr vaddr 39) 0x1FF.
Definition PDPT_INDEX (vaddr : Z) : Z := Z.land (Z.shiftr vaddr 30) 0x1FF.
Definition PD_INDEX (vaddr : Z) : Z := Z.land (Z.shiftr vaddr 21) 0x1FF.
Definition PT_INDEX (vaddr : Z) : Z := Z.land (Z.shiftr vaddr 12) 0x1FF.

Definition in_range (x base size : Z) : bool := (x >=? base) && (x <? u64 (base + size)).

(** ** Operations *)
Section vm_arch.
(** Link-time addresses of the boot tables. *)
Context (boot_pml4 boot_pdpt : Z).

Definition pmm_alloc_m (color : Z) (s : mach) : Z * mach :=
  let '(f, p, m) := pmm_alloc color (frames s) (ram s) in
  (f, s <| frames := p |> <| ram := m |>).

Definition pmm_free_m (frame : Z) (s : mach) : mach :=
  let '(p, m) := pmm_free frame (frames s) (ram s) in
  s <| frames := p |> <| ram := m |>.

Definition alloc_table (s : mach) : Z * mach := pmm_alloc_m PMM_COLOR_ANY s.

(** [if (kernel_pdpt[i]) pdpt_table[i] = kernel_pdpt[i];] *)
Definition share_kernel_slot (pdpt i : Z) (m : mem) : mem :=
  if tru (ldw m boot_pdpt i) then stw m pdpt i (ldw m boot_pdpt i) else m.

Definition arch_vm_create_address_space (s : mach) : Z * mach :=
  let '(pml4, s) := alloc_table s in
  let '(pdpt, s) := alloc_table s in
  if (pml4 =? 0) || (pdpt =? 0) then (0, s)
  else
    let m := memset (ram s) pml4 0 PAGE_SIZE_4K in
    let m := memset m pdpt 0 PAGE_SIZE_4K in
    let m := stw m pdpt 0 (ldw m boot_pdpt 0) in
    let m := share_kernel_slot pdpt (PDPT_INDEX LAPIC_PADDR) m in
    let m := share_kernel_slot pdpt (PDPT_INDEX KINFO_VA) m in
    let m := share_kernel_slot pdpt (PDPT_INDEX FRAMEBUFFER_VA) m in
    let m := stw m pml4 0 (Z.lor pdpt (Z.lor X86_PTE_P (Z.lor X86_PTE_RW X86_PTE_US))) in
    (pml4, s <| ram := m |>).

Definition get_next_level (table index : Z) (s : mach) : Z * mach :=
  let s :=
    if negb (has (ldw (ram s) table index) X86_PTE_P) then
      let '(new_table, s) := alloc_table s in
      let m := memset (ram s) new_table 0 PAGE_SIZE_4K in
      s <| ram := stw m table index
             (Z.lor new_table (Z.lor X86_PTE_P (Z.lor X86_PTE_RW X86_PTE_US))) |>
    else s in
  (Z.land (ldw (ram s) table index) PAGE_MASK_4K, s).

(** The permission bits [flags] stand for, on top of [base]. *)
Definition x86_flags (base flags : Z) : Z :=
  let f := base in
  let f := if has flags VM_PROT_WRITE then Z.lor f X86_PTE_RW else f in
  let f := if has flags VM_PROT_USER then Z.lor f X86_PTE_US else f in
  if negb (has flags VM_PROT_EXEC) then Z.lor f X86_PTE_NX else f.

Definition arch_vm_map_large_page (aspace vaddr paddr flags : Z) (s : mach) : Z * mach :=
  let '(pdpt, s) := get_next_level aspace (PML4_INDEX vaddr) s in
  let '(pd, s) := get_next_level pdpt (PDPT_INDEX vaddr) s in
  let e := Z.lor (Z.land paddr PAGE_MASK_2M) (x86_flags (Z.lor X86_PTE_P X86_PTE_PS) flags) in
  (0, s <| ram := stw (ram s) pd (PD_INDEX vaddr) e |>).

(** The walk to the last level, creating tables, common to the 4 KiB maps. *)
Definition get_pt (aspace vaddr : Z) (s : mach) : Z * mach :=
  let '(pdpt, s) := get_next_level aspace (PML4_INDEX vaddr) s in
  let '(pd, s) := get_next_level pdpt (PDPT_INDEX vaddr) s in
  get_next_level pd (PD_INDEX vaddr) s.

Definition arch_vm_map_page (aspace vaddr paddr flags : Z) (s : mach) : Z * mach :=
  let '(pt, s) := get_pt aspace vaddr s in
  let e := Z.lor (Z.land paddr PAGE_MASK_4K) (x86_flags X86_PTE_P flags) in
  (0, s <| ram := stw (ram s) pt (PT_INDEX vaddr) e |>).

Definition arch_vm_map_framebuffer_page (aspace vaddr paddr : Z) (s : mach) : Z * mach :=
  let '(pt, s) := get_pt aspace vaddr s in
  let e := Z.lor (Z.land paddr PAGE_MASK_4K)
    (Z.lor X86_PTE_P (Z.lor X86_PTE_RW (Z.lor X86_PTE_US (Z.lor X86_PTE_PWT X86_PTE_NX)))) in
  (0, s <| ram := stw (ram s) pt (PT_INDEX vaddr) e |>).

Definition arch_vm_map_device_page (aspace vaddr paddr : Z) (s : mach) : Z * mach :=
  let '(pt, s) := get_pt aspace vaddr s in
  let e := Z.lor (Z.land paddr PAGE_MASK_4K)
    (Z.lor X86_PTE_P (Z.lor X86_PTE_RW (Z.lor X86_PTE_US
      (Z.lor X86_PTE_PWT (Z.lor X86_PTE_PCD X86_PTE_NX))))) in
  (0, s <| ram := stw (ram s) pt (PT_INDEX vaddr) e |>).

(** The address of the entry ([None] for NULL). *)
Definition walk_to_pte (m : mem) (pml4 vaddr : Z) : option Z :=
  let pdpt_e := ldw m pml4 (PML4_INDEX vaddr) in
  if negb (has pdpt_e X86_PTE_P) then None
  else
    let pdpt := Z.land pdpt_e PAGE_MASK_4K in
    let pd_e := ldw m pdpt (PDPT_INDEX vaddr) in
    if negb (has pd_e X86_PTE_P) then None
    else
      let pd := Z.land pd_e PAGE_MASK_4K in
      let pt_e := ldw m pd (PD_INDEX vaddr) in
      if negb (has pt_e X86_PTE_P) then None
      else if has pt_e X86_PTE_PS then Some (pd + 8 * PD_INDEX vaddr)
      else Some (Z.land pt_e PAGE_MASK_4K + 8 * PT_INDEX vaddr).

(** The frame bits of an entry: 2 MiB or 4 KiB granularity by its PS bit. *)
Definition pte_frame (e : Z) : Z :=
  Z.land e (if has e X86_PTE_PS then PAGE_MASK_2M else PAGE_MASK_4K).

Definition arch_vm_unmap_page (aspace vaddr : Z) (s : mach) : Z * mach :=
  match walk_to_pte (ram s) aspace vaddr with
  | None => (0, s)
  | Some pte =>
      let e := ld64 (ram s) pte in
      if negb (has e X86_PTE_P) then (0, s)
      else (pte_frame e, s <| ram := st64 (ram s) pte 0 |>)
  end.

Definition arch_vm_translate (m : mem) (aspace vaddr : Z) : Z :=
  match walk_to_pte m aspace vaddr with
  | None => 0
  | Some pte =>
      let e := ld64 m pte in
      if negb (has e X86_PTE_P) then 0
      else Z.land (pte_frame e) (not64 X86_PTE_NX)
  end.

(** [cpu] is the processor that runs the call. *)
Definition arch_vm_activate (cpu aspace : Z) (s : mach) : mach :=
  let target := if tru aspace then aspace else boot_pml4 in
  if target =? loaded_cr3 s cpu
  then s <| vm_activate_stats ::= fun st => st <| skips := u64 (skips st + 1) |> |>
  else s <| loaded_cr3 := <[cpu := target]> (loaded_cr3 s) |>
         <| vm_activate_stats ::= fun st => st <| loads := u64 (loads st + 1) |> |>.

(** The framebuffer's physical range; empty when there is none. *)
Definition fb_range (s : mach) : Z * Z :=
  if g_boot_fb_present s
  then (phys_addr (g_boot_fb s), u64 (pitch (g_boot_fb s) * height (g_boot_fb s)))
  else (0, 0).

(** A leaf frame the allocator may take back: neither untyped, DMA nor
    framebuffer memory. *)
Definition leaf_freeable (s : mach) (leaf : Z) : bool :=
  let '(ub, us) := untyped_range (untyped_st s) in
  let '(db, ds) := dma_range (dma_st s) in
  let '(fb, fl) := fb_range s in
  negb (in_range leaf ub us) && negb (in_range leaf db ds) &&
  (negb (tru fl) || negb (in_range leaf fb fl)).

Definition in_mmio_window (vaddr : Z) : bool :=
  (vaddr >=? HW_MMIO_USER_VA_BASE) && (vaddr <? HW_MMIO_USER_VA_BASE + HW_MMIO_MAP_MAX).

Definition make_vaddr (i j k : Z) : Z :=
  Z.lor (Z.shiftl i 30) (Z.lor (Z.shiftl j 21) (Z.shiftl k 12)).

Definition destroy_pt (i j pt : Z) (s : mach) : mach :=
  for_range 512 (fun k s =>
    let e := ldw (ram s) pt k in
    if negb (has e X86_PTE_P) then s
    else
      let vaddr := make_vaddr i j k in
      let leaf := Z.land (Z.land e PAGE_MASK_4K) (not64 X86_PTE_NX) in
      if leaf_freeable s leaf && negb (in_mmio_window vaddr) then pmm_free_m leaf s else s) s.

Definition destroy_pd (i pd : Z) (s : mach) : mach :=
  for_range 512 (fun j s =>
    let e := ldw (ram s) pd j in
    if negb (has e X86_PTE_P) then s
    else if has e X86_PTE_PS then
      let leaf := Z.land (Z.land e PAGE_MASK_2M) (not64 X86_PTE_NX) in
      if leaf_freeable s leaf then pmm_free_m leaf s else s
    else
      let pt := Z.land e PAGE_MASK_4K in
      let s := destroy_pt i j pt s in
      pmm_free_m pt s) s.

(** The entry is one of the shared kernel slots. *)
Definition is_kernel_slot (m : mem) (pdpt i : Z) : bool :=
  Z.land (ldw m pdpt i) PAGE_MASK_4K =? Z.land (ldw m boot_pdpt i) PAGE_MASK_4K.

Definition arch_vm_destroy_address_space (aspace : Z) (s : mach) : mach :=
  let e := ldw (ram s) aspace 0 in
  let s :=
    if has e X86_PTE_P then
      let pdpt := Z.land e PAGE_MASK_4K in
      let s := for_range 512 (fun i s =>
        let e := ldw (ram s) pdpt i in
        if negb (has e X86_PTE_P) then s
        else if is_kernel_slot (ram s) pdpt i then s
        else
          let pd := Z.land e PAGE_MASK_4K in
          let s := destroy_pd i pd s in
          pmm_free_m pd s) s in
      pmm_free_m pdpt s
    else s in
  pmm_free_m aspace s.

(** The permissions a leaf entry stands for. *)
Definition prot_of_pte (e : Z) : Z :=
  let prot := VM_PROT_READ in
  let prot := if has e X86_PTE_RW then Z.lor prot VM_PROT_WRITE else prot in
  let prot := if has e X86_PTE_US then Z.lor prot VM_PROT_USER else prot in
  if negb (has e X86_PTE_NX) then Z.lor prot VM_PROT_EXEC else prot.

(** The copy loops return [false] when a frame could not be allocated. *)
Definition clone_pt (dst i j src_pt : Z) (s : mach) : mach * bool :=
  for_try 512 (fun k s =>
    let e := ldw (ram s) src_pt k in
    if negb (has e X86_PTE_P) then (s, true)
    else
      let src_frame := Z.land (Z.land e PAGE_MASK_4K) (not64 X86_PTE_NX) in
      let vaddr := make_vaddr i j k in
      let '(fb, fl) := fb_range s in
      let '(db, ds) := dma_range (dma_st s) in
      if tru fl && in_range src_frame fb fl then (s, true)
      else if in_range src_frame db ds then (s, true)
      else if in_mmio_window vaddr then (s, true)
      else
        let '(dst_frame, s) := pmm_alloc_m PMM_COLOR_ANY s in
        if dst_frame =? 0 then (s, false)
        else
          let s := s <| ram := memcpy (ram s) dst_frame src_frame PAGE_SIZE_4K |> in
          let prot := prot_of_pte (ldw (ram s) src_pt k) in
          (snd (arch_vm_map_page dst vaddr dst_frame prot s), true)) s.

Definition clone_pd (dst i src_pd : Z) (s : mach) : mach * bool :=
  for_try 512 (fun j s =>
    let e := ldw (ram s) src_pd j in
    if negb (has e X86_PTE_P) then (s, true)
    else if has e X86_PTE_PS then (s, true)
    else clone_pt dst i j (Z.land e PAGE_MASK_4K) s) s.

Definition arch_vm_clone_address_space (src : Z) (s : mach) : Z * mach :=
  let '(dst, s) := arch_vm_create_address_space s in
  if dst =? 0 then (0, s)
  else
    let e := ldw (ram s) src 0 in
    if negb (has e X86_PTE_P) then (dst, s)
    else
      let src_pdpt := Z.land e PAGE_MASK_4K in
      let '(s, ok) := for_try 512 (fun i s =>
        let e := ldw (ram s) src_pdpt i in
        if negb (has e X86_PTE_P) then (s, true)
        else if is_kernel_slot (ram s) src_pdpt i then (s, true)
        else clone_pd dst i (Z.land e PAGE_MASK_4K) s) s in
      (if ok then dst else 0, s).
End vm_arch.

(** The page-table operations change only the frames and the memory. *)
Definition same_regions (s s' : mach) : Prop := s' = s <| frames := frames s' |> <| ram := ram s' |>.

Lemma same_regions_trans s1 s2 s3 : same_regions s1 s2 -> same_regions s2 s3 -> same_regions s1 s3.
Proof. unfold same_regions. intros E1 E2. by rewrite E2, E1. Qed.

Lemma same_regions_ram s m : same_regions s (s <| ram := m |>).
Proof. done. Qed.

Lemma alloc_table_regions s f s' : alloc_table s = (f, s') -> same_regions s s'.
Proof.
  unfold alloc_table, pmm_alloc_m. destruct (pmm_alloc _ _ _) as [[? ?] ?]. by intros [= _ <-].
Qed.

Lemma get_next_level_regions t i s f s' : get_next_level t i s = (f, s') -> same_regions s s'.
Proof.
  unfold get_next_level. destruct (negb _); [|intros [= _ <-]; by destruct s].
  destruct (alloc_table s) as [n s1] eqn:E. apply alloc_table_regions in E. intros [= _ <-].
  eapply same_regions_trans; [exact E|apply same_regions_ram].
Qed.

Lemma get_pt_regions asp va s f s' : get_pt asp va s = (f, s') -> same_regions s s'.
Proof.
  unfold get_pt. destruct (get_next_level asp _ s) as [t1 s1] eqn:E1.
  destruct (get_next_level t1 _ s1) as [t2 s2] eqn:E2. intros E3.
  apply get_next_level_regions in E1, E2, E3. eauto using same_regions_trans.
Qed.

Lemma map_page_regions asp va pa fl s : same_regions s (arch_vm_map_page asp va pa fl s).2.
Proof.
  unfold arch_vm_map_page. destruct (get_pt asp va s) as [pt s1] eqn:E. apply get_pt_regions in E.
  eapply same_regions_trans; [exact E|apply same_regions_ram].
Qed.

Lemma unmap_page_regions asp va s : same_regions s (arch_vm_unmap_page asp va s).2.
Proof.
  assert (same_regions s s) by (by destruct s).
  unfold arch_vm_unmap_page. destruct (walk_to_pte _ _ _); [|done]. by destruct (negb _).
Qed.

Lemma create_space_regions boot_pdpt s : same_regions s (arch_vm_create_address_space boot_pdpt s).2.
Proof.
  unfold arch_vm_create_address_space. destruct (alloc_table s) as [f1 s1] eqn:E1.
  destruct (alloc_table s1) as [f2 s2] eqn:E2. apply alloc_table_regions in E1, E2.
  assert (same_regions s s2) by eauto using same_regions_trans. destruct (_ || _); [done|].
  eapply same_regions_trans; [done|apply same_regions_ram].
Qed.

(** ** The tree of tables *)

(** The table an entry of a level-[lvl] table leads to (4 is the PML4). *)
Definition next (m : mem) (lvl : nat) (t i : Z) : option Z :=
  let e := ldw m t i in
  if negb (has e X86_PTE_P) then None
  else if bool_decide (lvl = 2%nat) && has e X86_PTE_PS then None
  else Some (Z.land e PAGE_MASK_4K).

(** The table reached from [t] by a path of indices. *)
Fixpoint node (m : mem) (lvl : nat) (t : Z) (p : list Z) : option Z :=
  match p with
  | [] => Some t
  | i :: p => match next m lvl t i with
              | None => None
              | Some t' => node m (Nat.pred lvl) t' p
              end
  end.

Definition idx_ok (i : Z) : Prop := 0 <= i < 512.
Definition path_ok (p : list Z) : Prop := Forall idx_ok p /\ (length p <= 3)%nat.

(** A frame that can be a table: its address fits an entry's address field. *)
Definition tbl_ok (t : Z) : Prop := frame_ok t /\ t < 2 ^ 52.

(** The tables of [aspace] form a tree of usable frames, none of them free. *)
Record pt_wf (m : mem) (free : list Z) (aspace : Z) : Prop := {
  pt_nodes : forall p t, path_ok p -> node m 4 aspace p = Some t -> tbl_ok t /\ t ∉ free;
  pt_tree : forall p q t, path_ok p -> path_ok q ->
    node m 4 aspace p = Some t -> node m 4 aspace q = Some t -> p = q
}.

(** The indices a virtual address selects. *)
Definition va_path (va : Z) : list Z := [PML4_INDEX va; PDPT_INDEX va; PD_INDEX va].

(** ** Entry arithmetic *)
Lemma index_ok x : idx_ok (Z.land x 0x1FF).
Proof.
  unfold idx_ok. change 0x1FF with (2 ^ 9 - 1). rewrite land_low by lia.
  pose proof (Z.mod_pos_bound x (2 ^ 9)). lia.
Qed.

Lemma va_path_ok va : Forall idx_ok (va_path va) /\ idx_ok (PT_INDEX va).
Proof. split; [repeat constructor|]; apply index_ok. Qed.

(** Reading the fields of an entry bit by bit. *)
Lemma testbit_mask4k j : 0 <= j -> Z.testbit PAGE_MASK_4K j = (12 <=? j) && (j <? 64).
Proof.
  intros Hj. unfold PAGE_MASK_4K, PAGE_SIZE_4K. change (0x1000 - 1) with (Z.ones 12).
  destruct (decide (j < 64)) as [H|H].
  - rewrite testbit_not64 by lia.
    destruct (decide (j < 12)); [rewrite Z.ones_spec_low by lia|rewrite Z.ones_spec_high by lia];
      simpl; lia.
  - rewrite (testbit_high _ 64); [lia|lia|apply u64_range|lia].
Qed.

Lemma testbit_mask2m j : 0 <= j -> Z.testbit PAGE_MASK_2M j = (21 <=? j) && (j <? 64).
Proof.
  intros Hj. unfold PAGE_MASK_2M, PAGE_SIZE_2M. change (0x200000 - 1) with (Z.ones 21).
  destruct (decide (j < 64)) as [H|H].
  - rewrite testbit_not64 by lia.
    destruct (decide (j < 21)); [rewrite Z.ones_spec_low by lia|rewrite Z.ones_spec_high by lia];
      simpl; lia.
  - rewrite (testbit_high _ 64); [lia|lia|apply u64_range|lia].
Qed.

Lemma testbit_page t j : t mod PAGE_SIZE_4K = 0 -> 0 <= j < 12 -> Z.testbit t j = false.
Proof.
  intros Ht Hj. unfold PAGE_SIZE_4K in Ht. change 0x1000 with (2 ^ 12) in Ht.
  rewrite <- (Z.mod_pow2_bits_low t 12) by lia. rewrite Ht. apply Z.bits_0.
Qed.

(** An aligned address survives the flags put in its low bits. *)
Lemma entry_addr t f :
  tbl_ok t -> 0 <= f < 2 ^ 12 -> Z.land (Z.lor t f) PAGE_MASK_4K = t.
Proof.
  intros [(H0 & Hm & _) H52] Hf. apply Z.bits_inj'. intros j Hj.
  rewrite Z.land_spec, Z.lor_spec, testbit_mask4k by done.
  destruct (decide (j < 12)).
  - rewrite (testbit_page t) by (done || lia). by replace (12 <=? j) with false by lia; rewrite andb_false_r.
  - rewrite (testbit_high f 12), orb_false_r by lia.
    destruct (decide (j < 64)).
    + replace ((12 <=? j) && (j <? 64)) with true by lia. by rewrite andb_true_r.
    + rewrite (testbit_high t 52) by lia. done.
Qed.

Lemma has_lor_bit t f n : 0 <= n -> Z.testbit f n = true -> has (Z.lor t f) (bit n) = true.
Proof. intros. rewrite has_bit, Z.lor_spec by done. by rewrite H0, orb_true_r. Qed.

Abbreviation table_flags := (Z.lor X86_PTE_P (Z.lor X86_PTE_RW X86_PTE_US)).

Lemma table_entry t :
  tbl_ok t -> let e := Z.lor t table_flags in
  has e X86_PTE_P = true /\ has e X86_PTE_PS = false /\ Z.land e PAGE_MASK_4K = t /\
  0 <= e < 2 ^ 64.
Proof.
  intros Ht. pose proof Ht as [(H0 & Hm & _) H52]. cbv zeta.
  split; [by apply has_lor_bit|]. split.
  - unfold X86_PTE_PS. rewrite has_bit, Z.lor_spec by lia.
    rewrite (testbit_page t) by (done || lia). done.
  - split; [apply entry_addr; [done|vm_compute; intuition congruence]|].
    apply lor_range; [lia|lia|vm_compute; intuition congruence].
Qed.

(** ** Walking *)
Lemma node_app m lvl t p q :
  node m lvl t (p ++ q) =
  match node m lvl t p with None => None | Some t' => node m (lvl - length p) t' q end.
Proof.
  revert lvl t. induction p as [|i p IH]; intros lvl t; simpl; [by rewrite Nat.sub_0_r|].
  destruct (next m lvl t i); [|done]. rewrite IH.
  destruct (node m (Nat.pred lvl) z p); [|done]. f_equal. lia.
Qed.

Lemma node_snoc m lvl t p i :
  node m lvl t (p ++ [i]) =
  match node m lvl t p with None => None | Some t' => next m (lvl - length p) t' i end.
Proof.
  rewrite node_app. destruct (node m lvl t p); [|done]. simpl. by destruct (next _ _ _ _).
Qed.

Lemma path_ok_snoc p i : path_ok (p ++ [i]) <-> path_ok p /\ idx_ok i /\ (length p <= 2)%nat.
Proof.
  unfold path_ok. rewrite Forall_app, length_app, Forall_singleton. simpl. intuition lia.
Qed.

(** What translation reads for [va]: whether it is a large page, and the leaf
    entry (0 when the walk stops early). *)
Definition lookup_va (m : mem) (aspace va : Z) : bool * Z :=
  match node m 4 aspace (va_path va) with
  | Some pt => (false, ldw m pt (PT_INDEX va))
  | None =>
      match node m 4 aspace [PML4_INDEX va; PDPT_INDEX va] with
      | Some pd => let e := ldw m pd (PD_INDEX va) in
                   if has e X86_PTE_P && has e X86_PTE_PS then (true, e) else (false, 0)
      | None => (false, 0)
      end
  end.

Lemma walk_lookup m aspace va :
  match walk_to_pte m aspace va with Some pte => ld64 m pte | None => 0 end =
  (lookup_va m aspace va).2.
Proof.
  unfold walk_to_pte, lookup_va, va_path. cbn [node Nat.pred].
  unfold next. rewrite !(bool_decide_eq_false_2 (_ = 2%nat)) by done.
  rewrite (bool_decide_eq_true_2 (2%nat = 2%nat)) by done. cbn [andb].
  destruct (has (ldw m aspace (PML4_INDEX va)) X86_PTE_P); [|done]. cbn [negb].
  set (pdpt := Z.land (ldw m aspace (PML4_INDEX va)) PAGE_MASK_4K).
  destruct (has (ldw m pdpt (PDPT_INDEX va)) X86_PTE_P); [|done]. cbn [negb].
  set (pd := Z.land (ldw m pdpt (PDPT_INDEX va)) PAGE_MASK_4K).
  destruct (has (ldw m pd (PD_INDEX va)) X86_PTE_P); [|done]. cbn [negb].
  by destruct (has (ldw m pd (PD_INDEX va)) X86_PTE_PS).
Qed.

Lemma translate_lookup m aspace va :
  arch_vm_translate m aspace va =
  let e := (lookup_va m aspace va).2 in
  if negb (has e X86_PTE_P) then 0 else Z.land (pte_frame e) (not64 X86_PTE_NX).
Proof.
  unfold arch_vm_translate. rewrite <- walk_lookup. by destruct (walk_to_pte m aspace va).
Qed.

(** ** Adding one table *)
Section grow.
Context (m m' : mem) (aspace f t i : Z) (p : list Z) (free free' : list Z).
Hypothesis Hwf : pt_wf m free aspace.
Hypothesis Hfree : free ≡ₚ f :: free'.
Hypothesis Hnd : NoDup free.
Hypothesis Hf : tbl_ok f.
Hypothesis Hp : path_ok (p ++ [i]).
Hypothesis Ht : node m 4 aspace p = Some t.
Hypothesis Hnew : has (ldw m t i) X86_PTE_P = false.
Hypothesis Hzero : forall j, idx_ok j -> ldw m' f j = 0.
Hypothesis Hcell : ldw m' t i = Z.lor f table_flags.
Hypothesis Hkeep : forall x, x < f \/ f + PAGE_SIZE_4K <= x ->
  x < t + 8 * i \/ t + 8 * i + 8 <= x -> m' x = m x.

Lemma grow_t : tbl_ok t /\ t ∉ free /\ idx_ok i /\ path_ok p.
Proof.
  apply path_ok_snoc in Hp as (Hp' & Hi & _).
  destruct (pt_nodes _ _ _ Hwf p t Hp' Ht) as [H1 H2]. auto.
Qed.

(** Entries of old tables are unchanged, except the new one. *)
Lemma grow_entry q u j :
  path_ok q -> node m 4 aspace q = Some u -> idx_ok j -> (q, j) <> (p, i) ->
  ldw m' u j = ldw m u j.
Proof.
  intros Hq Hu Hj Hne. destruct (pt_nodes _ _ _ Hwf q u Hq Hu) as [[Hok _] Hnf].
  destruct grow_t as ([Htok _] & Htn & Hi & Hp').
  assert (Huf : u <> f) by (intros ->; apply Hnf; rewrite Hfree; by left).
  unfold ldw. apply ld64_ext. intros x Hx. unfold idx_ok in *. apply Hkeep.
  - destruct (frames_disjoint u f Hok (proj1 Hf) Huf); unfold PAGE_SIZE_4K in *; lia.
  - destruct (decide (u = t)) as [->|Hut].
    + assert (q = p) as -> by (by eapply (pt_tree _ _ _ Hwf)).
      assert (i <> j) by (by intros ->). lia.
    + destruct (frames_disjoint u t Hok Htok Hut); unfold PAGE_SIZE_4K in *; lia.
Qed.

Lemma grow_new : node m 4 aspace (p ++ [i]) = None /\ node m' 4 aspace p = Some t ->
  node m' 4 aspace (p ++ [i]) = Some f.
Proof.
  intros [_ Hn]. rewrite node_snoc, Hn. unfold next. rewrite Hcell.
  destruct (table_entry f Hf) as (E1 & E2 & E3 & _). rewrite E1, E2, E3.
  by rewrite andb_false_r.
Qed.

Lemma grow_old_nodes q u :
  path_ok q -> node m 4 aspace q = Some u -> node m' 4 aspace q = Some u.
Proof.
  revert u. induction q as [|j q IH] using rev_ind; intros u; [done|].
  rewrite path_ok_snoc, !node_snoc. intros (Hq & Hj & _).
  destruct (node m 4 aspace q) as [v|] eqn:Ev; [|done]. rewrite (IH v) by done.
  unfold next. destruct (decide ((q, j) = (p, i))) as [E|Hne].
  - injection E as -> ->. assert (v = t) as -> by congruence. by rewrite Hnew.
  - by rewrite (grow_entry q v j).
Qed.

Lemma grow_nodes q u :
  path_ok q -> node m' 4 aspace q = Some u ->
  node m 4 aspace q = Some u \/ (q = p ++ [i] /\ u = f).
Proof.
  revert u. induction q as [|j q IH] using rev_ind; intros u; [by left|].
  rewrite path_ok_snoc, !node_snoc. intros (Hq & Hj & _).
  destruct (node m' 4 aspace q) as [v|] eqn:Ev; [|done].
  destruct (IH v Hq eq_refl) as [Hv|[-> ->]].
  - rewrite Hv. destruct (decide ((q, j) = (p, i))) as [E|Hne].
    + injection E as -> ->. assert (v = t) as -> by congruence.
      unfold next. rewrite Hcell. destruct (table_entry f Hf) as (E1 & E2 & E3 & _).
      rewrite E1, E2, E3, andb_false_r. intros [= <-]. by right.
    + unfold next. rewrite (grow_entry q v j) by done. by left.
  - unfold next. rewrite Hzero by done. done.
Qed.

Lemma grow_wf : pt_wf m' free' aspace.
Proof.
  assert (Hnd' := Hnd). rewrite Hfree in Hnd'. apply list.NoDup_cons in Hnd' as [Hf' _].
  split.
  - intros q u Hq Hu. destruct (grow_nodes q u Hq Hu) as [Ho|[-> ->]]; [|done].
    destruct (pt_nodes _ _ _ Hwf q u Hq Ho) as [H1 H2]. split; [done|].
    rewrite Hfree in H2. set_solver.
  - intros q r u Hq Hr Hu Hv.
    destruct (grow_nodes q u Hq Hu) as [Hou|[-> E]];
      destruct (grow_nodes r u Hr Hv) as [Hov|[-> E']]; subst.
    + by eapply (pt_tree _ _ _ Hwf).
    + destruct (pt_nodes _ _ _ Hwf q f Hq Hou) as [_ H2]. rewrite Hfree in H2. set_solver.
    + destruct (pt_nodes _ _ _ Hwf r f Hr Hov) as [_ H2]. rewrite Hfree in H2. set_solver.
    + done.
Qed.

(** A new empty table adds no translation. *)
Lemma grow_lookup va : lookup_va m' aspace va = lookup_va m aspace va.
Proof.
  assert (Hva : path_ok (va_path va)) by (split; [apply va_path_ok|simpl; lia]).
  destruct (va_path_ok va) as [Hidx H1].
  assert (Hpd : path_ok [PML4_INDEX va; PDPT_INDEX va]).
  { split; [|simpl; lia]. repeat constructor; apply index_ok. }
  assert (H2 : idx_ok (PD_INDEX va)) by apply index_ok.
  pose proof (node_snoc m 4 aspace [PML4_INDEX va; PDPT_INDEX va] (PD_INDEX va)) as Es.
  pose proof (node_snoc m' 4 aspace [PML4_INDEX va; PDPT_INDEX va] (PD_INDEX va)) as Es'.
  change ([PML4_INDEX va; PDPT_INDEX va] ++ [PD_INDEX va]) with (va_path va) in Es, Es'.
  set (q := [PML4_INDEX va; PDPT_INDEX va]) in *.
  pose proof (proj1 (path_ok_snoc _ _) Hp) as (Hp' & Hi & Hl2).
  unfold lookup_va. fold q. destruct (node m' 4 aspace (va_path va)) as [u|] eqn:Eu.
  - destruct (grow_nodes _ u Hva Eu) as [Ho|[Eq ->]].
    + rewrite Ho. rewrite (grow_entry (va_path va) u) by (done || intros [= E _]; rewrite <- E in Hl2; simpl in Hl2; lia).
      done.
    + rewrite (Hzero _ H1). change (va_path va) with (q ++ [PD_INDEX va]) in Eq.
      apply app_inj_2 in Eq as [Eqp E]; [|done]. injection E as Ei.
      rewrite Eqp, Ht in Es. rewrite Eqp, Ht, Ei, Hnew. unfold next in Es.
      rewrite Ei, Hnew in Es. cbn [negb] in Es. by rewrite Es.
  - destruct (node m 4 aspace (va_path va)) as [w|] eqn:Ew.
    { by rewrite (grow_old_nodes _ w) in Eu. }
    destruct (node m 4 aspace q) as [pd|] eqn:Epd.
    + rewrite (grow_old_nodes q pd Hpd Epd) in *.
      destruct (decide ((q, PD_INDEX va) = (p, i))) as [E|Hne].
      * injection E as Eq Ei. assert (pd = t) as -> by congruence.
        unfold next in Es'. rewrite Ei, Hcell in Es'.
        destruct (table_entry f Hf) as (E1 & E2 & E3 & _).
        by rewrite E1, E2, andb_false_r in Es'.
      * by rewrite (grow_entry q pd).
    + destruct (node m' 4 aspace q) as [pd|] eqn:Epd'; [|done].
      destruct (grow_nodes q pd Hpd Epd') as [Ho|[_ ->]]; [congruence|].
      by rewrite (Hzero _ H2).
Qed.
End grow.

(** ** The invariant of one address space *)
Record vm_inv (s : mach) (ls : Z -> list Z) (aspace : Z) : Prop := {
  vi_rep : pmm_rep (frames s) (ram s) ls;
  vi_low : Forall (fun f => f < 2 ^ 52) (all_free ls);
  vi_pt : pt_wf (ram s) (all_free ls) aspace
}.

(** Only free frames and tables of [aspace] may be written; nothing else of
    the machine changes. *)
Definition vm_frame (s s' : mach) (ls : Z -> list Z) (aspace : Z) : Prop :=
  s' = s <| frames := frames s' |> <| ram := ram s' |> /\
  forall x, ram s' x <> ram s x -> exists f, f <= x < f + PAGE_SIZE_4K /\
    (f ∈ all_free ls \/ exists p, path_ok p /\ node (ram s) 4 aspace p = Some f).

Lemma free_tbl_ok s ls aspace f : vm_inv s ls aspace -> f ∈ all_free ls -> tbl_ok f.
Proof.
  intros H Hf. split; [by apply (rep_ok _ _ _ (vi_rep _ _ _ H))|].
  pose proof (vi_low _ _ _ H) as Hl. rewrite list.Forall_forall in Hl. by apply Hl.
Qed.

Lemma ldw_ext m1 m2 t j :
  idx_ok j -> (forall x, t <= x < t + PAGE_SIZE_4K -> m1 x = m2 x) -> ldw m1 t j = ldw m2 t j.
Proof.
  unfold idx_ok, PAGE_SIZE_4K. intros. unfold ldw. apply ld64_ext. intros x Hx. apply H0. lia.
Qed.

Lemma pmm_rep_st p m ls a v :
  pmm_rep p m ls -> (forall f, f ∈ all_free ls -> a + 8 <= f \/ f + PAGE_SIZE_4K <= a) ->
  pmm_rep p (st64 m a v) ls.
Proof.
  intros H Hd. eapply rep_mem_ext; [|exact H]. intros f x Hf Hx.
  specialize (Hd f Hf). rewrite st64_out by lia. done.
Qed.

(** A table cell is outside every free frame. *)
Lemma cell_not_free s ls aspace p t i f :
  vm_inv s ls aspace -> path_ok p -> node (ram s) 4 aspace p = Some t -> idx_ok i ->
  f ∈ all_free ls -> t + 8 * i + 8 <= f \/ f + PAGE_SIZE_4K <= t + 8 * i.
Proof.
  intros H Hp Ht Hi Hf. destruct (pt_nodes _ _ _ (vi_pt _ _ _ H) p t Hp Ht) as [[Hok _] Hn].
  assert (t <> f) by (by intros ->).
  destruct (frames_disjoint t f Hok) as [Hd|Hd]; [by apply (rep_ok _ _ _ (vi_rep _ _ _ H))|done| |];
    unfold idx_ok, PAGE_SIZE_4K in *; lia.
Qed.

(** Creating a missing table. *)
Lemma get_next_level_create s ls aspace p t i :
  vm_inv s ls aspace -> path_ok (p ++ [i]) -> node (ram s) 4 aspace p = Some t ->
  has (ldw (ram s) t i) X86_PTE_P = false -> all_free ls <> [] ->
  exists f s' ls', get_next_level t i s = (f, s') /\ vm_inv s' ls' aspace /\
    vm_frame s s' ls aspace /\ all_free ls ≡ₚ f :: all_free ls' /\
    (forall q u, path_ok q -> node (ram s) 4 aspace q = Some u -> node (ram s') 4 aspace q = Some u) /\
    (forall q u, path_ok q -> node (ram s') 4 aspace q = Some u ->
       node (ram s) 4 aspace q = Some u \/ q = p ++ [i] /\ u = f) /\
    node (ram s') 4 aspace (p ++ [i]) = Some f /\
    (forall va, lookup_va (ram s') aspace va = lookup_va (ram s) aspace va).
Proof.
  intros H Hp Ht Hnew Hne. pose proof (vi_rep _ _ _ H) as Hrep.
  pose proof (vi_pt _ _ _ H) as Hwf.
  destruct (proj1 (path_ok_snoc _ _) Hp) as (Hp' & Hi & _).
  unfold get_next_level, alloc_table, pmm_alloc_m. rewrite Hnew. cbn [negb].
  destruct (pmm_alloc PMM_COLOR_ANY (frames s) (ram s)) as [[f p1] m1] eqn:Ea.
  destruct (pmm_alloc_rep _ _ _ _ _ _ _ Hrep (or_introl eq_refl) Ea)
    as [(_ & _ & _ & Hnil)|(c & l & Hc & _ & Hl & Hf0 & Hrep1 & Hz)]; [done|].
  pose proof (all_free_pop ls c f l Hc Hl) as Hperm. set (ls' := <[c := l]> ls) in *.
  assert (Hff : f ∈ all_free ls) by (rewrite Hperm; by left).
  assert (Hfok := free_tbl_ok s ls aspace f H Hff).
  destruct (pt_nodes _ _ _ (vi_pt _ _ _ H) p t Hp' Ht) as [[Htok _] Htn].
  assert (Htf : t + PAGE_SIZE_4K <= f \/ f + PAGE_SIZE_4K <= t).
  { apply frames_disjoint; [done|apply Hfok|by intros ->]. }
  destruct (table_entry f Hfok) as (E1 & E2 & E3 & E4).
  rsimpl. set (m2 := stw (memset m1 f 0 PAGE_SIZE_4K) t i (Z.lor f table_flags)).
  assert (Hcell : ldw m2 t i = Z.lor f table_flags) by (by apply ldw_stw).
  rewrite Hcell, E3. set (s' := s <| frames := p1 |> <| ram := m1 |> <| ram := m2 |>).
  assert (Hkeep : forall x, x < f \/ f + PAGE_SIZE_4K <= x ->
    x < t + 8 * i \/ t + 8 * i + 8 <= x -> m2 x = ram s x).
  { intros x H1 H2. unfold m2, stw. rewrite st64_out by lia. rewrite memset_out by lia.
    rewrite Hz. by replace ((f <=? x) && (x <? f + PAGE_SIZE_4K)) with false by lia. }
  assert (Hzero : forall j, idx_ok j -> ldw m2 f j = 0).
  { intros j Hj. unfold m2. unfold idx_ok, PAGE_SIZE_4K in *. rewrite ldw_stw_ne by lia.
    apply ld64_memset0; lia. }
  assert (Hnd := rep_nodup _ _ _ Hrep).
  assert (Hold : forall q u, path_ok q -> node (ram s) 4 aspace q = Some u ->
            node m2 4 aspace q = Some u).
  { intros q u. by apply (grow_old_nodes (ram s) m2 aspace f t i p (all_free ls) (all_free ls')). }
  assert (Hlow := vi_low _ _ _ H). rewrite Hperm in Hlow. apply list.Forall_cons in Hlow as [_ Hlow].
  exists f, s', ls'. split; [done|]. split; [|split; [|split; [done|split; [done|split; [|split]]]]].
  - split; [|done|by apply (grow_wf (ram s) m2 aspace f t i p (all_free ls) (all_free ls'))].
    unfold s'. rsimpl. apply (pmm_rep_st p1).
    + eapply rep_mem_ext; [|exact Hrep1]. intros g x Hg Hx. symmetry. apply memset_out.
      assert (Hgok : frame_ok g) by (by apply (rep_ok _ _ _ Hrep1)).
      rewrite Hperm in Hnd. apply list.NoDup_cons in Hnd as [Hfn _].
      assert (g <> f) by (by intros ->).
      destruct (frames_disjoint g f Hgok (proj1 Hfok)); [done|lia..].
    + intros g Hg. apply (cell_not_free s ls aspace p); try done. rewrite Hperm. by right.
  - split; [done|]. intros x Hx. destruct (decide (f <= x < f + PAGE_SIZE_4K)); [exists f; auto|].
    exists t. split; [|right; eauto].
    destruct (decide (t + 8 * i <= x < t + 8 * i + 8)); [unfold idx_ok, PAGE_SIZE_4K in *; lia|].
    destruct Hx. apply Hkeep; lia.
  - intros q u. by apply (grow_nodes (ram s) m2 aspace f t i p (all_free ls) (all_free ls')).
  - unfold s'. rsimpl. rewrite node_snoc, (Hold p t) by done. unfold next.
    by rewrite Hcell, E1, E2, E3, andb_false_r.
  - intros va. by apply (grow_lookup (ram s) m2 aspace f t i p (all_free ls) (all_free ls')).
Qed.

(** The effect of adding any number of empty tables to [aspace]. *)
Record vm_ext (s : mach) (ls : Z -> list Z) (s' : mach) (ls' : Z -> list Z) (aspace : Z) : Prop := {
  ext_inv : vm_inv s' ls' aspace;
  ext_frame : vm_frame s s' ls aspace;
  ext_free : exists used, all_free ls ≡ₚ used ++ all_free ls';
  ext_old : forall q u, path_ok q -> node (ram s) 4 aspace q = Some u ->
    node (ram s') 4 aspace q = Some u;
  ext_new : forall q u, path_ok q -> node (ram s') 4 aspace q = Some u ->
    node (ram s) 4 aspace q = Some u \/ u ∈ all_free ls;
  ext_lookup : forall va, lookup_va (ram s') aspace va = lookup_va (ram s) aspace va
}.

Lemma vm_ext_refl s ls aspace : vm_inv s ls aspace -> vm_ext s ls s ls aspace.
Proof.
  intros H. split; auto; [|by exists []].
  split; [by destruct s|]. done.
Qed.

Lemma vm_ext_trans s1 l1 s2 l2 s3 l3 aspace :
  vm_ext s1 l1 s2 l2 aspace -> vm_ext s2 l2 s3 l3 aspace -> vm_ext s1 l1 s3 l3 aspace.
Proof.
  intros [I1 [E1 F1] [u1 P1] O1 N1 L1] [I2 [E2 F2] [u2 P2] O2 N2 L2].
  assert (Hsub : forall f, f ∈ all_free l2 -> f ∈ all_free l1)
    by (intros f Hf; rewrite P1; apply elem_of_app; by right).
  split; eauto.
  - split; [by rewrite E2, E1|]. intros x Hx. destruct (decide (ram s2 x = ram s1 x)) as [Ex|Ex].
    + rewrite <- Ex in Hx. destruct (F2 x Hx) as (f & Hf & [Hfree|(p & Hp & Hn)]);
        exists f; (split; [done|]); [left; auto|].
      destruct (N1 p f Hp Hn); [right; eauto|by left].
    + apply F1. done.
  - exists (u1 ++ u2). by rewrite <- app_assoc, <- P2.
  - intros q u Hq Hn. destruct (N2 q u Hq Hn) as [Ho|Hf]; auto.
  - intros va. by rewrite L2.
Qed.

(** A step of the walk that creates tables. *)
Lemma get_next_level_spec s ls aspace p t i :
  vm_inv s ls aspace -> path_ok (p ++ [i]) -> node (ram s) 4 aspace p = Some t ->
  (length p = 2%nat -> has (ldw (ram s) t i) X86_PTE_P && has (ldw (ram s) t i) X86_PTE_PS = false) ->
  all_free ls <> [] ->
  exists f s' ls', get_next_level t i s = (f, s') /\ vm_ext s ls s' ls' aspace /\
    node (ram s') 4 aspace (p ++ [i]) = Some f /\
    (length (all_free ls) <= S (length (all_free ls')))%nat.
Proof.
  intros H Hp Ht Hps Hne. destruct (has (ldw (ram s) t i) X86_PTE_P) eqn:EP.
  - unfold get_next_level. rewrite EP. cbn [negb].
    exists (Z.land (ldw (ram s) t i) PAGE_MASK_4K), s, ls. split; [done|].
    split; [by apply vm_ext_refl|]. split; [|lia].
    rewrite node_snoc, Ht. unfold next. rewrite EP. cbn [negb].
    destruct (bool_decide _) eqn:Eb; [|done]. apply bool_decide_eq_true_1 in Eb.
    rewrite Hps; [done|]. apply path_ok_snoc in Hp as (_ & _ & ?). lia.
  - destruct (get_next_level_create s ls aspace p t i H Hp Ht EP Hne)
      as (f & s' & ls' & E & Hi & Hfr & Hperm & Hold & Hnew & Hn & Hl).
    exists f, s', ls'. split; [done|]. split; [|split; [done|rewrite Hperm; simpl; lia]].
    split; try done; [by exists [f]|].
    intros q u Hq Hu. destruct (Hnew q u Hq Hu) as [|[_ ->]]; [by left|right].
    rewrite Hperm. by left.
Qed.

(** No large page covers [va]. *)
Definition not_large (m : mem) (aspace va : Z) : Prop := (lookup_va m aspace va).1 = false.

Lemma not_large_pd m aspace va pd :
  not_large m aspace va -> node m 4 aspace [PML4_INDEX va; PDPT_INDEX va] = Some pd ->
  has (ldw m pd (PD_INDEX va)) X86_PTE_P && has (ldw m pd (PD_INDEX va)) X86_PTE_PS = false.
Proof.
  unfold not_large, lookup_va. intros H Hn.
  pose proof (node_snoc m 4 aspace [PML4_INDEX va; PDPT_INDEX va] (PD_INDEX va)) as Es.
  change ([PML4_INDEX va; PDPT_INDEX va] ++ [PD_INDEX va]) with (va_path va) in Es.
  rewrite Hn in Es. unfold next in Es. rewrite Es, Hn in H. clear Es. cbn [length Nat.sub] in H.
  destruct (has _ X86_PTE_P); [|done]. destruct (has _ X86_PTE_PS); [|done].
  cbn [negb andb] in *. by rewrite bool_decide_eq_true_2 in H by done.
Qed.

Ltac path_idx :=
  split; [cbn [app va_path]; repeat (apply Forall_cons_2; [apply index_ok|]); by apply Forall_nil_2
         |simpl; lia].

(** The walk of the 4 KiB mapping operations, with up to three free frames. *)
Lemma get_pt_spec s ls aspace va :
  vm_inv s ls aspace -> not_large (ram s) aspace va -> (3 <= length (all_free ls))%nat ->
  exists pt s' ls', get_pt aspace va s = (pt, s') /\ vm_ext s ls s' ls' aspace /\
    node (ram s') 4 aspace (va_path va) = Some pt /\
    (length (all_free ls) <= 3 + length (all_free ls'))%nat.
Proof.
  intros H Hnl Hlen. unfold get_pt.
  destruct (get_next_level_spec s ls aspace [] aspace (PML4_INDEX va) H)
    as (t1 & s1 & l1 & E1 & V1 & N1 & K1).
  { path_idx. } { done. } { done. }
  { intros En. rewrite En in Hlen. simpl in Hlen. lia. }
  rewrite E1. cbn [app] in N1.
  destruct (get_next_level_spec s1 l1 aspace [PML4_INDEX va] t1 (PDPT_INDEX va) (ext_inv _ _ _ _ _ V1))
    as (t2 & s2 & l2 & E2 & V2 & N2 & K2).
  { path_idx. } { done. } { done. }
  { intros En. rewrite En in K1. simpl in K1. lia. }
  rewrite E2. cbn [app] in N2. pose proof (vm_ext_trans _ _ _ _ _ _ _ V1 V2) as V12.
  destruct (get_next_level_spec s2 l2 aspace [PML4_INDEX va; PDPT_INDEX va] t2 (PD_INDEX va)
    (ext_inv _ _ _ _ _ V2)) as (t3 & s3 & l3 & E3 & V3 & N3 & K3).
  { path_idx. } { done. }
  { intros _. apply (not_large_pd _ aspace); [|done]. unfold not_large.
    by rewrite (ext_lookup _ _ _ _ _ V12). }
  { intros En. rewrite En in K2. simpl in K2. lia. }
  exists t3, s3, l3. split; [done|]. split; [by eapply vm_ext_trans|]. split; [done|]. lia.
Qed.

(** ** Writing a leaf entry *)
Section leaf.
Context (s : mach) (ls : Z -> list Z) (aspace va pt e : Z).
Hypothesis Hinv : vm_inv s ls aspace.
Hypothesis Hpt : node (ram s) 4 aspace (va_path va) = Some pt.
Hypothesis He : 0 <= e < 2 ^ 64.
Let m' := stw (ram s) pt (PT_INDEX va) e.

Lemma va_path_is_ok v : path_ok (va_path v).
Proof. path_idx. Qed.

Lemma leaf_entry q u j :
  path_ok q -> node (ram s) 4 aspace q = Some u -> idx_ok j -> (q, j) <> (va_path va, PT_INDEX va) ->
  ldw m' u j = ldw (ram s) u j.
Proof.
  intros Hq Hu Hj Hne. pose proof (vi_pt _ _ _ Hinv) as Hwf.
  destruct (pt_nodes _ _ _ Hwf q u Hq Hu) as [[Hok _] _].
  destruct (pt_nodes _ _ _ Hwf _ pt (va_path_is_ok va) Hpt) as [[Htok _] _].
  assert (Hi : idx_ok (PT_INDEX va)) by apply index_ok. unfold idx_ok in *.
  apply ldw_stw_ne. destruct (decide (u = pt)) as [->|Hut].
  - assert (q = va_path va) as -> by (eapply (pt_tree _ _ _ Hwf); eauto using va_path_is_ok).
    assert (j <> PT_INDEX va) by (by intros ->). lia.
  - destruct (frames_disjoint u pt Hok Htok Hut); unfold PAGE_SIZE_4K in *; lia.
Qed.

Lemma leaf_nodes q : path_ok q -> node m' 4 aspace q = node (ram s) 4 aspace q.
Proof.
  induction q as [|j q IH] using rev_ind; [done|].
  rewrite path_ok_snoc, !node_snoc. intros (Hq & Hj & Hl). rewrite IH by done.
  destruct (node (ram s) 4 aspace q) as [u|] eqn:Eu; [|done]. unfold next.
  rewrite (leaf_entry q u j); try done. intros [= -> _]. simpl in Hl. lia.
Qed.

Lemma leaf_inv : vm_inv (s <| ram := m' |>) ls aspace.
Proof.
  destruct Hinv as [Hrep Hlow Hwf]. split; rsimpl; [|done|].
  - apply pmm_rep_st; [done|]. intros f Hf.
    apply (cell_not_free s ls aspace (va_path va)); [done|apply va_path_is_ok|done|apply index_ok|done].
  - split.
    + intros p t Hp. rewrite leaf_nodes by done. by apply Hwf.
    + intros p q t Hp Hq. rewrite !leaf_nodes by done. by apply Hwf.
Qed.

Lemma leaf_frame : vm_frame s (s <| ram := m' |>) ls aspace.
Proof.
  split; [done|]. rsimpl. intros x Hx. exists pt. split; [|right; eauto using va_path_is_ok].
  assert (Hi : idx_ok (PT_INDEX va)) by apply index_ok. unfold idx_ok, PAGE_SIZE_4K in *.
  destruct (decide (pt + 8 * PT_INDEX va <= x < pt + 8 * PT_INDEX va + 8)); [lia|].
  destruct Hx. apply st64_out. lia.
Qed.

Lemma leaf_lookup : lookup_va m' aspace va = (false, e).
Proof.
  unfold lookup_va. rewrite leaf_nodes by apply va_path_is_ok. rewrite Hpt. f_equal.
  by apply ldw_stw.
Qed.

Lemma leaf_lookup_ne v :
  (va_path v, PT_INDEX v) <> (va_path va, PT_INDEX va) ->
  lookup_va m' aspace v = lookup_va (ram s) aspace v.
Proof.
  intros Hne. unfold lookup_va. rewrite leaf_nodes by apply va_path_is_ok.
  destruct (node (ram s) 4 aspace (va_path v)) as [u|] eqn:Eu.
  - rewrite (leaf_entry (va_path v) u); [done|apply va_path_is_ok|done|apply index_ok|done].
  - rewrite leaf_nodes by path_idx.
    destruct (node (ram s) 4 aspace [PML4_INDEX v; PDPT_INDEX v]) as [pd|] eqn:Epd; [|done].
    rewrite (leaf_entry [PML4_INDEX v; PDPT_INDEX v] pd); [done|path_idx|done|apply index_ok|done].
Qed.
End leaf.

(** Two canonical addresses with the same indices lie in the same page. *)
Lemma path_page v w :
  0 <= v < 2 ^ 48 -> 0 <= w < 2 ^ 48 ->
  (va_path v, PT_INDEX v) = (va_path w, PT_INDEX w) -> v / PAGE_SIZE_4K = w / PAGE_SIZE_4K.
Proof.
  intros Hv Hw [= E4 E3 E2 E1]. unfold PAGE_SIZE_4K. change 0x1000 with (2 ^ 12).
  rewrite <- !Z.shiftr_div_pow2 by lia. apply Z.bits_inj'. intros j Hj.
  rewrite !Z.shiftr_spec by done.
  assert (Hfield : forall k, 0 <= k -> Z.land (Z.shiftr v k) 0x1FF = Z.land (Z.shiftr w k) 0x1FF ->
    forall b, k <= b < k + 9 -> Z.testbit v b = Z.testbit w b).
  { intros k Hk E b Hb. apply (f_equal (fun x => Z.testbit x (b - k))) in E.
    change 0x1FF with (Z.ones 9) in E.
    rewrite !Z.land_spec, !Z.ones_spec_low, !andb_true_r, !Z.shiftr_spec in E by lia.
    by replace (b - k + k) with b in E by lia. }
  destruct (decide (j + 12 < 21)); [apply (Hfield 12); [lia|done|lia]|].
  destruct (decide (j + 12 < 30)); [apply (Hfield 21); [lia|done|lia]|].
  destruct (decide (j + 12 < 39)); [apply (Hfield 30); [lia|done|lia]|].
  destruct (decide (j + 12 < 48)); [apply (Hfield 39); [lia|done|lia]|].
  by rewrite !(testbit_high _ 48) by lia.
Qed.

(** ** The leaf entries the code writes *)
Lemma mask4k_down pa : 0 <= pa < 2 ^ 64 -> Z.land pa PAGE_MASK_4K = pa - pa mod PAGE_SIZE_4K.
Proof. intros. unfold PAGE_MASK_4K, PAGE_SIZE_4K. by apply (align_down_spec 12). Qed.

Lemma pte_frame_map pa fl :
  0 <= pa < 2 ^ 52 -> 0 <= fl < 2 ^ 64 ->
  Z.testbit fl 0 = true -> (forall j, 7 <= j < 63 -> Z.testbit fl j = false) ->
  let e := Z.lor (Z.land pa PAGE_MASK_4K) fl in
  0 <= e < 2 ^ 64 /\ has e X86_PTE_P = true /\
  Z.land (pte_frame e) (not64 X86_PTE_NX) = pa - pa mod PAGE_SIZE_4K.
Proof.
  intros Hpa Hfl H0 Hz e.
  assert (Hr : 0 <= Z.land pa PAGE_MASK_4K < 2 ^ 64) by (apply land_range; lia).
  split; [by apply lor_range|]. split; [by apply has_lor_bit|].
  assert (HPS : has e X86_PTE_PS = false).
  { unfold e, X86_PTE_PS. rewrite has_bit, Z.lor_spec, Z.land_spec, testbit_mask4k, Hz by lia.
    by rewrite andb_false_r. }
  unfold pte_frame. rewrite HPS. rewrite <- mask4k_down by lia.
  apply Z.bits_inj'. intros j Hj. unfold e.
  rewrite !Z.land_spec, Z.lor_spec, Z.land_spec, testbit_mask4k by done.
  destruct (decide (j < 12)).
  { replace (12 <=? j) with false by lia. by rewrite !andb_false_r. }
  destruct (decide (j < 63)).
  - rewrite Hz by lia. replace ((12 <=? j) && (j <? 64)) with true by lia.
    rewrite testbit_not64, orb_false_r, !andb_true_r by lia. unfold X86_PTE_NX.
    rewrite bit_testbit by lia. replace (63 =? j) with false by lia. by rewrite andb_true_r.
  - rewrite (testbit_high pa 52) by lia. simpl.
    destruct (decide (j = 63)) as [->|].
    + rewrite testbit_not64 by lia. unfold X86_PTE_NX. rewrite bit_testbit by lia.
      by rewrite andb_false_r.
    + replace (j <? 64) with false by lia. by rewrite !andb_false_r.
Qed.

(** The permission bits of [x86_flags]. *)
Lemma x86_flags_spec flags :
  let fl := x86_flags X86_PTE_P flags in
  0 <= fl < 2 ^ 64 /\ Z.testbit fl 0 = true /\ (forall j, 7 <= j < 63 -> Z.testbit fl j = false) /\
  Z.testbit fl 1 = has flags VM_PROT_WRITE /\ Z.testbit fl 2 = has flags VM_PROT_USER /\
  Z.testbit fl 63 = negb (has flags VM_PROT_EXEC).
Proof.
  unfold x86_flags.
  assert (Hbits : forall b j, 0 <= b -> Z.testbit (bit b) j = (b =? j))
    by (intros; by apply bit_testbit).
  unfold X86_PTE_P, X86_PTE_RW, X86_PTE_US, X86_PTE_NX.
  destruct (has flags VM_PROT_WRITE), (has flags VM_PROT_USER), (has flags VM_PROT_EXEC);
    cbn [negb]; (split; [vm_compute; intuition congruence|]);
    repeat (split; [reflexivity|]);
    (split; [intros j Hj; rewrite ?Z.lor_spec, ?Hbits by lia; lia|]); repeat split; reflexivity.
Qed.

(** The permissions of the entry written for [pa]. *)
Lemma pte_perms pa flags :
  0 <= pa < 2 ^ 52 ->
  let e := Z.lor (Z.land pa PAGE_MASK_4K) (x86_flags X86_PTE_P flags) in
  has e X86_PTE_RW = has flags VM_PROT_WRITE /\ has e X86_PTE_US = has flags VM_PROT_USER /\
  has e X86_PTE_NX = negb (has flags VM_PROT_EXEC).
Proof.
  intros Hpa. destruct (x86_flags_spec flags) as (_ & _ & _ & F4 & F5 & F6).
  assert (Hb : forall n, 0 <= n < 12 \/ 52 <= n < 64 ->
    has (Z.lor (Z.land pa PAGE_MASK_4K) (x86_flags X86_PTE_P flags)) (bit n) =
    Z.testbit (x86_flags X86_PTE_P flags) n).
  { intros n Hn. rewrite has_bit, Z.lor_spec, Z.land_spec, testbit_mask4k by lia.
    destruct Hn; [replace (12 <=? n) with false by lia; by rewrite andb_false_r|].
    by rewrite (testbit_high pa 52) by lia. }
  unfold X86_PTE_RW, X86_PTE_US, X86_PTE_NX. cbv zeta. rewrite !Hb by lia. done.
Qed.

(** The common part of the 4 KiB mapping operations. *)
Lemma map_leaf_spec s ls aspace va e pt s1 s' :
  vm_inv s ls aspace -> not_large (ram s) aspace va -> (3 <= length (all_free ls))%nat ->
  0 <= e < 2 ^ 64 -> get_pt aspace va s = (pt, s1) ->
  s' = s1 <| ram := stw (ram s1) pt (PT_INDEX va) e |> ->
  lookup_va (ram s') aspace va = (false, e) /\
  (forall v, (va_path v, PT_INDEX v) <> (va_path va, PT_INDEX va) ->
     lookup_va (ram s') aspace v = lookup_va (ram s) aspace v) /\
  exists ls', vm_inv s' ls' aspace /\ vm_frame s s' ls aspace /\
    (length (all_free ls) <= 3 + length (all_free ls'))%nat /\
    (exists used, all_free ls ≡ₚ used ++ all_free ls') /\
    (forall q u, path_ok q -> node (ram s') 4 aspace q = Some u ->
       node (ram s) 4 aspace q = Some u \/ u ∈ all_free ls).
Proof.
  intros H Hnl Hlen He Hg ->.
  destruct (get_pt_spec s ls aspace va H Hnl Hlen) as (pt' & s1' & ls' & Hg' & V & N & K).
  rewrite Hg in Hg'. injection Hg' as <- <-.
  pose proof (ext_inv _ _ _ _ _ V) as H1. rsimpl.
  split; [by apply (leaf_lookup s1 ls')|]. split.
  { intros v Hv. rewrite (leaf_lookup_ne s1 ls') by done. apply V. }
  exists ls'. split; [by apply leaf_inv|]. split; [|split; [done|split; [apply V|]]].
  2: { intros q u Hq. rewrite (leaf_nodes s1 ls') by done. by apply V. }
  destruct (leaf_frame s1 ls' aspace va pt e N) as [_ F2]. destruct (ext_frame _ _ _ _ _ V) as [E1 F1].
  split; [rsimpl; by rewrite E1 at 1|]. rsimpl. intros x Hx.
  destruct (decide (ram s1 x = ram s x)) as [Ex|Ex]; [|by apply F1].
  rewrite <- Ex in Hx. destruct (F2 x Hx) as (f & Hf & [Hfr|(p & Hp & Hn)]); exists f; (split; [done|]).
  - left. destruct (ext_free _ _ _ _ _ V) as [u ->]. apply elem_of_app. by right.
  - destruct (ext_new _ _ _ _ _ V p f Hp Hn); eauto.
Qed.


(** ** Unmapping *)
Lemma walk_not_large m aspace va :
  not_large m aspace va ->
  walk_to_pte m aspace va = (fun pt => pt + 8 * PT_INDEX va) <$> node m 4 aspace (va_path va).
Proof.
  unfold not_large, lookup_va, walk_to_pte, va_path. cbn [node Nat.pred].
  unfold next. rewrite !(bool_decide_eq_false_2 (_ = 2%nat)) by done.
  rewrite (bool_decide_eq_true_2 (2%nat = 2%nat)) by done. cbn [andb].
  destruct (has (ldw m aspace (PML4_INDEX va)) X86_PTE_P); [|done]. cbn [negb].
  set (pdpt := Z.land (ldw m aspace (PML4_INDEX va)) PAGE_MASK_4K).
  destruct (has (ldw m pdpt (PDPT_INDEX va)) X86_PTE_P); [|done]. cbn [negb].
  set (pd := Z.land (ldw m pdpt (PDPT_INDEX va)) PAGE_MASK_4K).
  destruct (has (ldw m pd (PD_INDEX va)) X86_PTE_P); [|done]. cbn [negb].
  by destruct (has (ldw m pd (PD_INDEX va)) X86_PTE_PS).
Qed.


(** ** Small machines for examples: [len] bytes of memory, an empty PML4 at
    physical address 0x2000, every frame from 0x4000 on free. *)
Definition demo_machine (len : Z) : mach :=
  let '(p, m) := pmm_init 0x3001 0 len (fun _ => (0, 0)) 0 (fun _ => 0) in
  mk_mach m p (untyped_init 0 0) (dma_region_init 0 0) false (mk_fb_info 0 0 0 0 0 0 0 0 0 0 0 0)
    (fun _ => 0) (mk_vm_activate_stats 0 0).
Definition demo_mach : mach := demo_machine 0x8000.

(** An address space with an empty root has no other table. *)
Lemma pt_wf_empty m free aspace :
  tbl_ok aspace -> aspace ∉ free -> (forall j, idx_ok j -> ldw m aspace j = 0) ->
  pt_wf m free aspace.
Proof.
  intros Hok Hnf Hz.
  assert (Hroot : forall p t, path_ok p -> node m 4 aspace p = Some t -> p = [] /\ t = aspace).
  { intros [|i p] t [Hp _]; cbn [node]; [by intros [= <-]|]. apply list.Forall_cons in Hp as [Hi _].
    unfold next. rewrite Hz by done. done. }
  split.
  - intros p t Hp Hn. destruct (Hroot p t Hp Hn) as [_ ->]. done.
  - intros p q t Hp Hq Hn Hm. destruct (Hroot p t Hp Hn) as [-> _]. by destruct (Hroot q t Hq Hm) as [-> _].
Qed.

Lemma demo_machine_inv len fs :
  0 <= len < 2 ^ 64 -> usable_frames 0x3001 0 len (fun _ => (0, 0)) 0 = fs ->
  Forall (fun f => 0x4000 <= f < 2 ^ 52) fs ->
  exists ls, vm_inv (demo_machine len) ls 0x2000 /\ all_free ls ≡ₚ fs /\
    forall va, lookup_va (ram (demo_machine len)) 0x2000 va = (false, 0).
Proof.
  intros Hlen Hu Hlow. destruct (pmm_init 0x3001 0 len (fun _ => (0, 0)) 0 (fun _ => 0)) as [p m] eqn:E.
  unfold demo_machine. rewrite E. cbn [ram].
  destruct (pmm_init_rep 0x3001 0 len (fun _ => (0, 0)) 0 ltac:(lia) ltac:(split; [lia|done])
    _ _ _ E) as (ls & Hr & Hp & _ & Hx).
  rewrite Hu in Hp. rewrite list.Forall_forall in Hlow.
  assert (Hz : forall j, idx_ok j -> ldw m 0x2000 j = 0).
  { intros j Hj. apply ld64_zero. intros x Hxr. destruct (decide (m x = 0)) as [|Hne]; [done|].
    destruct (Hx x Hne) as (f & Hf & Hfx). rewrite Hp in Hf. specialize (Hlow f Hf).
    unfold idx_ok, PAGE_SIZE_4K in *. lia. }
  exists ls. split; [|split; [done|]].
  - split; cbn [frames ram]; [done| |].
    + apply list.Forall_forall. intros f Hf. rewrite Hp in Hf. specialize (Hlow f Hf). lia.
    + apply pt_wf_empty; [|intros Hin; rewrite Hp in Hin; specialize (Hlow _ Hin); lia|done].
      unfold tbl_ok, frame_ok, PAGE_SIZE_4K. split; [split; [lia|split; [reflexivity|lia]]|lia].
  - intros va. unfold lookup_va, va_path. cbn [node]. unfold next.
    rewrite Hz by apply index_ok. done.
Qed.

Lemma demo_inv : exists ls, vm_inv demo_mach ls 0x2000 /\ length (all_free ls) = 4%nat /\
  forall va, lookup_va (ram demo_mach) 0x2000 va = (false, 0).
Proof.
  destruct (demo_machine_inv 0x8000 [0x4000; 0x5000; 0x6000; 0x7000]) as (ls & H1 & H2 & H3);
    [lia|vm_compute; reflexivity|repeat (apply Forall_cons_2; [lia|]); by apply Forall_nil_2|].
  exists ls. by rewrite H2.
Qed.



(** ** New address spaces *)

(** The PDPT entries a new address space shares with the kernel. *)
Definition kernel_slot (i : Z) : bool :=
  (i =? 0) || (i =? PDPT_INDEX LAPIC_PADDR) || (i =? PDPT_INDEX KINFO_VA) ||
  (i =? PDPT_INDEX FRAMEBUFFER_VA).

(** Memories that agree on the tables of an address space walk alike. *)
Definition tables_agree (m m' : mem) (root : Z) : Prop :=
  forall p t x, path_ok p -> node m 4 root p = Some t -> t <= x < t + PAGE_SIZE_4K -> m' x = m x.

Lemma node_agree m m' root :
  tables_agree m m' root -> forall q, path_ok q -> node m' 4 root q = node m 4 root q.
Proof.
  intros Hag q. induction q as [|j q IH] using rev_ind; [done|].
  rewrite path_ok_snoc, !node_snoc. intros (Hq & Hj & Hl). rewrite IH by done.
  destruct (node m 4 root q) as [u|] eqn:Eu; [|done].
  unfold next. rewrite (ldw_ext m' m u j); [done|done|]. intros x Hx. by apply (Hag q u).
Qed.

Lemma lookup_agree m m' root va :
  tables_agree m m' root -> lookup_va m' root va = lookup_va m root va.
Proof.
  intros Hag. unfold lookup_va. rewrite !(node_agree _ _ _ Hag) by path_idx.
  destruct (node m 4 root (va_path va)) as [pt|] eqn:N.
  - rewrite (ldw_ext m' m pt); [done|apply index_ok|]. intros x. apply (Hag (va_path va) pt); [path_idx|done].
  - destruct (node m 4 root [PML4_INDEX va; PDPT_INDEX va]) as [pd|] eqn:Npd; [|done].
    rewrite (ldw_ext m' m pd); [done|apply index_ok|]. intros x.
    apply (Hag [PML4_INDEX va; PDPT_INDEX va] pd); [path_idx|done].
Qed.

Lemma translate_agree m m' root va :
  tables_agree m m' root -> arch_vm_translate m' root va = arch_vm_translate m root va.
Proof. intros Hag. by rewrite !translate_lookup, (lookup_agree _ _ _ _ Hag). Qed.

Lemma alloc_table_spec s ls f s' :
  pmm_rep (frames s) (ram s) ls -> alloc_table s = (f, s') ->
  (f = 0 /\ all_free ls = []) \/
  exists ls', f <> 0 /\ all_free ls ≡ₚ f :: all_free ls' /\ pmm_rep (frames s') (ram s') ls' /\
    s' = s <| frames := frames s' |> <| ram := ram s' |> /\
    forall x, ram s' x = if (f <=? x) && (x <? f + PAGE_SIZE_4K) then 0 else ram s x.
Proof.
  intros Hrep. unfold alloc_table, pmm_alloc_m.
  destruct (pmm_alloc PMM_COLOR_ANY (frames s) (ram s)) as [[g p1] m1] eqn:Ea. intros [= <- <-].
  destruct (pmm_alloc_rep _ _ _ _ _ _ _ Hrep (or_introl eq_refl) Ea)
    as [(-> & _ & _ & Hnil)|(c & l & Hc & _ & Hl & Hf0 & Hrep1 & Hz)]; [by left|right].
  exists (<[c := l]> ls). rsimpl. split; [done|]. split; [by apply all_free_pop|]. done.
Qed.

Section create.
Context (boot_pml4 boot_pdpt : Z) (s s1 s2 s' : mach) (ls l1 l2 : Z -> list Z) (pml4 pdpt : Z).
Hypothesis Hmem : mem_wf (ram s).
Hypothesis Hlow : Forall (fun f => f < 2 ^ 52) (all_free ls).
Hypothesis Hrep : pmm_rep (frames s) (ram s) ls.
Hypothesis Hkern : pt_wf (ram s) (all_free ls) boot_pml4.
Hypothesis Hroot : next (ram s) 4 boot_pml4 0 = Some boot_pdpt.
Hypothesis Hp1 : all_free ls ≡ₚ pml4 :: all_free l1.
Hypothesis Hp2 : all_free l1 ≡ₚ pdpt :: all_free l2.
Hypothesis Hm1 : forall x, ram s1 x = if (pml4 <=? x) && (x <? pml4 + PAGE_SIZE_4K) then 0 else ram s x.
Hypothesis Hm2 : forall x, ram s2 x = if (pdpt <=? x) && (x <? pdpt + PAGE_SIZE_4K) then 0 else ram s1 x.

(** The memory the code builds after the two allocations. *)
Let fill : mem :=
  let m := memset (ram s2) pml4 0 PAGE_SIZE_4K in
  let m := memset m pdpt 0 PAGE_SIZE_4K in
  let m := stw m pdpt 0 (ldw m boot_pdpt 0) in
  let m := share_kernel_slot boot_pdpt pdpt (PDPT_INDEX LAPIC_PADDR) m in
  let m := share_kernel_slot boot_pdpt pdpt (PDPT_INDEX KINFO_VA) m in
  let m := share_kernel_slot boot_pdpt pdpt (PDPT_INDEX FRAMEBUFFER_VA) m in
  stw m pml4 0 (Z.lor pdpt table_flags).

Lemma create_frames :
  tbl_ok pml4 /\ tbl_ok pdpt /\ pml4 <> pdpt /\ pml4 ∈ all_free ls /\ pdpt ∈ all_free ls.
Proof.
  assert (H1 : pml4 ∈ all_free ls) by (rewrite Hp1; by left).
  assert (H2 : pdpt ∈ all_free ls) by (rewrite Hp1, Hp2; right; by left).
  pose proof (rep_nodup _ _ _ Hrep) as Hnd. rewrite Hp1, Hp2 in Hnd.
  apply list.NoDup_cons in Hnd as [Hne _].
  pose proof Hlow as Hl. rewrite list.Forall_forall in Hl.
  split; [split; [by apply (rep_ok _ _ _ Hrep)|by apply Hl]|].
  split; [split; [by apply (rep_ok _ _ _ Hrep)|by apply Hl]|].
  split; [intros ->; apply Hne; by left|done].
Qed.

(** A store or a share into the new PDPT does not disturb other frames. *)
Lemma share_out i m x :
  idx_ok i -> x < pdpt \/ pdpt + PAGE_SIZE_4K <= x -> share_kernel_slot boot_pdpt pdpt i m x = m x.
Proof.
  unfold idx_ok, PAGE_SIZE_4K, share_kernel_slot. intros. break_if; [|done]. apply st64_out. lia.
Qed.

Lemma fill_out x :
  x < pml4 \/ pml4 + PAGE_SIZE_4K <= x -> x < pdpt \/ pdpt + PAGE_SIZE_4K <= x -> fill x = ram s x.
Proof.
  intros H1 H2. unfold fill, stw at 1.
  rewrite st64_out by (unfold PAGE_SIZE_4K in *; lia).
  rewrite !share_out by (done || apply index_ok).
  unfold stw. rewrite st64_out by (unfold PAGE_SIZE_4K in *; lia).
  rewrite !memset_out by lia. rewrite Hm2, Hm1.
  replace ((pdpt <=? x) && (x <? pdpt + PAGE_SIZE_4K)) with false by lia.
  by replace ((pml4 <=? x) && (x <? pml4 + PAGE_SIZE_4K)) with false by lia.
Qed.

Lemma boot_pdpt_ok : tbl_ok boot_pdpt /\ boot_pdpt ∉ all_free ls.
Proof.
  apply (pt_nodes _ _ _ Hkern [0]); [|cbn [node]; by rewrite Hroot].
  split; [|simpl; lia]. apply Forall_cons_2; [unfold idx_ok; lia|by apply Forall_nil_2].
Qed.

(** The new PDPT holds the kernel's entries at the slots in [S] and is empty
    elsewhere, and the kernel's PDPT is intact. *)
Let slots (S : Z -> bool) (m : mem) : Prop :=
  (forall j, idx_ok j -> ldw m boot_pdpt j = ldw (ram s) boot_pdpt j) /\
  (forall j, idx_ok j -> ldw m pdpt j = if S j then ldw (ram s) boot_pdpt j else 0).

Lemma boot_pdpt_disjoint i j :
  idx_ok i -> idx_ok j ->
  boot_pdpt + 8 * j + 8 <= pdpt + 8 * i \/ pdpt + 8 * i + 8 <= boot_pdpt + 8 * j.
Proof.
  intros Hi Hj. destruct create_frames as (_ & [Hpd _] & _ & _ & Hin).
  destruct boot_pdpt_ok as [[Hb _] Hnf]. assert (boot_pdpt <> pdpt) by (by intros ->).
  destruct (frames_disjoint boot_pdpt pdpt Hb Hpd); [done|unfold idx_ok, PAGE_SIZE_4K in *; lia..].
Qed.

Lemma slots_store S m i :
  idx_ok i -> slots S m -> slots (fun j => (j =? i) || S j) (stw m pdpt i (ldw m boot_pdpt i)).
Proof.
  intros Hi [Hk Hs]. split; intros j Hj.
  - rewrite ldw_stw_ne by (by apply boot_pdpt_disjoint). by apply Hk.
  - destruct (Z.eqb_spec j i) as [->|Hne]; simpl.
    + rewrite ldw_stw; [by apply Hk|]. rewrite Hk by done. by apply ld64_range.
    + rewrite ldw_stw_ne by lia. by apply Hs.
Qed.

Lemma slots_share S m i :
  idx_ok i -> slots S m ->
  slots (fun j => (j =? i) || S j) (share_kernel_slot boot_pdpt pdpt i m).
Proof.
  intros Hi Hsl. unfold share_kernel_slot, tru. destruct (Z.eqb_spec (ldw m boot_pdpt i) 0) as [E|E]; simpl.
  - destruct Hsl as [Hk Hs]. split; [done|]. intros j Hj. rewrite Hs by done.
    destruct (Z.eqb_spec j i) as [->|]; [|done]. simpl. rewrite <- Hk, E by done. by break_if.
  - by apply slots_store.
Qed.

Lemma fill_pml4 j : idx_ok j -> ldw fill pml4 j = if j =? 0 then Z.lor pdpt table_flags else 0.
Proof.
  intros Hj. destruct create_frames as ([Hf1 _] & Hok2 & Hne & _). pose proof Hok2 as [Hf2 _].
  destruct (table_entry pdpt Hok2) as (_ & _ & _ & Hr). unfold fill.
  destruct (Z.eqb_spec j 0) as [->|Hj0]; [by apply ldw_stw|].
  rewrite ldw_stw_ne by (unfold idx_ok in *; lia).
  apply ld64_zero. intros x Hx.
  assert (Hout : x < pdpt \/ pdpt + PAGE_SIZE_4K <= x).
  { destruct (frames_disjoint pml4 pdpt Hf1 Hf2 Hne); unfold idx_ok, PAGE_SIZE_4K in *; lia. }
  rewrite !share_out by (done || apply index_ok).
  unfold stw. rewrite st64_out by (unfold PAGE_SIZE_4K in *; lia).
  rewrite memset_out by lia. rewrite memset_spec by (unfold PAGE_SIZE_4K; lia).
  by replace ((pml4 <=? x) && (x <? pml4 + PAGE_SIZE_4K)) with true
    by (unfold idx_ok, PAGE_SIZE_4K in *; lia).
Qed.

Lemma fill_pdpt j :
  idx_ok j -> ldw fill pdpt j = if kernel_slot j then ldw (ram s) boot_pdpt j else 0.
Proof.
  intros Hj. destruct create_frames as ([Hf1 _] & [Hf2 _] & Hne & H1 & _).
  destruct boot_pdpt_ok as [[Hb _] Hnf]. assert (Hb1 : boot_pdpt <> pml4) by (by intros ->).
  unfold fill. rewrite ldw_stw_ne by
    (destruct (frames_disjoint pml4 pdpt Hf1 Hf2 Hne); unfold idx_ok, PAGE_SIZE_4K in *; lia).
  assert (H0 : slots (fun _ => false) (memset (memset (ram s2) pml4 0 PAGE_SIZE_4K) pdpt 0 PAGE_SIZE_4K)).
  { split; intros i Hi.
    - apply ld64_ext. intros x Hx.
      pose proof (boot_pdpt_disjoint i i Hi Hi).
      destruct create_frames as (_ & _ & _ & _ & Hin). assert (Hb2 : boot_pdpt <> pdpt) by (by intros ->).
      unfold idx_ok, PAGE_SIZE_4K in *.
      destruct (frames_disjoint boot_pdpt pdpt Hb Hf2 Hb2), (frames_disjoint boot_pdpt pml4 Hb Hf1 Hb1);
        unfold PAGE_SIZE_4K in *; rewrite !memset_out by lia; rewrite Hm2, Hm1;
        unfold PAGE_SIZE_4K; rewrite (proj2 (andb_false_iff _ _)) by lia;
        by rewrite (proj2 (andb_false_iff _ _)) by lia.
    - unfold idx_ok, PAGE_SIZE_4K in *. apply ld64_memset0; lia. }
  pose proof (slots_store _ _ 0 ltac:(unfold idx_ok; lia) H0) as HS1.
  pose proof (slots_share _ _ (PDPT_INDEX LAPIC_PADDR) (index_ok _) HS1) as HS2.
  pose proof (slots_share _ _ (PDPT_INDEX KINFO_VA) (index_ok _) HS2) as HS3.
  pose proof (slots_share _ _ (PDPT_INDEX FRAMEBUFFER_VA) (index_ok _) HS3) as [_ HS].
  rewrite HS by done. unfold kernel_slot.
  destruct (j =? 0), (j =? PDPT_INDEX LAPIC_PADDR), (j =? PDPT_INDEX KINFO_VA),
    (j =? PDPT_INDEX FRAMEBUFFER_VA); done.
Qed.

Lemma fill_kernel t x : tbl_ok t -> t ∉ all_free ls -> t <= x < t + PAGE_SIZE_4K -> fill x = ram s x.
Proof.
  intros [Ht _] Hnf Hx. destruct create_frames as ([Hf1 _] & [Hf2 _] & _ & H1 & H2).
  assert (t <> pml4) by (by intros ->). assert (t <> pdpt) by (by intros ->).
  destruct (frames_disjoint t pml4 Ht Hf1), (frames_disjoint t pdpt Ht Hf2); try done;
    apply fill_out; lia.
Qed.

Lemma fill_agree : tables_agree (ram s) fill boot_pml4.
Proof.
  intros p t x Hp Hn Hx. destruct (pt_nodes _ _ _ Hkern p t Hp Hn) as [Hok Hnf].
  by apply (fill_kernel t).
Qed.

Lemma fill_nodes q :
  path_ok q -> node fill 4 pml4 q =
  match q with
  | [] => Some pml4
  | [i] => if i =? 0 then Some pdpt else None
  | i :: j :: _ => if (i =? 0) && kernel_slot j then node (ram s) 4 boot_pml4 q else None
  end.
Proof.
  intros Hq. destruct q as [|i q]; [done|].
  destruct create_frames as (_ & Hok2 & _). destruct (table_entry pdpt Hok2) as (E1 & E2 & E3 & _).
  assert (Hi : idx_ok i) by (destruct Hq as [Hf _]; by apply list.Forall_cons in Hf as [? _]).
  assert (Hnext : next fill 4 pml4 i = if i =? 0 then Some pdpt else None).
  { unfold next. rewrite fill_pml4 by done. destruct (i =? 0); [|done].
    rewrite E1, E3. done. }
  destruct q as [|j q].
  { cbn [node]. rewrite Hnext. by destruct (i =? 0). }
  pose proof (node_agree _ _ _ fill_agree (i :: j :: q) Hq) as Hk.
  rewrite <- Hk. cbn [node]. rewrite Hnext. destruct (Z.eqb_spec i 0) as [->|]; [|done]. cbn [andb].
  assert (Hj : idx_ok j).
  { destruct Hq as [Hf _]. apply list.Forall_cons in Hf as [_ Hf]. by apply list.Forall_cons in Hf as [? _]. }
  assert (Hr : next fill 4 boot_pml4 0 = Some boot_pdpt).
  { pose proof (node_agree _ _ _ fill_agree [0]) as H0. cbn [node] in H0.
    rewrite Hroot in H0. destruct (next fill 4 boot_pml4 0); [|discriminate H0].
    - apply H0. split; [by apply Forall_cons_2; [|by apply Forall_nil_2]|simpl; lia].
    - split; [by apply Forall_cons_2; [|by apply Forall_nil_2]|simpl; lia]. }
  rewrite Hr. assert (Hsame : next fill 3 pdpt j = if kernel_slot j then next fill 3 boot_pdpt j else None).
  { unfold next. rewrite fill_pdpt by done. destruct boot_pdpt_ok as [Hb Hbn].
    rewrite (ldw_ext fill (ram s) boot_pdpt j Hj) by (intros x Hx; by apply (fill_kernel boot_pdpt)).
    by destruct (kernel_slot j). }
  cbn [Nat.pred]. rewrite Hsame. by destruct (kernel_slot j).
Qed.

Lemma fill_lookup va :
  lookup_va fill pml4 va =
  if (PML4_INDEX va =? 0) && kernel_slot (PDPT_INDEX va) then lookup_va (ram s) boot_pml4 va
  else (false, 0).
Proof.
  unfold lookup_va. rewrite !fill_nodes by path_idx. unfold va_path.
  destruct ((PML4_INDEX va =? 0) && kernel_slot (PDPT_INDEX va)); [|done].
  fold (va_path va).
  destruct (node (ram s) 4 boot_pml4 (va_path va)) as [pt|] eqn:N.
  - destruct (pt_nodes _ _ _ Hkern _ pt (va_path_is_ok va) N) as [Hok Hnf].
    by rewrite (ldw_ext fill (ram s) pt) by (apply index_ok || intros; by apply (fill_kernel pt)).
  - destruct (node (ram s) 4 boot_pml4 [PML4_INDEX va; PDPT_INDEX va]) as [pd|] eqn:Npd; [|done].
    destruct (pt_nodes _ _ _ Hkern [PML4_INDEX va; PDPT_INDEX va] pd) as [Hok Hnf]; [path_idx|done|].
    by rewrite (ldw_ext fill (ram s) pd) by (apply index_ok || intros; by apply (fill_kernel pd)).
Qed.

Lemma fill_wf : pt_wf fill (all_free l2) pml4.
Proof.
  destruct create_frames as (Hok1 & Hok2 & Hne & H1 & H2).
  pose proof (rep_nodup _ _ _ Hrep) as Hnd. rewrite Hp1, Hp2 in Hnd.
  apply list.NoDup_cons in Hnd as [Hn1 Hnd]. apply list.NoDup_cons in Hnd as [Hn2 _].
  assert (Hsub : forall f, f ∉ all_free ls -> f ∉ all_free l2).
  { intros f Hf Hin. apply Hf. rewrite Hp1, Hp2. right. by right. }
  split.
  - intros q t Hq. rewrite fill_nodes by done. destruct q as [|i [|j q]].
    + intros [= <-]. split; [done|]. intros Hin. apply Hn1. by right.
    + destruct (i =? 0); [|done]. by intros [= <-].
    + destruct (_ && _); [|done]. intros Hn.
      destruct (pt_nodes _ _ _ Hkern _ t Hq Hn) as [Ht Hf]. auto.
  - intros p q t Hp Hq Hn Hm.
    destruct p as [|i1 [|j1 p]]; destruct q as [|i2 [|j2 q]];
      try (rewrite fill_nodes in Hn by done); try (rewrite fill_nodes in Hm by done);
      repeat match goal with
      | H : context [?i =? 0] |- _ => destruct (Z.eqb_spec i 0) as [->|]; [|done]
      end; simplify_eq; try done.
    all: try (destruct (kernel_slot _); [|done]).
    all: try (destruct (kernel_slot _) eqn:?; [|done]).
    all: try (destruct (pt_nodes _ _ _ Hkern _ _ Hp Hn) as [_ Hf]; done).
    all: try (destruct (pt_nodes _ _ _ Hkern _ _ Hq Hm) as [_ Hf]; done).
    by apply (pt_tree _ _ _ Hkern _ _ t).
Qed.
End create.

(** Writes outside the free frames keep the allocator's lists. *)
Lemma fill_rep boot_pdpt s s1 s2 ls l1 l2 pml4 pdpt :
  Forall (fun f => f < 2 ^ 52) (all_free ls) -> pmm_rep (frames s) (ram s) ls ->
  all_free ls ≡ₚ pml4 :: all_free l1 -> all_free l1 ≡ₚ pdpt :: all_free l2 ->
  (forall x, ram s1 x = if (pml4 <=? x) && (x <? pml4 + PAGE_SIZE_4K) then 0 else ram s x) ->
  (forall x, ram s2 x = if (pdpt <=? x) && (x <? pdpt + PAGE_SIZE_4K) then 0 else ram s1 x) ->
  pmm_rep (frames s2) (ram s2) l2 ->
  let m := memset (ram s2) pml4 0 PAGE_SIZE_4K in
  let m := memset m pdpt 0 PAGE_SIZE_4K in
  let m := stw m pdpt 0 (ldw m boot_pdpt 0) in
  let m := share_kernel_slot boot_pdpt pdpt (PDPT_INDEX LAPIC_PADDR) m in
  let m := share_kernel_slot boot_pdpt pdpt (PDPT_INDEX KINFO_VA) m in
  let m := share_kernel_slot boot_pdpt pdpt (PDPT_INDEX FRAMEBUFFER_VA) m in
  pmm_rep (frames s2) (stw m pml4 0 (Z.lor pdpt table_flags)) l2.
Proof.
  intros Hlow Hrep Hp1 Hp2 Hm1 Hm2 H2 m1 m2 m3 m4 m5 m6. eapply rep_mem_ext; [|exact H2].
  destruct (create_frames boot_pdpt s s1 s2 ls l1 l2 pml4 pdpt) as ([Hf1 _] & [Hf2 _] & _ & _); try done.
  pose proof (rep_nodup _ _ _ Hrep) as Hnd. rewrite Hp1, Hp2 in Hnd.
  apply list.NoDup_cons in Hnd as [Hn1 Hnd]. apply list.NoDup_cons in Hnd as [Hn2 _].
  intros f x Hf Hx. assert (Hok : frame_ok f) by (by apply (rep_ok _ _ _ H2)).
  assert (f <> pml4) by (intros ->; apply Hn1; by right). assert (f <> pdpt) by (by intros ->).
  symmetry.
  transitivity (ram s x).
  - apply (fill_out boot_pdpt s s1 s2 pml4 pdpt); try done;
      [destruct (frames_disjoint f pml4 Hok Hf1)|destruct (frames_disjoint f pdpt Hok Hf2)]; (done || lia).
  - rewrite Hm2, Hm1.
    destruct (frames_disjoint f pml4 Hok Hf1), (frames_disjoint f pdpt Hok Hf2); try done;
      rewrite (proj2 (andb_false_iff _ _)) by lia; by rewrite (proj2 (andb_false_iff _ _)) by lia.
Qed.

(** C29: A new address space contains the shared kernel mappings and nothing
    else.  With the kernel's own tables well-formed,
    [arch_vm_create_address_space] fails only when fewer than two frames are
    free; otherwise the root it returns is a formerly free frame, the new
    address space is well-formed, an address translates as in the kernel when
    it falls in one of the kernel's shared 1 GiB slots and not at all
    otherwise, and the kernel's translations are unchanged. *)
Theorem create_address_space_correct boot_pml4 boot_pdpt s ls aspace s' :
  mem_wf (ram s) -> Forall (fun f => f < 2 ^ 52) (all_free ls) ->
  pmm_rep (frames s) (ram s) ls -> pt_wf (ram s) (all_free ls) boot_pml4 ->
  next (ram s) 4 boot_pml4 0 = Some boot_pdpt ->
  arch_vm_create_address_space boot_pdpt s = (aspace, s') ->
  (aspace = 0 /\ (length (all_free ls) < 2)%nat) \/
  (aspace ∈ all_free ls /\ (exists ls', vm_inv s' ls' aspace) /\
   (forall va, arch_vm_translate (ram s') aspace va =
      if (PML4_INDEX va =? 0) && kernel_slot (PDPT_INDEX va)
      then arch_vm_translate (ram s) boot_pml4 va else 0) /\
   (forall va, arch_vm_translate (ram s') boot_pml4 va = arch_vm_translate (ram s) boot_pml4 va)).
Proof.
  intros Hmem Hlow Hrep Hk Hroot. unfold arch_vm_create_address_space.
  destruct (alloc_table s) as [pml4 s1] eqn:E1. destruct (alloc_table s1) as [pdpt s2] eqn:E2.
  destruct (alloc_table_spec s ls pml4 s1 Hrep E1) as [[-> Hnil]|(l1 & Hn1 & Hp1 & Hr1 & _ & Hm1)].
  { rewrite Z.eqb_refl. cbn [orb]. intros [= <- _]. left. rewrite Hnil. simpl. split; [done|lia]. }
  destruct (alloc_table_spec s1 l1 pdpt s2 Hr1 E2) as [[-> Hnil]|(l2 & Hn2 & Hp2 & Hr2 & _ & Hm2)].
  { rewrite Z.eqb_refl, orb_true_r. intros [= <- _]. left. rewrite Hp1, Hnil. simpl. split; [done|lia]. }
  replace ((pml4 =? 0) || (pdpt =? 0)) with false by lia. intros [= <- <-]. right. rsimpl.
  assert (Hlow2 : Forall (fun f => f < 2 ^ 52) (all_free l2)).
  { rewrite Hp1, Hp2 in Hlow. apply list.Forall_cons in Hlow as [_ Hl].
    by apply list.Forall_cons in Hl as [_ Hl]. }
  split; [rewrite Hp1; by left|]. split; [|split].
  - exists l2. split; rsimpl; [|done|].
    + by apply (fill_rep boot_pdpt s s1 s2 ls l1 l2).
    + by apply (fill_wf boot_pml4 boot_pdpt s s1 s2 ls l1 l2).
  - intros va. rewrite !translate_lookup, (fill_lookup boot_pml4 boot_pdpt s s1 s2 ls l1 l2) by done.
    by destruct (_ && _).
  - intros va. apply translate_agree. by apply (fill_agree boot_pml4 boot_pdpt s s1 s2 ls l1 l2).
Qed.

(** A kernel with PML4 at 0x1000, PDPT at 0x2000 and one page directory at
    0x3000 that maps one 2 MiB page; four free frames. *)
Definition demo_kernel : mem :=
  stw (stw (stw (fun _ => 0) 0x1000 0 0x2007) 0x2000 0 0x3007) 0x3000 1 0x200083.

Lemma demo_kernel_entry t j :
  (t = 0x1000 \/ t = 0x2000 \/ t = 0x3000) -> idx_ok j ->
  ldw demo_kernel t j =
  if (t =? 0x1000) && (j =? 0) then 0x2007
  else if (t =? 0x2000) && (j =? 0) then 0x3007
  else if (t =? 0x3000) && (j =? 1) then 0x200083 else 0.
Proof.
  unfold idx_ok, demo_kernel. intros Ht Hj.
  destruct Ht as [->|[->| ->]]; cbn [Z.eqb Pos.eqb andb].
  - rewrite !(ldw_stw_ne _ 0x3000), !(ldw_stw_ne _ 0x2000) by lia.
    destruct (Z.eqb_spec j 0) as [->|]; [by apply ldw_stw|]. rewrite ldw_stw_ne by lia. by apply ld64_zero.
  - rewrite (ldw_stw_ne _ 0x3000) by lia.
    destruct (Z.eqb_spec j 0) as [->|]; [by apply ldw_stw|]. rewrite !ldw_stw_ne by lia. by apply ld64_zero.
  - destruct (Z.eqb_spec j 1) as [->|]; [by apply ldw_stw|]. rewrite !ldw_stw_ne by lia. by apply ld64_zero.
Qed.

Lemma demo_kernel_wf m free :
  (forall t j, (t = 0x1000 \/ t = 0x2000 \/ t = 0x3000) -> idx_ok j -> ldw m t j = ldw demo_kernel t j) ->
  0x1000 ∉ free -> 0x2000 ∉ free -> 0x3000 ∉ free -> pt_wf m free 0x1000.
Proof.
  intros Hm H1 H2 H3.
  assert (Hn : forall p t, path_ok p -> node m 4 0x1000 p = Some t ->
    p = [] /\ t = 0x1000 \/ p = [0] /\ t = 0x2000 \/ p = [0; 0] /\ t = 0x3000).
  { intros p t. revert t. induction p as [|j p IH] using rev_ind; intros t; [intros _ [= <-]; by left|].
    rewrite path_ok_snoc, node_snoc. intros (Hp & Hj & _).
    destruct (node m 4 0x1000 p) as [u|] eqn:Eu; [|done].
    destruct (IH u Hp eq_refl) as [[-> ->]|[[-> ->]|[-> ->]]]; unfold next;
      rewrite Hm, demo_kernel_entry by tauto; cbn [Z.eqb Pos.eqb andb].
    - destruct (Z.eqb_spec j 0) as [->|]; [|done]. intros [= <-]. right. by left.
    - destruct (Z.eqb_spec j 0) as [->|]; [|done]. intros [= <-]. right. by right.
    - by destruct (Z.eqb_spec j 1). }
  split.
  - intros p t Hp E. unfold tbl_ok, frame_ok, PAGE_SIZE_4K.
    destruct (Hn p t Hp E) as [[_ ->]|[[_ ->]|[_ ->]]]; repeat split; try done; lia.
  - intros p q t Hp Hq E1 E2.
    destruct (Hn p t Hp E1) as [[-> ->]|[[-> ->]|[-> ->]]], (Hn q _ Hq E2) as [[-> ?]|[[-> ?]|[-> ?]]]; done.
Qed.

Lemma create_address_space_correct_witness :
  let '(p, m) := pmm_init 0x3001 0 0x8000 (fun _ => (0, 0)) 0 demo_kernel in
  let s := mk_mach m p (untyped_init 0 0) (dma_region_init 0 0) false (mk_fb_info 0 0 0 0 0 0 0 0 0 0 0 0)
    (fun _ => 0) (mk_vm_activate_stats 0 0) in
  let '(aspace, s') := arch_vm_create_address_space 0x2000 s in
  arch_vm_translate (ram s') aspace 0x212345 = 0x200000 /\
  arch_vm_translate (ram s') aspace 0x40000000 = 0.
Proof.
  destruct (pmm_init 0x3001 0 0x8000 (fun _ => (0, 0)) 0 demo_kernel) as [p m] eqn:E.
  intros s.
  destruct (arch_vm_create_address_space 0x2000 s) as [aspace s'] eqn:Ec.
  destruct (pmm_init_rep 0x3001 0 0x8000 (fun _ => (0, 0)) 0 ltac:(lia)
    ltac:(split; [lia|reflexivity]) _ _ _ E) as (ls & Hr & Hp & _ & Hx).
  assert (Hu : usable_frames 0x3001 0 0x8000 (fun _ => (0, 0)) 0 = [0x4000; 0x5000; 0x6000; 0x7000])
    by (vm_compute; reflexivity).
  rewrite Hu in Hp.
  assert (Hlo : forall f, f ∈ all_free ls -> 0x4000 <= f < 0x8000).
  { intros f Hf. rewrite Hp in Hf. repeat (apply elem_of_cons in Hf as [->|Hf]; [lia|]).
    exfalso. revert Hf. apply not_elem_of_nil. }
  assert (Hag : forall x, x < 0x4000 -> m x = demo_kernel x).
  { intros x Hlt. destruct (decide (m x = demo_kernel x)) as [|Hne]; [done|exfalso].
    destruct (Hx x Hne) as (f & Hf & Hfx). specialize (Hlo f Hf). lia. }
  assert (Hent : forall t j, (t = 0x1000 \/ t = 0x2000 \/ t = 0x3000) -> idx_ok j ->
    ldw m t j = ldw demo_kernel t j).
  { intros t j Ht Hj. apply ldw_ext; [done|]. intros x Hxr. apply Hag. unfold PAGE_SIZE_4K in *. lia. }
  assert (Hnf : forall t, t < 0x4000 -> t ∉ all_free ls) by (intros t Ht Hin; specialize (Hlo t Hin); lia).
  assert (Hmw : mem_wf m).
  { assert (Hd : mem_wf demo_kernel) by (repeat apply st64_wf; intros ?; lia).
    change m with (p, m).2. rewrite <- E. apply pmm_init_wf. exact Hd. }
  destruct (create_address_space_correct 0x1000 0x2000 s ls aspace s') as [[_ Hl]|(_ & _ & H1 & _)].
  - exact Hmw.
  - rewrite Hp. repeat (apply Forall_cons_2; [lia|]). by apply Forall_nil_2.
  - exact Hr.
  - apply demo_kernel_wf; [exact Hent|apply Hnf; lia..].
  - unfold next. cbn [ram s]. rewrite Hent, demo_kernel_entry by (unfold idx_ok; lia). reflexivity.
  - exact Ec.
  - rewrite Hp in Hl. simpl in Hl. lia.
  - rewrite !H1. split; [|vm_compute; reflexivity].
    change (ram s) with (p, m).2. rewrite <- E. vm_compute. reflexivity.
Defined.

(** ** Limits of the hypotheses *)

(** With no free frame left, [get_next_level] still succeeds: the missing
    table is placed at physical address 0, whose page is wiped. *)
Lemma next_level_out_of_frames s ls table index t s' :
  pmm_rep (frames s) (ram s) ls -> all_free ls = [] -> 0x1000 <= table -> idx_ok index ->
  has (ldw (ram s) table index) X86_PTE_P = false -> get_next_level table index s = (t, s') ->
  t = 0 /\ ldw (ram s') table index = 7 /\ forall x, 0 <= x < PAGE_SIZE_4K -> ram s' x = 0.
Proof.
  intros Hr Hf Ht Hi Hp. unfold get_next_level. rewrite Hp. cbn [negb].
  destruct (alloc_table s) as [f s1] eqn:Ea.
  destruct (alloc_table_spec s ls f s1 Hr Ea) as [[-> _]|(ls' & _ & Hpe & _)];
    [|rewrite Hf in Hpe; by apply Permutation_nil_cons in Hpe].
  change (Z.lor 0 _) with 7. rsimpl. unfold idx_ok in Hi. rewrite ldw_stw by lia.
  intros [= <- <-]. rsimpl. rewrite ldw_stw by lia. split; [done|]. split; [done|].
  intros x Hx. unfold stw, PAGE_SIZE_4K in *. rewrite st64_out by lia. rewrite memset_spec by lia.
  by replace ((0 <=? x) && (x <? 0 + 0x1000)) with true by lia.
Qed.

(** Mapping a 4 KiB page inside a 2 MiB page takes the large page's memory for
    a page table and writes the entry into it. *)
Lemma map_page_into_large :
  let s := mk_mach demo_kernel pmm_zero (untyped_init 0 0) (dma_region_init 0 0) false
    (mk_fb_info 0 0 0 0 0 0 0 0 0 0 0 0) (fun _ => 0) (mk_vm_activate_stats 0 0) in
  let '(r, s') := arch_vm_map_page 0x1000 0x201000 0x9000 VM_PROT_USER s in
  r = 0 /\ arch_vm_translate (ram s') 0x1000 0x201000 = 0x200000 /\
  ldw (ram s') 0x200000 1 = Z.lor 0x9005 X86_PTE_NX.
Proof. vm_compute. auto. Qed.
