(* ===== verification/Vm.v ===== *)
(** * Virtual memory services ([src/src/core/vm.c])

    The fault queue, the frame capabilities, the batched map, transfer and
    share requests, and the copies between kernel buffers and user memory.
    Page-fault delivery needs threads and is modelled with the scheduler. *)
From Stdlib Require Import ZArith Lia.
From stdpp Require Import base numbers sets list list_numbers functions.
From S2P Require Import Prelude Abi Ring Memory Pmm Untyped PageTable.

(** ** Fault queue *)
Record vm_fault_msg_t := mk_fault {
  fault_address : Z;
  error_code : Z;
  faulting_thread : Z;
  f_reserved : Z
}.
Record vm_fault_queue_t := mk_fault_queue {
  fq_entries : Z -> vm_fault_msg_t;
  fq_head : Z;
  fq_tail : Z
}.
#[export] Instance eta_fault_queue : Eta vm_fault_queue_t := fun q =>
  mk_fault_queue (fq_entries q) (fq_head q) (fq_tail q).

Definition fault_queue_push (q : vm_fault_queue_t) (msg : vm_fault_msg_t) : Z * vm_fault_queue_t :=
  let next_head := Z.land (u32 (fq_head q + 1)) (FAULT_QUEUE_SIZE - 1) in
  if next_head =? fq_tail q then (-1, q)
  else (0, q <| fq_entries := <[fq_head q := msg]> (fq_entries q) |> <| fq_head := next_head |>).

(** Result: status, the message when there is one, the queue. *)
Definition fault_queue_pop (q : vm_fault_queue_t) : Z * option vm_fault_msg_t * vm_fault_queue_t :=
  if fq_head q =? fq_tail q then (-1, None, q)
  else (0, Some (fq_entries q (fq_tail q)),
        q <| fq_tail := Z.land (u32 (fq_tail q + 1)) (FAULT_QUEUE_SIZE - 1) |>).

Definition fault_queue_empty (q : vm_fault_queue_t) : bool := fq_head q =? fq_tail q.

(** ** Frame capabilities *)
Record frame_cap_t := mk_frame_cap {
  base_frame : Z;
  frame_count : Z;
  permissions : Z;
  fc_owner : Z
}.
(** [cap_table] and [cap_count]. *)
Record frame_caps := mk_frame_caps { cap_table : Z -> frame_cap_t; cap_count : Z }.

Definition vm_cap_grant (owner base count perms : Z) (c : frame_caps) : Z * frame_caps :=
  if cap_count c >=? MAX_FRAME_CAPS then (-1, c)
  else (0, mk_frame_caps (<[cap_count c := mk_frame_cap base count perms owner]> (cap_table c))
                         (cap_count c + 1)).

Definition vm_cap_check (owner paddr perms : Z) (c : frame_caps) : Z :=
  match find_first (cap_count c) (fun i =>
    let cap := cap_table c i in
    if negb (fc_owner cap =? owner) then false
    else if negb (Z.land (permissions cap) perms =? perms) then false
    else
      let cap_end := u64 (base_frame cap + u64 (frame_count cap * PAGE_SIZE_4K)) in
      (paddr >=? base_frame cap) && (paddr <? cap_end)) with
  | Some _ => 0
  | None => -1
  end.

(** [vm_init]: an empty fault queue and no capability (the entries keep their
    contents). *)
Definition vm_init (q : vm_fault_queue_t) (c : frame_caps) : vm_fault_queue_t * frame_caps :=
  (q <| fq_head := 0 |> <| fq_tail := 0 |>, mk_frame_caps (cap_table c) 0).

(** ** Batched requests *)
Record vm_map_msg_t := mk_map_msg { vm_vaddr : Z; vm_paddr : Z; vm_flags : Z; vm_count : Z }.
Record vm_xfer_msg_t := mk_xfer_msg {
  src_vaddr : Z; dst_vaddr : Z; x_flags : Z; x_count : Z
}.

Section vm.
Context (boot_pml4 : Z).

Definition normalize_aspace (aspace : Z) : Z := if tru aspace then aspace else boot_pml4.

(** A NULL request is [None]. *)
Definition vm_batch_map (aspace requester : Z) (req : option vm_map_msg_t) (c : frame_caps)
    (s : mach) : Z * mach :=
  match req with
  | None => (-1, s)
  | Some req =>
      if (vm_count req =? 0) || (vm_count req >? VM_BATCH_MAX) then (-1, s)
      else if negb (vm_cap_check requester (vm_paddr req) CAP_PERM_MAP c =? 0) then (-1, s)
      else
        let real_aspace := normalize_aspace aspace in
        let page_size := if has (vm_flags req) VM_MAP_LARGE then PAGE_SIZE_2M else PAGE_SIZE_4K in
        (0, for_range (vm_count req) (fun i s =>
          let va := u64 (vm_vaddr req + i * page_size) in
          let pa := u64 (vm_paddr req + i * page_size) in
          if has (vm_flags req) VM_MAP_LARGE
          then (arch_vm_map_large_page real_aspace va pa (vm_flags req) s).2
          else (arch_vm_map_page real_aspace va pa (vm_flags req) s).2) s)
  end.

(** The first loop of [vm_xfer_pages]: the frames taken so far (in order), and
    whether every page was mapped; on a hole the pages taken are mapped back. *)
Definition xfer_take (real_src : Z) (req : vm_xfer_msg_t) (s : mach) : list Z * mach * bool :=
  let '(fs, s, ok) := for_try (x_count req) (fun i '(fs, s) =>
    let src_va := u64 (src_vaddr req + i * PAGE_SIZE_4K) in
    let '(frame, s) := arch_vm_unmap_page real_src src_va s in
    if frame =? 0 then ((fs, s), false) else ((fs ++ [frame], s), true)) ([], s) in
  if (ok : bool) then (fs, s, true)
  else (fs, for_range (Z.of_nat (length fs)) (fun j s =>
    (arch_vm_map_page real_src (u64 (src_vaddr req + j * PAGE_SIZE_4K))
       (nth (Z.to_nat j) fs 0) (x_flags req) s).2) s, false).

Definition vm_xfer_pages (src_aspace dst_aspace : Z) (req : option vm_xfer_msg_t) (s : mach)
  : Z * mach :=
  match req with
  | None => (-1, s)
  | Some req =>
      if (x_count req =? 0) || (x_count req >? VM_BATCH_MAX) then (-1, s)
      else
        let real_src := normalize_aspace src_aspace in
        let real_dst := normalize_aspace dst_aspace in
        let '(fs, s, ok) := xfer_take real_src req s in
        if negb ok then (-1, s)
        else (0, for_range (x_count req) (fun i s =>
          (arch_vm_map_page real_dst (u64 (dst_vaddr req + i * PAGE_SIZE_4K))
             (nth (Z.to_nat i) fs 0) (x_flags req) s).2) s)
  end.

Definition vm_share_pages (src_aspace dst_aspace : Z) (req : option vm_xfer_msg_t) (s : mach)
  : Z * mach :=
  match req with
  | None => (-1, s)
  | Some req =>
      if (x_count req =? 0) || (x_count req >? VM_BATCH_MAX) then (-1, s)
      else
        let real_src := normalize_aspace src_aspace in
        let real_dst := normalize_aspace dst_aspace in
        let '(s, ok) := for_try (x_count req) (fun i s =>
          let src_va := u64 (src_vaddr req + i * PAGE_SIZE_4K) in
          let dst_va := u64 (dst_vaddr req + i * PAGE_SIZE_4K) in
          let frame := arch_vm_translate (ram s) real_src src_va in
          if frame =? 0 then (s, false)
          else ((arch_vm_map_page real_dst dst_va frame (x_flags req) s).2, true)) s in
        (if (ok : bool) then 0 else -1, s)
  end.
End vm.

(** ** Copies to and from user memory *)
Definition page_of (va : Z) : Z := Z.land va (not64 (PAGE_SIZE_4K - 1)).

(** The size of the next chunk: to the end of the page or of the request. *)
Definition chunk_at (va remaining : Z) : Z :=
  let chunk := PAGE_SIZE_4K - (va - page_of va) in
  if chunk >? remaining then remaining else chunk.

(** The copy loops; [None] only when [fuel] runs out. *)
Fixpoint copy_from_loop (fuel : nat) (m : mem) (asp src len copied : Z) (out : list Z)
  : option (Z * list Z) :=
  match fuel with
  | O => None
  | S fuel =>
      if negb (copied <? len) then Some (0, out)
      else
        let va := u64 (src + copied) in
        let page_va := page_of va in
        let frame := arch_vm_translate m asp page_va in
        if frame =? 0 then Some (-1, out)
        else
          let chunk := chunk_at va (len - copied) in
          copy_from_loop fuel m asp src len (copied + chunk)
            (out ++ bytes_at m (frame + (va - page_va)) chunk)
  end.

Fixpoint copy_to_loop (fuel : nat) (m : mem) (asp dst : Z) (inb : list Z) (len copied : Z)
  : option (Z * mem) :=
  match fuel with
  | O => None
  | S fuel =>
      if negb (copied <? len) then Some (0, m)
      else
        let va := u64 (dst + copied) in
        let page_va := page_of va in
        let frame := arch_vm_translate m asp page_va in
        if frame =? 0 then Some (-1, m)
        else
          let chunk := chunk_at va (len - copied) in
          let m := put_bytes m (frame + (va - page_va))
                     (take (Z.to_nat chunk) (drop (Z.to_nat copied) inb)) in
          copy_to_loop fuel m asp dst inb len (copied + chunk)
  end.

(** Every iteration but the first starts on a page boundary. *)
Definition copy_fuel (len : Z) : nat := Z.to_nat (len / PAGE_SIZE_4K) + 3.

(** Result: status and the bytes stored to the kernel buffer. *)
Definition vm_copy_from_user (m : mem) (asp src len : Z) : Z * list Z :=
  if negb (len =? 0) && (u64 (src + len) <? src) then (-1, [])
  else default (-1, []) (copy_from_loop (copy_fuel len) m asp src len 0 []).

(** [inb] is the kernel buffer, of at least [len] bytes. *)
Definition vm_copy_to_user (m : mem) (asp dst : Z) (inb : list Z) (len : Z) : Z * mem :=
  if negb (len =? 0) && (u64 (dst + len) <? dst) then (-1, m)
  else default (-1, m) (copy_to_loop (copy_fuel len) m asp dst inb len 0).

(** ** Fault queue: a bounded FIFO *)
Definition fq_len (q : vm_fault_queue_t) : Z := (fq_head q - fq_tail q) mod FAULT_QUEUE_SIZE.
Definition fq_msgs (q : vm_fault_queue_t) : list vm_fault_msg_t :=
  ring_seq FAULT_QUEUE_SIZE (fq_entries q) (fq_tail q) (fq_len q).
Definition fq_wf (q : vm_fault_queue_t) : Prop :=
  0 <= fq_head q < FAULT_QUEUE_SIZE /\ 0 <= fq_tail q < FAULT_QUEUE_SIZE.

(** Operations of the kernel on the queue: [Some m] pushes, [None] pops. *)
Fixpoint fq_run (ops : list (option vm_fault_msg_t)) (q : vm_fault_queue_t)
  : list vm_fault_msg_t * list vm_fault_msg_t * vm_fault_queue_t :=
  match ops with
  | [] => ([], [], q)
  | Some msg :: ops =>
      let '(r, q) := fault_queue_push q msg in
      let '(pushed, popped, q) := fq_run ops q in
      (if r =? 0 then msg :: pushed else pushed, popped, q)
  | None :: ops =>
      let '(_, out, q) := fault_queue_pop q in
      let '(pushed, popped, q) := fq_run ops q in
      (pushed, match out with Some msg => msg :: popped | None => popped end, q)
  end.

Lemma fq_next h : 0 <= h < 16 -> Z.land (u32 (h + 1)) (FAULT_QUEUE_SIZE - 1) = (h + 1) mod 16.
Proof.
  intros. change (16 - 1) with (2 ^ 4 - 1).
  rewrite land_low, u32_small by lia. done.
Qed.

Lemma fq_push_spec q msg r q' :
  fq_wf q -> fault_queue_push q msg = (r, q') -> fq_wf q' /\
  (r = 0 /\ fq_msgs q' = fq_msgs q ++ [msg] \/ r = -1 /\ q' = q /\ length (fq_msgs q) = 15%nat).
Proof.
  unfold fq_wf, fault_queue_push, fq_msgs. change FAULT_QUEUE_SIZE with 16 at 1 2. intros [Hh Ht].
  rewrite fq_next by done. unfold fq_len. break_if; bools.
  - intros [= <- <-]. split; [done|]. right. split; [done|]. split; [done|].
    rewrite ring_seq_length. rewrite <- Heqb. Z.to_euclidean_division_equations; lia.
  - intros [= <- <-]. rsimpl. split; [Z.to_euclidean_division_equations; lia|]. left. split; [done|].
    set (n := (fq_head q - fq_tail q) mod 16).
    assert (Hn : 0 <= n < 15 /\ ((fq_head q + 1) mod 16 - fq_tail q) mod 16 = n + 1 /\
                 (fq_tail q + n) mod 16 = fq_head q).
    { unfold n. Z.to_euclidean_division_equations; lia. }
    destruct Hn as (Hn & -> & Htn). rewrite (ring_seq_app 16) by lia. f_equal.
    + apply ring_seq_ext_in. intros i Hi. rewrite fn_lookup_insert_ne; [done|]. rewrite <- Htn.
      intros E. assert ((n - i) mod 16 = 0); [|rewrite Z.mod_small in H; lia].
      replace (n - i) with ((fq_tail q + n) - (fq_tail q + i)) by lia.
      rewrite Zminus_mod, E, Z.sub_diag. done.
    + unfold ring_seq. simpl. rewrite Z.add_0_r, Htn. by rewrite fn_lookup_insert.
Qed.

Lemma fq_pop_spec q r out q' :
  fq_wf q -> fault_queue_pop q = (r, out, q') -> fq_wf q' /\
  match out with
  | Some msg => r = 0 /\ fq_msgs q = msg :: fq_msgs q'
  | None => r = -1 /\ q' = q /\ fq_msgs q = []
  end.
Proof.
  unfold fq_wf, fault_queue_pop, fq_msgs. change FAULT_QUEUE_SIZE with 16 at 1 2. intros [Hh Ht].
  rewrite fq_next by done. unfold fq_len. break_if; bools.
  - intros [= <- <- <-]. split; [done|]. split; [done|]. split; [done|].
    by rewrite Heqb, Z.sub_diag.
  - intros [= <- <- <-]. rsimpl. split; [Z.to_euclidean_division_equations; lia|]. split; [done|].
    set (n := (fq_head q - (fq_tail q + 1) mod 16) mod 16).
    assert (Hn : 0 <= n /\ (fq_head q - fq_tail q) mod 16 = 1 + n)
      by (unfold n; Z.to_euclidean_division_equations; lia).
    destruct Hn as (Hn & ->). rewrite (ring_seq_app 16) by lia.
    rewrite ring_seq_mod. unfold ring_seq at 1. simpl. rewrite Z.add_0_r, Z.mod_small by lia. done.
Qed.

(** The page-fault queue is a first-in first-out queue of fifteen
    messages: over any run of pushes and pops, the messages queued at the
    start followed by the accepted pushes are the messages popped, in order,
    followed by those still queued; a push is refused only when fifteen
    messages are queued. *)
Theorem fault_queue_fifo ops q pushed popped q' :
  fq_wf q -> fq_run ops q = (pushed, popped, q') ->
  fq_msgs q ++ pushed = popped ++ fq_msgs q' /\ fq_wf q' /\
  (forall msg, (fault_queue_push q' msg).1 <> 0 -> length (fq_msgs q') = 15%nat).
Proof.
  revert q pushed popped. induction ops as [|[msg|] ops IH]; intros q pushed popped Hq; cbn [fq_run].
  - intros [= <- <- <-]. rewrite app_nil_r. split; [done|]. split; [done|]. intros msg Hr.
    destruct (fault_queue_push q msg) as [r q2] eqn:E.
    destruct (fq_push_spec _ _ _ _ Hq E) as [_ [[-> _]|(_ & _ & ?)]]; [by simpl in Hr|done].
  - destruct (fault_queue_push q msg) as [r q1] eqn:E.
    destruct (fq_run ops q1) as [[pu po] q2] eqn:Er. intros [= <- <- <-].
    destruct (fq_push_spec _ _ _ _ Hq E) as [Hq1 Hcase].
    destruct (IH q1 pu po Hq1 Er) as (H1 & H2 & H3). split; [|done].
    destruct Hcase as [[-> Hm]|(-> & -> & _)]; [|done]. simpl.
    rewrite Hm, <- app_assoc in H1. exact H1.
  - destruct (fault_queue_pop q) as [[r out] q1] eqn:E.
    destruct (fq_run ops q1) as [[pu po] q2] eqn:Er. intros [= <- <- <-].
    destruct (fq_pop_spec _ _ _ _ Hq E) as [Hq1 Hcase].
    destruct (IH q1 pu po Hq1 Er) as (H1 & H2 & H3). split; [|done].
    destruct out as [msg|]; [|by destruct Hcase as (_ & -> & _)].
    destruct Hcase as [_ ->]. simpl. by f_equal.
Qed.

Lemma fault_queue_fifo_witness :
  let f i := mk_fault i 0 i 0 in
  let q := mk_fault_queue (fun _ => f 0) 15 15 in
  let '(pushed, popped, q') := fq_run [Some (f 1); Some (f 2); None; Some (f 3)] q in
  popped = [f 1] /\ fq_msgs q ++ pushed = popped ++ fq_msgs q'.
Proof.
  intros f q. destruct (fq_run [Some (f 1); Some (f 2); None; Some (f 3)] q) as [[pu po] q'] eqn:E.
  split; [by injection E as _ <- _|].
  apply (fault_queue_fifo [Some (f 1); Some (f 2); None; Some (f 3)] q pu po q'); [|exact E].
  unfold fq_wf. simpl. lia.
Defined.

(** ** Copies *)

(** The byte a user address denotes, when its page is mapped. *)
Definition mapped (m : mem) (asp va : Z) : Prop := arch_vm_translate m asp (page_of va) <> 0.
Definition user_addr (m : mem) (asp va : Z) : Z :=
  arch_vm_translate m asp (page_of va) + va mod PAGE_SIZE_4K.
Definition user_byte (m : mem) (asp va : Z) : Z := m (user_addr m asp va).

Lemma page_of_spec va :
  0 <= va < 2 ^ 64 -> page_of va = va - va mod PAGE_SIZE_4K /\ va - page_of va = va mod PAGE_SIZE_4K.
Proof.
  intros. unfold page_of, PAGE_SIZE_4K. change (0x1000 - 1) with (2 ^ 12 - 1).
  rewrite align_down_spec by lia. change (2 ^ 12) with 0x1000. lia.
Qed.

(** Facts about one chunk: it is nonempty and stays within one page. *)
Lemma chunk_spec va remaining :
  0 <= va -> va + remaining < 2 ^ 64 -> 0 < remaining ->
  let c := chunk_at va remaining in
  0 < c <= remaining /\
  (forall i, 0 <= i < c -> page_of (va + i) = page_of va /\
     (va + i) mod PAGE_SIZE_4K = va mod PAGE_SIZE_4K + i) /\
  (c = remaining \/ (va + c) mod PAGE_SIZE_4K = 0 /\
     (va + c) / PAGE_SIZE_4K = va / PAGE_SIZE_4K + 1).
Proof.
  intros Hva Hr Hp c. destruct (page_of_spec va) as [Hpg Hoff]; [lia|].
  assert (Hc : 0 < c <= remaining /\ va mod 4096 + c <= 4096 /\ (c = remaining \/ va mod 4096 + c = 4096)).
  { unfold c, chunk_at. rewrite Hoff. unfold PAGE_SIZE_4K. change 0x1000 with 4096.
    pose proof (Z.mod_pos_bound va 4096). break_if; bools; lia. }
  clearbody c. change PAGE_SIZE_4K with 4096 in *. split; [lia|]. split.
  - intros i Hi. assert (Hm : (va + i) mod 4096 = va mod 4096 + i).
    { destruct Hc as (_ & Hc & _). Z.to_euclidean_division_equations; lia. }
    destruct (page_of_spec (va + i)) as [-> _]; [lia|]. change PAGE_SIZE_4K with 4096.
    rewrite Hpg, Hm. split; [lia|done].
  - destruct Hc as (_ & _ & [->|Hc]); [by left|right]. Z.to_euclidean_division_equations; lia.
Qed.

(** Iterations the loop still needs. *)
Definition pages_left (src len copied : Z) : Z :=
  if copied <? len then (src + len - 1) / PAGE_SIZE_4K - (src + copied) / PAGE_SIZE_4K + 2 else 1.

Lemma pages_left_next src len copied :
  0 <= src -> src + len < 2 ^ 64 -> 0 <= copied < len ->
  pages_left src len (copied + chunk_at (src + copied) (len - copied)) <= pages_left src len copied - 1.
Proof.
  intros Hs Hl Hc. destruct (chunk_spec (src + copied) (len - copied)) as (Hch & _ & Hend); [lia..|].
  unfold pages_left. replace (copied <? len) with true by lia.
  change PAGE_SIZE_4K with 4096 in *. break_if; bools.
  - destruct Hend as [Hend|[_ Hend]]; [lia|]. rewrite Z.add_assoc, Hend. lia.
  - assert ((src + copied) / 4096 <= (src + len - 1) / 4096) by (apply Z.div_le_mono; lia). lia.
Qed.

Lemma pages_left_fuel src len :
  0 <= src -> 0 <= len -> pages_left src len 0 <= Z.of_nat (copy_fuel len).
Proof.
  intros. unfold pages_left, copy_fuel. change PAGE_SIZE_4K with 4096. rewrite Z.add_0_r.
  break_if; bools; Z.to_euclidean_division_equations; lia.
Qed.

Lemma copy_from_loop_spec m asp src len fuel copied out :
  0 <= src -> src + len < 2 ^ 64 -> 0 <= copied <= len ->
  pages_left src len copied <= Z.of_nat fuel ->
  exists k, copied <= k <= len /\
    copy_from_loop fuel m asp src len copied out =
      Some (if k =? len then 0 else -1,
            out ++ ((fun i => user_byte m asp (src + i)) <$> seqZ copied (k - copied))) /\
    (forall i, copied <= i < k -> mapped m asp (src + i)) /\ (k < len -> ~ mapped m asp (src + k)).
Proof.
  intros Hs Hl. revert copied out. induction fuel as [|fuel IH]; intros copied out Hc Hf.
  { exfalso. unfold pages_left in Hf. break_if_in Hf; [|lia]. bools. change PAGE_SIZE_4K with 4096 in *.
    assert ((src + copied) / 4096 <= (src + len - 1) / 4096) by (apply Z.div_le_mono; lia). lia. }
  cbn [copy_from_loop]. destruct (decide (copied = len)) as [->|Hne].
  { exists len. rewrite Z.ltb_irrefl, Z.eqb_refl, Z.sub_diag. cbn [negb].
    rewrite seqZ_nil by lia. simpl. rewrite app_nil_r. split; [lia|]. split; [done|]. split; lia. }
  replace (copied <? len) with true by lia. cbn [negb]. rewrite u64_small by lia.
  set (fr := arch_vm_translate m asp (page_of (src + copied))).
  destruct (Z.eqb_spec fr 0) as [E|E].
  { exists copied. replace (copied =? len) with false by lia. rewrite Z.sub_diag.
    rewrite seqZ_nil by lia. simpl. rewrite app_nil_r. split; [lia|]. split; [done|].
    split; [lia|]. intros _ Hm. by apply Hm. }
  destruct (chunk_spec (src + copied) (len - copied)) as (Hch & Hin & _); [lia..|].
  set (c := chunk_at (src + copied) (len - copied)) in *.
  destruct (IH (copied + c) (out ++ bytes_at m (fr + (src + copied - page_of (src + copied))) c))
    as (k & Hk & HL & Hm & Hu); [lia| |].
  { pose proof (pages_left_next src len copied Hs Hl ltac:(lia)) as Hp. fold c in Hp. lia. }
  exists k. split; [lia|]. rewrite HL. split; [|split; [|done]].
  - f_equal. f_equal. rewrite <- app_assoc. f_equal.
    replace (k - copied) with (c + (k - (copied + c))) by lia.
    rewrite seqZ_app, fmap_app by lia. f_equal.
    unfold bytes_at. apply list_eq. intros j. rewrite !list_lookup_fmap.
    destruct (decide (Z.of_nat j < c)) as [Hj|Hj].
    + rewrite !lookup_seqZ_lt by lia. simpl. unfold user_byte, user_addr.
      destruct (Hin (Z.of_nat j)) as [Hp Hmod]; [lia|].
      replace (src + (copied + Z.of_nat j)) with (src + copied + Z.of_nat j) by lia.
      rewrite Hp, Hmod. destruct (page_of_spec (src + copied)) as [_ Hoff]; [lia|].
      rewrite Hoff. fold fr. do 2 f_equal. lia.
    + by rewrite !lookup_seqZ_ge by lia.
  - intros i Hi. destruct (decide (i < copied + c)); [|apply Hm; lia].
    destruct (Hin (i - copied)) as [Hp _]; [lia|]. unfold mapped.
    replace (src + copied + (i - copied)) with (src + i) in Hp by lia. by rewrite Hp.
Qed.


(** A user range that can be written without touching the page tables that
    describe it, each address backed by its own byte. *)
Record user_range_ok (m : mem) (asp va len : Z) : Prop := {
  ur_mapped : forall i, 0 <= i < len -> mapped m asp (va + i);
  ur_tables : forall i p t, 0 <= i < len -> path_ok p -> node m 4 asp p = Some t ->
    user_addr m asp (va + i) < t \/ t + PAGE_SIZE_4K <= user_addr m asp (va + i);
  ur_inj : forall i j, 0 <= i < len -> 0 <= j < len ->
    user_addr m asp (va + i) = user_addr m asp (va + j) -> i = j
}.

(** Memory after the first [k] bytes of [inb] were written at [va]. *)
Definition written (m m1 : mem) (asp va : Z) (inb : list Z) (k : Z) : Prop :=
  (forall i, 0 <= i < k -> m1 (user_addr m asp (va + i)) = buf_at inb i) /\
  (forall x, (forall i, 0 <= i < k -> x <> user_addr m asp (va + i)) -> m1 x = m x).

Lemma written_agree m m1 asp va inb k len :
  user_range_ok m asp va len -> k <= len -> written m m1 asp va inb k -> tables_agree m m1 asp.
Proof.
  intros Hok Hk [_ Hout] p t x Hp Hn Hx. apply Hout. intros i Hi ->.
  destruct (ur_tables _ _ _ _ Hok i p t ltac:(lia) Hp Hn); lia.
Qed.

Lemma put_bytes_in m a l i :
  0 <= i < Z.of_nat (length l) -> put_bytes m a l (a + i) = nth (Z.to_nat i) l 0.
Proof.
  intros. unfold put_bytes.
  replace ((a <=? a + i) && (a + i <? a + Z.of_nat (length l))) with true by lia.
  f_equal. lia.
Qed.

(** One chunk extends what is written. *)
Lemma written_chunk m m1 asp va inb copied len :
  0 <= va -> va + len < 2 ^ 64 -> 0 <= copied < len -> len <= Z.of_nat (length inb) ->
  user_range_ok m asp va len -> written m m1 asp va inb copied ->
  let c := chunk_at (va + copied) (len - copied) in
  written m (put_bytes m1 (user_addr m asp (va + copied))
               (take (Z.to_nat c) (drop (Z.to_nat copied) inb))) asp va inb (copied + c).
Proof.
  intros Hv Hl Hc Hin Hok [Hw Hout] c.
  destruct (chunk_spec (va + copied) (len - copied)) as (Hch & Hpg & _); [lia..|]. fold c in Hch, Hpg.
  assert (Hlen : Z.of_nat (length (take (Z.to_nat c) (drop (Z.to_nat copied) inb))) = c)
    by (rewrite length_take, length_drop; lia).
  assert (Haddr : forall i, copied <= i < copied + c ->
    user_addr m asp (va + i) = user_addr m asp (va + copied) + (i - copied)).
  { intros i Hi. destruct (Hpg (i - copied)) as [H1 H2]; [lia|].
    replace (va + copied + (i - copied)) with (va + i) in H1, H2 by lia.
    unfold user_addr. rewrite H1, H2. lia. }
  split.
  - intros i Hi. destruct (decide (i < copied)) as [Hlt|Hge].
    + rewrite put_bytes_out; [apply Hw; lia|]. rewrite Hlen.
      destruct (decide (user_addr m asp (va + i) < user_addr m asp (va + copied))) as [|Hn]; [by left|right].
      apply Z.nlt_ge. intros Hlt2.
      set (d := user_addr m asp (va + i) - user_addr m asp (va + copied)) in *.
      assert (user_addr m asp (va + i) = user_addr m asp (va + (copied + d)))
        by (rewrite (Haddr (copied + d)) by lia; lia).
      apply (ur_inj _ _ _ _ Hok) in H; lia.
    + rewrite (Haddr i), put_bytes_in by lia. unfold buf_at.
      rewrite nth_firstn, nth_skipn. rewrite (proj2 (Nat.ltb_lt _ _)) by lia. f_equal. lia.
  - intros x Hx. rewrite put_bytes_out.
    + apply Hout. intros i Hi. apply Hx. lia.
    + rewrite Hlen. destruct (decide (x < user_addr m asp (va + copied))); [by left|right].
      apply Z.nlt_ge. intros Hlt2.
      apply (Hx (copied + (x - user_addr m asp (va + copied)))); [lia|].
      rewrite Haddr by lia. lia.
Qed.

Lemma copy_to_loop_spec m asp va inb len fuel copied m1 :
  0 <= va -> va + len < 2 ^ 64 -> 0 <= copied <= len -> len <= Z.of_nat (length inb) ->
  user_range_ok m asp va len -> written m m1 asp va inb copied ->
  pages_left va len copied <= Z.of_nat fuel ->
  exists m2, copy_to_loop fuel m1 asp va inb len copied = Some (0, m2) /\
    written m m2 asp va inb len.
Proof.
  intros Hv Hl. revert copied m1. induction fuel as [|fuel IH]; intros copied m1 Hc Hin Hok Hw Hf.
  { exfalso. unfold pages_left in Hf. break_if_in Hf; [|lia]. bools. change PAGE_SIZE_4K with 4096 in *.
    assert ((va + copied) / 4096 <= (va + len - 1) / 4096) by (apply Z.div_le_mono; lia). lia. }
  cbn [copy_to_loop]. destruct (decide (copied = len)) as [->|Hne].
  { exists m1. by rewrite Z.ltb_irrefl. }
  replace (copied <? len) with true by lia. cbn [negb]. rewrite u64_small by lia.
  rewrite (translate_agree m m1) by (apply (written_agree m m1 asp va inb copied len); done || lia).
  pose proof (ur_mapped _ _ _ _ Hok copied ltac:(lia)) as Hm. unfold mapped in Hm.
  rewrite (proj2 (Z.eqb_neq _ _) Hm).
  destruct (chunk_spec (va + copied) (len - copied)) as (Hch & _ & _); [lia..|].
  pose proof (pages_left_next va len copied Hv Hl ltac:(lia)) as Hp.
  apply IH; [lia|done|done| |lia].
  destruct (page_of_spec (va + copied)) as [_ Hoff]; [lia|]. rewrite Hoff.
  fold (user_addr m asp (va + copied)). by apply (written_chunk m m1 asp va inb copied len); try lia.
Qed.

(** Kernel data written to user memory is read back unchanged.  For a
    mapped user range that does not overlap the address space's own page
    tables and whose addresses are backed by distinct bytes,
    [vm_copy_to_user] succeeds, a following [vm_copy_from_user] returns
    exactly the bytes written, no other byte of memory changed and every
    translation of the address space is as before. *)
Theorem copy_user_roundtrip m asp va inb len :
  0 <= va -> 0 <= len -> va + len < 2 ^ 64 -> len = Z.of_nat (length inb) ->
  user_range_ok m asp va len ->
  exists m', vm_copy_to_user m asp va inb len = (0, m') /\
    vm_copy_from_user m' asp va len = (0, inb) /\
    (forall v, arch_vm_translate m' asp v = arch_vm_translate m asp v) /\
    (forall x, (forall i, 0 <= i < len -> x <> user_addr m asp (va + i)) -> m' x = m x).
Proof.
  intros Hv Hl0 Hl Hlen Hok. unfold vm_copy_to_user, vm_copy_from_user.
  rewrite u64_small by lia. replace (va + len <? va) with false by lia. rewrite andb_false_r.
  destruct (copy_to_loop_spec m asp va inb len (copy_fuel len) 0 m) as (m' & -> & Hw);
    [lia|lia|lia|lia|done| |by apply pages_left_fuel|].
  { split; [lia|done]. }
  pose proof (written_agree m m' asp va inb len len Hok ltac:(lia) Hw) as Hag.
  exists m'. split; [done|]. split; [|split; [intros v; by apply translate_agree|apply Hw]].
  destruct (copy_from_loop_spec m' asp va len (copy_fuel len) 0 []) as (k & Hk & -> & Hm & Hu);
    [lia|lia|lia|by apply pages_left_fuel|].
  assert (k = len) as ->.
  { destruct (decide (k < len)) as [Hlt|]; [|lia]. destruct (Hu Hlt). unfold mapped.
    rewrite (translate_agree m m') by done. apply (ur_mapped _ _ _ _ Hok). lia. }
  rewrite Z.eqb_refl. simpl. f_equal. rewrite Z.sub_0_r.
  transitivity (buf_at inb <$> seqZ 0 len).
  - apply list_fmap_ext. intros j i Hi. apply lookup_seqZ in Hi as [-> Hj].
    unfold user_byte, user_addr. rewrite (translate_agree m m') by done. apply Hw. lia.
  - rewrite buf_at_seqZ by lia. rewrite Hlen, Nat2Z.id. apply firstn_all.
Qed.

(** ** Examples *)
Ltac in_list := first [by left|right; in_list].

(** One user page: virtual 0x40001000 is physical 0x9000, writable; the tables
    are at 0x1000 to 0x4000. *)
Definition demo_user : mem :=
  stw (stw (stw (stw (fun x => if (0x9000 <=? x) && (x <? 0xa000) then 0x55 else 0)
    0x1000 0 0x2007) 0x2000 1 0x3007) 0x3000 0 0x4007) 0x4000 1 0x9007.

Lemma demo_user_entry t i e :
  (t, i, e) ∈ [(0x1000, 0, 0x2007); (0x2000, 1, 0x3007); (0x3000, 0, 0x4007); (0x4000, 1, 0x9007)] ->
  forall j, idx_ok j -> ldw demo_user t j = if j =? i then e else 0.
Proof.
  unfold idx_ok, demo_user. intros Ht j Hj.
  repeat (apply elem_of_cons in Ht as [Ht|Ht]); [..|by apply not_elem_of_nil in Ht];
    injection Ht as -> -> ->; (match goal with |- _ = if j =? ?i then _ else _ =>
      destruct (Z.eqb_spec j i) as [->|Hne] end;
    [repeat first [apply ldw_stw; lia|rewrite ldw_stw_ne by lia]|]);
    rewrite !ldw_stw_ne by lia; apply ld64_zero; intros x Hx;
    by replace ((0x9000 <=? x) && (x <? 0xa000)) with false by lia.
Qed.

Lemma demo_user_nodes p t :
  path_ok p -> node demo_user 4 0x1000 p = Some t -> t ∈ [0x1000; 0x2000; 0x3000; 0x4000].
Proof.
  cut (path_ok p -> node demo_user 4 0x1000 p = Some t ->
    p = [] /\ t = 0x1000 \/ p = [0] /\ t = 0x2000 \/ p = [0; 1] /\ t = 0x3000 \/ p = [0; 1; 0] /\ t = 0x4000).
  { intros H Hp Hn. destruct (H Hp Hn) as [[_ ->]|[[_ ->]|[[_ ->]|[_ ->]]]]; in_list. }
  revert t. induction p as [|j p IH] using rev_ind; intros t; [intros _ [= <-]; by left|].
  rewrite path_ok_snoc, node_snoc. intros (Hp & Hj & Hl).
  destruct (node demo_user 4 0x1000 p) as [u|] eqn:Eu; [|done].
  destruct (IH u Hp eq_refl) as [[-> ->]|[[-> ->]|[[-> ->]|[-> _]]]]; unfold next.
  - rewrite (demo_user_entry _ 0 0x2007) by (exact Hj || in_list).
    destruct (Z.eqb_spec j 0) as [->|]; [|done]. intros [= <-]. right. left. split; [reflexivity|vm_compute; reflexivity].
  - rewrite (demo_user_entry _ 1 0x3007) by (exact Hj || in_list).
    destruct (Z.eqb_spec j 1) as [->|]; [|done]. intros [= <-]. do 2 right. left. split; [reflexivity|vm_compute; reflexivity].
  - rewrite (demo_user_entry _ 0 0x4007) by (exact Hj || in_list).
    destruct (Z.eqb_spec j 0) as [->|]; [|done]. intros [= <-]. do 3 right. split; [reflexivity|vm_compute; reflexivity].
  - simpl in Hl. lia.
Qed.

(** Three bytes at the start of that page. *)
Lemma demo_user_addr i :
  0 <= i < 3 -> mapped demo_user 0x1000 (0x40001000 + i) /\
  user_addr demo_user 0x1000 (0x40001000 + i) = 0x9000 + i.
Proof.
  intros Hi. assert (i = 0 \/ i = 1 \/ i = 2) as [->|[->| ->]] by lia;
    (split; [vm_compute; discriminate|vm_compute; reflexivity]).
Qed.

Lemma demo_user_ok : user_range_ok demo_user 0x1000 0x40001000 3.
Proof.
  split.
  - intros i Hi. by apply demo_user_addr.
  - intros i p t Hi Hp Hn. destruct (demo_user_addr i Hi) as [_ ->]. unfold PAGE_SIZE_4K.
    apply demo_user_nodes in Hn; [|done].
    repeat (apply elem_of_cons in Hn as [->|Hn]; [lia|]). exfalso. revert Hn. apply not_elem_of_nil.
  - intros i j Hi Hj. destruct (demo_user_addr i Hi) as [_ ->], (demo_user_addr j Hj) as [_ ->]. lia.
Qed.

Lemma copy_user_roundtrip_witness :
  exists m', vm_copy_to_user demo_user 0x1000 0x40001000 [7; 8; 9] 3 = (0, m') /\
    vm_copy_from_user m' 0x1000 0x40001000 3 = (0, [7; 8; 9]).
Proof.
  destruct (copy_user_roundtrip demo_user 0x1000 0x40001000 [7; 8; 9] 3) as (m' & H1 & H2 & _);
    [lia|lia|lia|reflexivity|exact demo_user_ok|]. exists m'. split; [exact H1|exact H2].
Defined.


(** ** Limits *)

(** Inside a 2 MiB page the translation is the base of the large page, so a
    copy reads its first 4 KiB whatever page was asked for. *)
Lemma copy_from_large_page :
  let m : mem := fun x => if x =? 0x200000 then 0x11 else if x =? 0x201000 then 0x22
                          else demo_kernel x in
  vm_copy_from_user m 0x1000 0x201000 1 = (0, [0x11]).
Proof. vm_compute. reflexivity. Qed.

(** The capability check covers only the first page of a batch: with a
    capability for one frame, a batch of two also maps the next one. *)
Lemma batch_map_beyond_cap :
  let c := (vm_cap_grant 7 0x9000 1 CAP_PERM_MAP (mk_frame_caps (fun _ => mk_frame_cap 0 0 0 0) 0)).2 in
  let s := mk_mach demo_user pmm_zero (untyped_init 0 0) (dma_region_init 0 0) false
    (mk_fb_info 0 0 0 0 0 0 0 0 0 0 0 0) (fun _ => 0) (mk_vm_activate_stats 0 0) in
  let '(r, s) := vm_batch_map 0x1000 0x1000 7 (Some (mk_map_msg 0x40001000 0x9000 VM_PROT_USER 2)) c s in
  vm_cap_check 7 0xa000 CAP_PERM_MAP c = -1 /\ r = 0 /\
  arch_vm_translate (ram s) 0x1000 0x40002000 = 0xa000.
Proof. vm_compute. auto. Qed.
