(* ===== verification/Pipe.v ===== *)
(** * Pipes ([src/src/core/pipe.c])

    A pool of sixteen one-kilobyte rings.  A handle packs the slot in its low
    word and the slot's generation in its high word; the holders of each end
    are a 64-bit mask indexed by thread id.  The theorems show that a pipe is
    a byte stream, that the pool's well-formedness is preserved by every
    operation, and that a handle whose pipe was freed is refused. *)
From Stdlib Require Import ZArith Lia.
From stdpp Require Import base numbers list list_numbers functions.
From S2P Require Import Prelude Abi Ring.

Record pipe_obj_t := mk_pipe {
  p_generation : Z;
  readers_mask : Z;
  writers_mask : Z;
  p_head : Z;
  p_count : Z;
  p_ring : Z -> Z
}.
#[export] Instance eta_pipe : Eta pipe_obj_t := fun p =>
  mk_pipe (p_generation p) (readers_mask p) (writers_mask p) (p_head p) (p_count p) (p_ring p).

(** The static pool: zero-initialised. *)
Abbreviation pipe_pool := (Z -> pipe_obj_t).
Definition pipe_pool_init : pipe_pool := fun _ => mk_pipe 0 0 0 0 0 (fun _ => 0).

Definition pipe_decode (handle : Z) : option (Z * Z) :=
  let idx := Z.land handle 0xFFFFFFFF in
  if idx >=? PIPE_POOL_SIZE then None
  else Some (idx, u32 (Z.shiftr handle 32)).

Definition pipe_is_free (p : pipe_obj_t) : bool :=
  (readers_mask p =? 0) && (writers_mask p =? 0).

(** Result: status, the handle when one was written, the pool. *)
Definition pipe_create (creator : Z) (pool : pipe_pool) : Z * option Z * pipe_pool :=
  match find_first PIPE_POOL_SIZE (fun i => pipe_is_free (pool i)) with
  | Some i =>
      let p := pool i in
      let p := p <| p_head := 0 |> <| p_count := 0 |> in
      let b := bit creator in
      let p := p <| readers_mask := b |> <| writers_mask := b |> in
      (IPC_ERR_NONE, Some (Z.lor (Z.shiftl (p_generation p) 32) i), <[i := p]> pool)
  | None => (IPC_ERR_NO_MEM, None, pool)
  end.

(** Result: status, the bytes stored to [out] ([out_len] is their number), the pool. *)
Definition pipe_read (handle max : Z) (pool : pipe_pool) : Z * list Z * pipe_pool :=
  match pipe_decode handle with
  | None => (IPC_ERR_NOT_FOUND, [], pool)
  | Some (idx, gen) =>
      let p := pool idx in
      if negb (p_generation p =? gen) || pipe_is_free p then (IPC_ERR_NOT_FOUND, [], pool)
      else if p_count p =? 0 then
        (if writers_mask p =? 0 then IPC_ERR_NOT_FOUND else IPC_ERR_NONE, [], pool)
      else
        let n := if max <? p_count p then max else p_count p in
        let n := if n >? PIPE_CHUNK_MAX then PIPE_CHUNK_MAX else n in
        let out := (fun i => p_ring p ((p_head p + i) mod PIPE_RING_SIZE)) <$> seqZ 0 n in
        let p := p <| p_head := u32 (p_head p + u32 n) mod PIPE_RING_SIZE |>
                   <| p_count := u32 (p_count p - u32 n) |> in
        (IPC_ERR_NONE, out, <[idx := p]> pool)
  end.

(** [in] is the caller's buffer; result: status, [out_len], the pool. *)
Definition pipe_write (handle : Z) (inb : list Z) (len : Z) (pool : pipe_pool)
  : Z * Z * pipe_pool :=
  match pipe_decode handle with
  | None => (IPC_ERR_NOT_FOUND, 0, pool)
  | Some (idx, gen) =>
      let p := pool idx in
      if negb (p_generation p =? gen) || pipe_is_free p then (IPC_ERR_NOT_FOUND, 0, pool)
      else if readers_mask p =? 0 then (IPC_ERR_NOT_FOUND, 0, pool)
      else
        let avail := u32 (PIPE_RING_SIZE - p_count p) in
        if avail =? 0 then (IPC_ERR_NONE, 0, pool)
        else
          let n := if len <? avail then len else avail in
          let n := if n >? PIPE_CHUNK_MAX then PIPE_CHUNK_MAX else n in
          let tail := u32 (p_head p + p_count p) mod PIPE_RING_SIZE in
          let p := p <| p_ring := ring_fill PIPE_RING_SIZE (p_ring p) tail n (buf_at inb) |>
                     <| p_count := u32 (p_count p + u32 n) |> in
          (IPC_ERR_NONE, n, <[idx := p]> pool)
  end.

Definition drop_bit (mask b : Z) : Z := Z.land mask (not64 b).

(** The generation advances when the last holder goes away. *)
Definition pipe_retire (p : pipe_obj_t) : pipe_obj_t :=
  if pipe_is_free p then p <| p_generation := u32 (p_generation p + 1) |> else p.

Definition pipe_close (caller handle is_write_end : Z) (pool : pipe_pool) : Z * pipe_pool :=
  match pipe_decode handle with
  | None => (IPC_ERR_NOT_FOUND, pool)
  | Some (idx, gen) =>
      let p := pool idx in
      if negb (p_generation p =? gen) then (IPC_ERR_NOT_FOUND, pool)
      else
        let b := bit caller in
        let p := if tru is_write_end
                 then p <| writers_mask := drop_bit (writers_mask p) b |>
                 else p <| readers_mask := drop_bit (readers_mask p) b |> in
        (IPC_ERR_NONE, <[idx := pipe_retire p]> pool)
  end.

Definition pipe_add_holder (tid handle is_write_end : Z) (pool : pipe_pool) : Z * pipe_pool :=
  match pipe_decode handle with
  | None => (-1, pool)
  | Some (idx, gen) =>
      let p := pool idx in
      if negb (p_generation p =? gen) then (-1, pool)
      else
        let b := bit tid in
        let p := if tru is_write_end
                 then p <| writers_mask := Z.lor (writers_mask p) b |>
                 else p <| readers_mask := Z.lor (readers_mask p) b |> in
        (0, <[idx := p]> pool)
  end.

Definition pipe_inherit_one (parent_bit child_bit : Z) (p : pipe_obj_t) : pipe_obj_t :=
  let p := if has (readers_mask p) parent_bit
           then p <| readers_mask := Z.lor (readers_mask p) child_bit |> else p in
  if has (writers_mask p) parent_bit
  then p <| writers_mask := Z.lor (writers_mask p) child_bit |> else p.

Definition pipe_inherit_fork (parent child : Z) (pool : pipe_pool) : pipe_pool :=
  for_range PIPE_POOL_SIZE
    (fun i pool => <[i := pipe_inherit_one (bit parent) (bit child) (pool i)]> pool) pool.

Definition pipe_invalidate_one (b : Z) (p : pipe_obj_t) : pipe_obj_t :=
  if has (Z.lor (readers_mask p) (writers_mask p)) b then
    pipe_retire (p <| readers_mask := drop_bit (readers_mask p) b |>
                   <| writers_mask := drop_bit (writers_mask p) b |>)
  else p.

Definition pipe_invalidate_tcb_death (tid : Z) (pool : pipe_pool) : pipe_pool :=
  for_range PIPE_POOL_SIZE
    (fun i pool => <[i := pipe_invalidate_one (bit tid) (pool i)]> pool) pool.

(** ** Abstract view *)

(** The bytes a pipe holds, oldest first. *)
Definition pipe_bytes (p : pipe_obj_t) : list Z :=
  ring_seq PIPE_RING_SIZE (p_ring p) (p_head p) (p_count p).

Definition pipe_wf (p : pipe_obj_t) : Prop :=
  0 <= p_generation p < 2 ^ 32 /\ 0 <= readers_mask p < 2 ^ 64 /\
  0 <= writers_mask p < 2 ^ 64 /\
  0 <= p_head p < PIPE_RING_SIZE /\ 0 <= p_count p <= PIPE_RING_SIZE.

Definition pool_wf (pool : pipe_pool) : Prop := forall i, pipe_wf (pool i).

(** The slot a handle names, when it names a live pipe. *)
Definition pipe_live (pool : pipe_pool) (handle idx : Z) : Prop :=
  exists gen, pipe_decode handle = Some (idx, gen) /\
    p_generation (pool idx) = gen /\ pipe_is_free (pool idx) = false.

(** A client's operations on one handle, and what a run of them returns:
    the bytes read, the bytes accepted by writes, the final pool. *)
Inductive pipe_op :=
| PRead (max : Z)
| PWrite (data : list Z).

Fixpoint pipe_run (h : Z) (ops : list pipe_op) (pool : pipe_pool)
  : list Z * list Z * pipe_pool :=
  match ops with
  | [] => ([], [], pool)
  | PRead max :: ops =>
      let '(_, out, pool) := pipe_read h max pool in
      let '(rd, wr, pool) := pipe_run h ops pool in (out ++ rd, wr, pool)
  | PWrite data :: ops =>
      let '(_, n, pool) := pipe_write h data (Z.of_nat (length data)) pool in
      let '(rd, wr, pool) := pipe_run h ops pool in (rd, take (Z.to_nat n) data ++ wr, pool)
  end.

(** ** Lemmas *)
Ltac pipe_const := unfold PIPE_CHUNK_MAX in *.

Lemma pool_init_wf : pool_wf pipe_pool_init.
Proof. intros i. unfold pipe_wf. simpl. pipe_const. lia. Qed.

Lemma pipe_decode_range h idx gen :
  pipe_decode h = Some (idx, gen) -> 0 <= idx < PIPE_POOL_SIZE /\ 0 <= gen < 2 ^ 32.
Proof.
  unfold pipe_decode. break_if; [done|]. intros [= <- <-]. bools. split; [|apply u32_range].
  split; [|lia]. apply Z.land_nonneg. lia.
Qed.

Lemma pool_wf_insert pool i p : pool_wf pool -> pipe_wf p -> pool_wf (<[i := p]> pool).
Proof.
  intros Hw Hp j. destruct (decide (i = j)) as [->|]; [by rewrite fn_lookup_insert|].
  by rewrite fn_lookup_insert_ne.
Qed.

Lemma pipe_live_insert pool h idx p :
  pipe_live pool h idx -> p_generation p = p_generation (pool idx) ->
  pipe_is_free p = false -> pipe_live (<[idx := p]> pool) h idx.
Proof.
  intros (gen & Hd & Hg & _) Hp Hf. exists gen. rewrite fn_lookup_insert. by rewrite Hp.
Qed.

(** Same pipe and same holders: only the bytes may differ. *)
Definition same_pipe (pool pool' : pipe_pool) (idx : Z) : Prop :=
  p_generation (pool' idx) = p_generation (pool idx) /\
  readers_mask (pool' idx) = readers_mask (pool idx) /\
  writers_mask (pool' idx) = writers_mask (pool idx) /\
  forall j, j <> idx -> pool' j = pool j.

Lemma same_pipe_live pool pool' h idx :
  same_pipe pool pool' idx -> pipe_live pool h idx -> pipe_live pool' h idx.
Proof.
  intros (Hg & Hr & Hw & _) (gen & ? & ? & Hf). exists gen. split_and!; [done|congruence|].
  unfold pipe_is_free in *. by rewrite Hr, Hw.
Qed.

Lemma same_pipe_refl pool idx : same_pipe pool pool idx.
Proof. by split_and!. Qed.

Lemma same_pipe_trans p1 p2 p3 idx :
  same_pipe p1 p2 idx -> same_pipe p2 p3 idx -> same_pipe p1 p3 idx.
Proof.
  intros (?&?&?&Hj1) (?&?&?&Hj2). split_and!; try congruence.
  intros j Hj. rewrite Hj2, Hj1; done.
Qed.

Lemma same_pipe_insert pool idx p :
  p_generation p = p_generation (pool idx) -> readers_mask p = readers_mask (pool idx) ->
  writers_mask p = writers_mask (pool idx) -> same_pipe pool (<[idx := p]> pool) idx.
Proof.
  intros. unfold same_pipe. rewrite fn_lookup_insert. split_and!; [done..|].
  intros j Hj. by rewrite fn_lookup_insert_ne.
Qed.
#[export] Hint Resolve same_pipe_refl same_pipe_insert pool_wf_insert : robu.

(** What a read of a live pipe does. *)
Lemma pipe_read_live pool h idx max :
  pool_wf pool -> pipe_live pool h idx -> 0 <= max ->
  exists rc out pool',
    pipe_read h max pool = (rc, out, pool') /\ pool_wf pool' /\ same_pipe pool pool' idx /\
    pipe_bytes (pool idx) = out ++ pipe_bytes (pool' idx) /\
    Z.of_nat (length out) = Z.min max (Z.min (p_count (pool idx)) PIPE_CHUNK_MAX) /\
    (rc = if (p_count (pool idx) =? 0) && (writers_mask (pool idx) =? 0)
          then IPC_ERR_NOT_FOUND else IPC_ERR_NONE).
Proof.
  intros Hw (gen & Hd & Hg & Hf) Hmax. pose proof (Hw idx) as (?&?&?&?&?).
  unfold pipe_read. rewrite Hd, Hg, Z.eqb_refl, Hf. simpl.
  destruct (p_count (pool idx) =? 0) eqn:Hc; bools.
  - eexists _, [], pool. split_and!; auto with robu. rewrite Hc. pipe_const. simpl. lia.
  - set (n := if _ >? PIPE_CHUNK_MAX then _ else _).
    assert (Hn : n = Z.min max (Z.min (p_count (pool idx)) PIPE_CHUNK_MAX)).
    { subst n. pipe_const. repeat break_if; bools; lia. }
    pipe_const. rewrite (u32_small n) by lia.
    rewrite (u32_small (p_count _ - n)) by lia. rewrite (u32_small (p_head _ + n)) by lia.
    pose proof (Z.mod_pos_bound (p_head (pool idx) + n) 1024).
    eexists _, _, _. split; [reflexivity|]. split_and!.
    + apply pool_wf_insert; [done|]. unfold pipe_wf. rsimpl. pipe_const. lia.
    + by apply same_pipe_insert.
    + rewrite fn_lookup_insert. unfold pipe_bytes. rsimpl. pipe_const.
      rewrite (ring_seq_split 1024 _ _ _ n) by lia. done.
    + rewrite length_fmap, length_seqZ. lia.
    + done.
Qed.

(** What a write to a live pipe with readers does. *)
Lemma pipe_write_live pool h idx data :
  pool_wf pool -> pipe_live pool h idx -> readers_mask (pool idx) <> 0 ->
  exists n pool',
    pipe_write h data (Z.of_nat (length data)) pool = (IPC_ERR_NONE, n, pool') /\
    pool_wf pool' /\ same_pipe pool pool' idx /\
    n = Z.min (Z.of_nat (length data))
              (Z.min (PIPE_RING_SIZE - p_count (pool idx)) PIPE_CHUNK_MAX) /\
    pipe_bytes (pool' idx) = pipe_bytes (pool idx) ++ take (Z.to_nat n) data.
Proof.
  intros Hw (gen & Hd & Hg & Hf) Hr. pose proof (Hw idx) as (?&?&?&?&?).
  unfold pipe_write. rewrite Hd, Hg, Z.eqb_refl, Hf. simpl.
  replace (readers_mask (pool idx) =? 0) with false by lia.
  rewrite u32_small by (pipe_const; lia).
  destruct (PIPE_RING_SIZE - p_count (pool idx) =? 0) eqn:Hc; bools.
  - eexists 0, pool. split_and!; auto with robu; [pipe_const; lia|]. simpl. by rewrite app_nil_r.
  - set (n := if _ >? PIPE_CHUNK_MAX then _ else _).
    assert (Hn : n = Z.min (Z.of_nat (length data))
              (Z.min (PIPE_RING_SIZE - p_count (pool idx)) PIPE_CHUNK_MAX)).
    { subst n. pipe_const. repeat break_if; bools; lia. }
    pipe_const. rewrite (u32_small n) by lia.
    rewrite (u32_small (p_count _ + n)) by lia. rewrite (u32_small (p_head _ + _)) by lia.
    eexists _, _. split; [reflexivity|]. split_and!.
    + apply pool_wf_insert; [done|]. unfold pipe_wf. rsimpl. pipe_const. lia.
    + by apply same_pipe_insert.
    + done.
    + rewrite fn_lookup_insert. unfold pipe_bytes. rsimpl. pipe_const.
      rewrite (ring_seq_ext 1024 _ (ring_fill 1024 (p_ring (pool idx))
        (p_head (pool idx) + p_count (pool idx)) n (buf_at data))) by (intros; apply ring_fill_mod).
      rewrite ring_fill_app by lia. by rewrite buf_at_seqZ by lia.
Qed.

Lemma drop_bit_spec m t j :
  0 <= t -> 0 <= j < 64 -> Z.testbit (drop_bit m (bit t)) j = Z.testbit m j && negb (t =? j).
Proof.
  intros. unfold drop_bit. by rewrite Z.land_spec, testbit_not64, bit_testbit.
Qed.

Lemma pipe_retire_wf p : pipe_wf p -> pipe_wf (pipe_retire p).
Proof.
  intros (?&?&?&?&?). unfold pipe_retire, pipe_wf. break_if; [|done]. rsimpl.
  pose proof (u32_range (p_generation p + 1)). lia.
Qed.

Lemma pipe_retire_masks p :
  readers_mask (pipe_retire p) = readers_mask p /\ writers_mask (pipe_retire p) = writers_mask p.
Proof. unfold pipe_retire. break_if; by rsimpl. Qed.

Lemma pipe_wf_readers p m : pipe_wf p -> 0 <= m < 2 ^ 64 -> pipe_wf (p <| readers_mask := m |>).
Proof. intros (?&?&?&?&?) ?. unfold pipe_wf. rsimpl. lia. Qed.
Lemma pipe_wf_writers p m : pipe_wf p -> 0 <= m < 2 ^ 64 -> pipe_wf (p <| writers_mask := m |>).
Proof. intros (?&?&?&?&?) ?. unfold pipe_wf. rsimpl. lia. Qed.

Lemma drop_bit_range m b : 0 <= m < 2 ^ 64 -> 0 <= drop_bit m b < 2 ^ 64.
Proof. intros. apply land_range; lia. Qed.
Lemma add_bit_range m t : 0 <= t < 64 -> 0 <= m < 2 ^ 64 -> 0 <= Z.lor m (bit t) < 2 ^ 64.
Proof. intros. apply lor_range; [lia|done|by apply bit_range]. Qed.
#[export] Hint Resolve pipe_retire_wf pipe_wf_readers pipe_wf_writers drop_bit_range
  add_bit_range : robu.

Lemma pipe_wf_masks p :
  pipe_wf p -> 0 <= readers_mask p < 2 ^ 64 /\ 0 <= writers_mask p < 2 ^ 64.
Proof. by intros (?&?&?&?&?). Qed.

Lemma pipe_create_wf c pool rc h pool' :
  0 <= c < 64 -> pool_wf pool -> pipe_create c pool = (rc, h, pool') -> pool_wf pool'.
Proof.
  intros Hc Hw. unfold pipe_create. break_match; intros [= <- <- <-]; [|done].
  pose proof (Hw z) as (?&?&?&?&?). pose proof (bit_range c 64 Hc).
  apply pool_wf_insert; [done|]. unfold pipe_wf. rsimpl. pipe_const. lia.
Qed.

Lemma pipe_read_wf h max pool rc out pool' :
  0 <= max -> pool_wf pool -> pipe_read h max pool = (rc, out, pool') -> pool_wf pool'.
Proof.
  intros Hmax Hw E. destruct (pipe_decode h) as [[idx gen]|] eqn:Hd.
  - destruct (negb (p_generation (pool idx) =? gen) || pipe_is_free (pool idx)) eqn:Hl.
    + unfold pipe_read in E. rewrite Hd, Hl in E. by simplify_eq.
    + bools. destruct (pipe_read_live pool h idx max) as (?&?&?&E'&?&_);
        [done|by exists gen|done|]. rewrite E' in E. by simplify_eq.
  - unfold pipe_read in E. rewrite Hd in E. by simplify_eq.
Qed.

Lemma pipe_write_wf h data pool rc n pool' :
  pool_wf pool -> pipe_write h data (Z.of_nat (length data)) pool = (rc, n, pool') -> pool_wf pool'.
Proof.
  intros Hw E. destruct (pipe_decode h) as [[idx gen]|] eqn:Hd.
  - destruct (negb (p_generation (pool idx) =? gen) || pipe_is_free (pool idx)) eqn:Hl.
    + unfold pipe_write in E. rewrite Hd, Hl in E. by simplify_eq.
    + bools. destruct (decide (readers_mask (pool idx) = 0)) as [Hr|Hr].
      * unfold pipe_write in E. rewrite Hd, H, Z.eqb_refl, H0, Hr in E. simpl in E. by simplify_eq.
      * destruct (pipe_write_live pool h idx data) as (?&?&E'&?&_);
          [done|by exists gen|done|]. rewrite E' in E. by simplify_eq.
  - unfold pipe_write in E. rewrite Hd in E. by simplify_eq.
Qed.

Lemma pipe_close_wf c h w pool rc pool' :
  pool_wf pool -> pipe_close c h w pool = (rc, pool') -> pool_wf pool'.
Proof.
  intros Hw. unfold pipe_close. destruct (pipe_decode h) as [[idx gen]|]; [|by intros [= _ <-]].
  pose proof (Hw idx) as Hp. pose proof (pipe_wf_masks _ Hp) as [? ?].
  break_if; [by intros [= _ <-]|]. intros [= <- <-]. apply pool_wf_insert; [done|].
  break_if; auto with robu.
Qed.

Lemma pipe_add_holder_wf t h w pool rc pool' :
  0 <= t < 64 -> pool_wf pool -> pipe_add_holder t h w pool = (rc, pool') -> pool_wf pool'.
Proof.
  intros Ht Hw. unfold pipe_add_holder. destruct (pipe_decode h) as [[idx gen]|]; [|by intros [= _ <-]].
  pose proof (Hw idx) as Hp. pose proof (pipe_wf_masks _ Hp) as [? ?].
  break_if; [by intros [= _ <-]|]. intros [= <- <-]. apply pool_wf_insert; [done|].
  break_if; auto with robu.
Qed.

Lemma pipe_inherit_wf a b pool :
  0 <= b < 64 -> pool_wf pool -> pool_wf (pipe_inherit_fork a b pool).
Proof.
  intros Hb Hw i. unfold pipe_inherit_fork.
  rewrite (for_range_pointwise (fun _ => pipe_inherit_one (bit a) (bit b))).
  pose proof (Hw i) as Hp. pose proof (pipe_wf_masks _ Hp) as [? ?].
  break_if; [|done]. unfold pipe_inherit_one.
  repeat break_if; rsimpl; auto with robu.
Qed.

Lemma pipe_death_wf t pool : pool_wf pool -> pool_wf (pipe_invalidate_tcb_death t pool).
Proof.
  intros Hw i. unfold pipe_invalidate_tcb_death.
  rewrite (for_range_pointwise (fun _ => pipe_invalidate_one (bit t))).
  pose proof (Hw i) as Hp. pose proof (pipe_wf_masks _ Hp) as [? ?].
  break_if; [|done]. unfold pipe_invalidate_one.
  break_if; rsimpl; auto 7 with robu.
Qed.

(** Every pool the kernel can reach: boot, then any sequence of operations. *)
Inductive pipe_reach : pipe_pool -> Prop :=
| reach_init : pipe_reach pipe_pool_init
| reach_create c pool rc h pool' :
    pipe_reach pool -> 0 <= c < 64 -> pipe_create c pool = (rc, h, pool') -> pipe_reach pool'
| reach_read h max pool rc out pool' :
    pipe_reach pool -> 0 <= max -> pipe_read h max pool = (rc, out, pool') -> pipe_reach pool'
| reach_write h data pool rc n pool' :
    pipe_reach pool -> pipe_write h data (Z.of_nat (length data)) pool = (rc, n, pool') ->
    pipe_reach pool'
| reach_close c h w pool rc pool' :
    pipe_reach pool -> pipe_close c h w pool = (rc, pool') -> pipe_reach pool'
| reach_add_holder t h w pool rc pool' :
    pipe_reach pool -> 0 <= t < 64 -> pipe_add_holder t h w pool = (rc, pool') -> pipe_reach pool'
| reach_fork a b pool :
    pipe_reach pool -> 0 <= b < 64 -> pipe_reach (pipe_inherit_fork a b pool)
| reach_death t pool : pipe_reach pool -> pipe_reach (pipe_invalidate_tcb_death t pool).

(** A handle whose generation is not the slot's is refused by every operation
    that takes one. *)
Lemma stale_refused pool h idx gen :
  pipe_decode h = Some (idx, gen) -> p_generation (pool idx) <> gen ->
  (forall max, pipe_read h max pool = (IPC_ERR_NOT_FOUND, [], pool)) /\
  (forall d n, pipe_write h d n pool = (IPC_ERR_NOT_FOUND, 0, pool)) /\
  (forall c w, pipe_close c h w pool = (IPC_ERR_NOT_FOUND, pool)) /\
  (forall t w, pipe_add_holder t h w pool = (-1, pool)).
Proof.
  intros Hd Hg. unfold pipe_read, pipe_write, pipe_close, pipe_add_holder. rewrite Hd.
  replace (p_generation (pool idx) =? gen) with false by lia. done.
Qed.

Lemma u32_succ_ne x : 0 <= x < 2 ^ 32 -> u32 (x + 1) <> x.
Proof.
  intros. unfold u32. destruct (decide (x = 2 ^ 32 - 1)) as [->|]; [done|].
  rewrite Z.mod_small; lia.
Qed.

Lemma lor_shift_split a b :
  0 <= b < 2 ^ 32 -> Z.land (Z.lor (Z.shiftl a 32) b) 0xFFFFFFFF = b /\
  Z.shiftr (Z.lor (Z.shiftl a 32) b) 32 = a.
Proof.
  intros Hb. change 0xFFFFFFFF with (Z.ones 32). split; apply Z.bits_inj'; intros j Hj.
  - rewrite Z.land_spec, Z.lor_spec, Z.testbit_ones_nonneg by lia.
    destruct (Z.ltb_spec j 32).
    + rewrite Z.shiftl_spec_low by lia. by rewrite andb_true_r.
    + rewrite andb_false_r. by rewrite (testbit_high b 32).
  - rewrite Z.shiftr_spec, Z.lor_spec, Z.shiftl_spec by lia.
    rewrite (testbit_high b 32) by lia. rewrite orb_false_r. f_equal. lia.
Qed.

(** Every operation that takes the handle refuses it and leaves the pool alone. *)
Definition handle_refused (pool : pipe_pool) (h : Z) : Prop :=
  (forall max, pipe_read h max pool = (IPC_ERR_NOT_FOUND, [], pool)) /\
  (forall d n, pipe_write h d n pool = (IPC_ERR_NOT_FOUND, 0, pool)) /\
  (forall c w, pipe_close c h w pool = (IPC_ERR_NOT_FOUND, pool)) /\
  (forall t w, pipe_add_holder t h w pool = (-1, pool)).

Lemma pipe_close_free pool c h w idx gen pool' :
  pool_wf pool -> pipe_decode h = Some (idx, gen) -> p_generation (pool idx) = gen ->
  pipe_close c h w pool = (IPC_ERR_NONE, pool') -> pipe_is_free (pool' idx) = true ->
  p_generation (pool' idx) <> gen.
Proof.
  intros Hw Hd Hg. unfold pipe_close. rewrite Hd, Hg, Z.eqb_refl. simpl. intros [= <-].
  rewrite fn_lookup_insert. intros Hfree.
  assert (Hr : forall p, p_generation p = gen -> pipe_is_free (pipe_retire p) = true ->
            p_generation (pipe_retire p) = u32 (gen + 1)).
  { intros p <- . unfold pipe_retire. break_if; [by rsimpl|congruence]. }
  rewrite Hr; [apply u32_succ_ne; destruct (Hw idx); lia| |done]. by break_if; rsimpl.
Qed.

Lemma pipe_create_handle c pool h pool' :
  pool_wf pool -> pipe_create c pool = (IPC_ERR_NONE, Some h, pool') ->
  exists i, 0 <= i < PIPE_POOL_SIZE /\
    pipe_decode h = Some (i, p_generation (pool i)) /\
    (forall j, p_generation (pool' j) = p_generation (pool j)).
Proof.
  intros Hw. unfold pipe_create. break_match; [|done]. intros [= <- <-].
  apply find_first_Some in Heqo as (Hi & _ & _). exists z.
  destruct (lor_shift_split (p_generation (pool z)) z) as [E1 E2]; [pipe_const; lia|].
  rsimpl. split_and!; [lia|lia| |].
  - unfold pipe_decode. rewrite E1, E2. replace (z >=? PIPE_POOL_SIZE) with false by lia.
    rewrite u32_small; [done|]. apply Hw.
  - intros j. destruct (decide (z = j)) as [->|]; [by rewrite fn_lookup_insert|].
    by rewrite fn_lookup_insert_ne.
Qed.

Lemma mask_free_bits p j :
  0 <= j -> Z.testbit (Z.lor (readers_mask p) (writers_mask p)) j = false ->
  Z.testbit (readers_mask p) j = false /\ Z.testbit (writers_mask p) j = false.
Proof. intros. rewrite Z.lor_spec in *. by apply orb_false_iff. Qed.

Lemma pipe_invalidate_one_bits t j p :
  0 <= t < 64 -> 0 <= j < 64 ->
  Z.testbit (readers_mask (pipe_invalidate_one (bit t) p)) j =
    Z.testbit (readers_mask p) j && negb (t =? j) /\
  Z.testbit (writers_mask (pipe_invalidate_one (bit t) p)) j =
    Z.testbit (writers_mask p) j && negb (t =? j).
Proof.
  intros Ht Hj. unfold pipe_invalidate_one. rewrite has_bit by lia. break_if.
  - rewrite !(proj1 (pipe_retire_masks _)), !(proj2 (pipe_retire_masks _)). rsimpl.
    by rewrite !drop_bit_spec by lia.
  - apply mask_free_bits in Heqb as [Hr Hw]; [|lia].
    destruct (Z.eqb_spec t j) as [->|]; [by rewrite Hr, Hw|by rewrite !andb_true_r].
Qed.

Lemma lor_bit_testbit m n j : 0 <= n -> Z.testbit (Z.lor m (bit n)) j = Z.testbit m j || (n =? j).
Proof. intros. by rewrite Z.lor_spec, bit_testbit. Qed.

Lemma pipe_inherit_one_bits a b j p :
  0 <= a -> 0 <= b -> 0 <= j ->
  Z.testbit (readers_mask (pipe_inherit_one (bit a) (bit b) p)) j =
    Z.testbit (readers_mask p) j || (Z.testbit (readers_mask p) a && (b =? j)) /\
  Z.testbit (writers_mask (pipe_inherit_one (bit a) (bit b) p)) j =
    Z.testbit (writers_mask p) j || (Z.testbit (writers_mask p) a && (b =? j)).
Proof.
  intros. unfold pipe_inherit_one. rewrite !has_bit by lia.
  destruct (Z.testbit (readers_mask p) a) eqn:?; rsimpl;
  destruct (Z.testbit (writers_mask p) a) eqn:?; rsimpl;
  rewrite ?lor_bit_testbit by lia; by rewrite ?orb_false_r.
Qed.

(** ** Properties *)

(** C14: a pipe is a byte stream.  For every sequence of reads and writes through
    one live handle of a pipe that has readers, the bytes the pipe held followed
    by the bytes the writes accepted are the bytes the reads returned followed by
    the bytes still held; the handle stays live, the pool well formed, and no
    other pipe of the pool changes. *)
Theorem pipe_stream pool h idx ops rd wr pool' :
  pool_wf pool -> pipe_live pool h idx -> readers_mask (pool idx) <> 0 ->
  Forall (fun o => match o with PRead m => 0 <= m | PWrite _ => True end) ops ->
  pipe_run h ops pool = (rd, wr, pool') ->
  pipe_bytes (pool idx) ++ wr = rd ++ pipe_bytes (pool' idx) /\
  pool_wf pool' /\ pipe_live pool' h idx /\ (forall j, j <> idx -> pool' j = pool j).
Proof.
  intros Hw Hl Hr Hops. revert pool rd wr pool' Hw Hl Hr.
  induction Hops as [|[max|data] ops Hm _ IH]; simpl; intros pool rd wr pool' Hw Hl Hr E.
  - simplify_eq. by rewrite app_nil_r.
  - destruct (pipe_read_live pool h idx max) as (rc & out & p1 & E1 & Hw1 & Hs & Hb & _); [done..|].
    rewrite E1 in E. destruct (pipe_run h ops p1) as [[rd1 wr1] p2] eqn:E2. simplify_eq.
    destruct (IH p1 rd1 wr pool') as (Hb' & ? & ? & Hf); eauto using same_pipe_live.
    { by rewrite (proj1 (proj2 Hs)). }
    split_and!; [|done|done|].
    + rewrite Hb, <- !app_assoc. by rewrite Hb'.
    + intros j Hj. rewrite Hf by done. by apply Hs.
  - destruct (pipe_write_live pool h idx data) as (n & p1 & E1 & Hw1 & Hs & _ & Hb); [done..|].
    rewrite E1 in E. destruct (pipe_run h ops p1) as [[rd1 wr1] p2] eqn:E2. simplify_eq.
    destruct (IH p1 rd wr1 pool') as (Hb' & ? & ? & Hf); eauto using same_pipe_live.
    { by rewrite (proj1 (proj2 Hs)). }
    split_and!; [|done|done|].
    + rewrite <- Hb', Hb. by rewrite app_assoc.
    + intros j Hj. rewrite Hf by done. by apply Hs.
Qed.

Lemma pipe_stream_witness :
  let pool := (pipe_create 1 pipe_pool_init).2 in
  pipe_bytes (pool 0) ++ [7; 8; 9] =
  [7; 8] ++ pipe_bytes ((pipe_run 0 [PWrite [7; 8; 9]; PRead 2] pool).2 0).
Proof.
  intros pool.
  refine (proj1 (pipe_stream pool 0 0 [PWrite [7; 8; 9]; PRead 2] [7; 8] [7; 8; 9] _ _ _ _ _ _)).
  - exact (pipe_create_wf 1 pipe_pool_init _ _ _ ltac:(lia) pool_init_wf eq_refl).
  - exists 0. done.
  - done.
  - by repeat constructor.
  - reflexivity.
Defined.

(** C27: a handle dies with its pipe.  When a close leaves a pipe without holders,
    the handle that named it is refused from then on by read, write, close and
    add-holder, none of which changes the pool; and when a later create reuses a
    slot, the handle it returns differs from the dead one, which is still
    refused. *)
Theorem pipe_stale_handle pool c h w idx pool' :
  pool_wf pool -> pipe_live pool h idx ->
  pipe_close c h w pool = (IPC_ERR_NONE, pool') -> pipe_is_free (pool' idx) = true ->
  handle_refused pool' h /\
  forall c' h' pool'', pipe_create c' pool' = (IPC_ERR_NONE, Some h', pool'') ->
    h' <> h /\ handle_refused pool'' h.
Proof.
  intros Hw (gen & Hd & Hg & Hf) Hc Hfree.
  pose proof (pipe_close_free _ _ _ _ _ _ _ Hw Hd Hg Hc Hfree) as Hgen.
  split; [by eapply stale_refused|]. intros c' h' pool'' Hcr.
  destruct (pipe_create_handle _ _ _ _ (pipe_close_wf _ _ _ _ _ _ Hw Hc) Hcr)
    as (i & Hi & Hd' & Hg').
  split.
  - intros ->. congruence.
  - eapply stale_refused; [done|]. by rewrite Hg'.
Qed.

Lemma pipe_stale_handle_witness :
  let pool := (pipe_close 1 0 1 (pipe_create 1 pipe_pool_init).2).2 in
  handle_refused (pipe_close 1 0 0 pool).2 0.
Proof.
  intros pool.
  refine (proj1 (pipe_stale_handle pool 1 0 0 0 _ _ _ _ _)).
  - refine (pipe_close_wf 1 0 1 (pipe_create 1 pipe_pool_init).2 _ _ _ eq_refl).
    exact (pipe_create_wf 1 pipe_pool_init _ _ _ ltac:(lia) pool_init_wf eq_refl).
  - exists 0. by vm_compute.
  - reflexivity.
  - by vm_compute.
Defined.

(** In every pool reachable from boot by any sequence of pipe operations by
    threads with ids below 64, all rings are in bounds (head inside the ring,
    at most 1024 bytes held), holder masks fit 64 bits and generations 32. *)
Theorem pipe_reachable_wf pool : pipe_reach pool -> forall i, pipe_wf (pool i).
Proof.
  induction 1; [apply pool_init_wf|eapply pipe_create_wf|eapply pipe_read_wf
    |eapply pipe_write_wf|eapply pipe_close_wf|eapply pipe_add_holder_wf
    |by apply pipe_inherit_wf|by apply pipe_death_wf]; eassumption.
Qed.

Lemma pipe_reachable_wf_witness :
  pipe_wf ((pipe_write 0 [1; 2] 2 (pipe_create 3 pipe_pool_init).2).2 0).
Proof.
  apply (pipe_reachable_wf _).
  apply (reach_write 0 [1; 2] (pipe_create 3 pipe_pool_init).2 IPC_ERR_NONE 2); [|reflexivity].
  apply (reach_create 3 pipe_pool_init IPC_ERR_NONE (Some 0)); [apply reach_init|lia|reflexivity].
Defined.

(** pipe ends follow the thread lifecycle.  When a thread dies, its bit is
    cleared from both masks of every pipe and no other thread's bit changes; a
    fork gives the child exactly the ends its parent holds (besides those it
    already had) and changes nobody else's. *)
Theorem pipe_holders_lifecycle pool t parent child i j :
  0 <= i < PIPE_POOL_SIZE -> 0 <= j < 64 -> 0 <= t < 64 ->
  0 <= parent < 64 -> 0 <= child < 64 ->
  Z.testbit (readers_mask (pipe_invalidate_tcb_death t pool i)) j =
    Z.testbit (readers_mask (pool i)) j && negb (t =? j) /\
  Z.testbit (writers_mask (pipe_invalidate_tcb_death t pool i)) j =
    Z.testbit (writers_mask (pool i)) j && negb (t =? j) /\
  Z.testbit (readers_mask (pipe_inherit_fork parent child pool i)) j =
    Z.testbit (readers_mask (pool i)) j ||
    (Z.testbit (readers_mask (pool i)) parent && (child =? j)) /\
  Z.testbit (writers_mask (pipe_inherit_fork parent child pool i)) j =
    Z.testbit (writers_mask (pool i)) j ||
    (Z.testbit (writers_mask (pool i)) parent && (child =? j)).
Proof.
  intros Hi Hj Ht Hp Hc. unfold pipe_inherit_fork, pipe_invalidate_tcb_death.
  rewrite (for_range_pointwise (fun _ => pipe_inherit_one (bit parent) (bit child))).
  rewrite (for_range_pointwise (fun _ => pipe_invalidate_one (bit t))).
  replace ((0 <=? i) && (i <? PIPE_POOL_SIZE)) with true by lia.
  destruct (pipe_invalidate_one_bits t j (pool i)) as [-> ->]; [done..|].
  destruct (pipe_inherit_one_bits parent child j (pool i)) as [-> ->]; [lia..|]. done.
Qed.

Lemma pipe_holders_lifecycle_witness :
  Z.testbit (readers_mask (pipe_invalidate_tcb_death 5
    (pipe_inherit_fork 1 5 (pipe_create 1 pipe_pool_init).2) 0)) 1 = true.
Proof.
  destruct (pipe_holders_lifecycle (pipe_inherit_fork 1 5 (pipe_create 1 pipe_pool_init).2)
    5 1 5 0 1) as [-> _]; (reflexivity || (lia)).
Defined.
