(* ===== verification/Socket.v ===== *)
(** * Local stream sockets ([src/src/core/socket.c])

    A table of 32 sockets.  An identifier packs the slot and the slot's
    generation; a listener queues the slots of connecting clients; a connected
    socket names its peer by slot and generation and receives into its own
    4 KiB ring.  The theorems show that connected sockets point at each other,
    that a connection is a pair of independent byte streams, that bound paths
    are unique, and that a closed identifier is refused. *)
From Stdlib Require Import ZArith Lia.
From stdpp Require Import base numbers sets list list_numbers functions.
From S2P Require Import Prelude Abi Ring.

Notation MAX_SOCKETS := (32)%Z (only parsing).
Notation SOCK_BACKLOG_MAX := (8)%Z (only parsing).
Notation SOCK_RING_SIZE := (4096)%Z (only parsing).

Inductive sock_state_t := SOCK_UNBOUND | SOCK_LISTENING | SOCK_CONNECTING | SOCK_CONNECTED.
#[export] Instance sock_state_eq_dec : EqDecision sock_state_t.
Proof. solve_decision. Defined.
Definition state_eqb (a b : sock_state_t) : bool := bool_decide (a = b).

Record socket_t := mk_socket {
  in_use : bool;
  s_generation : Z;
  s_state : sock_state_t;
  owner_tid : Z;
  s_path : Z -> Z;
  has_path : bool;
  backlog_slot : Z -> Z;
  backlog_gen : Z -> Z;
  backlog_head : Z;
  backlog_tail : Z;
  peer_idx : Z;
  peer_gen : Z;
  peer_closed : bool;
  s_ring : Z -> Z;
  ring_head : Z;
  ring_count : Z
}.
#[export] Instance eta_socket : Eta socket_t := fun s =>
  mk_socket (in_use s) (s_generation s) (s_state s) (owner_tid s) (s_path s) (has_path s)
    (backlog_slot s) (backlog_gen s) (backlog_head s) (backlog_tail s) (peer_idx s) (peer_gen s)
    (peer_closed s) (s_ring s) (ring_head s) (ring_count s).

Abbreviation sockets_t := (Z -> socket_t).
(** The zero-initialised table. *)
Definition sockets_init : sockets_t := fun _ =>
  mk_socket false 0 SOCK_UNBOUND 0 (fun _ => 0) false (fun _ => 0) (fun _ => 0) 0 0 0 0 false
    (fun _ => 0) 0 0.

(** A path argument is the C string's characters. *)
Fixpoint path_eq_from (fuel : nat) (i : Z) (a b : Z -> Z) : bool :=
  match fuel with
  | O => true
  | S fuel => if negb (a i =? b i) then false
              else if a i =? 0 then true else path_eq_from fuel (i + 1) a b
  end.
Definition path_eq (a b : Z -> Z) : bool := path_eq_from (Z.to_nat SOCK_PATH_MAX) 0 a b.

Definition make_sockid (slot generation : Z) : Z := i32 (Z.lor slot (u32 (Z.shiftl generation 8))).
Definition sockid_slot (sockid : Z) : Z := Z.land sockid 0xFF.
Definition sockid_gen (sockid : Z) : Z := u16 (Z.shiftr (u32 sockid) 8).

(** The slot of a live identifier ([None] for NULL). *)
Definition find_socket (sockid : Z) (t : sockets_t) : option Z :=
  let slot := sockid_slot sockid in
  if (slot <? 0) || (slot >=? MAX_SOCKETS) then None
  else if negb (in_use (t slot)) || negb (s_generation (t slot) =? sockid_gen sockid) then None
  else Some slot.

Definition free_slot (t : sockets_t) : option Z := find_first MAX_SOCKETS (fun i => negb (in_use (t i))).

(** Result: status, the identifier, the table. *)
Definition sock_create (caller : Z) (t : sockets_t) : Z * option Z * sockets_t :=
  match free_slot t with
  | None => (IPC_ERR_NO_SPACE, None, t)
  | Some slot =>
      let s := t slot in
      let s := s <| in_use := true |> <| s_state := SOCK_UNBOUND |> <| owner_tid := caller |>
                 <| has_path := false |> <| backlog_tail := 0 |> <| backlog_head := 0 |>
                 <| peer_idx := -1 |> <| peer_closed := false |>
                 <| ring_count := 0 |> <| ring_head := 0 |> in
      (IPC_ERR_NONE, Some (make_sockid slot (s_generation s)), <[slot := s]> t)
  end.

(** The copy loop of [sock_bind]: up to and including the terminator. *)
Fixpoint copy_path (fuel : nat) (i : Z) (path dst : Z -> Z) : Z -> Z :=
  match fuel with
  | O => dst
  | S fuel => let dst := <[i := path i]> dst in
              if path i =? 0 then dst else copy_path fuel (i + 1) path dst
  end.

(** The guard common to the owner's operations. *)
Definition find_owned (caller sockid : Z) (t : sockets_t) : option Z :=
  match find_socket sockid t with
  | None => None
  | Some slot => if negb (owner_tid (t slot) =? caller) then None else Some slot
  end.

Definition sock_bind (caller sockid : Z) (path : Z -> Z) (t : sockets_t) : Z * sockets_t :=
  match find_owned caller sockid t with
  | None => (IPC_ERR_NOT_FOUND, t)
  | Some slot =>
      let s := t slot in
      if negb (state_eqb (s_state s) SOCK_UNBOUND) then (IPC_ERR_INVALID, t)
      else match find_first MAX_SOCKETS (fun i =>
             in_use (t i) && has_path (t i) && path_eq (s_path (t i)) path) with
      | Some _ => (IPC_ERR_EXISTS, t)
      | None =>
          let p := copy_path (Z.to_nat SOCK_PATH_MAX) 0 path (s_path s) in
          let p := <[SOCK_PATH_MAX - 1 := 0]> p in
          (IPC_ERR_NONE, <[slot := s <| s_path := p |> <| has_path := true |>]> t)
      end
  end.

Definition sock_listen (caller sockid : Z) (t : sockets_t) : Z * sockets_t :=
  match find_owned caller sockid t with
  | None => (IPC_ERR_NOT_FOUND, t)
  | Some slot =>
      let s := t slot in
      if negb (has_path s) || negb (state_eqb (s_state s) SOCK_UNBOUND) then (IPC_ERR_INVALID, t)
      else (IPC_ERR_NONE, <[slot := s <| s_state := SOCK_LISTENING |>
                                      <| backlog_tail := 0 |> <| backlog_head := 0 |>]> t)
  end.

Definition find_listener (path : Z -> Z) (t : sockets_t) : option Z :=
  find_first MAX_SOCKETS (fun i =>
    in_use (t i) && state_eqb (s_state (t i)) SOCK_LISTENING && has_path (t i) &&
    path_eq (s_path (t i)) path).

Definition sock_connect (caller sockid : Z) (path : Z -> Z) (t : sockets_t) : Z * sockets_t :=
  match find_owned caller sockid t with
  | None => (IPC_ERR_NOT_FOUND, t)
  | Some my_slot =>
      let s := t my_slot in
      match s_state s with
      | SOCK_CONNECTED => (IPC_ERR_NONE, t)
      | SOCK_CONNECTING => (if peer_idx s <? 0 then IPC_ERR_WOULDBLOCK else IPC_ERR_NONE, t)
      | SOCK_LISTENING => (IPC_ERR_INVALID, t)
      | SOCK_UNBOUND =>
          match find_listener path t with
          | None => (IPC_ERR_NOT_FOUND, t)
          | Some l =>
              let listener := t l in
              let next := (backlog_tail listener + 1) mod SOCK_BACKLOG_MAX in
              if next =? backlog_head listener then (IPC_ERR_NO_SPACE, t)
              else
                let listener :=
                  listener <| backlog_slot := <[backlog_tail listener := my_slot]> (backlog_slot listener) |>
                           <| backlog_gen := <[backlog_tail listener := s_generation s]> (backlog_gen listener) |>
                           <| backlog_tail := next |> in
                let t := <[l := listener]> t in
                let t := <[my_slot := (t my_slot) <| s_state := SOCK_CONNECTING |> <| peer_idx := -1 |>]> t in
                (IPC_ERR_WOULDBLOCK, t)
          end
      end
  end.

(** The backlog scan of [sock_accept]: the first queued client that is still
    connecting, and the advanced head. *)
Fixpoint accept_scan (fuel : nat) (t : sockets_t) (l : socket_t) : option Z * socket_t :=
  match fuel with
  | O => (None, l)
  | S fuel =>
      if backlog_head l =? backlog_tail l then (None, l)
      else
        let slot := backlog_slot l (backlog_head l) in
        let gen := backlog_gen l (backlog_head l) in
        let l := l <| backlog_head := (backlog_head l + 1) mod SOCK_BACKLOG_MAX |> in
        if in_use (t slot) && (s_generation (t slot) =? gen) &&
           state_eqb (s_state (t slot)) SOCK_CONNECTING
        then (Some slot, l)
        else accept_scan fuel t l
  end.

(** Result: status, the new identifier, the table. *)
Definition sock_accept (caller sockid : Z) (t : sockets_t) : Z * option Z * sockets_t :=
  match find_owned caller sockid t with
  | None => (IPC_ERR_NOT_FOUND, None, t)
  | Some l =>
      if negb (state_eqb (s_state (t l)) SOCK_LISTENING) then (IPC_ERR_INVALID, None, t)
      else
        let '(client, listener) := accept_scan (Z.to_nat SOCK_BACKLOG_MAX) t (t l) in
        let t := <[l := listener]> t in
        match client with
        | None => (IPC_ERR_WOULDBLOCK, None, t)
        | Some c =>
            match free_slot t with
            | None => (IPC_ERR_NO_SPACE, None, t)
            | Some n =>
                let srv := (t n) <| in_use := true |> <| s_state := SOCK_CONNECTED |>
                               <| owner_tid := caller |> <| has_path := false |>
                               <| peer_closed := false |>
                               <| ring_count := 0 |> <| ring_head := 0 |> in
                let srv := srv <| peer_idx := c |> <| peer_gen := s_generation (t c) |> in
                let t := <[n := srv]> t in
                let cl := (t c) <| peer_idx := n |> <| peer_gen := s_generation srv |>
                              <| s_state := SOCK_CONNECTED |> in
                let t := <[c := cl]> t in
                (IPC_ERR_NONE, Some (make_sockid n (s_generation (t n))), t)
            end
        end
  end.

(** The drain loop of [sock_read]; [fuel] is the ring count, which bounds it. *)
Fixpoint read_loop (fuel : nat) (max n : Z) (s : socket_t) (out : list Z) : list Z * socket_t :=
  match fuel with
  | O => (out, s)
  | S fuel =>
      if (n <? max) && (ring_count s >? 0) then
        let out := out ++ [s_ring s (ring_head s)] in
        let s := s <| ring_head := u32 (ring_head s + 1) mod SOCK_RING_SIZE |> in
        let s := s <| ring_count := u32 (ring_count s - 1) |> in
        read_loop fuel max (n + 1) s out
      else (out, s)
  end.

(** Result: status, the bytes read ([None] when [out_n] is not written), the table. *)
Definition sock_read (sockid max : Z) (t : sockets_t) : Z * option (list Z) * sockets_t :=
  match find_socket sockid t with
  | None => (IPC_ERR_NOT_FOUND, None, t)
  | Some slot =>
      let s := t slot in
      if negb (state_eqb (s_state s) SOCK_CONNECTED) then (IPC_ERR_INVALID, None, t)
      else if ring_count s =? 0 then
        (if peer_closed s then IPC_ERR_NONE else IPC_ERR_WOULDBLOCK, Some [], t)
      else
        let '(out, s) := read_loop (Z.to_nat (ring_count s)) max 0 s [] in
        (IPC_ERR_NONE, Some out, <[slot := s]> t)
  end.

(** The peer of a socket, when it is still the one it was connected to. *)
Definition live_peer (s : socket_t) (t : sockets_t) : option Z :=
  if (peer_idx s <? 0) || negb (in_use (t (peer_idx s))) ||
     negb (s_generation (t (peer_idx s)) =? peer_gen s)
  then None else Some (peer_idx s).

(** Result: status, the number of bytes taken, the table. *)
Definition sock_write (sockid : Z) (buf : list Z) (len : Z) (t : sockets_t)
  : Z * option Z * sockets_t :=
  match find_socket sockid t with
  | None => (IPC_ERR_NOT_FOUND, None, t)
  | Some slot =>
      let s := t slot in
      if negb (state_eqb (s_state s) SOCK_CONNECTED) then (IPC_ERR_INVALID, None, t)
      else match live_peer s t with
      | None => (IPC_ERR_NOT_FOUND, None, t)
      | Some p =>
          let peer := t p in
          let space := i32 (u32 (SOCK_RING_SIZE - ring_count peer)) in
          let n := if len <? space then len else space in
          let tail := u32 (ring_head peer + ring_count peer) mod SOCK_RING_SIZE in
          let '(ring, _) := for_range n (fun i '(ring, tail) =>
            (<[tail := buf_at buf i]> ring, u32 (tail + 1) mod SOCK_RING_SIZE))
            (s_ring peer, tail) in
          (IPC_ERR_NONE, Some n,
           <[p := peer <| s_ring := ring |> <| ring_count := u32 (ring_count peer + u32 n) |>]> t)
      end
  end.

(** The shared part of closing: tell the peer, free the slot, retire its generation. *)
Definition close_slot (slot : Z) (t : sockets_t) : sockets_t :=
  let s := t slot in
  let t := match live_peer s t with
           | Some p => if state_eqb (s_state s) SOCK_CONNECTED
                       then <[p := (t p) <| peer_closed := true |>]> t else t
           | None => t
           end in
  <[slot := (t slot) <| in_use := false |> <| s_generation := u16 (s_generation (t slot) + 1) |>]> t.

Definition sock_close (caller sockid : Z) (t : sockets_t) : Z * sockets_t :=
  match find_owned caller sockid t with
  | None => (IPC_ERR_NOT_FOUND, t)
  | Some slot => (IPC_ERR_NONE, close_slot slot t)
  end.

Definition sock_cleanup_for_process (tid : Z) (t : sockets_t) : sockets_t :=
  for_range MAX_SOCKETS (fun i t =>
    if negb (in_use (t i)) || negb (owner_tid (t i) =? tid) then t else close_slot i t) t.

(** ** Invariants *)
Definition slot_ok (i : Z) : Prop := 0 <= i < MAX_SOCKETS.
Definition conn (s : socket_t) : bool := in_use s && state_eqb (s_state s) SOCK_CONNECTED.

Record sock_wf (s : socket_t) : Prop := {
  sw_gen : 0 <= s_generation s < 2 ^ 16;
  sw_blog : 0 <= backlog_head s < SOCK_BACKLOG_MAX /\ 0 <= backlog_tail s < SOCK_BACKLOG_MAX;
  sw_bslot : forall k, slot_ok (backlog_slot s k);
  sw_ring : 0 <= ring_head s < SOCK_RING_SIZE /\ 0 <= ring_count s <= SOCK_RING_SIZE
}.

(** The socket in slot [i] has a peer in another slot; while the peer's
    generation is the recorded one, the peer is connected and points back. *)
Definition peer_ok (t : sockets_t) (i : Z) : Prop :=
  let p := peer_idx (t i) in
  slot_ok p /\ p <> i /\ peer_gen (t i) <= s_generation (t p) /\
  (s_generation (t p) = peer_gen (t i) ->
   conn (t p) = true /\ peer_idx (t p) = i /\ peer_gen (t p) = s_generation (t i)).

(** [n] bounds the number of closes, hence every generation. *)
Record sock_inv (n : Z) (t : sockets_t) : Prop := {
  si_wf : forall i, sock_wf (t i);
  si_gen : forall i, s_generation (t i) <= n;
  si_peers : forall i, slot_ok i -> conn (t i) = true -> peer_ok t i
}.

(** ** Tables *)
Ltac sock_const := unfold slot_ok in *.

Lemma find_socket_spec id t slot :
  find_socket id t = Some slot ->
  slot_ok slot /\ in_use (t slot) = true /\ s_generation (t slot) = sockid_gen id /\
  slot = sockid_slot id.
Proof.
  unfold find_socket. break_if; [done|]. break_if; [done|]. intros [= <-]. bools. sock_const.
  split; [lia|]. auto.
Qed.

Lemma find_owned_spec c id t slot :
  find_owned c id t = Some slot -> find_socket id t = Some slot /\ owner_tid (t slot) = c.
Proof.
  unfold find_owned. destruct (find_socket id t); [|done]. break_if; [done|]. intros [= <-]. by bools.
Qed.

Lemma free_slot_spec t n : free_slot t = Some n -> slot_ok n /\ in_use (t n) = false.
Proof.
  unfold free_slot. intros H. apply find_first_Some in H as (Hr & Hp & _). by bools.
Qed.

(** What matters for the peer invariant. *)
Definition same_core (s s' : socket_t) : Prop :=
  conn s' = conn s /\ s_generation s' = s_generation s /\
  (conn s = true -> peer_idx s' = peer_idx s /\ peer_gen s' = peer_gen s).

Lemma peers_ext t t' :
  (forall i, same_core (t i) (t' i)) ->
  (forall i, slot_ok i -> conn (t i) = true -> peer_ok t i) ->
  forall i, slot_ok i -> conn (t' i) = true -> peer_ok t' i.
Proof.
  intros Hc Hp i Hi Hi'. destruct (Hc i) as (E1 & E2 & E3). rewrite E1 in Hi'.
  destruct (E3 Hi') as [E4 E5]. destruct (Hp i Hi Hi') as (P1 & P2 & P3 & P4).
  unfold peer_ok. rewrite E4, E5. destruct (Hc (peer_idx (t i))) as (F1 & F2 & F3).
  rewrite F1, F2, E2. split; [done|]. split; [done|]. split; [done|]. intros Hg.
  destruct (P4 Hg) as (Q1 & Q2 & Q3). destruct (F3 Q1) as [-> ->]. done.
Qed.

Lemma inv_update n t i s :
  sock_inv n t -> sock_wf s -> same_core (t i) s -> sock_inv n (<[i := s]> t).
Proof.
  intros [Hw Hg Hp] Hs Hc.
  assert (Hcore : forall j, same_core (t j) (<[i := s]> t j)).
  { intros j. destruct (decide (i = j)) as [<-|]; [by rewrite fn_lookup_insert|].
    by rewrite fn_lookup_insert_ne. }
  split.
  - intros j. destruct (decide (i = j)) as [<-|]; [by rewrite fn_lookup_insert|].
    by rewrite fn_lookup_insert_ne.
  - intros j. destruct (Hcore j) as (_ & -> & _). done.
  - by apply (peers_ext t).
Qed.

(** ** Operations and the invariant *)
Lemma state_eqb_true a b : state_eqb a b = true -> a = b.
Proof. apply bool_decide_eq_true_1. Qed.
Lemma state_eqb_refl a : state_eqb a a = true.
Proof. by apply bool_decide_eq_true_2. Qed.

(** A slot that becomes used or is reset keeps the others' peers valid. *)
Lemma create_inv n c t rc id t' :
  sock_inv n t -> sock_create c t = (rc, id, t') -> sock_inv n t'.
Proof.
  intros H. unfold sock_create. destruct (free_slot t) as [k|] eqn:Ek; [|by intros [= _ _ <-]].
  apply free_slot_spec in Ek as [Hk Hfree]. intros [= _ _ <-].
  pose proof (si_wf _ _ H k) as Hw. pose proof Hw as [W1 [W2 W3] W4 [W5 W6]].
  apply inv_update; [done| |].
  - split; rsimpl; [done| |done|]; sock_const; lia.
  - unfold same_core, conn. rsimpl. rewrite Hfree. done.
Qed.

Lemma bind_inv n c id path t rc t' :
  sock_inv n t -> sock_bind c id path t = (rc, t') -> sock_inv n t'.
Proof.
  intros H. unfold sock_bind. destruct (find_owned c id t) as [k|]; [|by intros [= _ <-]].
  break_if; [by intros [= _ <-]|]. destruct (find_first _ _); [by intros [= _ <-]|].
  generalize (<[SOCK_PATH_MAX - 1 := 0]> (copy_path (Z.to_nat SOCK_PATH_MAX) 0 path (s_path (t k)))).
  intros p [= _ <-]. apply inv_update; [done| |unfold same_core, conn; by rsimpl].
  destruct (si_wf _ _ H k) as [W1 [W2 W3] W4 [W5 W6]]. by split; rsimpl.
Qed.

Lemma listen_inv n c id t rc t' :
  sock_inv n t -> sock_listen c id t = (rc, t') -> sock_inv n t'.
Proof.
  intros H. unfold sock_listen. destruct (find_owned c id t) as [k|]; [|by intros [= _ <-]].
  break_if; [by intros [= _ <-]|]. bools. intros [= _ <-].
  destruct (si_wf _ _ H k) as [W1 [W2 W3] W4 [W5 W6]]. apply inv_update; [done| |].
  - split; rsimpl; [done| |done|]; sock_const; lia.
  - apply state_eqb_true in H1. unfold same_core, conn. rsimpl. rewrite H1.
    rewrite !andb_false_r. done.
Qed.

Lemma find_listener_spec path t l :
  find_listener path t = Some l ->
  slot_ok l /\ in_use (t l) = true /\ s_state (t l) = SOCK_LISTENING /\ has_path (t l) = true /\
  path_eq (s_path (t l)) path = true.
Proof.
  intros E. apply find_first_Some in E as (Hl & Hp & _). bools. apply state_eqb_true in H2. done.
Qed.

Lemma connect_inv n c id path t rc t' :
  sock_inv n t -> sock_connect c id path t = (rc, t') -> sock_inv n t'.
Proof.
  intros H. unfold sock_connect. destruct (find_owned c id t) as [k|] eqn:Ek; [|by intros [= _ <-]].
  apply find_owned_spec in Ek as [Ek _]. apply find_socket_spec in Ek as (Hk & Hku & _).
  destruct (s_state (t k)) eqn:Es; try by intros [= _ <-].
  destruct (find_listener path t) as [l|] eqn:El; [|by intros [= _ <-]].
  apply find_listener_spec in El as (Hl & Hlu & Hls & _).
  break_if; [by intros [= _ <-]|]. intros [= _ <-].
  assert (Hkl : l <> k) by (intros ->; congruence).
  destruct (si_wf _ _ H l) as [W1 [W2 W3] W4 [W5 W6]]. apply inv_update.
  - apply inv_update; [done| |unfold same_core, conn; by rsimpl]. split; rsimpl; [done| | |done].
    + sock_const. split; [lia|apply Z.mod_pos_bound; lia].
    + intros j. destruct (decide (backlog_tail (t l) = j)) as [<-|].
      * by rewrite fn_lookup_insert.
      * by rewrite fn_lookup_insert_ne.
  - rewrite fn_lookup_insert_ne by done. destruct (si_wf _ _ H k) as [V1 V2 V3 V4]. by split; rsimpl.
  - rewrite fn_lookup_insert_ne by done. unfold same_core, conn. rsimpl. rewrite Es.
    rewrite !andb_false_r. done.
Qed.

Lemma accept_scan_spec fuel t l c l' :
  sock_wf l -> accept_scan fuel t l = (c, l') ->
  sock_wf l' /\ same_core l l' /\
  (forall k, c = Some k -> slot_ok k /\ in_use (t k) = true /\ s_state (t k) = SOCK_CONNECTING).
Proof.
  revert l. induction fuel as [|fuel IH]; intros l Hw; cbn [accept_scan].
  { intros [= <- <-]. done. }
  break_if; [by intros [= <- <-]|]. destruct Hw as [W1 [W2 W3] W4 [W5 W6]].
  set (l1 := l <| backlog_head := _ |>).
  assert (Hw1 : sock_wf l1).
  { unfold l1. split; rsimpl; [done| |done|done]. sock_const. split; [apply Z.mod_pos_bound|]; lia. }
  assert (Hc1 : same_core l l1) by (unfold same_core, conn, l1; by rsimpl).
  break_if.
  - intros [= <- <-]. split; [done|]. split; [done|]. intros k [= <-]. bools.
    apply state_eqb_true in H0. done.
  - intros E. destruct (IH l1 Hw1 E) as (H1 & H2 & H3). split; [done|]. split; [|done].
    destruct Hc1 as (E1 & E2 & E3), H2 as (F1 & F2 & F3). unfold same_core.
    rewrite F1, F2, E1, E2. split; [done|]. split; [done|]. intros Hcn.
    destruct (E3 Hcn) as [<- <-]. apply F3. by rewrite E1.
Qed.

(** Linking two slots that were not connected. *)
Lemma link_inv n t a b sa sb :
  sock_inv n t -> slot_ok a -> slot_ok b -> a <> b ->
  conn (t a) = false -> conn (t b) = false -> sock_wf sa -> sock_wf sb ->
  s_generation sa = s_generation (t a) -> s_generation sb = s_generation (t b) ->
  conn sa = true -> conn sb = true -> peer_idx sa = b -> peer_idx sb = a ->
  peer_gen sa = s_generation sb -> peer_gen sb = s_generation sa ->
  sock_inv n (<[b := sb]> (<[a := sa]> t)).
Proof.
  intros [Hw Hg Hp] Ha Hb Hab Hca Hcb Hwa Hwb Ega Egb Csa Csb Pa Pb Ga Gb.
  assert (La : <[b := sb]> (<[a := sa]> t) a = sa)
    by (rewrite fn_lookup_insert_ne by done; by rewrite fn_lookup_insert).
  assert (Lb : <[b := sb]> (<[a := sa]> t) b = sb) by (by rewrite fn_lookup_insert).
  assert (Lo : forall j, j <> a -> j <> b -> <[b := sb]> (<[a := sa]> t) j = t j)
    by (intros j ? ?; by rewrite !fn_lookup_insert_ne by done).
  split.
  - intros i. destruct (decide (i = b)) as [->|]; [by rewrite Lb|].
    destruct (decide (i = a)) as [->|]; [by rewrite La|]. by rewrite Lo.
  - intros i. destruct (decide (i = b)) as [->|]; [rewrite Lb, Egb; apply Hg|].
    destruct (decide (i = a)) as [->|]; [rewrite La, Ega; apply Hg|]. by rewrite Lo.
  - intros i Hi Hci. unfold peer_ok.
    destruct (decide (i = b)) as [->|Hib].
    { rewrite Lb, Pb, La. split; [done|]. split; [done|]. rewrite Gb. split; [lia|]. auto. }
    destruct (decide (i = a)) as [->|Hia].
    { rewrite La, Pa, Lb. split; [done|]. split; [done|]. rewrite Ga. split; [lia|]. auto. }
    rewrite (Lo i Hia Hib) in *. destruct (Hp i Hi Hci) as (P1 & P2 & P3 & P4).
    split; [done|]. split; [done|].
    destruct (decide (peer_idx (t i) = b)) as [E|Hnb].
    { rewrite E, Lb, Egb. rewrite E in P3, P4. split; [done|]. intros Hgen.
      destruct (P4 Hgen) as [Q _]. congruence. }
    destruct (decide (peer_idx (t i) = a)) as [E|Hna].
    { rewrite E, La, Ega. rewrite E in P3, P4. split; [done|]. intros Hgen.
      destruct (P4 Hgen) as [Q _]. congruence. }
    by rewrite (Lo _ Hna Hnb).
Qed.

Lemma accept_inv n c id t rc o t' :
  sock_inv n t -> sock_accept c id t = (rc, o, t') -> sock_inv n t'.
Proof.
  intros H. unfold sock_accept. destruct (find_owned c id t) as [l|]; [|by intros [= _ _ <-]].
  destruct (state_eqb (s_state (t l)) SOCK_LISTENING) eqn:El; cbn [negb]; [|by intros [= _ _ <-]].
  apply state_eqb_true in El.
  destruct (accept_scan _ t (t l)) as [cl l'] eqn:Es.
  apply accept_scan_spec in Es as (Hw' & Hc' & Hcl); [|apply H].
  pose proof (inv_update n t l l' H Hw' Hc') as H1.
  destruct cl as [k|]; [|by intros [= _ _ <-]].
  destruct (Hcl k eq_refl) as (Hk & Hku & Hks).
  assert (Hkl : l <> k) by (intros ->; congruence).
  assert (Ek : <[l := l']> t k = t k) by (by rewrite fn_lookup_insert_ne).
  set (t1 := <[l := l']> t) in *. clearbody t1.
  destruct (free_slot t1) as [m|] eqn:Ef; [|by intros [= _ _ <-]]. intros [= _ _ <-].
  apply free_slot_spec in Ef as [Hm Hfree].
  assert (Hmk : m <> k) by (intros ->; congruence).
  pose proof (si_wf _ _ H1 m) as [W1 [W2 W3] W4 [W5 W6]].
  pose proof (si_wf _ _ H1 k) as [V1 V2 V3 V4].
  apply link_inv; rewrite ?(fn_lookup_insert_ne _ m k) by done; unfold conn; rsimpl;
    try rewrite Hfree; try rewrite Ek; try rewrite Hks, ?Hku; try done.
  - rewrite Ek in V1, V2, V3, V4. split; rsimpl; done.
  - by rewrite Hku.
Qed.

(** ** Data transfer *)
Definition sock_bytes (s : socket_t) : list Z :=
  ring_seq SOCK_RING_SIZE (s_ring s) (ring_head s) (ring_count s).

Lemma read_loop_spec fuel max n s out :
  sock_wf s -> fuel = Z.to_nat (ring_count s) -> 0 <= n ->
  exists k, k = Z.max 0 (Z.min (max - n) (ring_count s)) /\
    read_loop fuel max n s out =
    (out ++ ring_seq SOCK_RING_SIZE (s_ring s) (ring_head s) k,
     s <| ring_head := (ring_head s + k) mod SOCK_RING_SIZE |>
       <| ring_count := ring_count s - k |>).
Proof.
  intros Hw Hf Hn. eexists. split; [reflexivity|]. revert n s out Hw Hf Hn.
  induction fuel as [|fuel IH]; intros n s out Hw Hf Hn; cbn [read_loop];
    pose proof Hw as [W1 W2 W3 [W5 W6]]; sock_const.
  - replace (Z.max 0 (Z.min (max - n) (ring_count s))) with 0 by lia.
    rewrite ring_seq_nil, app_nil_r, Z.add_0_r, Z.sub_0_r, Z.mod_small by lia.
    by destruct s.
  - break_if; bools.
    + rsimpl. rewrite (u32_small (ring_head s + 1)), (u32_small (ring_count s - 1)) by lia.
      rewrite IH; rsimpl; [|split; rsimpl; sock_const|lia|lia].
      * rewrite <- app_assoc. f_equal.
        -- f_equal.
           replace (Z.max 0 (Z.min (max - n) (ring_count s)))
             with (1 + Z.max 0 (Z.min (max - (n + 1)) (ring_count s - 1))) by lia.
           rewrite (ring_seq_app 4096), ring_seq_mod by lia. f_equal.
           unfold ring_seq. simpl. by rewrite Z.add_0_r, Z.mod_small by lia.
        -- replace (Z.max 0 (Z.min (max - n) (ring_count s)))
             with (1 + Z.max 0 (Z.min (max - (n + 1)) (ring_count s - 1))) by lia.
           set (k := Z.max 0 (Z.min (max - (n + 1)) (ring_count s - 1))).
           rewrite Zplus_mod_idemp_l. rewrite Z.add_assoc, Z.sub_add_distr. done.
      * done.
      * done.
      * done.
      * split; [apply Z.mod_pos_bound|]; lia.
    + replace (Z.max 0 (Z.min (max - n) (ring_count s))) with 0 by lia.
      rewrite ring_seq_nil, app_nil_r, Z.add_0_r, Z.sub_0_r, Z.mod_small by lia.
      by destruct s.
Qed.

Lemma write_loop_spec (r : Z -> Z) tail n src :
  0 <= n -> 0 <= tail < SOCK_RING_SIZE ->
  forall x, (for_range n (fun i '(ring, tail) =>
    (<[tail := src i]> ring, u32 (tail + 1) mod SOCK_RING_SIZE)) (r, tail)).1 x =
  ring_fill SOCK_RING_SIZE r tail n src x.
Proof.
  intros Hn Ht. cut (for_range n (fun i '(ring, tail) =>
    (<[tail := src i]> ring, u32 (tail + 1) mod SOCK_RING_SIZE)) (r, tail) =
    (ring_fill SOCK_RING_SIZE r tail n src, (tail + n) mod SOCK_RING_SIZE)).
  { intros -> x. done. }
  unfold ring_fill. sock_const.
  revert n Hn. apply (natlike_ind (fun n => _)).
  - rewrite !for_range_0 by lia. by rewrite Z.add_0_r, Z.mod_small.
  - intros n Hn IH. unfold Z.succ. rewrite !for_range_S by lia. rewrite IH.
    pose proof (Z.mod_pos_bound (tail + n) 4096 ltac:(lia)).
    rewrite u32_small by lia. by rewrite Zplus_mod_idemp_l, Z.add_assoc.
Qed.

(** Two slots connected to each other. *)
Record linked (t : sockets_t) (a b : Z) : Prop := {
  lk_ok : slot_ok a /\ slot_ok b /\ a <> b;
  lk_a : conn (t a) = true /\ peer_idx (t a) = b /\ peer_gen (t a) = s_generation (t b);
  lk_b : conn (t b) = true /\ peer_idx (t b) = a /\ peer_gen (t b) = s_generation (t a)
}.

Lemma linked_sym t a b : linked t a b -> linked t b a.
Proof. intros [(H1 & H2 & H3) Ha Hb]. split; auto. Qed.

Lemma linked_core t t' a b :
  (forall i, same_core (t i) (t' i)) -> linked t a b -> linked t' a b.
Proof.
  intros Hc [H1 (A1 & A2 & A3) (B1 & B2 & B3)].
  destruct (Hc a) as (E1 & E2 & E3), (Hc b) as (F1 & F2 & F3).
  destruct (E3 A1) as [E4 E5], (F3 B1) as [F4 F5].
  split; [done|by rewrite E1, E4, E5, F2|by rewrite F1, F4, F5, E2].
Qed.

Lemma conn_true s : conn s = true -> in_use s = true /\ s_state s = SOCK_CONNECTED.
Proof. unfold conn. intros H. bools. by apply state_eqb_true in H0. Qed.

(** What an operation of one end may change: one ring, keeping the table sane. *)
Definition ring_step (t t' : sockets_t) (i : Z) : Prop :=
  (forall j, same_core (t j) (t' j)) /\ (forall j, j <> i -> t' j = t j) /\ sock_wf (t' i).

Lemma ring_step_insert t i s :
  sock_wf s -> same_core (t i) s -> ring_step t (<[i := s]> t) i.
Proof.
  intros Hw Hc. split; [|split; [|by rewrite fn_lookup_insert]].
  - intros j. destruct (decide (i = j)) as [<-|]; [by rewrite fn_lookup_insert|].
    by rewrite fn_lookup_insert_ne.
  - intros j Hj. by rewrite fn_lookup_insert_ne.
Qed.

Lemma sock_write_spec t id a b data :
  find_socket id t = Some a -> linked t a b -> sock_wf (t b) ->
  exists k t', sock_write id data (Z.of_nat (length data)) t = (IPC_ERR_NONE, Some k, t') /\
    k = Z.min (Z.of_nat (length data)) (SOCK_RING_SIZE - ring_count (t b)) /\
    ring_step t t' b /\ sock_bytes (t' b) = sock_bytes (t b) ++ take (Z.to_nat k) data.
Proof.
  intros Hf [(Ha & Hb & Hab) (A1 & A2 & A3) (B1 & _)] Hw.
  apply conn_true in A1 as [A4 A5]. apply conn_true in B1 as [B4 B5].
  pose proof Hw as [W1 W2 W3 [W5 W6]].
  unfold sock_write. rewrite Hf, A5, state_eqb_refl. cbn [negb]. unfold live_peer.
  rewrite A2, B4, A3, Z.eqb_refl. replace (b <? 0) with false by (sock_const; lia). cbn [orb negb].
  rewrite (u32_small (SOCK_RING_SIZE - _)), i32_small by (sock_const; lia).
  set (k := if _ <? _ then _ else _).
  assert (Hk : k = Z.min (Z.of_nat (length data)) (SOCK_RING_SIZE - ring_count (t b)))
    by (unfold k; sock_const; break_if; bools; lia).
  rewrite (u32_small (ring_head _ + _)), (u32_small k), u32_small by (sock_const; lia).
  set (tail := (ring_head (t b) + ring_count (t b)) mod SOCK_RING_SIZE).
  assert (Ht : 0 <= tail < SOCK_RING_SIZE) by (apply Z.mod_pos_bound; sock_const; lia).
  pose proof (write_loop_spec (s_ring (t b)) tail k (buf_at data) ltac:(sock_const; lia) Ht) as Hr.
  destruct (for_range k _ _) as [r tl]. cbn [fst] in Hr.
  eexists k, _. split; [reflexivity|]. split; [done|].
  split.
  - apply ring_step_insert; [split; rsimpl; [done..|sock_const; lia]|].
    unfold same_core, conn. by rsimpl.
  - rewrite fn_lookup_insert. unfold sock_bytes. rsimpl.     rewrite (ring_seq_ext 4096 r (ring_fill 4096 (s_ring (t b))
      (ring_head (t b) + ring_count (t b)) k (buf_at data))).
    + rewrite ring_fill_app by lia. by rewrite buf_at_seqZ by lia.
    + intros x. rewrite Hr. unfold tail. apply ring_fill_mod.
Qed.

Lemma sock_read_spec t id a max :
  find_socket id t = Some a -> conn (t a) = true -> sock_wf (t a) -> 0 <= max ->
  exists rc out t', sock_read id max t = (rc, Some out, t') /\
    ring_step t t' a /\ sock_bytes (t a) = out ++ sock_bytes (t' a) /\
    Z.of_nat (length out) = Z.min max (ring_count (t a)) /\
    rc = if (ring_count (t a) =? 0) && negb (peer_closed (t a)) then IPC_ERR_WOULDBLOCK else IPC_ERR_NONE.
Proof.
  intros Hf Hc Hw Hm. apply conn_true in Hc as [A4 A5]. pose proof Hw as [W1 W2 W3 [W5 W6]].
  unfold sock_read. rewrite Hf, A5, state_eqb_refl. cbn [negb].
  destruct (Z.eqb_spec (ring_count (t a)) 0) as [E|E].
  - eexists _, [], t. split; [reflexivity|]. split; [by split|].
    split; [done|]. rewrite E. cbn [length]. split; [lia|]. by destruct (peer_closed (t a)).
  - destruct (read_loop_spec _ max 0 (t a) [] Hw eq_refl ltac:(lia)) as (k & Hk & ->).
    eexists _, _, _. split; [reflexivity|]. cbn [app].
    pose proof (Z.mod_pos_bound (ring_head (t a) + k) SOCK_RING_SIZE ltac:(sock_const; lia)).
    split; [|split; [|split; [|done]]].
    + apply ring_step_insert; [split; rsimpl; [done..|sock_const; lia]|].
      unfold same_core, conn. by rsimpl.
    + rewrite fn_lookup_insert. unfold sock_bytes. rsimpl.
      apply ring_seq_split. lia.
    + rewrite ring_seq_length. lia.
Qed.

(** ** A connection as two streams

    Operations of the two ends; [true] is the end that owns slot [a]. *)
Inductive sock_op :=
| SWrite (side : bool) (data : list Z)
| SRead (side : bool) (max : Z).

Record traffic := mk_traffic { sent_a : list Z; got_a : list Z; sent_b : list Z; got_b : list Z }.

Fixpoint sock_run (ida idb : Z) (ops : list sock_op) (t : sockets_t) : traffic * sockets_t :=
  match ops with
  | [] => (mk_traffic [] [] [] [], t)
  | SWrite side data :: ops =>
      let '(_, k, t) := sock_write (if side then ida else idb) data (Z.of_nat (length data)) t in
      let '(tr, t) := sock_run ida idb ops t in
      let sent := take (Z.to_nat (default 0 k)) data in
      (if side then mk_traffic (sent ++ sent_a tr) (got_a tr) (sent_b tr) (got_b tr)
       else mk_traffic (sent_a tr) (got_a tr) (sent ++ sent_b tr) (got_b tr), t)
  | SRead side max :: ops =>
      let '(_, out, t) := sock_read (if side then ida else idb) max t in
      let '(tr, t) := sock_run ida idb ops t in
      let got := default [] out in
      (if side then mk_traffic (sent_a tr) (got ++ got_a tr) (sent_b tr) (got_b tr)
       else mk_traffic (sent_a tr) (got_a tr) (sent_b tr) (got ++ got_b tr), t)
  end.

Lemma find_socket_core t t' id a :
  (forall j, same_core (t j) (t' j)) -> conn (t a) = true ->
  find_socket id t = Some a -> find_socket id t' = Some a.
Proof.
  intros Hc Ha Hf. destruct (Hc a) as (E1 & E2 & _). rewrite <- E1 in Ha. apply conn_true in Ha as [Hu _].
  pose proof (find_socket_spec _ _ _ Hf) as (_ & _ & Hg & Hs). unfold find_socket in *.
  rewrite <- Hs in *. break_if; [done|]. by rewrite Hu, E2, Hg, Z.eqb_refl.
Qed.

Definition read_ok (op : sock_op) : Prop := match op with SRead _ max => 0 <= max | _ => True end.

(** Both ends are live and well-formed. *)
Definition session (ida idb a b : Z) (t : sockets_t) : Prop :=
  linked t a b /\ find_socket ida t = Some a /\ find_socket idb t = Some b /\
  sock_wf (t a) /\ sock_wf (t b).

Lemma session_step ida idb a b t t' i :
  session ida idb a b t -> ring_step t t' i -> i = a \/ i = b -> session ida idb a b t'.
Proof.
  intros (Hl & Ha & Hb & Hwa & Hwb) (Hc & Ho & Hw) Hi.
  pose proof Hl as [(_ & _ & Hab) (A1 & _) (B1 & _)].
  split; [by apply (linked_core t)|]. split; [by apply (find_socket_core t)|].
  split; [by apply (find_socket_core t)|].
  destruct Hi as [->| ->]; [split; [done|]; rewrite (Ho b) by done; done|].
  split; [rewrite (Ho a) by done; done|done].
Qed.

(** C15: A connection is two independent, lossless byte streams.  For any
    interleaving of writes and reads by the two ends of a connected pair, what
    one end sent appended to what was already buffered for the other end is
    what the other end received followed by what is still buffered, and the
    pair stays connected. *)
Theorem sock_stream ida idb a b ops t tr t' :
  session ida idb a b t -> Forall read_ok ops -> sock_run ida idb ops t = (tr, t') ->
  sock_bytes (t b) ++ sent_a tr = got_b tr ++ sock_bytes (t' b) /\
  sock_bytes (t a) ++ sent_b tr = got_a tr ++ sock_bytes (t' a) /\ session ida idb a b t'.
Proof.
  revert t tr. induction ops as [|op ops IH]; intros t tr Hs Hok; cbn [sock_run].
  { intros [= <- <-]. cbn. by rewrite !app_nil_r. }
  apply list.Forall_cons in Hok as [Hop Hok]. pose proof Hs as (Hl & Ha & Hb & Hwa & Hwb).
  pose proof Hl as [(_ & _ & Hab) (A1 & _) (B1 & _)].
  destruct op as [[|] data|[|] max].
  - destruct (sock_write_spec t ida a b data Ha Hl Hwb) as (k & t1 & -> & _ & Hst & Hby).
    destruct (sock_run ida idb ops t1) as [tr1 t2] eqn:E. intros [= <- <-].
    destruct (IH t1 tr1 (session_step _ _ _ _ _ _ _ Hs Hst (or_intror eq_refl)) Hok E) as (H1 & H2 & H3).
    destruct Hst as (_ & Ho & _). rewrite (Ho a) in H2 by done. rewrite Hby in H1. cbn.
    by rewrite app_assoc.
  - destruct (sock_write_spec t idb b a data Hb (linked_sym _ _ _ Hl) Hwa) as (k & t1 & -> & _ & Hst & Hby).
    destruct (sock_run ida idb ops t1) as [tr1 t2] eqn:E. intros [= <- <-].
    destruct (IH t1 tr1 (session_step _ _ _ _ _ _ _ Hs Hst (or_introl eq_refl)) Hok E) as (H1 & H2 & H3).
    destruct Hst as (_ & Ho & _). rewrite (Ho b) in H1 by done. rewrite Hby in H2. cbn.
    by rewrite app_assoc.
  - destruct (sock_read_spec t ida a max Ha A1 Hwa Hop) as (rc & out & t1 & -> & Hst & Hby & _).
    destruct (sock_run ida idb ops t1) as [tr1 t2] eqn:E. intros [= <- <-].
    destruct (IH t1 tr1 (session_step _ _ _ _ _ _ _ Hs Hst (or_introl eq_refl)) Hok E) as (H1 & H2 & H3).
    destruct Hst as (_ & Ho & _). rewrite (Ho b) in H1 by done. cbn.
    rewrite Hby, <- !app_assoc, H2. done.
  - destruct (sock_read_spec t idb b max Hb B1 Hwb Hop) as (rc & out & t1 & -> & Hst & Hby & _).
    destruct (sock_run ida idb ops t1) as [tr1 t2] eqn:E. intros [= <- <-].
    destruct (IH t1 tr1 (session_step _ _ _ _ _ _ _ Hs Hst (or_intror eq_refl)) Hok E) as (H1 & H2 & H3).
    destruct Hst as (_ & Ho & _). rewrite (Ho a) in H2 by done. cbn.
    rewrite Hby, <- !app_assoc, H1. done.
Qed.

(** ** Closing *)
Lemma u16_succ_small g n : 0 <= g <= n -> n < 2 ^ 16 - 1 -> u16 (g + 1) = g + 1.
Proof. intros. apply u16_small. lia. Qed.

Lemma close_inv n i t :
  sock_inv n t -> n < 2 ^ 16 - 1 -> slot_ok i -> sock_inv (n + 1) (close_slot i t).
Proof.
  intros H Hn Hi. unfold close_slot.
  set (t1 := match live_peer (t i) t with Some p => _ | None => t end).
  assert (H1 : sock_inv n t1).
  { unfold t1. destruct (live_peer (t i) t) as [p|]; [|done]. break_if; [|done].
    apply inv_update; [done| |unfold same_core, conn; by rsimpl].
    destruct (si_wf _ _ H p) as [W1 W2 W3 W4]. by split; rsimpl. }
  clearbody t1. clear H t. rename t1 into t, H1 into H.
  pose proof (si_wf _ _ H i) as [W1 W2 W3 W4]. pose proof (si_gen _ _ H i) as Hgi.
  rewrite (u16_succ_small _ n) by lia.
  set (s := (t i) <| in_use := false |> <| s_generation := s_generation (t i) + 1 |>).
  assert (Li : <[i := s]> t i = s) by (by rewrite fn_lookup_insert).
  assert (Lo : forall j, j <> i -> <[i := s]> t j = t j) by (intros; by rewrite fn_lookup_insert_ne).
  assert (Hs : conn s = false /\ s_generation s = s_generation (t i) + 1)
    by (unfold conn, s; by rsimpl).
  split.
  - intros j. destruct (decide (j = i)) as [->|]; [rewrite Li|rewrite Lo by done; apply H].
    unfold s. split; rsimpl; [lia|done..].
  - intros j. pose proof (si_gen _ _ H j).
    destruct (decide (j = i)) as [->|]; [rewrite Li; destruct Hs as [_ ->]; lia|rewrite Lo by done; lia].
  - intros j Hj Hc. destruct (decide (j = i)) as [->|Hji]; [rewrite Li in Hc; destruct Hs; congruence|].
    unfold peer_ok. rewrite (Lo j Hji) in *. destruct (si_peers _ _ H j Hj Hc) as (P1 & P2 & P3 & P4).
    split; [done|]. split; [done|].
    destruct (decide (peer_idx (t j) = i)) as [E|Hp].
    + rewrite E, Li. rewrite E in P3. destruct Hs as [_ ->]. split; [lia|]. intros. lia.
    + by rewrite (Lo _ Hp).
Qed.

Lemma sock_inv_mono n n' t : n <= n' -> sock_inv n t -> sock_inv n' t.
Proof. intros Hn [H1 H2 H3]. split; [done| |done]. intros i. specialize (H2 i). lia. Qed.

Lemma cleanup_inv n tid t :
  sock_inv n t -> n + MAX_SOCKETS < 2 ^ 16 -> sock_inv (n + MAX_SOCKETS) (sock_cleanup_for_process tid t).
Proof.
  intros H Hn. unfold sock_cleanup_for_process.
  apply (for_range_ind (fun k t => sock_inv (n + k) t)).
  - lia.
  - by rewrite Z.add_0_r.
  - intros i t1 Hi H1. break_if; [by apply (sock_inv_mono (n + i)); [lia|]|].
    rewrite Z.add_assoc. apply close_inv; [done|sock_const; lia|sock_const; lia].
Qed.

(** The system-call layer terminates every path it passes. *)
Definition path_terminated (path : Z -> Z) : Prop := exists z, 0 <= z < SOCK_PATH_MAX /\ path z = 0.

(** ** Reachable tables: [n] bounds the closes performed so far *)
Inductive sock_reach : Z -> sockets_t -> Prop :=
| sreach_init : sock_reach 0 sockets_init
| sreach_create n c t rc o t' : sock_reach n t -> sock_create c t = (rc, o, t') -> sock_reach n t'
| sreach_bind n c id path t rc t' :
    sock_reach n t -> path_terminated path -> sock_bind c id path t = (rc, t') -> sock_reach n t'
| sreach_listen n c id t rc t' : sock_reach n t -> sock_listen c id t = (rc, t') -> sock_reach n t'
| sreach_connect n c id path t rc t' :
    sock_reach n t -> sock_connect c id path t = (rc, t') -> sock_reach n t'
| sreach_accept n c id t rc o t' :
    sock_reach n t -> sock_accept c id t = (rc, o, t') -> sock_reach n t'
| sreach_read n id max t rc o t' :
    sock_reach n t -> sock_read id max t = (rc, o, t') -> sock_reach n t'
| sreach_write n id data t rc o t' :
    sock_reach n t -> sock_write id data (Z.of_nat (length data)) t = (rc, o, t') -> sock_reach n t'
| sreach_close n c id t rc t' :
    sock_reach n t -> sock_close c id t = (rc, t') -> sock_reach (n + 1) t'
| sreach_cleanup n tid t :
    sock_reach n t -> sock_reach (n + MAX_SOCKETS) (sock_cleanup_for_process tid t).

Lemma sock_init_inv : sock_inv 0 sockets_init.
Proof.
  split.
  - intros i. split; simpl; sock_const; intros; lia.
  - intros i. simpl. lia.
  - intros i _ H. discriminate H.
Qed.

Lemma ring_step_inv n t t' i : sock_inv n t -> ring_step t t' i -> sock_inv n t'.
Proof.
  intros [Hw Hg Hp] (Hc & Ho & Hi). split.
  - intros j. destruct (decide (j = i)) as [->|]; [done|]. rewrite Ho by done. apply Hw.
  - intros j. destruct (Hc j) as (_ & -> & _). apply Hg.
  - by apply (peers_ext t).
Qed.

Lemma read_inv n id max t rc o t' :
  sock_inv n t -> sock_read id max t = (rc, o, t') -> sock_inv n t'.
Proof.
  intros H. unfold sock_read. destruct (find_socket id t) as [a|]; [|by intros [= _ _ <-]].
  break_if; [by intros [= _ _ <-]|]. break_if; [by intros [= _ _ <-]|].
  pose proof (si_wf _ _ H a) as Hw. pose proof Hw as [W1 W2 W3 [W5 W6]].
  destruct (read_loop_spec _ max 0 (t a) [] Hw eq_refl ltac:(lia)) as (k & Hk & ->).
  intros [= _ _ <-]. apply inv_update; [done| |unfold same_core, conn; by rsimpl].
  pose proof (Z.mod_pos_bound (ring_head (t a) + k) SOCK_RING_SIZE ltac:(sock_const; lia)).
  split; rsimpl; [done..|sock_const; lia].
Qed.

Lemma write_inv n id data t rc o t' :
  sock_inv n t -> sock_write id data (Z.of_nat (length data)) t = (rc, o, t') -> sock_inv n t'.
Proof.
  intros H. unfold sock_write. destruct (find_socket id t) as [a|]; [|by intros [= _ _ <-]].
  break_if; [by intros [= _ _ <-]|]. destruct (live_peer (t a) t) as [p|]; [|by intros [= _ _ <-]].
  pose proof (si_wf _ _ H p) as [W1 W2 W3 [W5 W6]].
  rewrite (u32_small (SOCK_RING_SIZE - _)), i32_small by (sock_const; lia).
  set (k := if _ <? _ then _ else _).
  assert (Hk : 0 <= k <= SOCK_RING_SIZE - ring_count (t p)) by (unfold k; sock_const; break_if; bools; lia).
  destruct (for_range k _ _) as [r tl]. intros [= _ _ <-].
  apply inv_update; [done| |unfold same_core, conn; by rsimpl].
  rewrite (u32_small k), u32_small by (sock_const; lia). split; rsimpl; [done..|sock_const; lia].
Qed.

Lemma sock_reach_inv n t : sock_reach n t -> n < 2 ^ 16 -> sock_inv n t.
Proof.
  assert (Hpos : forall n t, sock_reach n t -> 0 <= n)
    by (induction 1; lia).
  induction 1 as [|n c t rc o t' _ IH E|n c id p t rc t' _ IH _ E|n c id t rc t' _ IH E
    |n c id p t rc t' _ IH E|n c id t rc o t' _ IH E|n id mx t rc o t' _ IH E
    |n id d t rc o t' _ IH E|n c id t rc t' Hr IH E|n tid t Hr IH]; intros Hn.
  - apply sock_init_inv.
  - exact (create_inv _ _ _ _ _ _ (IH Hn) E).
  - exact (bind_inv _ _ _ _ _ _ _ (IH Hn) E).
  - exact (listen_inv _ _ _ _ _ _ (IH Hn) E).
  - exact (connect_inv _ _ _ _ _ _ _ (IH Hn) E).
  - exact (accept_inv _ _ _ _ _ _ _ (IH Hn) E).
  - exact (read_inv _ _ _ _ _ _ _ (IH Hn) E).
  - exact (write_inv _ _ _ _ _ _ _ (IH Hn) E).
  - specialize (IH ltac:(lia)). revert E. unfold sock_close.
    destruct (find_owned c id t) as [i|] eqn:Ef; intros [= _ <-].
    + apply find_owned_spec in Ef as [Ef _]. apply find_socket_spec in Ef as (Hi & _).
      apply close_inv; [done|lia|done].
    + apply (sock_inv_mono n); [lia|done].
  - apply cleanup_inv; [|done]. apply IH. lia.
Qed.

(** C30: Connected sockets point at each other.  In every table reachable from
    boot with fewer than [2^16] closes (so that no generation wrapped), all
    ring and backlog indices are in range, and a connected socket whose peer's
    generation is still the recorded one has a connected peer in another slot
    that names it back: the two are [linked], so the stream theorem applies. *)
Theorem sock_peers_linked n t a :
  sock_reach n t -> n < 2 ^ 16 -> slot_ok a -> conn (t a) = true ->
  s_generation (t (peer_idx (t a))) = peer_gen (t a) ->
  linked t a (peer_idx (t a)) /\ (forall i, sock_wf (t i)).
Proof.
  intros Hr Hn Ha Hc Hg. pose proof (sock_reach_inv n t Hr Hn) as H.
  destruct (si_peers _ _ H a Ha Hc) as (P1 & P2 & P3 & P4). destruct (P4 Hg) as (Q1 & Q2 & Q3).
  split; [|apply H]. split; auto.
Qed.

(** ** Bound paths *)
Lemma path_eq_from_sym fuel i a b : path_eq_from fuel i a b = path_eq_from fuel i b a.
Proof.
  revert i. induction fuel as [|fuel IH]; intros i; cbn [path_eq_from]; [done|].
  rewrite (Z.eqb_sym (b i)). destruct (Z.eqb_spec (a i) (b i)) as [->|]; [|done]. by rewrite IH.
Qed.

Lemma path_eq_sym a b : path_eq a b = path_eq b a.
Proof. apply path_eq_from_sym. Qed.

(** Comparison looks no further than the terminator. *)
Lemma path_eq_from_ext fuel i a b b' z :
  (forall j, i <= j <= z -> b' j = b j) -> b z = 0 -> i <= z ->
  path_eq_from fuel i a b' = path_eq_from fuel i a b.
Proof.
  revert i. induction fuel as [|fuel IH]; intros i Hb Hz Hi; cbn [path_eq_from]; [done|].
  rewrite Hb by lia. destruct (Z.eqb_spec (a i) (b i)) as [E|]; [|done]. cbn [negb].
  destruct (Z.eqb_spec (a i) 0) as [|Hn]; [done|].
  assert (i <> z) by (intros ->; congruence). apply IH; [intros; apply Hb; lia|done|lia].
Qed.

Lemma copy_path_spec fuel i path dst z :
  i <= z < i + Z.of_nat fuel -> path z = 0 -> (forall j, i <= j < z -> path j <> 0) ->
  forall j, copy_path fuel i path dst j = if (i <=? j) && (j <=? z) then path j else dst j.
Proof.
  revert i dst. induction fuel as [|fuel IH]; intros i dst Hi Hz Hnz j; cbn [copy_path]; [lia|].
  destruct (Z.eqb_spec (path i) 0) as [E|E].
  - assert (i = z) as -> by (destruct (decide (i = z)); [done|]; specialize (Hnz i); lia).
    destruct (decide (j = z)) as [->|].
    + rewrite fn_lookup_insert. by replace ((z <=? z) && (z <=? z)) with true by lia.
    + rewrite fn_lookup_insert_ne by done. by replace ((z <=? j) && (j <=? z)) with false by lia.
  - assert (i <> z) by (intros ->; done).
    rewrite IH; [|lia|done|intros; apply Hnz; lia].
    destruct (decide (j = i)) as [->|].
    + replace ((i + 1 <=? i) && (i <=? z)) with false by lia. rewrite fn_lookup_insert.
      by replace ((i <=? i) && (i <=? z)) with true by lia.
    + rewrite fn_lookup_insert_ne by done.
      by replace (i + 1 <=? j) with (i <=? j) by lia.
Qed.

Lemma first_nul path : path_terminated path ->
  exists z, 0 <= z < SOCK_PATH_MAX /\ path z = 0 /\ forall j, 0 <= j < z -> path j <> 0.
Proof.
  intros (z0 & Hz0 & E0).
  destruct (find_first SOCK_PATH_MAX (fun i => path i =? 0)) as [z|] eqn:E.
  - apply find_first_Some in E as (Hz & Ez & Hnz). exists z. split; [done|]. split; [lia|].
    intros j Hj. specialize (Hnz j Hj). lia.
  - rewrite find_first_None in E. specialize (E z0 Hz0). lia.
Qed.

(** The stored path compares like the argument. *)
Lemma bind_path path dst a : path_terminated path ->
  path_eq a (<[SOCK_PATH_MAX - 1 := 0]> (copy_path (Z.to_nat SOCK_PATH_MAX) 0 path dst)) = path_eq a path.
Proof.
  intros Ht. destruct (first_nul path Ht) as (z & Hz & Ez & Hnz). unfold path_eq.
  apply (path_eq_from_ext _ _ _ _ _ z); [|done|lia]. intros j Hj.
  pose proof (copy_path_spec (Z.to_nat SOCK_PATH_MAX) 0 path dst z) as Hc.
    destruct (decide (j = 31)) as [->|].
  - rewrite fn_lookup_insert. assert (z = 31) as -> by lia. done.
  - rewrite fn_lookup_insert_ne by lia. rewrite Hc by (done || lia).
    by replace ((0 <=? j) && (j <=? z)) with true by lia.
Qed.

Definition bound (s : socket_t) : bool := in_use s && has_path s.
Definition paths_unique (t : sockets_t) : Prop :=
  forall i j, slot_ok i -> slot_ok j -> i <> j -> bound (t i) = true -> bound (t j) = true ->
  path_eq (s_path (t i)) (s_path (t j)) = false.

(** An operation that binds nothing new. *)
Definition path_core (s s' : socket_t) : Prop :=
  bound s' = true -> bound s = true /\ s_path s' = s_path s.

Lemma paths_unique_core t t' :
  (forall i, path_core (t i) (t' i)) -> paths_unique t -> paths_unique t'.
Proof.
  intros Hc Hu i j Hi Hj Hij Hbi Hbj. destruct (Hc i Hbi) as [H1 ->], (Hc j Hbj) as [H2 ->].
  by apply Hu.
Qed.

Lemma path_core_insert (t : sockets_t) i s j : path_core (t i) s -> path_core (t j) (<[i := s]> t j).
Proof.
  intros H. destruct (decide (i = j)) as [<-|]; [by rewrite fn_lookup_insert|].
  rewrite fn_lookup_insert_ne by done. by intros ?.
Qed.

Lemma path_core_trans s1 s2 s3 : path_core s1 s2 -> path_core s2 s3 -> path_core s1 s3.
Proof. intros H1 H2 Hb. destruct (H2 Hb) as [Hb2 ->]. by apply H1. Qed.

Lemma accept_scan_path fuel t l c l' : accept_scan fuel t l = (c, l') -> path_core l l'.
Proof.
  revert l. induction fuel as [|fuel IH]; intros l; cbn [accept_scan]; [by intros [= <- <-]|].
  break_if; [by intros [= <- <-]|]. break_if; [intros [= <- <-]|intros E; apply IH in E; revert E];
    unfold path_core, bound; by rsimpl.
Qed.

Lemma close_path i t j : path_core (t j) (close_slot i t j).
Proof.
  unfold close_slot. set (t1 := match live_peer (t i) t with Some p => _ | None => t end).
  assert (H1 : forall j, path_core (t j) (t1 j)).
  { intros k. unfold t1. destruct (live_peer (t i) t); [|by intros ?]. break_if; [|by intros ?].
    apply path_core_insert. unfold path_core, bound. by rsimpl. }
  apply (path_core_trans _ (t1 j)); [apply H1|]. apply path_core_insert.
  unfold path_core, bound. by rsimpl.
Qed.

Ltac path_solve := unfold path_core, bound; rsimpl; (done || by rewrite ?andb_false_r).

Lemma accept_path c id t rc o t' :
  sock_accept c id t = (rc, o, t') -> forall j, path_core (t j) (t' j).
Proof.
  unfold sock_accept. destruct (find_owned c id t) as [l|]; [|by intros [= _ _ <-] j ?].
  break_if; [by intros [= _ _ <-] j ?|].
  destruct (accept_scan _ t (t l)) as [cl l'] eqn:Es. apply accept_scan_path in Es.
  assert (H1 : forall j, path_core (t j) (<[l := l']> t j)) by (intros; by apply path_core_insert).
  set (t1 := <[l := l']> t) in *. clearbody t1.
  destruct cl as [k|]; [|by intros [= _ _ <-]]. destruct (free_slot t1); [|by intros [= _ _ <-]].
  intros [= _ _ <-] j. eapply path_core_trans; [apply H1|].
  eapply path_core_trans; [|apply path_core_insert; path_solve].
  apply path_core_insert. path_solve.
Qed.

Lemma bind_paths c id p t rc t' :
  path_terminated p -> sock_bind c id p t = (rc, t') -> paths_unique t -> paths_unique t'.
Proof.
  intros Hp E IH. revert E. unfold sock_bind.
  destruct (find_owned c id t) as [k|]; [|by intros [= _ <-]].
  break_if; [by intros [= _ <-]|]. destruct (find_first _ _) eqn:Ef; [by intros [= _ <-]|].
  rewrite find_first_None in Ef. cbv zeta.
  pose proof (fun a => bind_path p (s_path (t k)) a Hp) as Hst. revert Hst.
  generalize (<[SOCK_PATH_MAX - 1 := 0]> (copy_path (Z.to_nat SOCK_PATH_MAX) 0 p (s_path (t k)))).
  intros q Hst [= _ <-].
  assert (Hnew : forall j, slot_ok j -> bound (t j) = true -> path_eq (s_path (t j)) p = false).
  { intros j Hj Hb. specialize (Ef j Hj). unfold bound in Hb. by rewrite Hb in Ef. }
  intros i j Hi Hj Hij. destruct (decide (k = i)) as [<-|Hki].
  - rewrite fn_lookup_insert, fn_lookup_insert_ne by exact Hij. rsimpl. intros _ Hbj.
    rewrite path_eq_sym, Hst. auto.
  - rewrite (fn_lookup_insert_ne _ k i) by exact Hki. destruct (decide (k = j)) as [<-|Hkj].
    + rewrite fn_lookup_insert. rsimpl. intros Hbi _. rewrite Hst. auto.
    + rewrite fn_lookup_insert_ne by exact Hkj. by apply IH.
Qed.

Lemma read_loop_path fuel mx n s out o s' : read_loop fuel mx n s out = (o, s') -> path_core s s'.
Proof.
  revert n s out. induction fuel as [|fuel IH]; intros n s out; cbn [read_loop];
    [by intros [= _ <-] ?|].
  break_if; [|by intros [= _ <-] ?]. intros E%IH. revert E. unfold path_core, bound. by rsimpl.
Qed.

Lemma connect_path c id p t rc t' : sock_connect c id p t = (rc, t') -> forall j, path_core (t j) (t' j).
Proof.
  unfold sock_connect. destruct (find_owned c id t) as [k|]; [|by intros [= _ <-] i ?].
  destruct (s_state (t k)); try by intros [= _ <-] i ?.
  destruct (find_listener p t) as [l|]; [|by intros [= _ <-] i ?].
  break_if; [by intros [= _ <-] i ?|].
  intros [= _ <-] i. eapply path_core_trans; [|apply path_core_insert; path_solve].
  apply path_core_insert. path_solve.
Qed.

Lemma traffic_path n id mx (d : list Z) t :
  (forall j, path_core (t j) ((sock_read id mx t).2 j)) /\
  (forall j, path_core (t j) ((sock_write id d n t).2 j)).
Proof.
  split; intros j.
  - unfold sock_read. destruct (find_socket id t) as [k|]; [|by intros ?].
    break_if; [by intros ?|]. break_if; [by intros ?|].
    destruct (read_loop _ _ _ _ _) as [o2 s2] eqn:El.
    apply path_core_insert. by apply read_loop_path in El.
  - unfold sock_write. destruct (find_socket id t) as [k|]; [|by intros ?].
    break_if; [by intros ?|]. destruct (live_peer (t k) t); [|by intros ?].
    destruct (for_range _ _ _) as [r tl]. apply path_core_insert. path_solve.
Qed.

Lemma sock_reach_paths n t : sock_reach n t -> paths_unique t.
Proof.
  induction 1 as [|n c t rc o t' _ IH E|n c id p t rc t' _ IH Hp E|n c id t rc t' _ IH E
    |n c id p t rc t' _ IH E|n c id t rc o t' _ IH E|n id mx t rc o t' _ IH E
    |n id d t rc o t' _ IH E|n c id t rc t' Hr IH E|n tid t Hr IH];
    [| |by apply (bind_paths c id p t rc t')|..]; [|apply (paths_unique_core t); [|exact IH]..].
  - intros i j _ _ _ Hb. discriminate Hb.
  - revert E. unfold sock_create.
    destruct (free_slot t); intros [= _ _ <-] i; [|by intros ?]. apply path_core_insert. path_solve.
  - revert E. unfold sock_listen.
    destruct (find_owned c id t); [|by intros [= _ <-] i ?]. break_if; [by intros [= _ <-] i ?|].
    intros [= _ <-] i. apply path_core_insert. path_solve.
  - exact (connect_path c id p t rc t' E).
  - exact (accept_path c id t rc o t' E).
  - intros j. pose proof (proj1 (traffic_path 0 id mx [] t) j) as H. by rewrite E in H.
  - intros j. pose proof (proj2 (traffic_path (Z.of_nat (length d)) id 0 d t) j) as H. by rewrite E in H.
  - revert E. unfold sock_close.
    destruct (find_owned c id t); intros [= _ <-] j; [apply close_path|by intros ?].
  - unfold sock_cleanup_for_process.
    apply (for_range_ind (fun _ t' => forall j, path_core (t j) (t' j))); [lia|by intros j ?|].
    intros i t1 _ H1 j. break_if; [done|]. eapply path_core_trans; [apply H1|apply close_path].
Qed.

(** C31: At most one live socket is bound to a path, so a connection request
    names a single listener: in every reachable table, two different bound
    sockets have different paths, and [sock_bind] refuses a path in use. *)
Theorem sock_paths_unique n t c id path slot :
  sock_reach n t -> path_terminated path -> find_owned c id t = Some slot ->
  s_state (t slot) = SOCK_UNBOUND ->
  paths_unique t /\
  ((sock_bind c id path t).1 = IPC_ERR_EXISTS <->
   exists i, slot_ok i /\ bound (t i) = true /\ path_eq (s_path (t i)) path = true).
Proof.
  intros Hr Hp Hf Hs. split; [exact (sock_reach_paths n t Hr)|].
  unfold sock_bind. rewrite Hf, Hs, state_eqb_refl. cbn [negb].
  destruct (find_first _ _) as [i|] eqn:E; cbn [fst].
  - apply find_first_Some in E as (Hi & Hb & _). bools. split; [|done]. intros _.
    exists i. split; [done|]. unfold bound. by rewrite H, H1.
  - rewrite find_first_None in E. split; [done|]. intros (i & Hi & Hb & He).
    specialize (E i Hi). unfold bound in Hb. by rewrite Hb, He in E.
Qed.

(** ** Examples *)
Definition demo_path : Z -> Z := fun i => if i <? 3 then 97 + i else 0.

(** A server binds and listens, a client connects, the server accepts. *)
Definition demo_sockets : sockets_t :=
  let '(_, _, t) := sock_create 1 sockets_init in
  let '(_, t) := sock_bind 1 0 demo_path t in
  let '(_, t) := sock_listen 1 0 t in
  let '(_, _, t) := sock_create 2 t in
  let '(_, t) := sock_connect 2 1 demo_path t in
  let '(_, _, t) := sock_accept 1 0 t in t.

Lemma demo_sockets_reach : sock_reach 0 demo_sockets.
Proof.
  unfold demo_sockets.
  destruct (sock_create 1 sockets_init) as [[r1 o1] t1] eqn:E1.
  destruct (sock_bind 1 0 demo_path t1) as [r2 t2] eqn:E2.
  destruct (sock_listen 1 0 t2) as [r3 t3] eqn:E3.
  destruct (sock_create 2 t3) as [[r4 o4] t4] eqn:E4.
  destruct (sock_connect 2 1 demo_path t4) as [r5 t5] eqn:E5.
  destruct (sock_accept 1 0 t5) as [[r6 o6] t6] eqn:E6.
  eapply sreach_accept; [|exact E6]. eapply sreach_connect; [|exact E5].
  eapply sreach_create; [|exact E4]. eapply sreach_listen; [|exact E3].
  eapply sreach_bind; [| |exact E2]; [|exists 3; split; [lia|reflexivity]]. eapply sreach_create; [|exact E1]. apply sreach_init.
Qed.

Lemma sock_peers_linked_witness : linked demo_sockets 1 2.
Proof.
  change 2 with (peer_idx (demo_sockets 1)) at 1.
  refine (proj1 (sock_peers_linked 0 demo_sockets 1 demo_sockets_reach _ _ _ _));
    [lia|sock_const; lia|vm_compute; reflexivity|vm_compute; reflexivity].
Defined.

Lemma sock_stream_witness :
  let '(tr, t') := sock_run 1 2 [SWrite true [10; 11]; SWrite false [20]; SRead false 1; SRead true 5]
                     demo_sockets in
  got_b tr = [10] /\ got_a tr = [20] /\ [10; 11] = got_b tr ++ sock_bytes (t' 2).
Proof.
  destruct (sock_run 1 2 [SWrite true [10; 11]; SWrite false [20]; SRead false 1; SRead true 5]
    demo_sockets) as [tr t'] eqn:E.
  assert (Hs : session 1 2 1 2 demo_sockets).
  { pose proof (sock_reach_inv 0 _ demo_sockets_reach ltac:(lia)) as H.
    split; [|split; [vm_compute; reflexivity|split; [vm_compute; reflexivity|split; apply H]]].
    split; [sock_const; lia|vm_compute; auto|vm_compute; auto]. }
  destruct (sock_stream 1 2 1 2
    [SWrite true [10; 11]; SWrite false [20]; SRead false 1; SRead true 5] demo_sockets tr t' Hs)
    as (H & _ & _); [|exact E|].
  { repeat (apply Forall_cons_2; [cbn; (exact I || lia)|]). apply Forall_nil_2. }
  assert (Et : tr = mk_traffic [10; 11] [20] [20] [10]).
  { change tr with (tr, t').1. rewrite <- E. vm_compute. reflexivity. }
  split; [by rewrite Et|]. split; [by rewrite Et|]. rewrite Et in *. exact H.
Defined.

(** Slot 0 is bound to the path; another socket cannot take it. *)
Lemma sock_paths_unique_witness :
  let t := (sock_create 3 demo_sockets).2 in (sock_bind 3 3 demo_path t).1 = IPC_ERR_EXISTS.
Proof.
  intros t. destruct (sock_paths_unique 0 t 3 3 demo_path 3) as [_ H].
  - unfold t. destruct (sock_create 3 demo_sockets) as [[r o] t'] eqn:E.
    eapply sreach_create; [apply demo_sockets_reach|exact E].
  - exists 3. split; [lia|reflexivity].
  - vm_compute. reflexivity.
  - vm_compute. reflexivity.
  - apply H. exists 0. split; [sock_const; lia|]. split; vm_compute; reflexivity.
Defined.

(** When the table is full, [sock_accept] has already removed the client from
    the backlog: the client stays in the connecting state and no later accept
    can find it. *)
Definition demo_full : sockets_t :=
  let '(_, _, t) := sock_create 1 sockets_init in
  let '(_, t) := sock_bind 1 0 demo_path t in
  let '(_, t) := sock_listen 1 0 t in
  let '(_, _, t) := sock_create 2 t in
  let '(_, t) := sock_connect 2 1 demo_path t in
  for_range 30 (fun _ t => (sock_create 9 t).2) t.

Lemma accept_loses_client :
  let '(r1, o1, t1) := sock_accept 1 0 demo_full in
  let t2 := (sock_close 9 2 t1).2 in
  let '(r3, _, t3) := sock_accept 1 0 t2 in
  r1 = IPC_ERR_NO_SPACE /\ r3 = IPC_ERR_WOULDBLOCK /\
  s_state (t3 1) = SOCK_CONNECTING /\ (sock_connect 2 1 demo_path t3).1 = IPC_ERR_WOULDBLOCK.
Proof. vm_compute. auto. Qed.
