(* ===== verification/Shm.v ===== *)
(** * Shared-memory segments ([src/src/core/shm.c])

    A table of 32 segments and a table of 64 attachments.  A segment owns an
    array of frames in the kernel heap; an attachment maps the frames into an
    address space at the first address above its other attachments.  The
    theorems show that the attach count of a segment is the number of its
    attachments, that a removed segment is kept until its last detach, that
    attachments of one address space never overlap, and what [shm_copy_out]
    copies. *)
From Stdlib Require Import ZArith Lia.
From stdpp Require Import base numbers sets list list_numbers functions.
From S2P Require Import Prelude Abi Memory Pmm Kheap Untyped PageTable.

Notation MAX_SHM_SEGMENTS := (32)%Z (only parsing).
Notation MAX_SHM_ATTACHES := (64)%Z (only parsing).
Notation SHM_MAX_SEGMENT_PAGES := (4096)%Z (only parsing).

Record shm_segment_t := mk_segment {
  sg_in_use : bool;
  sg_key : Z;
  sg_generation : Z;
  sg_size : Z;
  sg_npages : Z;
  sg_frames : Z;
  sg_nattch : Z;
  sg_marked_rmid : bool;
  sg_cpid : Z;
  sg_lpid : Z;
  sg_atime : Z;
  sg_dtime : Z;
  sg_ctime : Z;
  sg_mode_bits : Z
}.
#[export] Instance eta_segment : Eta shm_segment_t := fun s =>
  mk_segment (sg_in_use s) (sg_key s) (sg_generation s) (sg_size s) (sg_npages s) (sg_frames s)
    (sg_nattch s) (sg_marked_rmid s) (sg_cpid s) (sg_lpid s) (sg_atime s) (sg_dtime s) (sg_ctime s)
    (sg_mode_bits s).

Record shm_attach_t := mk_attach {
  at_in_use : bool;
  at_shmid : Z;
  at_address_space : Z;
  at_va : Z;
  at_npages : Z
}.
#[export] Instance eta_attach : Eta shm_attach_t := fun a =>
  mk_attach (at_in_use a) (at_shmid a) (at_address_space a) (at_va a) (at_npages a).

(** The kernel's memory: the machine, the kernel heap, and the two tables. *)
Record kmem := mk_kmem {
  mc : mach;
  kh : kheap;
  segments : Z -> shm_segment_t;
  attaches : Z -> shm_attach_t
}.
#[export] Instance eta_kmem : Eta kmem := fun k => mk_kmem (mc k) (kh k) (segments k) (attaches k).

Definition segments_init : Z -> shm_segment_t :=
  fun _ => mk_segment false 0 0 0 0 0 0 false 0 0 0 0 0 0.
Definition attaches_init : Z -> shm_attach_t := fun _ => mk_attach false 0 0 0 0.

Definition make_shmid (slot generation : Z) : Z := i32 (Z.lor slot (u32 (Z.shiftl generation 8))).
Definition shmid_slot (shmid : Z) : Z := Z.land shmid 0xFF.
Definition shmid_gen (shmid : Z) : Z := u16 (Z.shiftr (u32 shmid) 8).

(** The slot of a live identifier ([None] for NULL). *)
Definition find_segment (shmid : Z) (t : Z -> shm_segment_t) : option Z :=
  let slot := shmid_slot shmid in
  if (slot <? 0) || (slot >=? MAX_SHM_SEGMENTS) then None
  else if negb (sg_in_use (t slot)) || negb (sg_generation (t slot) =? shmid_gen shmid) then None
  else Some slot.

(** [kfree] and [pmm_free] on the composed memory. *)
Definition kfree_m (ptr : Z) (k : kmem) : kmem :=
  let '(h, r) := kfree ptr (kh k) (ram (mc k)) in
  k <| mc := (mc k) <| ram := r |> |> <| kh := h |>.
Definition kmalloc_m (n : Z) (k : kmem) : Z * kmem :=
  let '(p, h, r) := kmalloc n (kh k) (ram (mc k)) in
  (p, k <| mc := (mc k) <| ram := r |> |> <| kh := h |>).

Definition free_segment_frames (slot : Z) (k : kmem) : kmem :=
  let s := segments k slot in
  let k := for_range (sg_npages s) (fun i k =>
    let f := ldw (ram (mc k)) (sg_frames s) i in
    if tru f then k <| mc := pmm_free_m f (mc k) |> else k) k in
  let k := kfree_m (sg_frames s) k in
  k <| segments := <[slot := s <| sg_frames := 0 |> <| sg_in_use := false |>
                            <| sg_generation := u16 (sg_generation s + 1) |>]> (segments k) |>.

(** The allocation loop of [shm_get], with its roll-back. *)
Definition shm_alloc_frames (frames npages : Z) (k : kmem) : kmem * bool :=
  for_try npages (fun i k =>
    let '(f, m) := pmm_alloc_m PMM_COLOR_ANY (mc k) in
    if f =? 0 then
      let m := for_range i (fun j m => pmm_free_m (ldw (ram m) frames j) m) m in
      (kfree_m frames (k <| mc := m |>), false)
    else
      let r := memset (ram m) f 0 PAGE_SIZE_4K in
      (k <| mc := m <| ram := stw r frames i f |> |>, true)) k.

(** The creation half of [shm_get]. *)
Definition shm_create (now caller key size shmflg : Z) (k : kmem) : Z * option Z * kmem :=
  if size =? 0 then (IPC_ERR_INVALID, None, k)
  else
    let npages := u64 (size + PAGE_SIZE_4K - 1) / PAGE_SIZE_4K in
    if npages >? SHM_MAX_SEGMENT_PAGES then (IPC_ERR_INVALID, None, k)
    else match find_first MAX_SHM_SEGMENTS (fun i => negb (sg_in_use (segments k i))) with
    | None => (IPC_ERR_NO_SPACE, None, k)
    | Some slot =>
        let '(frames, k) := kmalloc_m (npages * 8) k in
        if frames =? 0 then (IPC_ERR_NO_MEM, None, k)
        else
          let '(k, ok) := shm_alloc_frames frames npages k in
          if negb ok then (IPC_ERR_NO_MEM, None, k)
          else
            let s := segments k slot in
            let s := mk_segment true key (sg_generation s) size npages frames 0 false caller caller
                       0 0 now (Z.land shmflg 0x1FF) in
            (IPC_ERR_NONE, Some (make_shmid slot (sg_generation s)),
             k <| segments := <[slot := s]> (segments k) |>)
    end.

Definition shm_get (now caller key size shmflg : Z) (k : kmem) : Z * option Z * kmem :=
  if tru key then
    match find_first MAX_SHM_SEGMENTS (fun i =>
            sg_in_use (segments k i) && negb (sg_marked_rmid (segments k i)) &&
            (sg_key (segments k i) =? key)) with
    | Some i =>
        if has shmflg SHM_IPC_CREAT && has shmflg SHM_IPC_EXCL then (IPC_ERR_EXISTS, None, k)
        else if tru size && (size >? sg_size (segments k i)) then (IPC_ERR_INVALID, None, k)
        else (IPC_ERR_NONE, Some (make_shmid i (sg_generation (segments k i))), k)
    | None =>
        if negb (has shmflg SHM_IPC_CREAT) then (IPC_ERR_NOT_FOUND, None, k)
        else shm_create now caller key size shmflg k
    end
  else shm_create now caller key size shmflg k.

(** The first address above the caller's attachments. *)
Definition shm_pick_va (address_space : Z) (t : Z -> shm_attach_t) : Z :=
  for_range MAX_SHM_ATTACHES (fun i va =>
    if at_in_use (t i) && (at_address_space (t i) =? address_space) then
      let e := u64 (at_va (t i) + u64 (at_npages (t i) * PAGE_SIZE_4K)) in
      if e >? va then e else va
    else va) SHM_USER_VA_BASE.

Definition shm_at (now caller address_space shmid shmflg : Z) (k : kmem) : Z * option Z * kmem :=
  match find_segment shmid (segments k) with
  | None => (IPC_ERR_NOT_FOUND, None, k)
  | Some sl =>
      let s := segments k sl in
      let va := shm_pick_va address_space (attaches k) in
      match find_first MAX_SHM_ATTACHES (fun i => negb (at_in_use (attaches k i))) with
      | None => (IPC_ERR_NO_SPACE, None, k)
      | Some slot =>
          let prot := Z.lor VM_PROT_READ VM_PROT_USER in
          let prot := if negb (has shmflg SHM_FLAG_RDONLY) then Z.lor prot VM_PROT_WRITE else prot in
          let '(m, ok) := for_try (sg_npages s) (fun i m =>
            let '(rc, m) := arch_vm_map_page address_space (u64 (va + i * PAGE_SIZE_4K))
                              (ldw (ram m) (sg_frames s) i) prot m in
            if negb (rc =? 0) then
              (for_range i (fun j m =>
                 (arch_vm_unmap_page address_space (u64 (va + j * PAGE_SIZE_4K)) m).2) m, false)
            else (m, true)) (mc k) in
          let k := k <| mc := m |> in
          if negb ok then (IPC_ERR_NO_MEM, None, k)
          else
            let k := k <| attaches :=
              <[slot := mk_attach true shmid address_space va (sg_npages s)]> (attaches k) |> in
            let s := s <| sg_nattch := u32 (sg_nattch s + 1) |> <| sg_lpid := caller |>
                       <| sg_atime := now |> in
            (IPC_ERR_NONE, Some va, k <| segments := <[sl := s]> (segments k) |>)
      end
  end.

(** Unmapping the pages of attachment [i] and dropping it. *)
Definition shm_unmap (i : Z) (k : kmem) : kmem :=
  let a := attaches k i in
  let m := for_range (at_npages a) (fun j m =>
    (arch_vm_unmap_page (at_address_space a) (u64 (at_va a + j * PAGE_SIZE_4K)) m).2) (mc k) in
  k <| mc := m |> <| attaches := <[i := a <| at_in_use := false |>]> (attaches k) |>.

(** The reference drop at the end of a detach; [touch] updates [dtime]. *)
Definition shm_put (touch : shm_segment_t -> shm_segment_t) (s : option Z) (k : kmem) : kmem :=
  match s with
  | None => k
  | Some sl =>
      let s := segments k sl in
      let s := touch (s <| sg_nattch := u32 (sg_nattch s - 1) |>) in
      let k := k <| segments := <[sl := s]> (segments k) |> in
      if (sg_nattch s =? 0) && sg_marked_rmid s then free_segment_frames sl k else k
  end.

Definition shm_dt (now address_space shmaddr : Z) (k : kmem) : Z * kmem :=
  match find_first MAX_SHM_ATTACHES (fun i =>
          at_in_use (attaches k i) && (at_address_space (attaches k i) =? address_space) &&
          (at_va (attaches k i) =? shmaddr)) with
  | None => (IPC_ERR_NOT_FOUND, k)
  | Some i =>
      let s := find_segment (at_shmid (attaches k i)) (segments k) in
      (IPC_ERR_NONE, shm_put (fun s => s <| sg_dtime := now |>) s (shm_unmap i k))
  end.

Definition shm_ctl (shmid cmd : Z) (k : kmem) : Z * list Z * kmem :=
  match find_segment shmid (segments k) with
  | None => (IPC_ERR_NOT_FOUND, [], k)
  | Some sl =>
      let s := segments k sl in
      if cmd =? SHM_IPC_STAT then
        (IPC_ERR_NONE,
         [sg_size s; sg_nattch s; Z.lor (u32 (sg_cpid s)) (Z.shiftl (u32 (sg_lpid s)) 32);
          Z.lor (sg_mode_bits s) (Z.shiftl (if sg_marked_rmid s then 1 else 0) 16);
          sg_atime s; sg_dtime s], k)
      else if cmd =? SHM_IPC_RMID then
        let k := k <| segments := <[sl := s <| sg_marked_rmid := true |>]> (segments k) |> in
        (IPC_ERR_NONE, [], if sg_nattch s =? 0 then free_segment_frames sl k else k)
      else (IPC_ERR_INVALID, [], k)
  end.

(** The copy loop of [shm_copy_out]: the bytes written so far. *)
Fixpoint copy_out_loop (fuel : nat) (i npages total frames : Z) (m : mem) (out : list Z) : list Z :=
  match fuel with
  | O => out
  | S fuel =>
      let copied := Z.of_nat (length out) in
      if (i <? npages) && (copied <? total) then
        let chunk := total - copied in
        let chunk := if chunk >? PAGE_SIZE_4K then PAGE_SIZE_4K else chunk in
        copy_out_loop fuel (i + 1) npages total frames m
          (out ++ ((fun j => m (ldw m frames i + j)) <$> seqZ 0 chunk))
      else out
  end.

Definition shm_copy_out (shmid max_len : Z) (k : kmem) : Z * list Z :=
  match find_segment shmid (segments k) with
  | None => (IPC_ERR_NOT_FOUND, [])
  | Some sl =>
      let s := segments k sl in
      let total := if sg_size s <? max_len then sg_size s else max_len in
      (IPC_ERR_NONE,
       copy_out_loop (Z.to_nat (sg_npages s) + 1) 0 (sg_npages s) total (sg_frames s) (ram (mc k)) [])
  end.

Definition shm_detach_all_for_process (address_space : Z) (k : kmem) : kmem :=
  for_range MAX_SHM_ATTACHES (fun i k =>
    if at_in_use (attaches k i) && (at_address_space (attaches k i) =? address_space) then
      let s := find_segment (at_shmid (attaches k i)) (segments k) in
      shm_put (fun s => s) s (shm_unmap i k)
    else k) k.

(** ** Specification *)

(** The attachments that name segment [sl]. *)
Definition att_of (t : Z -> shm_attach_t) (sl a : Z) : bool :=
  at_in_use (t a) && (shmid_slot (at_shmid (t a)) =? sl).
Definition refs (t : Z -> shm_attach_t) (sl : Z) : Z := count MAX_SHM_ATTACHES (att_of t sl).

Definition seg_slot (sl : Z) : Prop := 0 <= sl < MAX_SHM_SEGMENTS.
Definition att_slot (a : Z) : Prop := 0 <= a < MAX_SHM_ATTACHES.
Definition att_end (a : shm_attach_t) : Z := at_va a + at_npages a * PAGE_SIZE_4K.

(** [n] bounds the number of attachments made so far. *)
Record shm_core (n : Z) (seg : Z -> shm_segment_t) (att : Z -> shm_attach_t) : Prop := {
  inv_att a : att_slot a -> at_in_use (att a) = true ->
    exists sl, find_segment (at_shmid (att a)) seg = Some sl /\ at_npages (att a) = sg_npages (seg sl);
  inv_ref sl : seg_slot sl -> sg_in_use (seg sl) = true -> sg_nattch (seg sl) = refs att sl;
  inv_size sl : seg_slot sl -> sg_in_use (seg sl) = true ->
    1 <= sg_npages (seg sl) <= SHM_MAX_SEGMENT_PAGES /\
    1 <= sg_size (seg sl) <= sg_npages (seg sl) * PAGE_SIZE_4K;
  inv_va a : att_slot a -> at_in_use (att a) = true ->
    SHM_USER_VA_BASE <= at_va (att a) /\ att_end (att a) <= SHM_USER_VA_BASE + n * 2 ^ 24;
  inv_disj a b : att_slot a -> att_slot b -> a <> b ->
    at_in_use (att a) = true -> at_in_use (att b) = true ->
    at_address_space (att a) = at_address_space (att b) ->
    att_end (att a) <= at_va (att b) \/ att_end (att b) <= at_va (att a)
}.

(** A segment marked for removal is still attached. *)
Definition rm_ok (seg : Z -> shm_segment_t) : Prop := forall sl,
  seg_slot sl -> sg_in_use (seg sl) = true -> sg_marked_rmid (seg sl) = true -> sg_nattch (seg sl) <> 0.

(** Reachable states.  Between two calls the rest of the kernel may do anything
    to memory and the heap. *)
Inductive shm_reach : Z -> kmem -> Prop :=
| shr_init m h : shm_reach 0 (mk_kmem m h segments_init attaches_init)
| shr_mem n k m h : shm_reach n k -> shm_reach n (k <| mc := m |> <| kh := h |>)
| shr_get n k now caller key size flg rc o k' :
    shm_reach n k -> 0 <= size < 2 ^ 64 -> shm_get now caller key size flg k = (rc, o, k') ->
    shm_reach n k'
| shr_at n k now caller as_ id flg rc o k' :
    shm_reach n k -> shm_at now caller as_ id flg k = (rc, o, k') -> shm_reach (n + 1) k'
| shr_dt n k now as_ va rc k' :
    shm_reach n k -> shm_dt now as_ va k = (rc, k') -> shm_reach n k'
| shr_ctl n k id cmd rc o k' :
    shm_reach n k -> shm_ctl id cmd k = (rc, o, k') -> shm_reach n k'
| shr_detach n k as_ :
    shm_reach n k -> shm_reach n (shm_detach_all_for_process as_ k).

(** ** What the operations do to the tables *)
Lemma for_range_tables n (f : Z -> kmem -> kmem) k :
  (forall i k, segments (f i k) = segments k /\ attaches (f i k) = attaches k) ->
  segments (for_range n f k) = segments k /\ attaches (for_range n f k) = attaches k.
Proof.
  intros Hf. destruct (decide (0 <= n)); [|by rewrite for_range_0 by lia].
  apply (for_range_ind (fun _ k' => segments k' = segments k /\ attaches k' = attaches k)); [done|done|].
  intros i k' _ [H1 H2]. destruct (Hf i k') as [-> ->]. done.
Qed.

Lemma kfree_tables p k : segments (kfree_m p k) = segments k /\ attaches (kfree_m p k) = attaches k.
Proof. unfold kfree_m. destruct (kfree _ _ _). by rsimpl. Qed.

Lemma kmalloc_tables n k p k' :
  kmalloc_m n k = (p, k') -> segments k' = segments k /\ attaches k' = attaches k.
Proof. unfold kmalloc_m. destruct (kmalloc _ _ _) as [[? ?] ?]. intros [= _ <-]. by rsimpl. Qed.

Definition seg_freed (s : shm_segment_t) : shm_segment_t :=
  s <| sg_frames := 0 |> <| sg_in_use := false |> <| sg_generation := u16 (sg_generation s + 1) |>.

Lemma free_frames_tables sl k :
  segments (free_segment_frames sl k) = <[sl := seg_freed (segments k sl)]> (segments k) /\
  attaches (free_segment_frames sl k) = attaches k.
Proof.
  unfold free_segment_frames. set (k1 := for_range _ _ k).
  assert (H : segments k1 = segments k /\ attaches k1 = attaches k).
  { apply for_range_tables. intros i k'. break_if; by rsimpl. }
  rsimpl. destruct (kfree_tables (sg_frames (segments k sl)) k1) as [-> ->]. by destruct H as [-> ->].
Qed.

Lemma alloc_frames_tables frames npages k k' ok :
  shm_alloc_frames frames npages k = (k', ok) ->
  segments k' = segments k /\ attaches k' = attaches k.
Proof.
  unfold shm_alloc_frames.
  apply (for_try_inv (fun k' => segments k' = segments k /\ attaches k' = attaches k)); [done|].
  intros i k1 k2 b [H1 H2]. destruct (pmm_alloc_m _ _) as [p m].
  break_if; intros [= <- _]; [|by rsimpl].
  match goal with |- context [kfree_m ?a ?b] => destruct (kfree_tables a b) as [-> ->] end. by rsimpl.
Qed.

(** ** The invariant *)
Lemma find_segment_Some id seg sl :
  find_segment id seg = Some sl <->
  sl = shmid_slot id /\ seg_slot sl /\ sg_in_use (seg sl) = true /\ sg_generation (seg sl) = shmid_gen id.
Proof.
  unfold find_segment, seg_slot. cbv zeta. split.
  - break_if; [done|]. break_if; [done|]. intros [= <-]. bools. done || (repeat split; try done; lia).
  - intros (-> & Hs & Hu & Hg). replace ((_ <? 0) || _) with false by lia. rewrite Hu, Hg, Z.eqb_refl. done.
Qed.

(** [find_segment] after a change that keeps a segment's identity. *)
Lemma find_segment_update id seg sl s :
  sg_in_use s = sg_in_use (seg sl) -> sg_generation s = sg_generation (seg sl) ->
  find_segment id (<[sl := s]> seg) = find_segment id seg.
Proof.
  intros Hu Hg. unfold find_segment. cbv zeta. break_if; [done|].
  destruct (decide (sl = shmid_slot id)) as [->|]; [|by rewrite fn_lookup_insert_ne].
  by rewrite fn_lookup_insert, Hu, Hg.
Qed.

Lemma find_segment_ext id s1 s2 : (forall x, s1 x = s2 x) -> find_segment id s1 = find_segment id s2.
Proof. intros H. unfold find_segment. by rewrite !H. Qed.

Lemma refs_insert t sl i a :
  att_slot i -> refs (<[i := a]> t) sl =
  refs t sl - (if att_of t sl i then 1 else 0)
  + (if at_in_use a && (shmid_slot (at_shmid a) =? sl) then 1 else 0).
Proof.
  intros Hi. unfold refs.
  rewrite (count_update MAX_SHM_ATTACHES (att_of t sl) (att_of (<[i := a]> t) sl) i Hi).
  - unfold att_of. by rewrite fn_lookup_insert.
  - intros j _ Hj. unfold att_of. by rewrite fn_lookup_insert_ne by congruence.
Qed.

Lemma refs_range t sl : 0 <= refs t sl <= 64.
Proof. unfold refs. apply (count_range MAX_SHM_ATTACHES). lia. Qed.

Lemma refs_zero t sl a : refs t sl = 0 -> att_slot a -> at_in_use (t a) = true -> shmid_slot (at_shmid (t a)) <> sl.
Proof.
  intros H0 Ha Hu He. pose proof (count_range MAX_SHM_ATTACHES (att_of (<[a := (t a) <| at_in_use := false |>]> t) sl)) as Hr.
  pose proof (refs_insert t sl a ((t a) <| at_in_use := false |>) Ha) as Hi. rsimpl. cbn [andb] in Hi.
  unfold att_of in Hi. rewrite Hu, He, Z.eqb_refl in Hi. unfold refs in *. cbn [andb] in Hi.
  lia.
Qed.

Ltac seg_case sl sl' :=
  destruct (decide (sl = sl')) as [->|?]; [rewrite ?fn_lookup_insert|rewrite ?fn_lookup_insert_ne by done].

Lemma core_update n seg att sl s :
  shm_core n seg att -> sg_in_use s = sg_in_use (seg sl) -> sg_generation s = sg_generation (seg sl) ->
  sg_npages s = sg_npages (seg sl) -> sg_size s = sg_size (seg sl) -> sg_nattch s = sg_nattch (seg sl) ->
  shm_core n (<[sl := s]> seg) att.
Proof.
  intros [Ha Hr Hs Hv Hd] Eu Eg En Es Et. split; [| | |done|done].
  - intros a Ha1 Ha2. destruct (Ha a Ha1 Ha2) as (sl' & Hf & Hn). exists sl'.
    rewrite find_segment_update by done. split; [done|]. rewrite Hn. seg_case sl sl'; [by rewrite En|done].
  - intros sl' Hs' Hu'. revert Hu'. seg_case sl sl'; [rewrite Eu, Et|]; by apply Hr.
  - intros sl' Hs' Hu'. revert Hu'. seg_case sl sl'; [rewrite Eu, En, Es|]; by apply Hs.
Qed.

Lemma core_free n seg att sl :
  shm_core n seg att -> refs att sl = 0 -> shm_core n (<[sl := seg_freed (seg sl)]> seg) att.
Proof.
  intros [Ha Hr Hs Hv Hd] H0. split; [| | |done|done].
  - intros a Ha1 Ha2. destruct (Ha a Ha1 Ha2) as (sl' & Hf & Hn). exists sl'.
    pose proof (refs_zero att sl a H0 Ha1 Ha2) as Hne.
    rewrite find_segment_Some in Hf |- *. destruct Hf as (-> & Hf).
    rewrite !fn_lookup_insert_ne by congruence. done.
  - intros sl' Hs'. seg_case sl sl'; [done|by apply Hr].
  - intros sl' Hs'. seg_case sl sl'; [done|by apply Hs].
Qed.

Lemma core_drop n seg att sl i s :
  shm_core n seg att -> att_slot i -> at_in_use (att i) = true ->
  find_segment (at_shmid (att i)) seg = Some sl ->
  sg_in_use s = sg_in_use (seg sl) -> sg_generation s = sg_generation (seg sl) ->
  sg_npages s = sg_npages (seg sl) -> sg_size s = sg_size (seg sl) ->
  sg_nattch s = u32 (sg_nattch (seg sl) - 1) ->
  shm_core n (<[sl := s]> seg) (<[i := (att i) <| at_in_use := false |>]> att).
Proof.
  intros [Ha Hr Hs Hv Hd] Hi Hui Hfi Eu Eg En Es Et.
  pose proof Hfi as (Esl & Hsl & Hslu & _)%find_segment_Some.
  assert (Hin : forall a, at_in_use ((<[i := (att i) <| at_in_use := false |>]> att) a) = true ->
    (<[i := (att i) <| at_in_use := false |>]> att) a = att a /\ at_in_use (att a) = true).
  { intros a. seg_case i a; [rsimpl; done|done]. }
  split.
  - intros a Ha1 Ha2. destruct (Hin a Ha2) as [-> Hua].
    destruct (Ha a Ha1 Hua) as (sl' & Hf & Hn). exists sl'.
    rewrite find_segment_update by done. split; [done|]. rewrite Hn. seg_case sl sl'; [by rewrite En|done].
  - intros sl' Hs' Hu'. rewrite refs_insert by done. rsimpl. cbn [andb]. unfold att_of. rewrite Hui, <- Esl.
    revert Hu'. seg_case sl sl'.
    + intros _. rewrite Z.eqb_refl, Et, Hr by done. cbn [andb].
      pose proof (refs_range att sl'). pose proof (refs_range (<[i := (att i) <| at_in_use := false |>]> att) sl') as Hr2.
      rewrite refs_insert in Hr2 by done. rsimpl. cbn [andb] in Hr2. unfold att_of in Hr2.
      rewrite Hui, <- Esl, Z.eqb_refl in Hr2. cbn [andb] in Hr2. rewrite u32_small by lia. lia.
    + intros Hu'. rewrite Hr by done. replace (sl =? sl') with false by lia. cbn [andb]. lia.
  - intros sl' Hs' Hu'. revert Hu'. seg_case sl sl'; [rewrite Eu, En, Es|]; by apply Hs.
  - intros a Ha1 Ha2. destruct (Hin a Ha2) as [-> Hua]. by apply Hv.
  - intros a b Ha1 Hb1 Hab Ha2 Hb2. destruct (Hin a Ha2) as [-> Hua], (Hin b Hb2) as [-> Hub]. by apply Hd.
Qed.

Lemma pick_va_spec n seg att as_ :
  0 <= n < 2 ^ 38 -> shm_core n seg att ->
  SHM_USER_VA_BASE <= shm_pick_va as_ att <= SHM_USER_VA_BASE + n * 2 ^ 24 /\
  forall a, att_slot a -> at_in_use (att a) = true -> at_address_space (att a) = as_ ->
    att_end (att a) <= shm_pick_va as_ att.
Proof.
  intros Hn Hc. unfold shm_pick_va. set (f := fun i va : Z => _).
  apply (for_range_ind (fun i v => SHM_USER_VA_BASE <= v <= SHM_USER_VA_BASE + n * 2 ^ 24 /\
    forall a, 0 <= a < i -> at_in_use (att a) = true -> at_address_space (att a) = as_ ->
    att_end (att a) <= v)).
  - lia.
  - split; [lia|]. intros; lia.
  - intros i v Hi [Hv Hle]. unfold f.
    destruct (at_in_use (att i) && (at_address_space (att i) =? as_)) eqn:E.
    + bools. pose proof (inv_va _ _ _ Hc i Hi H) as [Hb He].
      destruct (inv_att _ _ _ Hc i Hi H) as (sl & (_ & Hsl & Hsu & _)%find_segment_Some & Hnp).
      pose proof (inv_size _ _ _ Hc sl Hsl Hsu) as [Hp _]. rewrite <- Hnp in Hp.
      unfold att_end, PAGE_SIZE_4K in *.
      rewrite (u64_small (at_npages _ * _)), u64_small by lia.
      split; [destruct (_ >? v); lia|]. intros a Ha Hu Has.
      destruct (decide (a = i)) as [->|]; [|specialize (Hle a ltac:(lia) Hu Has)];
        destruct (_ >? v) eqn:?; bools; lia.
    + split; [done|]. intros a Ha Hu Has.
      destruct (decide (a = i)) as [->|]; [rewrite Hu, Has, Z.eqb_refl in E; done|].
      apply Hle; [lia|done|done].
Qed.

Lemma core_attach n seg att slot sl id as_ s :
  0 <= n < 2 ^ 38 -> shm_core n seg att -> att_slot slot -> at_in_use (att slot) = false ->
  find_segment id seg = Some sl ->
  sg_in_use s = sg_in_use (seg sl) -> sg_generation s = sg_generation (seg sl) ->
  sg_npages s = sg_npages (seg sl) -> sg_size s = sg_size (seg sl) ->
  sg_nattch s = u32 (sg_nattch (seg sl) + 1) ->
  shm_core (n + 1) (<[sl := s]> seg)
    (<[slot := mk_attach true id as_ (shm_pick_va as_ att) (sg_npages (seg sl))]> att).
Proof.
  intros Hn Hc Hslot Hfree Hfi Eu Eg En Es Et. pose proof Hc as [Ha Hr Hs Hv Hd].
  pose proof Hfi as (Esl & Hsl & Hslu & _)%find_segment_Some.
  destruct (pick_va_spec n seg att as_ Hn Hc) as [Hpv Hpe].
  destruct (Hs sl Hsl Hslu) as [Hnp _].
  split.
  - intros a Ha1. rewrite <- (find_segment_update id seg sl s Eu Eg) in Hfi. seg_case slot a.
    + intros _. cbn. exists sl. split; [done|]. by rewrite fn_lookup_insert.
    + intros Ha2. destruct (Ha a Ha1 Ha2) as (sl' & Hf & Hnp'). exists sl'.
      rewrite find_segment_update by done. split; [done|]. rewrite Hnp'. seg_case sl sl'; [by rewrite En|done].
  - intros sl' Hs' Hu'. rewrite refs_insert by done. unfold att_of. rewrite Hfree. cbn [andb at_in_use at_shmid].
    rewrite <- Esl. revert Hu'. seg_case sl sl'.
    + intros _. rewrite Z.eqb_refl, Et, Hr by done. pose proof (refs_range att sl').
      rewrite u32_small by lia. lia.
    + intros Hu'. rewrite Hr by done. replace (sl =? sl') with false by lia. lia.
  - intros sl' Hs' Hu'. revert Hu'. seg_case sl sl'; [rewrite Eu, En, Es|]; by apply Hs.
  - intros a Ha1. seg_case slot a.
    + intros _. unfold att_end. cbn. unfold PAGE_SIZE_4K in *. lia.
    + intros Ha2. specialize (Hv a Ha1 Ha2). lia.
  - intros a b Ha1 Hb1 Hab. destruct (decide (slot = a)) as [->|Hsa].
    + rewrite fn_lookup_insert, fn_lookup_insert_ne by done. cbn. intros _ Hub Has. right. by apply Hpe.
    + rewrite (fn_lookup_insert_ne _ slot a) by done. seg_case slot b; [|by apply Hd].
      cbn. intros Hua _ Has. left. by apply Hpe.
Qed.

Lemma core_create n seg att sl s :
  shm_core n seg att -> seg_slot sl -> sg_in_use (seg sl) = false -> sg_nattch s = 0 ->
  1 <= sg_npages s <= SHM_MAX_SEGMENT_PAGES -> 1 <= sg_size s <= sg_npages s * PAGE_SIZE_4K ->
  shm_core n (<[sl := s]> seg) att.
Proof.
  intros [Ha Hr Hs Hv Hd] Hsl Hfree Hn0 Hnp Hsz.
  assert (Hno : forall a, att_slot a -> at_in_use (att a) = true -> shmid_slot (at_shmid (att a)) <> sl).
  { intros a Ha1 Ha2 He. destruct (Ha a Ha1 Ha2) as (sl' & (-> & _ & Hu & _)%find_segment_Some & _).
    rewrite He in Hu. congruence. }
  split; [| | |done|done].
  - intros a Ha1 Ha2. destruct (Ha a Ha1 Ha2) as (sl' & Hf & Hnp'). exists sl'. specialize (Hno a Ha1 Ha2).
    rewrite find_segment_Some in Hf |- *. destruct Hf as (-> & Hf). rewrite !fn_lookup_insert_ne by congruence. done.
  - intros sl' Hs'. seg_case sl sl'; [|by apply Hr]. intros _. rewrite Hn0. symmetry. apply count_0.
    intros a Ha1. unfold att_of. destruct (at_in_use (att a)) eqn:Ea; [|done]. specialize (Hno a Ha1 Ea).
    cbn [andb]. lia.
  - intros sl' Hs'. seg_case sl sl'; [done|by apply Hs].
Qed.

Definition shm_inv (n : Z) (k : kmem) : Prop := shm_core n (segments k) (attaches k) /\ rm_ok (segments k).

Lemma inv_mono n k : shm_inv n k -> shm_inv (n + 1) k.
Proof.
  intros [[Ha Hr Hs Hv Hd] Hm]. split; [split; try done|done]. intros a H1 H2. specialize (Hv a H1 H2). lia.
Qed.

Lemma shm_create_inv n now caller key size flg k rc o k' :
  0 <= size < 2 ^ 64 -> shm_inv n k -> shm_create now caller key size flg k = (rc, o, k') -> shm_inv n k'.
Proof.
  intros Hsize Hi. unfold shm_create. destruct (Z.eqb_spec size 0) as [|Hs0]; [by intros [= _ _ <-]|].
  cbv zeta. set (np := u64 (size + PAGE_SIZE_4K - 1) / PAGE_SIZE_4K).
  destruct (np >? SHM_MAX_SEGMENT_PAGES) eqn:Enp; [by intros [= _ _ <-]|].
  destruct (find_first _ _) as [sl|] eqn:Ef; [|by intros [= _ _ <-]].
  apply find_first_Some in Ef as (Hsl & Hfree & _).
  destruct (kmalloc_m (np * 8) k) as [p k1] eqn:Ek. destruct (kmalloc_tables _ _ _ _ Ek) as [Hs1 Ha1].
  assert (Hi1 : shm_inv n k1) by (unfold shm_inv; by rewrite Hs1, Ha1).
  destruct (Z.eqb_spec p 0) as [|Hp]; [by intros [= _ _ <-]|].
  assert (Hnp : np <> 0).
  { intros E0. unfold kmalloc_m, kmalloc in Ek. rewrite E0 in Ek. cbn in Ek. by injection Ek as <- _. }
  destruct (shm_alloc_frames p np k1) as [k2 ok] eqn:E2. destruct (alloc_frames_tables _ _ _ _ _ E2) as [Hs2 Ha2].
  assert (Hi2 : shm_inv n k2) by (unfold shm_inv; by rewrite Hs2, Ha2).
  destruct ok; cbn [negb]; [|by intros [= _ _ <-]]. intros [= _ _ <-].
  destruct Hi2 as [Hc2 Hm2]. unfold shm_inv. rsimpl. split.
  - apply core_create; [done|done|by rewrite Hs2, Hs1; bools|done|cbn..].
    + unfold np, PAGE_SIZE_4K in *. bools. pose proof (u64_range (size + 4096 - 1)). split; [|lia].
      pose proof (Z.div_pos (u64 (size + 4096 - 1)) 4096). lia.
    + split; [lia|]. unfold np, PAGE_SIZE_4K, u64 in *.
      destruct (decide (size + 4096 - 1 < 2 ^ 64)) as [Hlt|Hge].
      * rewrite Z.mod_small by lia. pose proof (Z.div_mod (size + 4096 - 1) 4096).
        pose proof (Z.mod_pos_bound (size + 4096 - 1) 4096). lia.
      * exfalso. apply Hnp. replace (size + 4096 - 1) with ((size + 4096 - 1 - 2 ^ 64) + 1 * 2 ^ 64) by lia.
        rewrite Z.mod_add, Z.mod_small by lia. apply Z.div_small. lia.
  - intros sl' Hs'. seg_case sl sl'; [done|by apply Hm2].
Qed.

Lemma get_inv n now caller key size flg k rc o k' :
  0 <= size < 2 ^ 64 -> shm_inv n k -> shm_get now caller key size flg k = (rc, o, k') -> shm_inv n k'.
Proof.
  intros Hs Hi. unfold shm_get. destruct (tru key); [|by apply shm_create_inv].
  destruct (find_first _ _); repeat (break_if; [by intros [= _ _ <-]|]); [by intros [= _ _ <-]|by apply shm_create_inv].
Qed.

Lemma at_inv n now caller as_ id flg k rc o k' :
  0 <= n < 2 ^ 38 -> shm_inv n k -> shm_at now caller as_ id flg k = (rc, o, k') -> shm_inv (n + 1) k'.
Proof.
  intros Hn Hi. unfold shm_at. destruct (find_segment id (segments k)) as [sl|] eqn:Ef;
    [|intros [= _ _ <-]; by apply inv_mono].
  cbv zeta. destruct (find_first _ _) as [slot|] eqn:Ea; [|intros [= _ _ <-]; by apply inv_mono].
  apply find_first_Some in Ea as (Hslot & Hfree & _). bools.
  destruct (for_try _ _ _) as [m ok]. destruct ok; cbn [negb].
  - intros [= _ _ <-]. destruct Hi as [Hc Hm]. unfold shm_inv. rsimpl. split.
    + apply core_attach; rsimpl; done.
    + intros sl' Hs'. seg_case sl sl'; [|by apply Hm]. rsimpl. intros Hu Hmk.
      rewrite (inv_ref _ _ _ Hc) by done. pose proof (refs_range (attaches k) sl').
      rewrite u32_small by lia. lia.
  - intros [= _ _ <-]. apply inv_mono. done.
Qed.

(** Dropping a reference: shared by [shm_dt] and the detach at exit. *)
Lemma put_inv n touch i k :
  (forall s, sg_in_use (touch s) = sg_in_use s /\ sg_generation (touch s) = sg_generation s /\
             sg_npages (touch s) = sg_npages s /\ sg_size (touch s) = sg_size s /\
             sg_nattch (touch s) = sg_nattch s /\ sg_marked_rmid (touch s) = sg_marked_rmid s) ->
  att_slot i -> at_in_use (attaches k i) = true -> shm_inv n k ->
  shm_inv n (shm_put touch (find_segment (at_shmid (attaches k i)) (segments k)) (shm_unmap i k)).
Proof.
  intros Ht Hi Hu [Hc Hm]. destruct (inv_att _ _ _ Hc i Hi Hu) as (sl & Hf & _). rewrite Hf.
  pose proof Hf as (_ & Hsl & Hslu & _)%find_segment_Some.
  unfold shm_put, shm_unmap. cbv zeta. rsimpl.
  set (s := touch _). destruct (Ht ((segments k sl) <| sg_nattch := u32 (sg_nattch (segments k sl) - 1) |>))
    as (T1 & T2 & T3 & T4 & T5 & T6). fold s in T1, T2, T3, T4, T5, T6. rsimpl. clearbody s.
  pose proof (core_drop n _ _ sl i s Hc Hi Hu Hf T1 T2 T3 T4 T5) as Hc'.
  set (att' := <[i := _]> (attaches k)) in *. clearbody att'.
  assert (Hmo : forall sl', seg_slot sl' -> sl' <> sl -> sg_in_use (segments k sl') = true ->
    sg_marked_rmid (segments k sl') = true -> sg_nattch (segments k sl') <> 0) by (intros; by apply Hm).
  destruct ((sg_nattch s =? 0) && sg_marked_rmid s) eqn:E.
  - unfold shm_inv. destruct (free_frames_tables sl (k <| mc := for_range (at_npages (attaches k i)) (fun j m =>
      (arch_vm_unmap_page (at_address_space (attaches k i)) (u64 (at_va (attaches k i) + j * PAGE_SIZE_4K)) m).2) (mc k) |>
      <| attaches := att' |> <| segments := <[sl := s]> (segments k) |>)) as [-> ->]. rsimpl. bools. split.
    + apply core_free; [done|]. rewrite <- (inv_ref _ _ _ Hc' sl); rewrite ?fn_lookup_insert; [done|done|by rewrite T1].
    + intros sl' Hs'. seg_case sl sl'; [done|]. apply Hmo; [done|congruence].
  - unfold shm_inv. rsimpl. split; [done|]. intros sl' Hs'. seg_case sl sl'; [|apply Hmo; [done|congruence]].
    intros _ Hmk. rewrite Hmk, andb_true_r in E. by bools.
Qed.

Lemma ctl_inv n id cmd k rc o k' : shm_inv n k -> shm_ctl id cmd k = (rc, o, k') -> shm_inv n k'.
Proof.
  intros Hi. unfold shm_ctl. destruct (find_segment id (segments k)) as [sl|] eqn:Ef; [|by intros [= _ _ <-]].
  pose proof Ef as (_ & Hsl & Hslu & _)%find_segment_Some. cbv zeta.
  break_if; [by intros [= _ _ <-]|]. break_if; [|by intros [= _ _ <-]]. intros [= _ _ <-].
  destruct Hi as [Hc Hm].
  assert (Hc' : shm_core n (<[sl := (segments k sl) <| sg_marked_rmid := true |>]> (segments k)) (attaches k))
    by (apply core_update; [done|by rsimpl..]).
  destruct (Z.eqb_spec (sg_nattch (segments k sl)) 0) as [E0|E0].
  - unfold shm_inv. destruct (free_frames_tables sl (k <| segments :=
      <[sl := (segments k sl) <| sg_marked_rmid := true |>]> (segments k) |>)) as [-> ->]. rsimpl. split.
    + apply core_free; [done|]. by rewrite <- (inv_ref _ _ _ Hc).
    + intros sl' Hs'. seg_case sl sl'; [done|by apply Hm].
  - unfold shm_inv. rsimpl. split; [done|]. intros sl' Hs'. seg_case sl sl'; [by rsimpl|by apply Hm].
Qed.

Lemma detach_inv n as_ k : shm_inv n k -> shm_inv n (shm_detach_all_for_process as_ k).
Proof.
  intros Hi. unfold shm_detach_all_for_process.
  apply (for_range_ind (fun _ k => shm_inv n k)); [lia|done|].
  intros i k' Hi' IH. break_if; [|done]. bools. apply put_inv; [done|done|done|done].
Qed.

Lemma dt_inv n now as_ va k rc k' : shm_inv n k -> shm_dt now as_ va k = (rc, k') -> shm_inv n k'.
Proof.
  intros Hi. unfold shm_dt. destruct (find_first _ _) as [i|] eqn:E; intros [= _ <-]; [|done].
  apply find_first_Some in E as (Hi' & Hu & _). bools. apply put_inv; [by intros; rsimpl|done..].
Qed.

Lemma shm_reach_inv n k : shm_reach n k -> n <= 2 ^ 38 -> 0 <= n /\ shm_inv n k.
Proof.
  induction 1 as [m h|n k m h _ IH|n k now c key sz fl rc o k' _ IH Hs E|n k now c as_ id fl rc o k' _ IH E
    |n k now as_ va rc k' _ IH E|n k id cmd rc o k' _ IH E|n k as_ _ IH]; intros Hn.
  - split; [done|]. split; [split|]; by intros.
  - apply IH in Hn as [? ?]. by split.
  - apply IH in Hn as [? ?]. split; [done|]. by apply (get_inv n now c key sz fl k rc o).
  - destruct IH as [? ?]; [lia|]. split; [lia|]. apply (at_inv n now c as_ id fl k rc o); [lia|done..].
  - apply IH in Hn as [? ?]. split; [done|]. by apply (dt_inv n now as_ va k rc).
  - apply IH in Hn as [? ?]. split; [done|]. by apply (ctl_inv n id cmd k rc o).
  - apply IH in Hn as [? ?]. split; [done|]. by apply detach_inv.
Qed.

(** ** Properties *)

(** C34: In every reachable state (fewer than 2^38 attaches), the attach count
    of a live segment is the number of attachments that name it, a segment
    marked for removal is still attached somewhere, and every attachment names
    a live segment of its own length: frames are never freed while mapped. *)
Theorem shm_refcount n k :
  shm_reach n k -> n <= 2 ^ 38 ->
  (forall sl, seg_slot sl -> sg_in_use (segments k sl) = true ->
     sg_nattch (segments k sl) = refs (attaches k) sl /\
     (sg_marked_rmid (segments k sl) = true -> 0 < refs (attaches k) sl)) /\
  (forall a, att_slot a -> at_in_use (attaches k a) = true ->
     exists sl, find_segment (at_shmid (attaches k a)) (segments k) = Some sl /\
                at_npages (attaches k a) = sg_npages (segments k sl)).
Proof.
  intros Hr Hn. destruct (shm_reach_inv n k Hr Hn) as [_ [Hc Hm]]. split; [|by apply Hc].
  intros sl Hs Hu. pose proof (inv_ref _ _ _ Hc sl Hs Hu) as E. split; [done|].
  intros Hmk. specialize (Hm sl Hs Hu Hmk). pose proof (refs_range (attaches k) sl). lia.
Qed.


(** What a detach does to the tables. *)
Lemma dt_tables n now as_ va k rc k' :
  shm_inv n k -> shm_dt now as_ va k = (rc, k') ->
  (rc = IPC_ERR_NOT_FOUND /\ k' = k) \/
  exists i sl, att_slot i /\ at_in_use (attaches k i) = true /\ rc = IPC_ERR_NONE /\
    find_segment (at_shmid (attaches k i)) (segments k) = Some sl /\
    at_address_space (attaches k i) = as_ /\ at_va (attaches k i) = va /\
    attaches k' = <[i := (attaches k i) <| at_in_use := false |>]> (attaches k) /\
    let s := (segments k sl) <| sg_nattch := sg_nattch (segments k sl) - 1 |> <| sg_dtime := now |> in
    forall x, segments k' x =
      (<[sl := if (sg_nattch s =? 0) && sg_marked_rmid s then seg_freed s else s]> (segments k)) x.
Proof.
  intros [Hc Hm]. unfold shm_dt. destruct (find_first _ _) as [i|] eqn:E; intros [= <- <-]; [right|by left].
  apply find_first_Some in E as (Hi & Hu & _). bools. rename H into Hu.
  destruct (inv_att _ _ _ Hc i Hi Hu) as (sl & Hf & _). exists i, sl. rewrite Hf.
  do 6 (split; [done|]). pose proof Hf as (Esl & Hsl & Hslu & _)%find_segment_Some.
  assert (Hn : u32 (sg_nattch (segments k sl) - 1) = sg_nattch (segments k sl) - 1).
  { rewrite (inv_ref _ _ _ Hc) by done. pose proof (refs_range (attaches k) sl) as Hr.
    apply u32_small. destruct (decide (refs (attaches k) sl = 0)) as [E0|]; [|lia].
    exfalso. by apply (refs_zero _ _ _ E0 Hi Hu). }
  unfold shm_put, shm_unmap. cbv zeta. rsimpl. rewrite Hn.
  match goal with |- context [if ?c then free_segment_frames sl ?x else ?x] => set (c0 := c); set (k1 := x) end.
  assert (Hk1 : attaches k1 = <[i := (attaches k i) <| at_in_use := false |>]> (attaches k)) by (unfold k1; by rsimpl).
  destruct c0.
  - destruct (free_frames_tables sl k1) as [-> ->]. split; [done|]. unfold k1. rsimpl.
    rewrite fn_lookup_insert. intros x. seg_case sl x; done.
  - split; [done|]. unfold k1. by rsimpl.
Qed.

(** Removal is deferred to the last detach.  [shm_ctl] with IPC_RMID makes
    the identifier of an unattached segment dead at once and keeps an attached
    segment alive; a later [shm_dt] of one of its attachments kills the
    identifier exactly when that attachment was the last one. *)
Theorem shm_rmid_deferred n k id sl now as_ va rc o k1 rc2 k2 :
  shm_reach n k -> n <= 2 ^ 38 -> find_segment id (segments k) = Some sl ->
  shm_ctl id SHM_IPC_RMID k = (rc, o, k1) ->
  rc = IPC_ERR_NONE /\
  (refs (attaches k) sl = 0 -> find_segment id (segments k1) = None) /\
  (0 < refs (attaches k) sl -> find_segment id (segments k1) = Some sl /\
   (shm_dt now as_ va k1 = (rc2, k2) -> rc2 = IPC_ERR_NONE ->
    refs (attaches k2) sl = refs (attaches k1) sl - 1 ->
    find_segment id (segments k2) = if refs (attaches k1) sl =? 1 then None else Some sl)).
Proof.
  intros Hr Hn Hf E. destruct (shm_reach_inv n k Hr Hn) as [_ [Hc Hm]].
  pose proof Hf as (Esl & Hsl & Hslu & Hg)%find_segment_Some.
  pose proof (inv_ref _ _ _ Hc sl Hsl Hslu) as Href.
  pose proof (ctl_inv n id _ k rc o k1 (conj Hc Hm) E) as Hi1.
  unfold shm_ctl in E. rewrite Hf, Href in E. cbn [Z.eqb SHM_IPC_RMID] in E.
  assert (Hdead : forall s seg, sg_in_use s = false -> find_segment id (<[sl := s]> seg) = None).
  { intros s seg Hu. unfold find_segment. cbv zeta. rewrite <- Esl, fn_lookup_insert, Hu. by break_if. }
  destruct (Z.eqb_spec (refs (attaches k) sl) 0) as [E0|E0]; injection E as <- <- <-; (split; [done|]); split; try lia.
  - intros _. match goal with |- context [free_segment_frames sl ?x] => destruct (free_frames_tables sl x) as [-> _] end.
    by apply Hdead.
  - intros _. rsimpl. rewrite find_segment_update by (by rsimpl). split; [done|]. intros E2 Hrc Hdec.
    assert (Hf1 : find_segment id (segments (k <| segments := <[sl := (segments k sl) <| sg_marked_rmid := true |>]>
      (segments k) |>)) = Some sl) by (rsimpl; by rewrite find_segment_update by (by rsimpl)).
    destruct (dt_tables _ _ _ _ _ _ _ Hi1 E2) as [[-> _]|(i & sl' & Hi & Hu & _ & Hfi & _ & _ & Ha2 & Hs2)]; [done|].
    rewrite Ha2, refs_insert in Hdec by done. rsimpl. cbn [andb] in Hdec. unfold att_of in Hdec.
    apply find_segment_Some in Hfi as (Hsl' & _).
    destruct (Z.eqb_spec (shmid_slot (at_shmid (attaches k i))) sl) as [He|He];
      [|rewrite andb_false_r in Hdec; lia]. rewrite He in Hsl'. subst sl'.
    rewrite (find_segment_ext id _ _ Hs2), fn_lookup_insert. rsimpl. rewrite Href, andb_true_r.
    destruct (Z.eqb_spec (refs (attaches k) sl) 1) as [->|]; cbn [Z.eqb Z.sub].
    + by apply Hdead.
    + replace (refs (attaches k) sl - 1 =? 0) with false by lia.
      rewrite find_segment_update; [done|rewrite fn_lookup_insert; by rsimpl..].
Qed.

(** The byte of a segment at offset [j]. *)
Definition seg_byte (m : mem) (frames j : Z) : Z := m (ldw m frames (j / PAGE_SIZE_4K) + j mod PAGE_SIZE_4K).

Lemma copy_out_loop_spec fuel i npages total frames m :
  0 <= i <= npages -> npages - i < Z.of_nat fuel -> 0 <= total <= npages * PAGE_SIZE_4K ->
  copy_out_loop fuel i npages total frames m
    (seg_byte m frames <$> seqZ 0 (Z.min total (i * PAGE_SIZE_4K))) =
  seg_byte m frames <$> seqZ 0 total.
Proof.
  revert i. induction fuel as [|fuel IH]; intros i Hi Hf Ht; [lia|]. cbn [copy_out_loop].
  rewrite length_fmap, length_seqZ. unfold PAGE_SIZE_4K in *. rewrite Z2Nat.id by lia.
  destruct (i <? npages) eqn:E1; bools; cbn [andb].
  - destruct (Z.min total (i * 0x1000) <? total) eqn:E2; bools; [|by replace (Z.min _ _) with total by lia].
    replace (Z.min total (i * 0x1000)) with (i * 0x1000) by lia.
    set (chunk := if total - i * 0x1000 >? 0x1000 then 0x1000 else total - i * 0x1000).
    assert (Hc : i * 0x1000 + chunk = Z.min total ((i + 1) * 0x1000) /\ 0 < chunk <= 0x1000).
    { unfold chunk. destruct (_ >? _) eqn:?; bools; lia. }
    rewrite <- (IH (i + 1)) by lia. f_equal. destruct Hc as [<- Hc].
    rewrite (seqZ_app 0 (i * 0x1000) chunk) by lia. rewrite fmap_app. f_equal. rewrite Z.add_0_l.
    replace (seqZ (i * 0x1000) chunk) with ((fun j => i * 0x1000 + j) <$> seqZ 0 chunk)
      by (rewrite fmap_add_seqZ; f_equal; lia).
    rewrite <- list_fmap_compose. apply list_fmap_ext. intros _ j Hj%list_elem_of_lookup_2%elem_of_seqZ.
    unfold compose, seg_byte, PAGE_SIZE_4K.
    rewrite (Z.add_comm (i * 0x1000)), Z.div_add, Z.mod_add by lia.
    rewrite Z.div_small, Z.mod_small by lia. f_equal.
  - by replace (Z.min total (i * 0x1000)) with total by lia.
Qed.

(** [shm_copy_out] copies the first [min(size, max_len)] bytes of the
    segment, in order and across page boundaries, and nothing more. *)
Theorem shm_copy_out_spec n k id sl max_len :
  shm_reach n k -> n <= 2 ^ 38 -> find_segment id (segments k) = Some sl -> 0 <= max_len ->
  shm_copy_out id max_len k =
  (IPC_ERR_NONE, seg_byte (ram (mc k)) (sg_frames (segments k sl)) <$>
                 seqZ 0 (Z.min (sg_size (segments k sl)) max_len)).
Proof.
  intros Hr Hn Hf Hmax. destruct (shm_reach_inv n k Hr Hn) as [_ [Hc _]].
  pose proof Hf as (_ & Hsl & Hslu & _)%find_segment_Some.
  destruct (inv_size _ _ _ Hc sl Hsl Hslu) as [Hnp Hsz].
  unfold shm_copy_out. rewrite Hf. cbv zeta. f_equal.
  replace (if _ <? _ then _ else _) with (Z.min (sg_size (segments k sl)) max_len) by (break_if; bools; lia).
  rewrite <- copy_out_loop_spec with (fuel := (Z.to_nat (sg_npages (segments k sl)) + 1)%nat) (i := 0)
    (npages := sg_npages (segments k sl)) by lia.
  f_equal. replace (Z.min _ (0 * _)) with 0 by lia. done.
Qed.

(** ** Examples *)

(** An address space at 0x1000 whose tables for the first shared-memory pages
    are in place, and a machine with two free frames and a small kernel heap. *)
Definition demo_tables : mem := stw (stw (stw (fun _ => 0) 0x1000 0 0x2007) 0x2000 5 0x3007) 0x3000 0 0x4007.
Definition demo_mc (m : mem) (p : pmm) : mach :=
  mk_mach m p (untyped_init 0 0) (dma_region_init 0 0) false (mk_fb_info 0 0 0 0 0 0 0 0 0 0 0 0)
    (fun _ => 0) (mk_vm_activate_stats 0 0).
Definition demo_kmem : kmem :=
  let '(p, m) := pmm_init 0x10000 0x10000 0x2000 (fun _ => (0, 0)) 0 (fun _ => 0) in
  let '(h, m) := kheap_init 0x20000 0x1000 m in
  mk_kmem (demo_mc m p) h segments_init attaches_init.

(** One segment of 5000 bytes, attached twice in the same address space. *)
Definition demo_seg : kmem :=
  (shm_get 5 1 7 5000 SHM_IPC_CREAT demo_kmem).2 <| mc := demo_mc demo_tables pmm_zero |>
    <| kh := mk_kheap 0 0 0 |>.
Definition demo_att : kmem :=
  (shm_at 6 2 0x1000 0 0 ((shm_at 6 2 0x1000 0 0 demo_seg).2 <| mc := demo_mc demo_tables pmm_zero |>
    <| kh := mk_kheap 0 0 0 |>)).2.

Lemma demo_reach : shm_reach 0 demo_seg /\ shm_reach 2 demo_att.
Proof.
  assert (H0 : shm_reach 0 demo_seg).
  { apply shr_mem. unfold demo_kmem. destruct (pmm_init _ _ _ _ _ _) as [p m], (kheap_init _ _ _) as [h m'].
    destruct (shm_get _ _ _ _ _ _) as [[r o] k] eqn:E.
    eapply shr_get; [apply shr_init| |exact E]. lia. }
  split; [exact H0|]. unfold demo_att.
  destruct (shm_at 6 2 0x1000 0 0 demo_seg) as [[r o] k] eqn:E. cbn [snd].
  assert (H1 : shm_reach 1 (k <| mc := demo_mc demo_tables pmm_zero |> <| kh := mk_kheap 0 0 0 |>))
    by (apply shr_mem; eapply (shr_at 0); [exact H0|exact E]).
  revert H1. generalize (k <| mc := demo_mc demo_tables pmm_zero |> <| kh := mk_kheap 0 0 0 |>).
  intros k1 H1. destruct (shm_at 6 2 0x1000 0 0 k1) as [[r' o'] k'] eqn:E'.
  eapply (shr_at 1); [exact H1|exact E'].
Qed.

Lemma shm_refcount_witness : sg_nattch (segments demo_att 0) = refs (attaches demo_att) 0.
Proof.
  apply (shm_refcount 2 demo_att); [apply demo_reach|lia|unfold seg_slot; lia|].
  vm_compute. reflexivity.
Defined.


Lemma shm_rmid_deferred_witness :
  (shm_ctl 0 SHM_IPC_RMID demo_seg).1.1 = IPC_ERR_NONE /\
  find_segment 0 (segments (shm_ctl 0 SHM_IPC_RMID demo_seg).2) = None.
Proof.
  destruct (shm_ctl 0 SHM_IPC_RMID demo_seg) as [[rc o] k1] eqn:E.
  destruct (shm_rmid_deferred 0 demo_seg 0 0 0 0 0 rc o k1 0 k1) as (H1 & H2 & _);
    [apply demo_reach|lia|vm_compute; reflexivity|exact E|].
  split; [exact H1|]. apply H2. vm_compute. reflexivity.
Defined.

Lemma shm_copy_out_spec_witness :
  exists bytes, shm_copy_out 0 100 demo_seg = (IPC_ERR_NONE, bytes) /\ length bytes = 100%nat.
Proof.
  rewrite (shm_copy_out_spec 0 demo_seg 0 0 100); [|apply demo_reach|lia|vm_compute; reflexivity|lia].
  eexists. split; [reflexivity|]. rewrite length_fmap, length_seqZ. vm_compute. reflexivity.
Defined.
