(* ===== verification/Tcb.v ===== *)
(** * Thread control blocks ([src/include/robu/tcb.h], [context.h])

    The thread record, the saved user context, pointers to threads, and the
    linked queues the kernel threads them on: a queue is a head, a tail and a
    next pointer stored in the threads; [queue] relates it to the list of its
    members, and the lemmas give the effect of an append and of a removal. *)
From Stdlib Require Import ZArith Lia.
From stdpp Require Import base numbers sets list list_numbers functions.
From S2P Require Import Prelude Abi.

Inductive thread_state_t :=
  | THREAD_STATE_RUNNING | THREAD_STATE_READY | THREAD_STATE_WAIT_RECV | THREAD_STATE_WAIT_SEND
  | THREAD_STATE_WAIT_PAGEFAULT | THREAD_STATE_SLEEPING | THREAD_STATE_WAIT_NOTIFICATION
  | THREAD_STATE_DEAD | THREAD_STATE_ZOMBIE | THREAD_STATE_WAIT_CHILD | THREAD_STATE_WAIT_CONSOLE
  | THREAD_STATE_WAIT_EXECREQ.
#[export] Instance thread_state_eq_dec : EqDecision thread_state_t.
Proof. solve_decision. Defined.
Definition st_eqb (a b : thread_state_t) : bool := bool_decide (a = b).
(** The enumerator's value. *)
Definition state_code (s : thread_state_t) : Z :=
  match s with
  | THREAD_STATE_RUNNING => 0 | THREAD_STATE_READY => 1 | THREAD_STATE_WAIT_RECV => 2
  | THREAD_STATE_WAIT_SEND => 3 | THREAD_STATE_WAIT_PAGEFAULT => 4 | THREAD_STATE_SLEEPING => 5
  | THREAD_STATE_WAIT_NOTIFICATION => 6 | THREAD_STATE_DEAD => 7 | THREAD_STATE_ZOMBIE => 8
  | THREAD_STATE_WAIT_CHILD => 9 | THREAD_STATE_WAIT_CONSOLE => 10 | THREAD_STATE_WAIT_EXECREQ => 11
  end.

(** ** The saved context *)
Record arch_uctx_t := mk_uctx {
  r15 : Z; r14 : Z; r13 : Z; r12 : Z; r11 : Z; r10 : Z; r9 : Z; r8 : Z;
  rbp : Z; rdi : Z; rsi : Z; rdx : Z; rcx : Z; rbx : Z; rax : Z;
  u_vector : Z;
  u_error : Z;
  rip : Z; cs : Z; rflags : Z; rsp : Z; ss : Z
}.
#[export] Instance eta_uctx : Eta arch_uctx_t := fun u =>
  mk_uctx (r15 u) (r14 u) (r13 u) (r12 u) (r11 u) (r10 u) (r9 u) (r8 u) (rbp u) (rdi u) (rsi u)
    (rdx u) (rcx u) (rbx u) (rax u) (u_vector u) (u_error u) (rip u) (cs u) (rflags u) (rsp u) (ss u).
Definition uctx_zero : arch_uctx_t := mk_uctx 0 0 0 0 0 0 0 0 0 0 0 0 0 0 0 0 0 0 0 0 0 0.

(** [msg_regs_t]: six message words. *)
Record msg_regs_t := mk_msg { word0 : Z; word1 : Z; word2 : Z; word3 : Z; word4 : Z; word5 : Z }.
Definition msg_zero : msg_regs_t := mk_msg 0 0 0 0 0 0.

Record sig_action_t := mk_sigaction { sa_handler : Z; sa_flags : Z; sa_mask : Z }.
#[export] Instance eta_sigaction : Eta sig_action_t := fun s =>
  mk_sigaction (sa_handler s) (sa_flags s) (sa_mask s).

(** ** Threads *)

(** A [tcb_t] pointer: an element of [thread_table] or of [idle_thread]. *)
Inductive tptr := Thr (i : Z) | Idle (cpu : Z).
#[export] Instance tptr_eq_dec : EqDecision tptr.
Proof. solve_decision. Defined.
Definition tptr_eqb (a b : tptr) : bool := bool_decide (a = b).

Record tcb := mk_tcb {
  t_tid : Z;
  t_state : thread_state_t;
  t_prio : Z;
  t_in_ready_q : bool;
  t_timeslice_left : Z;
  t_wake_at_tick : Z;
  t_name : list Z;
  t_exit_status : Z;
  t_uctx : arch_uctx_t;
  t_fpu_state : list Z;
  t_fs_base : Z;
  t_address_space : Z;
  t_kstack_top : Z;
  t_kstack_size : Z;
  t_ipc_partner : Z;
  t_ipc_recv_after : Z;
  t_ipc_flags : Z;
  t_ipc_buffer : msg_regs_t;
  t_pager_tid : Z;
  t_parent_tid : Z;
  t_wait_filter : Z;
  t_execreq_slot : Z;
  t_last_cpu : Z;
  t_pgid : Z;
  t_sid : Z;
  t_sig_pending : Z;
  t_sig_mask : Z;
  t_sig_actions : Z -> sig_action_t;
  t_in_sig_handler : bool;
  t_saved_uctx_before_sig : arch_uctx_t;
  t_saved_sig_mask : Z;
  t_rq_next : option tptr;
  t_sq_next : option tptr;
  t_inbox_next : option tptr;
  t_send_q_head : option tptr;
  t_send_q_tail : option tptr
}.
#[export] Instance eta_tcb : Eta tcb := fun t =>
  mk_tcb (t_tid t) (t_state t) (t_prio t) (t_in_ready_q t) (t_timeslice_left t) (t_wake_at_tick t)
    (t_name t) (t_exit_status t) (t_uctx t) (t_fpu_state t) (t_fs_base t) (t_address_space t)
    (t_kstack_top t) (t_kstack_size t) (t_ipc_partner t) (t_ipc_recv_after t) (t_ipc_flags t)
    (t_ipc_buffer t) (t_pager_tid t) (t_parent_tid t) (t_wait_filter t) (t_execreq_slot t)
    (t_last_cpu t) (t_pgid t) (t_sid t) (t_sig_pending t) (t_sig_mask t) (t_sig_actions t)
    (t_in_sig_handler t) (t_saved_uctx_before_sig t) (t_saved_sig_mask t) (t_rq_next t) (t_sq_next t)
    (t_inbox_next t) (t_send_q_head t) (t_send_q_tail t).

(** A zeroed block: [memset(t, 0, sizeof( *t))]; a NULL name reads as empty. *)
Definition tcb_zero : tcb :=
  mk_tcb 0 THREAD_STATE_RUNNING 0 false 0 0 [] 0 uctx_zero [] 0 0 0 0 0 0 0 msg_zero 0 0 0 0 0 0 0 0 0
    (fun _ => mk_sigaction 0 0 0) false uctx_zero 0 None None None None None.

(** ** Initial contexts ([trap.c]) *)
Notation GDT_SEL_UCODE_RPL3 := (Z.lor 0x18 3)%Z (only parsing).
Notation GDT_SEL_UDATA_RPL3 := (Z.lor 0x20 3)%Z (only parsing).
Definition arch_uctx_init (entry stack_top : Z) : arch_uctx_t :=
  uctx_zero <| rip := entry |> <| cs := 0x08 |> <| ss := 0x10 |>
    <| rsp := u64 (Z.land stack_top (not64 0xF) - 8) |> <| rflags := 0x202 |>.
Definition arch_uctx_init_user (entry user_stack_top : Z) : arch_uctx_t :=
  uctx_zero <| rip := entry |> <| cs := GDT_SEL_UCODE_RPL3 |> <| ss := GDT_SEL_UDATA_RPL3 |>
    <| rsp := Z.land user_stack_top (not64 0xF) |> <| rflags := 0x202 |>.
Definition arch_uctx_init_user_argv (entry user_stack_top argc argv envp heap_base spawn_info : Z)
  : arch_uctx_t :=
  (arch_uctx_init_user entry user_stack_top) <| rdi := argc |> <| rsi := argv |> <| rdx := envp |>
    <| rcx := heap_base |> <| r8 := spawn_info |>.

(** ** Linked queues *)
Fixpoint links (nx : tptr -> option tptr) (h : option tptr) (l : list tptr) : Prop :=
  match l with
  | [] => h = None
  | t :: l => h = Some t /\ links nx (nx t) l
  end.

Definition queue (nx : tptr -> option tptr) (h tl : option tptr) (l : list tptr) : Prop :=
  links nx h l /\ tl = list.last l /\ NoDup l.

Lemma links_ext nx nx' h l : (forall p, p ∈ l -> nx' p = nx p) -> links nx h l -> links nx' h l.
Proof.
  revert h. induction l as [|t l IH]; intros h Hx; cbn [links]; [done|]. intros [-> Hl]. split; [done|].
  rewrite Hx by (by left). apply IH; [|done]. intros p Hp. apply Hx. by right.
Qed.

Lemma links_det nx h l1 l2 : links nx h l1 -> links nx h l2 -> l1 = l2.
Proof.
  revert h l2. induction l1 as [|t l1 IH]; intros h [|u l2]; cbn [links]; [done|by intros -> [? _]|by intros [-> _]|].
  intros [-> H1] [[= <-] H2]. f_equal. by eapply IH.
Qed.

Lemma last_elem (l : list tptr) x : list.last l = Some x -> x ∈ l.
Proof. intros [l' ->]%last_Some. apply elem_of_app. right. by left. Qed.

Lemma links_snoc nx nx' h l t :
  links nx h l -> NoDup l -> nx' t = None ->
  (forall x, list.last l = Some x -> nx' x = Some t) ->
  (forall p, p ∈ l -> Some p <> list.last l -> nx' p = nx p) ->
  links nx' (match list.last l with None => Some t | Some _ => h end) (l ++ [t]).
Proof.
  intros Hl Hnd Hn. revert h Hl. induction l as [|x [|y l] IH]; intros h Hl Hlast Hsame.
  - by cbn.
  - cbn in *. destruct Hl as [-> _]. rewrite (Hlast x eq_refl). done.
  - apply list.NoDup_cons in Hnd as [Hx Hnd]. cbn [links] in Hl. destruct Hl as [-> Hl].
    rewrite list.last_cons_cons in *. specialize (IH Hnd (nx x)).
    destruct (list.last (y :: l)) as [z|] eqn:Ez; [|by apply last_None in Ez].
    cbn [app links]. split; [done|]. rewrite Hsame; [|by left|].
    + apply IH; [by cbn [links]|done|]. intros p Hp. apply Hsame. by right.
    + intros [= ->]. apply Hx. by apply last_elem.
Qed.

Lemma links_remove nx nx' h l1 t l2 :
  links nx h (l1 ++ t :: l2) -> NoDup (l1 ++ l2) ->
  (forall x, list.last l1 = Some x -> nx' x = nx t) ->
  (forall p, p ∈ l1 ++ l2 -> Some p <> list.last l1 -> nx' p = nx p) ->
  links nx' (match l1 with [] => nx t | _ => h end) (l1 ++ l2).
Proof.
  revert h. induction l1 as [|x [|y l1] IH]; intros h Hl Hnd Hlast Hsame.
  - cbn in *. destruct Hl as [_ Hl]. apply (links_ext nx); [|done]. intros p Hp. by apply Hsame.
  - cbn in *. destruct Hl as (-> & Hx & Hl). split; [done|]. rewrite (Hlast x eq_refl).
    apply list.NoDup_cons in Hnd as [Hx2 _]. apply (links_ext nx); [|done].
    intros p Hp. apply Hsame; [by right|]. intros [= ->]. done.
  - change ((x :: y :: l1) ++ l2) with (x :: ((y :: l1) ++ l2)) in *.
    apply list.NoDup_cons in Hnd as [Hx Hnd]. destruct Hl as [-> Hl].
    rewrite list.last_cons_cons in *. cbn [links]. split; [done|].
    rewrite Hsame; [|by left|].
    + apply (IH (nx x)); [exact Hl|done|done|]. intros p Hp. apply Hsame. by right.
    + intros Hx'. symmetry in Hx'. apply last_elem in Hx'. apply Hx. apply elem_of_app. by left.
Qed.

(** Appending [t]: the code sets [t]'s link to NULL and the old tail's link, or
    the head, to [t]. *)
Lemma queue_snoc nx nx' h tl l t :
  queue nx h tl l -> t ∉ l -> nx' t = None ->
  (forall x, tl = Some x -> nx' x = Some t) -> (forall p, p ∈ l -> Some p <> tl -> nx' p = nx p) ->
  queue nx' (match tl with None => Some t | Some _ => h end) (Some t) (l ++ [t]).
Proof.
  intros (Hl & -> & Hnd) Ht Hn Hlast Hsame. split; [by apply (links_snoc nx)|]. split; [by rewrite last_snoc|].
  apply list.NoDup_app. split; [done|]. split; [|apply NoDup_singleton].
  intros x Hx ->%list_elem_of_singleton. done.
Qed.

(** Removing [t]: its predecessor's link, or the head, takes [t]'s link. *)
Lemma queue_remove nx nx' h tl l1 t l2 :
  queue nx h tl (l1 ++ t :: l2) ->
  (forall x, list.last l1 = Some x -> nx' x = nx t) ->
  (forall p, p ∈ l1 ++ l2 -> Some p <> list.last l1 -> nx' p = nx p) ->
  queue nx' (match l1 with [] => nx t | _ => h end)
    (match l2 with [] => list.last l1 | _ => tl end) (l1 ++ l2).
Proof.
  intros (Hl & -> & Hnd) Hlast Hsame.
  assert (Hnd' : NoDup (l1 ++ l2)).
  { apply list.NoDup_app in Hnd as (H1 & H2 & H3). apply list.NoDup_app. apply list.NoDup_cons in H3 as [_ H3].
    split; [done|]. split; [|done]. intros x Hx Hx2. apply (H2 x Hx). by right. }
  split; [by apply (links_remove nx nx' h l1 t l2)|]. split; [|done].
  destruct l2 as [|y l2]; [by rewrite app_nil_r|]. rewrite !last_app, last_cons_cons.
  by destruct (list.last (y :: l2)) eqn:E; [|apply last_None in E].
Qed.

(** A queue is empty exactly when its head, or its tail, is NULL. *)
Lemma queue_nil nx h tl l : queue nx h tl l -> (h = None <-> l = []) /\ (tl = None <-> l = []).
Proof.
  intros (Hl & -> & _). split; [|by rewrite last_None]. destruct l as [|t l]; cbn in Hl; [done|].
  destruct Hl as [-> _]. done.
Qed.
