(* ===== verification/Sched.v ===== *)
(** * The scheduler ([src/src/core/sched.c])

    Ready queues per priority with an occupancy bitmap, the wake inbox, the
    choice of the next thread, deadlines, and thread creation.  A queue is
    linked through the threads; [sched_inv] relates the queues to lists, and
    the theorems show that [schedule] runs a runnable thread of the highest
    priority, first come first served, and that no wake-up is lost.  The
    operations that reach the rest of the kernel (termination, the timer tick,
    the switch to a thread) are in [Kernel.v]. *)
From Stdlib Require Import ZArith Lia.
From stdpp Require Import base numbers sets list list_numbers functions.
From S2P Require Import Prelude Abi Tcb.

Notation MAX_CPUS := (16)%Z (only parsing).
Notation SCHED_MAX_ARM_TICKS := (500)%Z (only parsing).
(** [(uint64_t)-1], [(uint32_t)-1] and [(tid_t)~0u] *)
Definition U64_MAX : Z := 2 ^ 64 - 1.
Definition U32_MAX : Z := 2 ^ 32 - 1.

Record sched_stats_t := mk_sched_stats {
  direct_switches : Z;
  full_scheds : Z;
  preempts : Z;
  ipc_msgs : Z;
  ticks : Z;
  affinity_hits : Z;
  affinity_misses : Z;
  timer_traps : Z;
  kicks_sent : Z
}.
#[export] Instance eta_sched_stats : Eta sched_stats_t := fun s =>
  mk_sched_stats (direct_switches s) (full_scheds s) (preempts s) (ipc_msgs s) (ticks s)
    (affinity_hits s) (affinity_misses s) (timer_traps s) (kicks_sent s).

(** The scheduler's state.  [thr] is [thread_table] and [idle_thread];
    [current] the per-CPU [current_thread]; [kicks] the interrupts sent to
    other CPUs and [hw_timer] the ticks each CPU's timer is armed for. *)
Record sched := mk_sched {
  thr : tptr -> tcb;
  ready_head : Z -> option tptr;
  ready_tail : Z -> option tptr;
  ready_bitmap : Z;
  wake_inbox : option tptr;
  need_resched : Z -> bool;
  now_ticks : Z;
  armed_ticks : Z -> Z;
  next_deadline : Z;
  sched_stats : sched_stats_t;
  cpu_online : Z -> bool;
  current : Z -> option tptr;
  kicks : list Z;
  hw_timer : Z -> Z
}.
#[export] Instance eta_sched : Eta sched := fun s =>
  mk_sched (thr s) (ready_head s) (ready_tail s) (ready_bitmap s) (wake_inbox s) (need_resched s)
    (now_ticks s) (armed_ticks s) (next_deadline s) (sched_stats s) (cpu_online s) (current s)
    (kicks s) (hw_timer s).

(** [t->f = ...] *)
Definition upd (t : tptr) (f : tcb -> tcb) (s : sched) : sched :=
  s <| thr := <[t := f (thr s t)]> (thr s) |>.
(** [current_thread] on [cpu]; every running CPU has one. *)
Definition current_thread (cpu : Z) (s : sched) : tptr := default (Idle cpu) (current s cpu).
Definition bump (f : sched_stats_t -> sched_stats_t) (s : sched) : sched := s <| sched_stats ::= f |>.

Definition sched_note_deadline (tick : Z) (s : sched) : sched :=
  if tick <? next_deadline s then s <| next_deadline := tick |> else s.

(** ** Ready queues *)
Definition rq_push (t : tptr) (s : sched) : sched :=
  if t_in_ready_q (thr s t) then s
  else
    let s := upd t (fun b => b <| t_in_ready_q := true |> <| t_rq_next := None |>) s in
    let p := t_prio (thr s t) in
    let s := match ready_tail s p with
             | Some x => upd x (fun b => b <| t_rq_next := Some t |>) s
             | None => s <| ready_head := <[p := Some t]> (ready_head s) |>
             end in
    s <| ready_tail := <[p := Some t]> (ready_tail s) |>
      <| ready_bitmap := Z.lor (ready_bitmap s) (u32 (bit p)) |>.

Definition rq_unlink (p : Z) (prev : option tptr) (t : tptr) (s : sched) : sched :=
  let s := match prev with
           | Some x => upd x (fun b => b <| t_rq_next := t_rq_next (thr s t) |>) s
           | None => s <| ready_head := <[p := t_rq_next (thr s t)]> (ready_head s) |>
           end in
  let s := if bool_decide (ready_tail s p = Some t)
           then s <| ready_tail := <[p := prev]> (ready_tail s) |> else s in
  let s := match ready_head s p with
           | None => s <| ready_bitmap := Z.land (ready_bitmap s) (not32 (bit p)) |>
           | Some _ => s
           end in
  upd t (fun b => b <| t_in_ready_q := false |> <| t_rq_next := None |>) s.

(** [31 - __builtin_clz(x)] *)
Definition highest_bit (x : Z) : Z := Z.log2 x.

Fixpoint rq_pop_loop (fuel : nat) (preferred_cpu : Z) (s : sched) : option tptr * sched :=
  match fuel with
  | O => (None, s)
  | S fuel =>
      if negb (tru (ready_bitmap s)) then (None, s)
      else
        let p := highest_bit (ready_bitmap s) in
        match ready_head s p with
        | None => (None, s)
        | Some t =>
            let s := rq_unlink p None t s in
            if st_eqb (t_state (thr s t)) THREAD_STATE_READY then
              let s :=
                if t_last_cpu (thr s t) =? preferred_cpu
                then bump (fun st => st <| affinity_hits := u64 (affinity_hits st + 1) |>) s
                else if negb (t_last_cpu (thr s t) =? U32_MAX)
                then bump (fun st => st <| affinity_misses := u64 (affinity_misses st + 1) |>) s
                else s in
              (Some t, s)
            else rq_pop_loop fuel preferred_cpu s
        end
  end.
(** At most the 64 threads of the table are queued. *)
Definition rq_fuel : nat := 65.
Definition rq_pop_highest (preferred_cpu : Z) (s : sched) : option tptr * sched :=
  rq_pop_loop rq_fuel preferred_cpu s.

(** ** Waking *)

(** The loop that interrupts the CPUs running something less important. *)
Definition kick_cpus (cpu : Z) (t : tptr) (s : sched) : sched :=
  for_range MAX_CPUS (fun c s =>
    if c =? cpu then s
    else if negb (cpu_online s c) then s
    else if armed_ticks s c <=? SCHED_TIMESLICE_TICKS then s
    else match current s c with
    | Some other_current =>
        if t_prio (thr s t) >? t_prio (thr s other_current) then
          bump (fun st => st <| kicks_sent := u64 (kicks_sent st + 1) |>) (s <| kicks ::= fun l => c :: l |>)
        else s
    | None => s
    end) s.

Definition sched_wake (cpu : Z) (t : tptr) (s : sched) : sched :=
  let b := thr s t in
  if st_eqb (t_state b) THREAD_STATE_DEAD || st_eqb (t_state b) THREAD_STATE_RUNNING ||
     st_eqb (t_state b) THREAD_STATE_ZOMBIE then s
  else if st_eqb (t_state b) THREAD_STATE_READY && t_in_ready_q b then s
  else
    let s := upd t (fun b => b <| t_state := THREAD_STATE_READY |>) s in
    let s := if t_in_ready_q (thr s t) then s
             else (upd t (fun b => b <| t_inbox_next := wake_inbox s |>) s) <| wake_inbox := Some t |> in
    let s := if t_prio (thr s t) >? t_prio (thr s (current_thread cpu s))
             then s <| need_resched := <[cpu := true]> (need_resched s) |> else s in
    kick_cpus cpu t s.

Fixpoint drain_loop (fuel : nat) (l : option tptr) (s : sched) : sched :=
  match fuel, l with
  | S fuel, Some t =>
      let next := t_inbox_next (thr s t) in
      let s := upd t (fun b => b <| t_inbox_next := None |>) s in
      let s := if st_eqb (t_state (thr s t)) THREAD_STATE_READY then rq_push t s else s in
      drain_loop fuel next s
  | _, _ => s
  end.
Definition drain_inbox (s : sched) : sched :=
  drain_loop rq_fuel (wake_inbox s) (s <| wake_inbox := None |>).

Definition sched_ready_now (t : tptr) (s : sched) : sched :=
  rq_push t (upd t (fun b => b <| t_state := THREAD_STATE_READY |>) s).

Definition sched_direct_switch (cpu : Z) (dest : tptr) (s : sched) : sched :=
  let s := upd dest (fun b => b <| t_state := THREAD_STATE_RUNNING |> <| t_last_cpu := cpu |>) s in
  bump (fun st => st <| direct_switches := u64 (direct_switches st + 1) |>)
    (s <| current := <[cpu := Some dest]> (current s) |>).

Definition sched_block (cpu : Z) (why : thread_state_t) (s : sched) : sched :=
  upd (current_thread cpu s) (fun b => b <| t_state := why |>) s.

Definition sched_yield (cpu : Z) (s : sched) : sched :=
  s <| need_resched := <[cpu := true]> (need_resched s) |>.
Definition sched_request_resched (cpu : Z) (s : sched) : sched :=
  s <| need_resched := <[cpu := true]> (need_resched s) |>.

Definition sched_sleep (cpu n : Z) (s : sched) : sched :=
  if n =? 0 then sched_yield cpu s
  else
    let wake_at := u64 (now_ticks s + n) in
    let s := upd (current_thread cpu s)
               (fun b => b <| t_wake_at_tick := wake_at |> <| t_state := THREAD_STATE_SLEEPING |>) s in
    if wake_at <? next_deadline s then s <| next_deadline := wake_at |> else s.

(** ** The choice of the next thread *)
(** The thread that was running goes back to its queue. *)
Definition requeue_prev (cpu : Z) (s : sched) : sched :=
  let prev := current_thread cpu s in
  if tptr_eqb prev (Idle cpu) then upd prev (fun b => b <| t_state := THREAD_STATE_READY |>) s
  else
    let s := if st_eqb (t_state (thr s prev)) THREAD_STATE_RUNNING
             then upd prev (fun b => b <| t_state := THREAD_STATE_READY |>) s else s in
    if st_eqb (t_state (thr s prev)) THREAD_STATE_READY then rq_push prev s else s.

Definition schedule (cpu : Z) (s : sched) : sched :=
  let s := requeue_prev cpu (drain_inbox s) in
  let '(n, s) := rq_pop_highest cpu s in
  let n := default (Idle cpu) n in
  let s := upd n (fun b => b <| t_state := THREAD_STATE_RUNNING |> <| t_last_cpu := cpu |>) s in
  let s := if t_timeslice_left (thr s n) <=? 0
           then upd n (fun b => b <| t_timeslice_left := SCHED_TIMESLICE_TICKS |>) s else s in
  let s := s <| current := <[cpu := Some n]> (current s) |>
             <| need_resched := <[cpu := false]> (need_resched s) |> in
  bump (fun st => st <| full_scheds := u64 (full_scheds st + 1) |>) s.

(** ** Ticks and deadlines *)
Definition sched_tick_local (cpu n : Z) (s : sched) : sched :=
  let cur := current_thread cpu s in
  if negb (tptr_eqb cur (Idle cpu)) then
    let s := upd cur (fun b => b <| t_timeslice_left := i32 (t_timeslice_left b - i32 n) |>) s in
    if t_timeslice_left (thr s cur) <=? 0 then
      bump (fun st => st <| preempts := u64 (preempts st + 1) |>)
        (s <| need_resched := <[cpu := true]> (need_resched s) |>)
    else s
  else s.

(** The scan of the sleepers when a deadline has passed. *)
Definition wake_sleepers (cpu : Z) (s : sched) : sched :=
  for_range (SCHED_MAX_THREADS - 1) (fun i s =>
    let t := Thr (i + 1) in
    if negb (st_eqb (t_state (thr s t)) THREAD_STATE_SLEEPING) then s
    else if t_wake_at_tick (thr s t) <=? now_ticks s then sched_wake cpu t s
    else if t_wake_at_tick (thr s t) <? next_deadline s
    then s <| next_deadline := t_wake_at_tick (thr s t) |>
    else s) (s <| next_deadline := U64_MAX |>).

Definition sched_now (s : sched) : Z := now_ticks s.

(** The ticks [cpu] arms its timer for. *)
Definition arm_ticks (cpu : Z) (s : sched) : Z :=
  let cur := current_thread cpu s in
  let n := if tptr_eqb cur (Idle cpu) then SCHED_MAX_ARM_TICKS
           else if t_timeslice_left (thr s cur) >? 0 then t_timeslice_left (thr s cur) else 1 in
  let n := if (cpu =? 0) && negb (next_deadline s =? U64_MAX) then
             let sleeper_ticks := if next_deadline s >? now_ticks s
                                  then next_deadline s - now_ticks s else 1 in
             if sleeper_ticks <? n then sleeper_ticks else n
           else n in
  let n := if n >? SCHED_MAX_ARM_TICKS then SCHED_MAX_ARM_TICKS else n in
  if n <? 1 then 1 else n.
Definition sched_arm_next_deadline (cpu : Z) (s : sched) : sched :=
  let n := arm_ticks cpu s in
  s <| armed_ticks := <[cpu := n]> (armed_ticks s) |> <| hw_timer := <[cpu := n]> (hw_timer s) |>.

(** ** Threads *)
Section threads.
(** Link-time and hardware facts: the address of [idle_entry] and of the idle
    stacks' ends, the names, and the FPU's reset state. *)
Context (idle_entry : Z) (idle_stack_end : Z -> Z) (idle_name : Z -> list Z) (fpu_default : list Z).

Notation IDLE_STACK_SIZE := (2048)%Z (only parsing).
Definition init_idle_for_this_cpu (cpu : Z) (s : sched) : sched :=
  let s := upd (Idle cpu) (fun b =>
    b <| t_state := THREAD_STATE_READY |> <| t_prio := 0 |> <| t_name := idle_name cpu |>
      <| t_uctx := arch_uctx_init idle_entry (idle_stack_end cpu) |>
      <| t_kstack_top := idle_stack_end cpu |> <| t_kstack_size := IDLE_STACK_SIZE |>) s in
  s <| current := <[cpu := Some (Idle cpu)]> (current s) |>.

Definition sched_init (cpu : Z) (s : sched) : sched :=
  let s := for_range SCHED_MAX_THREADS (fun i s =>
    upd (Thr i) (fun b => b <| t_tid := i |> <| t_state := THREAD_STATE_DEAD |>) s) s in
  init_idle_for_this_cpu cpu s.

(** [memset] and the assignments of [alloc_tcb]. *)
Definition fresh_tcb (tid prio : Z) (name : list Z) : tcb :=
  tcb_zero <| t_tid := tid |> <| t_name := name |> <| t_prio := prio |> <| t_pgid := tid |>
    <| t_sid := tid |> <| t_timeslice_left := SCHED_TIMESLICE_TICKS |> <| t_last_cpu := U32_MAX |>
    <| t_fpu_state := fpu_default |>.

Definition alloc_tcb (name : list Z) (prio : Z) (s : sched) : option tptr * sched :=
  match find_first (SCHED_MAX_THREADS - 1) (fun i => st_eqb (t_state (thr s (Thr (i + 1)))) THREAD_STATE_DEAD) with
  | Some i =>
      let t := Thr (i + 1) in
      (Some t, upd t (fun b => fresh_tcb (t_tid b) prio name) s)
  | None => (None, s)
  end.

Definition thread_create (name : list Z) (entry stack_top prio : Z) (s : sched) : option tptr * sched :=
  match alloc_tcb name prio s with
  | (Some t, s) =>
      (Some t, sched_ready_now t (upd t (fun b =>
         b <| t_uctx := arch_uctx_init entry stack_top |> <| t_kstack_top := stack_top |>
           <| t_kstack_size := STACK_SIZE |>) s))
  | (None, s) => (None, s)
  end.

Definition thread_create_user_locked (name : list Z) (entry user_stack_top prio address_space pager_tid : Z)
    (s : sched) : option tptr * sched :=
  match alloc_tcb name prio s with
  | (Some t, s) =>
      (Some t, sched_ready_now t (upd t (fun b =>
         b <| t_address_space := address_space |> <| t_pager_tid := pager_tid |>
           <| t_uctx := arch_uctx_init_user entry user_stack_top |>) s))
  | (None, s) => (None, s)
  end.

Definition thread_create_user_argv_locked (name : list Z) (entry user_stack_top prio address_space pager_tid
    argc argv envp heap_base spawn_info : Z) (s : sched) : option tptr * sched :=
  match alloc_tcb name prio s with
  | (Some t, s) =>
      (Some t, sched_ready_now t (upd t (fun b =>
         b <| t_address_space := address_space |> <| t_pager_tid := pager_tid |>
           <| t_uctx := arch_uctx_init_user_argv entry user_stack_top argc argv envp heap_base spawn_info |>) s))
  | (None, s) => (None, s)
  end.

Definition thread_create_forked_locked (name : list Z) (address_space pager_tid prio : Z) (parent : tptr)
    (s : sched) : option tptr * sched :=
  match alloc_tcb name prio s with
  | (Some t, s) =>
      let p := thr s parent in
      (Some t, sched_ready_now t (upd t (fun b =>
         b <| t_address_space := address_space |> <| t_pager_tid := pager_tid |> <| t_uctx := t_uctx p |>
           <| t_fs_base := t_fs_base p |> <| t_fpu_state := t_fpu_state p |>) s))
  | (None, s) => (None, s)
  end.

End threads.

Definition sched_get_tcb (tid : Z) (s : sched) : option tptr :=
  if (tid =? 0) || (tid >=? SCHED_MAX_THREADS) then None
  else
    let st := t_state (thr s (Thr tid)) in
    if st_eqb st THREAD_STATE_DEAD || st_eqb st THREAD_STATE_ZOMBIE then None else Some (Thr tid).

(** The outputs: state, priority, exit status, parent and name. *)
Definition sched_thread_info (tid : Z) (s : sched) : option (thread_state_t * Z * Z * Z * list Z) :=
  if (tid =? 0) || (tid >=? SCHED_MAX_THREADS) then None
  else
    let t := thr s (Thr tid) in
    if st_eqb (t_state t) THREAD_STATE_DEAD then None
    else Some (t_state t, t_prio t, t_exit_status t, t_parent_tid t, t_name t).

(** The first zombie child matching the filter, and whether a live one exists. *)
Definition sched_find_zombie_child (parent filter : Z) (s : sched) : option tptr * bool :=
  for_range (SCHED_MAX_THREADS - 1) (fun i '(found, live) =>
    let w := thr s (Thr (i + 1)) in
    if negb (t_parent_tid w =? parent) then (found, live)
    else if tru filter && negb (t_tid w =? filter) then (found, live)
    else if st_eqb (t_state w) THREAD_STATE_ZOMBIE then
      (match found with None => Some (Thr (i + 1)) | Some _ => found end, live)
    else if negb (st_eqb (t_state w) THREAD_STATE_DEAD) then (found, true)
    else (found, live)) (None, false).

Definition sched_reap_zombie (t : tptr) (s : sched) : sched :=
  upd t (fun b => b <| t_state := THREAD_STATE_DEAD |>) s.

(** ** Specification *)
Definition valid (t : tptr) : Prop := exists i, t = Thr i /\ 0 <= i < SCHED_MAX_THREADS.
Definition prio_ok (p : Z) : Prop := 0 <= p < SCHED_PRIO_LEVELS.

(** [qs p] is the list the ready queue of priority [p] stands for. *)
Record sched_inv (s : sched) (qs : Z -> list tptr) : Prop := {
  si_queue p : prio_ok p ->
    queue (fun x => t_rq_next (thr s x)) (ready_head s p) (ready_tail s p) (qs p);
  si_bits : 0 <= ready_bitmap s < 2 ^ 32;
  si_bit p : prio_ok p -> Z.testbit (ready_bitmap s) p = true <-> qs p <> [];
  si_mem t p : prio_ok p -> t ∈ qs p -> t_in_ready_q (thr s t) = true /\ t_prio (thr s t) = p /\ valid t;
  si_in t : valid t -> t_in_ready_q (thr s t) = true -> t ∈ qs (t_prio (thr s t));
  si_prio t : valid t -> prio_ok (t_prio (thr s t))
}.

(** [l] is the wake inbox. *)
Definition inbox (s : sched) (l : list tptr) : Prop :=
  links (fun x => t_inbox_next (thr s x)) (wake_inbox s) l /\ NoDup l /\ Forall valid l.

(** ** Updates of one thread *)
Lemma upd_thr t f s x : thr (upd t f s) x = if decide (x = t) then f (thr s t) else thr s x.
Proof.
  unfold upd. rsimpl. destruct (decide (x = t)) as [->|]; [by rewrite fn_lookup_insert|by rewrite fn_lookup_insert_ne].
Qed.
Lemma upd_same t f s : thr (upd t f s) t = f (thr s t).
Proof. by rewrite upd_thr, decide_True. Qed.
Lemma upd_ne t f s x : x <> t -> thr (upd t f s) x = thr s x.
Proof. intros. by rewrite upd_thr, decide_False. Qed.

(** The fields the ready queues live in. *)
Definition same_rq (a b : tcb) : Prop :=
  t_rq_next b = t_rq_next a /\ t_in_ready_q b = t_in_ready_q a /\ t_prio b = t_prio a.

Lemma sched_inv_ext s s' qs :
  (forall x, same_rq (thr s x) (thr s' x)) ->
  (forall p, ready_head s' p = ready_head s p) -> (forall p, ready_tail s' p = ready_tail s p) ->
  ready_bitmap s' = ready_bitmap s -> sched_inv s qs -> sched_inv s' qs.
Proof.
  intros Hx Hh Ht Hb [Hq Hbs Hbit Hm Hin Hp]. split; [|by rewrite Hb| | | |].
  - intros p Hpp. rewrite Hh, Ht. destruct (Hq p Hpp) as (Hl & Hl2). split; [|done].
    apply (links_ext _ _ _ _ (fun x _ => proj1 (Hx x)) Hl).
  - intros p Hpp. rewrite Hb. by apply Hbit.
  - intros t p Hpp Ht'. destruct (Hx t) as (_ & -> & ->). by apply Hm.
  - intros t Hv. destruct (Hx t) as (_ & -> & ->). by apply Hin.
  - intros t Hv. destruct (Hx t) as (_ & _ & ->). by apply Hp.
Qed.

Lemma sched_inv_upd t f s qs :
  same_rq (thr s t) (f (thr s t)) -> sched_inv s qs -> sched_inv (upd t f s) qs.
Proof.
  intros Hf. apply sched_inv_ext; [|done|done|done].
  intros x. rewrite upd_thr. destruct (decide (x = t)) as [->|]; [done|]. by split.
Qed.

(** ** Ready queues *)
Lemma testbit_lor_bit m p j : 0 <= p -> Z.testbit (Z.lor m (bit p)) j = Z.testbit m j || (p =? j).
Proof. intros. by rewrite Z.lor_spec, bit_testbit. Qed.

Lemma testbit_clear32 m p j :
  0 <= p < 32 -> 0 <= j < 32 -> Z.testbit (Z.land m (not32 (bit p))) j = Z.testbit m j && negb (p =? j).
Proof.
  intros. rewrite Z.land_spec. unfold not32, u32. rewrite Z.mod_pow2_bits_low by lia.
  rewrite Z.lnot_spec, bit_testbit by lia. done.
Qed.

Lemma u32_bit p : 0 <= p < 32 -> u32 (bit p) = bit p.
Proof. intros. apply u32_small. apply bit_range. lia. Qed.

(** What [rq_push] writes. *)
Record pushed (t : tptr) (s s' : sched) : Prop := {
  pu_head p : ready_head s' p =
    if decide (p = t_prio (thr s t)) then
      match ready_tail s p with None => Some t | Some _ => ready_head s p end
    else ready_head s p;
  pu_tail p : ready_tail s' p = if decide (p = t_prio (thr s t)) then Some t else ready_tail s p;
  pu_bits : ready_bitmap s' = Z.lor (ready_bitmap s) (u32 (bit (t_prio (thr s t))));
  pu_in x : t_in_ready_q (thr s' x) = if decide (x = t) then true else t_in_ready_q (thr s x);
  pu_prio x : t_prio (thr s' x) = t_prio (thr s x);
  pu_next x : t_rq_next (thr s' x) =
    if decide (x = t) then None
    else if decide (ready_tail s (t_prio (thr s t)) = Some x) then Some t else t_rq_next (thr s x)
}.

Lemma rq_push_writes t s :
  t_in_ready_q (thr s t) = false -> ready_tail s (t_prio (thr s t)) <> Some t -> pushed t s (rq_push t s).
Proof.
  intros Er Htl. unfold rq_push. rewrite Er. cbv zeta. rewrite upd_same. rsimpl.
  set (p := t_prio (thr s t)) in *.
  change (ready_tail (upd t _ s)) with (ready_tail s).
  destruct (ready_tail s p) as [y|] eqn:Ey; split; intros; fold p; rsimpl;
    rewrite ?fn_lookup_insert, ?Ey; unfold upd; rsimpl; try done.
  all: try (destruct (decide (p0 = p)) as [->|]; [by rewrite ?Ey, ?fn_lookup_insert|by rewrite ?fn_lookup_insert_ne by congruence]).
  all: try (destruct (decide (x = t)) as [->|]; [|by rewrite fn_lookup_insert_ne by congruence]; by rewrite fn_lookup_insert; rsimpl).
  all: destruct (decide (y = x)) as [->|]; rewrite ?fn_lookup_insert, ?(fn_lookup_insert_ne _ y x) by done; rsimpl;
    (destruct (decide (x = t)) as [->|]; [try done|]); rewrite ?(fn_lookup_insert_ne _ t x) by congruence;
    rewrite ?fn_lookup_insert; rsimpl; try done.
  - by rewrite decide_True.
  - rewrite decide_False by congruence. done.
Qed.

(** Members of different queues are different; a tail is a member. *)
Lemma si_tail s qs p x : sched_inv s qs -> prio_ok p -> ready_tail s p = Some x -> x ∈ qs p.
Proof.
  intros Hs Hp Hx. destruct (si_queue _ _ Hs p Hp) as (_ & Hl & _). rewrite Hx in Hl. by apply last_elem.
Qed.

Lemma si_disjoint s qs p p' x : sched_inv s qs -> prio_ok p -> prio_ok p' -> x ∈ qs p -> x ∈ qs p' -> p = p'.
Proof.
  intros Hs Hp Hp' Hx Hx'. destruct (si_mem _ _ Hs x p Hp Hx) as (_ & <- & _).
  by destruct (si_mem _ _ Hs x p' Hp' Hx') as (_ & <- & _).
Qed.

(** The list side of a push. *)
Definition push (qs : Z -> list tptr) (p : Z) (t : tptr) : Z -> list tptr := <[p := qs p ++ [t]]> qs.

Lemma pushed_queue t s s' qs p :
  sched_inv s qs -> valid t -> t_in_ready_q (thr s t) = false -> pushed t s s' -> prio_ok p ->
  queue (fun x => t_rq_next (thr s' x)) (ready_head s' p) (ready_tail s' p) (push qs (t_prio (thr s t)) t p).
Proof.
  intros Hs Hv Er [Hh Ht Hb Hi Hp Hn] Hpp. set (pt := t_prio (thr s t)) in *. unfold push.
  assert (Hnot : forall p, prio_ok p -> t ∉ qs p).
  { intros p' Hp' Hx. destruct (si_mem _ _ Hs t p' Hp' Hx) as [He _]. congruence. }
  rewrite Hh, Ht. destruct (decide (p = pt)) as [->|Hne].
  - rewrite fn_lookup_insert.
    apply (queue_snoc (fun x => t_rq_next (thr s x))); [by apply (si_queue _ _ Hs)|by apply Hnot|..].
    + by rewrite Hn, decide_True.
    + intros x Hx. rewrite Hn, decide_False, decide_True; [done|done|].
      intros ->. by apply (Hnot pt Hpp), (si_tail s).
    + intros x Hx Hxt. rewrite Hn, decide_False by (intros ->; by apply (Hnot pt Hpp)).
      by rewrite decide_False by congruence.
  - rewrite fn_lookup_insert_ne by congruence. destruct (si_queue _ _ Hs p Hpp) as (Hl & Hl2). split; [|done].
    apply (links_ext (fun x => t_rq_next (thr s x))); [|done]. intros x Hx.
    rewrite Hn, decide_False by (intros ->; by apply (Hnot p Hpp)).
    rewrite decide_False; [done|]. intros Hx'. apply Hne.
    apply (si_disjoint s qs p pt x Hs Hpp); [by apply (si_prio _ _ Hs)|done|].
    apply (si_tail s); [done|by apply (si_prio _ _ Hs)|done].
Qed.

Lemma pushed_inv t s s' qs :
  sched_inv s qs -> valid t -> t_in_ready_q (thr s t) = false -> pushed t s s' ->
  sched_inv s' (push qs (t_prio (thr s t)) t).
Proof.
  intros Hs Hv Er Hpu. pose proof (si_prio _ _ Hs t Hv) as Hpt. split.
  - intros p Hp. by apply pushed_queue.
  - rewrite (pu_bits _ _ _ Hpu), u32_bit by done. apply lor_range; [lia|by apply Hs|apply bit_range, Hpt].
  - intros p Hp. rewrite (pu_bits _ _ _ Hpu), u32_bit by done. rewrite testbit_lor_bit by apply Hpt.
    unfold push. destruct (decide (t_prio (thr s t) = p)) as [<-|Hne].
    + rewrite Z.eqb_refl, orb_true_r, fn_lookup_insert. split; [|done]. intros _ E. by apply app_nil in E as [_ ?].
    + replace (_ =? p) with false by lia. rewrite orb_false_r, fn_lookup_insert_ne by done. by apply Hs.
  - intros x p Hp Hx. rewrite (pu_in _ _ _ Hpu), (pu_prio _ _ _ Hpu). unfold push in Hx.
    destruct (decide (t_prio (thr s t) = p)) as [<-|Hne].
    + rewrite fn_lookup_insert in Hx. apply elem_of_app in Hx as [Hx| ->%list_elem_of_singleton].
      * destruct (si_mem _ _ Hs x _ Hp Hx) as (-> & ? & ?). by destruct (decide _).
      * by rewrite decide_True.
    + rewrite fn_lookup_insert_ne in Hx by done.
      destruct (si_mem _ _ Hs x p Hp Hx) as (-> & ? & ?). by destruct (decide _).
  - intros x Hvx. rewrite (pu_in _ _ _ Hpu), (pu_prio _ _ _ Hpu). unfold push. intros Hq.
    destruct (decide (x = t)) as [->|].
    + rewrite fn_lookup_insert. apply elem_of_app. right. by left.
    + pose proof (si_in _ _ Hs x Hvx Hq) as Hx. destruct (decide (t_prio (thr s t) = t_prio (thr s x))) as [E|].
      * rewrite E, fn_lookup_insert. apply elem_of_app. by left.
      * by rewrite fn_lookup_insert_ne.
  - intros x Hvx. rewrite (pu_prio _ _ _ Hpu). by apply Hs.
Qed.

Lemma rq_push_inv t s qs :
  valid t -> sched_inv s qs ->
  sched_inv (rq_push t s) (if t_in_ready_q (thr s t) then qs else push qs (t_prio (thr s t)) t).
Proof.
  intros Hv Hs. destruct (t_in_ready_q (thr s t)) eqn:Er; [unfold rq_push; by rewrite Er|].
  apply (pushed_inv t s); [done|done|done|]. apply rq_push_writes; [done|]. intros Htl.
  pose proof (si_prio _ _ Hs t Hv) as Hp.
  destruct (si_mem _ _ Hs t _ Hp (si_tail _ _ _ _ Hs Hp Htl)) as [He _]. congruence.
Qed.

(** What unlinking the head of queue [p] writes. *)
Lemma rq_unlink_writes p t s :
  let s' := rq_unlink p None t s in
  (forall q, ready_head s' q = if decide (q = p) then t_rq_next (thr s t) else ready_head s q) /\
  (forall q, ready_tail s' q = if decide (q = p /\ ready_tail s p = Some t) then None else ready_tail s q) /\
  ready_bitmap s' = (match t_rq_next (thr s t) with
                     | None => Z.land (ready_bitmap s) (not32 (bit p)) | Some _ => ready_bitmap s end) /\
  (forall x, thr s' x =
     if decide (x = t) then (thr s t) <| t_in_ready_q := false |> <| t_rq_next := None |> else thr s x).
Proof.
  intros s'. unfold s', rq_unlink. cbv zeta. rsimpl.
  case_bool_decide as Eb; rsimpl; rewrite fn_lookup_insert;
    destruct (t_rq_next (thr s t)) eqn:En; (split; [|split; [|split; [by unfold upd; rsimpl|]]]);
    intros q; rewrite ?upd_thr; unfold upd; rsimpl; try done;
    try (destruct (decide (q = p)) as [->|]; [by rewrite fn_lookup_insert|by rewrite fn_lookup_insert_ne by congruence]).
  all: destruct (decide (q = p)) as [->|Hne]; [rewrite ?fn_lookup_insert|rewrite ?fn_lookup_insert_ne by congruence].
  all: destruct (decide (_ /\ _)) as [[? ?]|?]; naive_solver.
Qed.

(** Unlinking the head of a queue. *)
Lemma rq_unlink_inv p t l s qs :
  sched_inv s qs -> prio_ok p -> qs p = t :: l -> sched_inv (rq_unlink p None t s) (<[p := l]> qs).
Proof.
  intros Hs Hp Eq. destruct (rq_unlink_writes p t s) as (Hh & Ht & Hb & Hx).
  set (s' := rq_unlink p None t s) in *. clearbody s'.
  pose proof (si_queue _ _ Hs p Hp) as Hq. rewrite Eq in Hq. pose proof Hq as ([Hhd Hln] & Htl & Hnd).
  apply list.NoDup_cons in Hnd as [Htn _].
  assert (Hl0 : t_rq_next (thr s t) = None <-> l = []) by (destruct l; [done|destruct Hln as [-> _]; done]).
  assert (Hst : forall x, x <> t -> same_rq (thr s x) (thr s' x)) by (intros x Hxt; rewrite Hx, decide_False; done).
  assert (Hmt : forall p', prio_ok p' -> t ∈ qs p' -> p' = p).
  { intros p' Hp' Hin. apply (si_disjoint s qs p' p t); [done..|]. rewrite Eq. by left. }
  split.
  - intros p' Hp'. rewrite Hh, Ht. destruct (decide (p' = p)) as [->|Hne].
    + rewrite fn_lookup_insert.
      pose proof (queue_remove _ (fun x => t_rq_next (thr s' x)) _ _ [] t l Hq) as Hrem.
      replace (if decide _ then None else ready_tail s p) with (match l with [] => list.last [] | _ => ready_tail s p end).
      { apply Hrem; [done|]. intros x Hxl _. apply Hst. by intros ->. }
      rewrite Htl. destruct l as [|y l]; [by rewrite decide_True|]. rewrite decide_False; [done|].
      intros [_ He]. rewrite list.last_cons_cons in He. apply Htn. by apply last_elem.
    + rewrite fn_lookup_insert_ne by congruence. rewrite decide_False by naive_solver.
      destruct (si_queue _ _ Hs p' Hp') as (Hl & Hl2). split; [|done].
      apply (links_ext (fun x => t_rq_next (thr s x))); [|done]. intros x Hxl. apply Hst.
      intros ->. apply Hne. by apply Hmt.
  - rewrite Hb. destruct (t_rq_next _); [by apply Hs|]. apply land_range; [lia|]. by apply Hs.
  - intros p' Hp'. rewrite Hb. destruct (decide (p' = p)) as [->|Hne].
    + rewrite fn_lookup_insert. destruct (t_rq_next (thr s t)) eqn:En.
      * rewrite (si_bit _ _ Hs p Hp), Eq. split; [|done]. intros _ Hl. by apply Hl0 in Hl.
      * rewrite testbit_clear32, Z.eqb_refl, andb_false_r by done. split; [done|]. intros Hl. destruct Hl. by apply Hl0.
    + rewrite fn_lookup_insert_ne by congruence. rewrite <- (si_bit _ _ Hs p' Hp').
      destruct (t_rq_next _); [done|]. rewrite testbit_clear32 by done. replace (p =? p') with false by lia.
      by rewrite andb_true_r.
  - intros x p' Hp' Hxl.
    assert (Hxq : x ∈ qs p' /\ x <> t).
    { destruct (decide (p' = p)) as [->|Hne]; [rewrite fn_lookup_insert in Hxl|rewrite fn_lookup_insert_ne in Hxl by congruence].
      - split; [rewrite Eq; by right|]. by intros ->.
      - split; [done|]. intros ->. apply Hne. by apply Hmt. }
    destruct Hxq as [Hxq Hxt]. destruct (Hst x Hxt) as (_ & -> & ->). by apply Hs.
  - intros x Hvx. rewrite Hx. destruct (decide (x = t)) as [->|Hxt]; [rsimpl; done|]. intros Hiq.
    pose proof (si_in _ _ Hs x Hvx Hiq) as Hin. destruct (decide (t_prio (thr s x) = p)) as [E|].
    + rewrite E, fn_lookup_insert. rewrite E, Eq in Hin. by apply elem_of_cons in Hin as [->|?].
    + by rewrite fn_lookup_insert_ne by congruence.
  - intros x Hvx. rewrite Hx. destruct (decide (x = t)) as [->|]; rsimpl; by apply Hs.
Qed.

(** ** The pop *)
Definition is_ready (s : sched) (t : tptr) : Prop := t_state (thr s t) = THREAD_STATE_READY.

(** [t] is the first ready thread of the highest priority that has one; the
    stale entries before it are dropped. *)
Definition pop_spec (rdy : tptr -> Prop) (qs : Z -> list tptr) (r : option tptr) (qs' : Z -> list tptr) : Prop :=
  match r with
  | None => forall p, prio_ok p -> Forall (fun t => ~ rdy t) (qs p) /\ qs' p = []
  | Some t => exists p skip, prio_ok p /\ qs p = skip ++ t :: qs' p /\ rdy t /\
      Forall (fun t => ~ rdy t) skip /\
      (forall p', prio_ok p' -> p < p' -> Forall (fun t => ~ rdy t) (qs p') /\ qs' p' = []) /\
      (forall p', prio_ok p' -> p' < p -> qs' p' = qs p')
  end.

(** Only queue links and membership flags of threads change. *)
Definition unq (b : tcb) : tcb := b <| t_in_ready_q := false |> <| t_rq_next := None |>.
Record pop_frame (s s' : sched) : Prop := {
  pf_thr x : thr s' x = thr s x \/ thr s' x = unq (thr s x);
  pf_inbox : wake_inbox s' = wake_inbox s;
  pf_resched : need_resched s' = need_resched s;
  pf_current : current s' = current s;
  pf_deadline : next_deadline s' = next_deadline s /\ now_ticks s' = now_ticks s
}.

Lemma pop_frame_refl s : pop_frame s s.
Proof. split; auto. Qed.
Lemma pop_frame_trans a b c : pop_frame a b -> pop_frame b c -> pop_frame a c.
Proof.
  intros [H1 H2 H3 H4 [H5 H6]] [G1 G2 G3 G4 [G5 G6]]. split; [|congruence..|split; congruence].
  intros x. destruct (G1 x) as [->| ->], (H1 x) as [->| ->]; auto.
Qed.

(** How many threads are queued. *)
Definition members (qs : Z -> list tptr) : list tptr := mjoin (qs <$> seqZ 0 SCHED_PRIO_LEVELS).

Lemma elem_of_members qs t : t ∈ members qs <-> exists p, prio_ok p /\ t ∈ qs p.
Proof.
  unfold members. rewrite list_elem_of_join. split.
  - intros (l & Ht & (p & -> & Hp)%list_elem_of_fmap). apply elem_of_seqZ in Hp.
    exists p. split; [unfold prio_ok, SCHED_PRIO_LEVELS in *; lia|done].
  - intros (p & Hp & Ht). exists (qs p). split; [done|]. apply list_elem_of_fmap. exists p. split; [done|].
    apply elem_of_seqZ. unfold prio_ok, SCHED_PRIO_LEVELS in *. lia.
Qed.

Lemma members_update qs p l :
  prio_ok p -> (length (members (<[p := l]> qs)) + length (qs p) = length (members qs) + length l)%nat.
Proof.
  unfold members, prio_ok, SCHED_PRIO_LEVELS. intros Hp.
  replace (seqZ 0 32) with (seqZ 0 p ++ p :: seqZ (p + 1) (31 - p)).
  - rewrite !fmap_app, !fmap_cons, !join_app. cbn [mjoin list_join]. rewrite !length_app, fn_lookup_insert.
    assert (Hsame : forall a n, (forall x, a <= x < a + n -> x <> p) -> (<[p := l]> qs) <$> seqZ a n = qs <$> seqZ a n).
    { intros a n Hne. apply list_fmap_ext. intros _ x Hx%list_elem_of_lookup_2%elem_of_seqZ.
      rewrite fn_lookup_insert_ne; [done|]. intros ->. apply (Hne x); [lia|done]. }
    rewrite !Hsame by lia. lia.
  - rewrite <- (Z.add_0_l p) at 2. replace (31 - p) with (Z.pred (32 - p)) by lia.
    rewrite <- (seqZ_cons (0 + p)) by lia. rewrite <- seqZ_app by lia. f_equal. lia.
Qed.

Lemma NoDup_valid (l : list tptr) : NoDup l -> Forall valid l -> (length l <= 64)%nat.
Proof.
  intros Hnd Hv. assert (Hsub : l ⊆+ (Thr <$> seqZ 0 SCHED_MAX_THREADS)).
  { apply NoDup_submseteq; [done|]. intros x Hx. rewrite list.Forall_forall in Hv.
    destruct (Hv x Hx) as (i & -> & Hi). apply list_elem_of_fmap. exists i. split; [done|].
    apply elem_of_seqZ. lia. }
  apply submseteq_length in Hsub. rewrite length_fmap, length_seqZ in Hsub. exact Hsub.
Qed.

Lemma NoDup_members s qs : sched_inv s qs -> NoDup (members qs) /\ Forall valid (members qs).
Proof.
  intros Hs. split.
  - unfold members. assert (Hok : forall p, p ∈ seqZ 0 SCHED_PRIO_LEVELS -> prio_ok p).
    { intros p Hp%elem_of_seqZ. unfold prio_ok. lia. }
    assert (Hnd : NoDup (seqZ 0 SCHED_PRIO_LEVELS)) by apply NoDup_seqZ.
    revert Hok Hnd. generalize (seqZ 0 SCHED_PRIO_LEVELS). intros ps Hok Hnd.
    induction Hnd as [|p ps Hp Hnd IH]; cbn; [apply list.NoDup_nil; done|]. apply list.NoDup_app.
    split; [apply (si_queue _ _ Hs p), Hok; by left|]. split; [|apply IH; intros; apply Hok; by right].
    intros t Ht (l & Hl & (p' & -> & Hp')%list_elem_of_fmap)%list_elem_of_join. apply Hp.
    rewrite (si_disjoint s qs p p' t Hs); [done|apply Hok; by left|apply Hok; by right|done|done].
  - apply list.Forall_forall. intros t (p & Hp & Ht)%elem_of_members. by apply (si_mem _ _ Hs t p).
Qed.

Lemma members_bound s qs : sched_inv s qs -> (length (members qs) <= 64)%nat.
Proof. intros [? ?]%NoDup_members. by apply NoDup_valid. Qed.

(** A non-zero bitmap points at the highest non-empty queue. *)
Lemma highest_bit_spec s qs :
  sched_inv s qs -> tru (ready_bitmap s) = true ->
  let p := highest_bit (ready_bitmap s) in
  prio_ok p /\ qs p <> [] /\ forall p', prio_ok p' -> p < p' -> qs p' = [].
Proof.
  intros Hs Ht p. pose proof (si_bits _ _ Hs) as Hb. unfold tru in Ht. bools.
  assert (Hp : prio_ok p).
  { unfold prio_ok, SCHED_PRIO_LEVELS, p, highest_bit. split; [apply Z.log2_nonneg|]. apply Z.log2_lt_pow2; lia. }
  split; [done|]. split.
  - apply (si_bit _ _ Hs p Hp). unfold p, highest_bit. apply Z.bit_log2. lia.
  - intros p' Hp' Hlt. destruct (qs p') eqn:E; [done|]. exfalso.
    assert (Hbit : Z.testbit (ready_bitmap s) p' = true) by (apply (si_bit _ _ Hs p' Hp'); by rewrite E).
    rewrite Z.bits_above_log2 in Hbit; [done|lia|exact Hlt].
Qed.

Lemma unlink_frame p t s : pop_frame s (rq_unlink p None t s).
Proof.
  destruct (rq_unlink_writes p t s) as (_ & _ & _ & Hx).
  split; [intros x; rewrite Hx; destruct (decide (x = t)) as [->|]; auto|..];
    unfold rq_unlink, upd; cbv zeta; rsimpl; repeat (break_if || break_match); by rsimpl.
Qed.

Lemma pf_state s s' x : pop_frame s s' -> t_state (thr s' x) = t_state (thr s x).
Proof. intros H. destruct (pf_thr _ _ H x) as [->| ->]; [done|]. unfold unq. by rsimpl. Qed.

Lemma pf_prio s s' x : pop_frame s s' -> t_prio (thr s' x) = t_prio (thr s x).
Proof. intros H. destruct (pf_thr _ _ H x) as [->| ->]; [done|]. unfold unq. by rsimpl. Qed.

Lemma pop_spec_iff (P Q : tptr -> Prop) qs r qs' :
  (forall t, P t <-> Q t) -> pop_spec P qs r qs' -> pop_spec Q qs r qs'.
Proof.
  intros Hpq. assert (Hf : forall l, Forall (fun t => ~ P t) l -> Forall (fun t => ~ Q t) l).
  { intros l. rewrite !list.Forall_forall. intros H t Ht. rewrite <- Hpq. by apply H. }
  destruct r as [t|]; cbn; [|intros H p Hp; destruct (H p Hp); auto].
  intros (p & skip & H1 & H2 & H3 & H4 & H5 & H6). exists p, skip. rewrite <- Hpq.
  split; [done|]. split; [done|]. split; [done|]. split; [auto|]. split; [|done].
  intros p' Hp' Hlt. destruct (H5 p' Hp' Hlt). auto.
Qed.

(** Dropping a stale head does not change what is popped. *)
Lemma pop_spec_stale rdy qs p t l r qs' :
  prio_ok p -> qs p = t :: l -> (forall p', prio_ok p' -> p < p' -> qs p' = []) -> ~ rdy t ->
  pop_spec rdy (<[p := l]> qs) r qs' -> pop_spec rdy qs r qs'.
Proof.
  intros Hp Eq Htop Hnr. destruct r as [u|]; cbn.
  - intros (p1 & skip & H1 & H2 & H3 & H4 & H5 & H6).
    destruct (decide (p1 = p)) as [->|Hne].
    + rewrite fn_lookup_insert in H2. exists p, (t :: skip). rewrite Eq, H2.
      split; [done|]. split; [done|]. split; [done|]. split; [by apply Forall_cons_2|].
      split; intros p' Hp' Hlt; [specialize (H5 p' Hp' Hlt)|specialize (H6 p' Hp' Hlt)];
        by rewrite fn_lookup_insert_ne in * by lia.
    + rewrite fn_lookup_insert_ne in H2 by done. exists p1, skip. do 4 (split; [done|]). split.
      * intros p' Hp' Hlt. specialize (H5 p' Hp' Hlt). destruct (decide (p' = p)) as [->|].
        -- rewrite fn_lookup_insert in H5. rewrite Eq. destruct H5. split; [by apply Forall_cons_2|done].
        -- by rewrite fn_lookup_insert_ne in H5 by done.
      * intros p' Hp' Hlt. rewrite (H6 p' Hp' Hlt), fn_lookup_insert_ne; [done|]. intros <-.
        destruct (Z.lt_trichotomy p p1) as [Hlt'|[|]]; [|done|lia].
        rewrite Htop in H2 by done. by destruct skip.
  - intros H p' Hp'. specialize (H p' Hp'). destruct (decide (p' = p)) as [->|].
    + rewrite fn_lookup_insert in H. rewrite Eq. destruct H. split; [by apply Forall_cons_2|done].
    + by rewrite fn_lookup_insert_ne in H by done.
Qed.

Lemma bump_frame f s : pop_frame s (bump f s) /\ forall qs, sched_inv s qs -> sched_inv (bump f s) qs.
Proof.
  split; [split; auto|]. intros qs. apply sched_inv_ext; [by intros x; split|done|done|done].
Qed.

Lemma pop_loop_spec fuel cpu s qs r s' :
  sched_inv s qs -> (length (members qs) < fuel)%nat -> rq_pop_loop fuel cpu s = (r, s') ->
  exists qs', sched_inv s' qs' /\ pop_spec (is_ready s) qs r qs' /\ pop_frame s s'.
Proof.
  revert s qs. induction fuel as [|fuel IH]; intros s qs Hs Hlen; [lia|]. cbn [rq_pop_loop].
  destruct (tru (ready_bitmap s)) eqn:Ebm; cbn [negb].
  - destruct (highest_bit_spec s qs Hs Ebm) as (Hp & Hne & Htop).
    set (p := highest_bit (ready_bitmap s)) in *. cbv zeta. destruct (qs p) as [|t l] eqn:Eq; [done|].
    pose proof (si_queue _ _ Hs p Hp) as Hq. rewrite Eq in Hq. destruct Hq as ([-> _] & _).
    pose proof (rq_unlink_inv p t l s qs Hs Hp Eq) as Hs1. pose proof (unlink_frame p t s) as Hf1.
    set (s1 := rq_unlink p None t s) in *. clearbody s1. unfold st_eqb. rewrite (pf_state _ _ t Hf1).
    case_bool_decide as Er.
    + intros E. assert (Hb : exists f, s' = bump f s1 /\ r = Some t \/ s' = s1 /\ r = Some t).
      { revert E. repeat break_if; intros [= <- <-]; try (eexists; left; by split); exists id; by right. }
      assert (Hsr : sched_inv s' (<[p := l]> qs) /\ pop_frame s s' /\ r = Some t).
      { destruct Hb as (f & [[-> ->]|[-> ->]]); [destruct (bump_frame f s1) as [Hb Hbi]|]; split_and?; auto.
        by apply (pop_frame_trans s s1). }
      destruct Hsr as (Hi' & Hf' & ->). exists (<[p := l]> qs). split; [done|]. split; [|done].
      exists p, []. rewrite fn_lookup_insert, Eq. do 4 (split; [done|]). split; intros p' Hp' Hlt;
        rewrite fn_lookup_insert_ne by lia; [by rewrite Htop|done].
    + intros E. destruct (IH s1 (<[p := l]> qs) Hs1) as (qs' & Hi' & Hsp & Hf'); [|done|].
      { pose proof (members_update qs p l Hp) as Hm. rewrite Eq in Hm. simpl in Hm. lia. }
      exists qs'. split; [done|]. split; [|by apply (pop_frame_trans s s1)].
      apply (pop_spec_stale _ _ p t l); [done..|].
      apply (pop_spec_iff (is_ready s1)); [|done]. intros x. unfold is_ready. by rewrite (pf_state s s1).
  - intros [= <- <-]. exists qs. split; [done|]. split; [|apply pop_frame_refl]. intros p Hp.
    destruct (qs p) as [|t l] eqn:Eq; [done|]. exfalso. unfold tru in Ebm. bools.
    assert (Hb : Z.testbit (ready_bitmap s) p = true) by (apply (si_bit _ _ Hs p Hp); by rewrite Eq).
    by rewrite Ebm, Z.bits_0 in Hb.
Qed.

(** ** Draining the inbox *)
#[export] Instance is_ready_dec s t : Decision (is_ready s t).
Proof. unfold is_ready. apply _. Defined.

(** The threads of the inbox that join queue [p], in order. *)
Definition arrivals (s : sched) (l : list tptr) (p : Z) : list tptr :=
  filter (fun t => is_ready s t /\ t_in_ready_q (thr s t) = false /\ t_prio (thr s t) = p) l.

Lemma sched_inv_lists s qs qs' :
  (forall p, prio_ok p -> qs' p = qs p) -> sched_inv s qs -> sched_inv s qs'.
Proof.
  intros He [Hq Hbs Hbit Hm Hin Hp]. split; [|done| | | |done].
  - intros p Hpp. rewrite He by done. by apply Hq.
  - intros p Hpp. rewrite He by done. by apply Hbit.
  - intros t p Hpp. rewrite He by done. by apply Hm.
  - intros t Hv Hiq. rewrite He by (by apply Hp). by apply Hin.
Qed.

(** What the queue operations keep of a thread: all but the queue fields. *)
Definition keeps (a b : tcb) : Prop := exists q n i,
  b = a <| t_in_ready_q := q |> <| t_rq_next := n |> <| t_inbox_next := i |>.

Lemma keeps_refl a : keeps a a.
Proof. exists (t_in_ready_q a), (t_rq_next a), (t_inbox_next a). by destruct a. Qed.
Lemma keeps_trans a b c : keeps a b -> keeps b c -> keeps a c.
Proof. intros (q & n & i & ->) (q' & n' & i' & ->). exists q', n', i'. by destruct a. Qed.
Lemma keeps_state a b : keeps a b -> t_state b = t_state a.
Proof. intros (q & n & i & ->). by rsimpl. Qed.
Lemma keeps_prio a b : keeps a b -> t_prio b = t_prio a.
Proof. intros (q & n & i & ->). by rsimpl. Qed.

Lemma rq_push_keeps t s x :
  keeps (thr s x) (thr (rq_push t s) x) /\
  t_inbox_next (thr (rq_push t s) x) = t_inbox_next (thr s x) /\
  (x <> t -> t_in_ready_q (thr (rq_push t s) x) = t_in_ready_q (thr s x)) /\
  t_in_ready_q (thr (rq_push t s) t) = true.
Proof.
  unfold rq_push. destruct (t_in_ready_q (thr s t)) eqn:E; [by split; [apply keeps_refl|]|]. cbv zeta.
  set (s1 := upd t _ s).
  assert (H1 : forall x, keeps (thr s x) (thr s1 x) /\ t_inbox_next (thr s1 x) = t_inbox_next (thr s x) /\
    (x <> t -> t_in_ready_q (thr s1 x) = t_in_ready_q (thr s x)) /\ t_in_ready_q (thr s1 t) = true).
  { intros y. unfold s1. rewrite !upd_thr, (decide_True (P := t = t)) by done. rsimpl.
    destruct (decide (y = t)) as [->|]; rsimpl; [|by split; [apply keeps_refl|]].
    split; [|done]. exists true, None, (t_inbox_next (thr s t)). by destruct (thr s t). }
  clearbody s1. destruct (ready_tail s1 _) as [y|]; rsimpl; [|apply H1].
  rewrite !upd_thr. destruct (decide (x = y)) as [->|].
  - rsimpl. destruct (H1 y) as (Hk & Hn & Hi & Ht). split.
    { apply (keeps_trans _ (thr s1 y)); [done|]. exists (t_in_ready_q (thr s1 y)), (Some t), (t_inbox_next (thr s1 y)).
      by destruct (thr s1 y). }
    split; [done|]. split; [done|]. by destruct (decide (t = y)) as [->|]; rsimpl.
  - destruct (H1 x) as (Hk & Hn & Hi & Ht). do 3 (split; [done|]). by destruct (decide (t = y)) as [->|]; rsimpl.
Qed.

(** The scheduler's other fields. *)
Definition same_rest (s s' : sched) : Prop :=
  need_resched s' = need_resched s /\ current s' = current s /\ now_ticks s' = now_ticks s /\
  next_deadline s' = next_deadline s /\ armed_ticks s' = armed_ticks s /\ cpu_online s' = cpu_online s.
Lemma same_rest_trans a b c : same_rest a b -> same_rest b c -> same_rest a c.
Proof. unfold same_rest. intuition congruence. Qed.

Lemma rq_push_rest t s : same_rest s (rq_push t s) /\ wake_inbox (rq_push t s) = wake_inbox s.
Proof. unfold rq_push, upd. break_if; [by split|]. cbv zeta. rsimpl. by break_match; rsimpl. Qed.

(** One iteration of [drain_loop]. *)
Definition drain_one (t : tptr) (s : sched) : sched :=
  let s := upd t (fun b => b <| t_inbox_next := None |>) s in
  if st_eqb (t_state (thr s t)) THREAD_STATE_READY then rq_push t s else s.

Lemma arrivals_one s t p :
  arrivals s [t] p =
  if decide (is_ready s t /\ t_in_ready_q (thr s t) = false /\ t_prio (thr s t) = p) then [t] else [].
Proof. unfold arrivals. by rewrite filter_cons, filter_nil. Qed.

Lemma drain_one_spec t s qs :
  sched_inv s qs -> valid t ->
  let s' := drain_one t s in
  sched_inv s' (fun p => qs p ++ arrivals s [t] p) /\
  (forall x, keeps (thr s x) (thr s' x) /\
     t_in_ready_q (thr s' x) = t_in_ready_q (thr s x) || bool_decide (x = t /\ is_ready s t) /\
     (x <> t -> t_inbox_next (thr s' x) = t_inbox_next (thr s x))) /\
  same_rest s s' /\ wake_inbox s' = wake_inbox s.
Proof.
  intros Hs Hv. unfold drain_one. cbv zeta. set (s1 := upd t _ s).
  assert (Hk1 : forall x, keeps (thr s x) (thr s1 x) /\ t_in_ready_q (thr s1 x) = t_in_ready_q (thr s x) /\
    (x <> t -> t_inbox_next (thr s1 x) = t_inbox_next (thr s x)) /\ t_rq_next (thr s1 x) = t_rq_next (thr s x)).
  { intros x. unfold s1. rewrite upd_thr. destruct (decide (x = t)) as [->|]; rsimpl; [|by split; [apply keeps_refl|]].
    split; [|done]. exists (t_in_ready_q (thr s t)), (t_rq_next (thr s t)), None. by destruct (thr s t). }
  assert (Hs1 : sched_inv s1 qs).
  { apply (sched_inv_ext s); [|done..]. intros x. destruct (Hk1 x) as (Hk & Hi & _ & Hn). split; [done|].
    split; [done|by apply keeps_prio]. }
  assert (Hr1 : same_rest s s1 /\ wake_inbox s1 = wake_inbox s) by done. clearbody s1.
  destruct (Hk1 t) as (Hkt & Hqt & _). unfold st_eqb. rewrite (keeps_state _ _ Hkt).
  case_bool_decide as Er.
  - pose proof (rq_push_inv t s1 qs Hv Hs1) as Hp. rewrite Hqt, (keeps_prio _ _ Hkt) in Hp. split; [|split].
    + apply (sched_inv_lists _ _ _) with (2 := Hp). intros p _. rewrite arrivals_one.
      destruct (t_in_ready_q (thr s t)) eqn:Eq; [rewrite decide_False by naive_solver; by rewrite app_nil_r|].
      unfold push. destruct (decide (t_prio (thr s t) = p)) as [<-|].
      * by rewrite fn_lookup_insert, decide_True.
      * rewrite fn_lookup_insert_ne by done. rewrite decide_False by naive_solver. by rewrite app_nil_r.
    + intros x. destruct (rq_push_keeps t s1 x) as (G1 & G2 & G3 & G4), (Hk1 x) as (F1 & F2 & F3 & _).
      split; [by apply (keeps_trans _ (thr s1 x))|]. split; [|intros; rewrite G2; auto].
      destruct (decide (x = t)) as [->|]; [rewrite G4, bool_decide_eq_true_2 by done; by rewrite orb_true_r|].
      rewrite G3, F2, bool_decide_eq_false_2 by naive_solver. by rewrite orb_false_r.
    + destruct (rq_push_rest t s1) as [G1 G2], Hr1 as [F1 F2]. split; [by apply (same_rest_trans _ s1)|congruence].
  - split; [|split; [|done]].
    + apply (sched_inv_lists _ qs); [|done]. intros p _. rewrite arrivals_one, decide_False by naive_solver.
      by rewrite app_nil_r.
    + intros x. destruct (Hk1 x) as (F1 & F2 & F3 & _). split; [done|]. split; [|done].
      rewrite F2, bool_decide_eq_false_2 by (unfold is_ready; naive_solver). by rewrite orb_false_r.
Qed.

Lemma drain_loop_spec fuel h l s qs :
  sched_inv s qs -> links (fun x => t_inbox_next (thr s x)) h l -> NoDup l -> Forall valid l ->
  (length l <= fuel)%nat ->
  let s' := drain_loop fuel h s in
  sched_inv s' (fun p => qs p ++ arrivals s l p) /\
  (forall x, keeps (thr s x) (thr s' x) /\
     t_in_ready_q (thr s' x) = t_in_ready_q (thr s x) || bool_decide (x ∈ l /\ is_ready s x)) /\
  same_rest s s' /\ wake_inbox s' = wake_inbox s.
Proof.
  revert h l s qs. induction fuel as [|fuel IH]; intros h l s qs Hs Hl Hnd Hv Hlen; cbn zeta.
  all: destruct l as [|t l]; [cbn in Hl; subst h|try (simpl in Hlen; lia)].
  1, 2: split; [apply (sched_inv_lists s qs); [|done]; intros; by rewrite app_nil_r|];
    (split; [|done]); intros x; (split; [apply keeps_refl|]); rewrite bool_decide_eq_false_2, orb_false_r; [done|];
    intros [Hx _]; by apply not_elem_of_nil in Hx.
  destruct Hl as [-> Hl]. apply list.NoDup_cons in Hnd as [Ht Hnd]. apply list.Forall_cons in Hv as [Hvt Hv].
  cbn [drain_loop]. destruct (drain_one_spec t s qs Hs Hvt) as (Hs2 & Hx2 & Hr2 & Hw2).
  fold (drain_one t s). set (s2 := drain_one t s) in *. clearbody s2.
  destruct (IH (t_inbox_next (thr s t)) l s2 _ Hs2) as (Hs3 & Hx3 & Hr3 & Hw3); [|done|done|simpl in Hlen; lia|].
  { apply (links_ext (fun x => t_inbox_next (thr s x))); [|done]. intros x Hx. apply Hx2. by intros ->. }
  assert (Hrdy : forall x, is_ready s2 x <-> is_ready s x).
  { intros x. unfold is_ready. by rewrite (keeps_state _ _ (proj1 (Hx2 x))). }
  split; [|split; [|split; [by apply (same_rest_trans _ s2)|congruence]]].
  - apply (sched_inv_lists _ _ _) with (2 := Hs3). intros p _. rewrite <- app_assoc. f_equal.
    change (t :: l) with ([t] ++ l). unfold arrivals at 1. rewrite list.filter_app. f_equal.
    apply filter_ext_in. intros x Hx. rewrite Hrdy, (keeps_prio _ _ (proj1 (Hx2 x))).
    rewrite (proj1 (proj2 (Hx2 x))), bool_decide_eq_false_2, orb_false_r; [done|].
    intros [-> _]. done.
  - intros x. destruct (Hx2 x) as (F1 & F2 & _), (Hx3 x) as (G1 & G2).
    split; [by apply (keeps_trans _ (thr s2 x))|]. rewrite G2, F2, <- orb_assoc. f_equal.
    apply eq_true_iff_eq. rewrite orb_true_iff, !bool_decide_eq_true, elem_of_cons, Hrdy.
    split; [intros [[-> ?]|[? ?]]; auto|]. intros [[->|?] ?]; auto.
Qed.

Lemma drain_inbox_spec s qs l :
  sched_inv s qs -> inbox s l ->
  let s' := drain_inbox s in
  sched_inv s' (fun p => qs p ++ arrivals s l p) /\
  (forall x, keeps (thr s x) (thr s' x) /\
     t_in_ready_q (thr s' x) = t_in_ready_q (thr s x) || bool_decide (x ∈ l /\ is_ready s x)) /\
  same_rest s s' /\ wake_inbox s' = None.
Proof.
  intros Hs (Hl & Hnd & Hv). unfold drain_inbox.
  assert (Hlen : (length l <= rq_fuel)%nat).
  { pose proof (NoDup_valid l Hnd Hv). unfold rq_fuel. lia. }
  destruct (drain_loop_spec rq_fuel (wake_inbox s) l (s <| wake_inbox := None |>) qs) as (H1 & H2 & H3 & H4);
    [|done..|].
  { apply (sched_inv_ext s); [by intros x; split|done..]. }
  split; [done|]. split; [done|]. split; [|done]. exact H3.
Qed.

(** ** The choice of the next thread *)

(** The threads [schedule] may run on [cpu]. *)
Definition runnable (s : sched) (cpu : Z) (t : tptr) : Prop :=
  is_ready s t \/ (t = current_thread cpu s /\ t <> Idle cpu /\ t_state (thr s t) = THREAD_STATE_RUNNING).
#[export] Instance runnable_dec s cpu t : Decision (runnable s cpu t).
Proof. unfold runnable. apply _. Defined.

(** The running thread rejoins its queue behind the threads of the inbox. *)
Definition rejoin (s : sched) (cpu : Z) (l : list tptr) (p : Z) : list tptr :=
  let prev := current_thread cpu s in
  if decide (prev <> Idle cpu /\ t_in_ready_q (thr s prev) = false /\ t_prio (thr s prev) = p /\
             runnable s cpu prev /\ ~ (prev ∈ l /\ is_ready s prev))
  then [prev] else [].

(** The runnable threads of priority [p], in the order they will run. *)
Definition order (s : sched) (cpu : Z) (qs : Z -> list tptr) (l : list tptr) (p : Z) : list tptr :=
  filter (runnable s cpu) (qs p ++ arrivals s l p ++ rejoin s cpu l p).

Lemma requeue_spec cpu s s1 qs qs1 l :
  sched_inv s qs -> inbox s l -> current_thread cpu s = Idle cpu \/ valid (current_thread cpu s) ->
  sched_inv s1 qs1 -> (forall p, qs1 p = qs p ++ arrivals s l p) ->
  (forall x, keeps (thr s x) (thr s1 x) /\
     t_in_ready_q (thr s1 x) = t_in_ready_q (thr s x) || bool_decide (x ∈ l /\ is_ready s x)) ->
  current s1 = current s ->
  let s2 := requeue_prev cpu s1 in
  sched_inv s2 (fun p => qs p ++ arrivals s l p ++ rejoin s cpu l p) /\
  (forall x, x <> Idle cpu -> t_state (thr s2 x) = THREAD_STATE_READY <-> runnable s cpu x).
Proof.
  intros Hs Hi Hcur Hs1 Hqs Hk Hc. unfold requeue_prev, tptr_eqb, st_eqb.
  assert (Hct : current_thread cpu s1 = current_thread cpu s) by (unfold current_thread; by rewrite Hc).
  rewrite Hct. cbv zeta. unfold rejoin, runnable. cbv zeta. set (prev := current_thread cpu s) in *.
  assert (Hst : forall x, t_state (thr s1 x) = t_state (thr s x)) by (intros x; apply keeps_state, Hk).
  case_bool_decide as Ei.
  - split.
    + apply sched_inv_upd; [by rsimpl|]. apply (sched_inv_lists _ qs1); [|done]. intros p _.
      rewrite decide_False by naive_solver. by rewrite app_nil_r, Hqs.
    + intros x Hx. rewrite upd_ne, Hst by congruence. unfold is_ready. naive_solver.
  - destruct Hcur as [?|Hv]; [done|].
    set (s1' := if bool_decide _ then _ else s1).
    assert (H1 : sched_inv s1' qs1 /\ (forall x, t_state (thr s1' x) = THREAD_STATE_READY <->
        is_ready s x \/ (x = prev /\ x <> Idle cpu /\ t_state (thr s x) = THREAD_STATE_RUNNING)) /\
      (forall x, t_in_ready_q (thr s1' x) = t_in_ready_q (thr s1 x) /\ t_prio (thr s1' x) = t_prio (thr s x))).
    { unfold s1'. rewrite Hst. case_bool_decide as Er.
      - split; [apply sched_inv_upd; [by rsimpl|done]|]. split; intros x; rewrite upd_thr;
          destruct (decide (x = prev)) as [->|Hne]; rsimpl; rewrite ?Hst; unfold is_ready.
        + naive_solver.
        + naive_solver.
        + split; [done|]. apply keeps_prio, Hk.
        + split; [done|]. apply keeps_prio, Hk.
      - split; [done|]. split; intros x; rewrite ?Hst; [unfold is_ready; naive_solver|].
        split; [done|]. apply keeps_prio, Hk. }
    clearbody s1'. destruct H1 as (Hs1' & Hr1 & Hf1). destruct (Hf1 prev) as [Hq1 Hp1].
    case_bool_decide as Er.
    + split.
      * pose proof (rq_push_inv prev s1' qs1 Hv Hs1') as Hp. rewrite Hq1, Hp1, (proj2 (Hk prev)) in Hp.
        apply (sched_inv_lists _ _ _) with (2 := Hp). intros p _. apply Hr1 in Er.
        destruct (t_in_ready_q (thr s prev)) eqn:Eq; cbn [orb].
        { rewrite decide_False by naive_solver. by rewrite app_nil_r, Hqs. }
        case_bool_decide as El; cbn [orb].
        { rewrite decide_False by naive_solver. by rewrite app_nil_r, Hqs. }
        unfold push. destruct (decide (t_prio (thr s prev) = p)) as [<-|].
        -- by rewrite fn_lookup_insert, decide_True, Hqs, app_assoc.
        -- rewrite fn_lookup_insert_ne by done. rewrite decide_False by naive_solver. by rewrite app_nil_r, Hqs.
      * intros x Hx. rewrite (keeps_state (thr s1' x)) by apply rq_push_keeps. apply Hr1.
    + split; [|intros x Hx; apply Hr1]. apply (sched_inv_lists _ qs1); [|done]. intros p _.
      rewrite decide_False; [by rewrite app_nil_r, Hqs|]. rewrite <- Hr1. naive_solver.
Qed.

(** [r] is the head of the highest non-empty list. *)
Definition picks (q : Z -> list tptr) (r : option tptr) : Prop :=
  match r with
  | Some t => exists p rest, prio_ok p /\ q p = t :: rest /\ forall p', prio_ok p' -> p < p' -> q p' = []
  | None => forall p, prio_ok p -> q p = []
  end.

Lemma filter_none (P : tptr -> Prop) `{forall x, Decision (P x)} l :
  Forall (fun t => ~ P t) l -> filter P l = [].
Proof.
  induction 1 as [|x l Hx _ IH]; [done|]. rewrite filter_cons. by destruct (decide (P x)).
Qed.

Lemma pop_picks (P : tptr -> Prop) `{forall x, Decision (P x)} s qs r qs' :
  sched_inv s qs -> pop_spec P qs r qs' ->
  picks (fun p => filter P (qs p)) r /\
  forall p, prio_ok p -> filter P (qs' p) =
    match r with
    | Some t => if decide (t ∈ qs p) then tail (filter P (qs p)) else filter P (qs p)
    | None => []
    end.
Proof.
  intros Hs. destruct r as [t|]; cbn.
  - intros (p & skip & Hp & Eq & Ht & Hsk & Hhi & Hlo).
    assert (Ef : filter P (qs p) = t :: filter P (qs' p)).
    { rewrite Eq, list.filter_app, filter_cons, filter_none by done. by destruct (decide (P t)). }
    assert (Hin : t ∈ qs p) by (rewrite Eq; apply elem_of_app; right; by left).
    split.
    + exists p, (filter P (qs' p)). split; [done|]. split; [done|]. intros p' Hp' Hlt.
      apply filter_none. by apply Hhi.
    + intros p' Hp'. destruct (decide (t ∈ qs p')) as [Hin'|Hn].
      * rewrite (si_disjoint s qs p' p t Hs Hp' Hp Hin' Hin). by rewrite Ef.
      * destruct (Z.lt_trichotomy p' p) as [Hlt|[->|Hlt]]; [by rewrite Hlo|done|].
        destruct (Hhi p' Hp' Hlt) as [? ->]. by rewrite (filter_none P (qs p')).
  - intros Hall. split; intros p Hp; destruct (Hall p Hp) as [Hf He]; [by apply filter_none|by rewrite He].
Qed.

Lemma pop_highest_spec cpu s qs r s' :
  sched_inv s qs -> rq_pop_highest cpu s = (r, s') ->
  exists qs', sched_inv s' qs' /\ pop_spec (is_ready s) qs r qs' /\ pop_frame s s'.
Proof.
  intros Hs. apply pop_loop_spec; [done|]. pose proof (members_bound s qs Hs). unfold rq_fuel. lia.
Qed.

(** The last part of [schedule], after the pop. *)
Lemma schedule_end cpu s r s3 s' n :
  rq_pop_highest cpu (requeue_prev cpu (drain_inbox s)) = (r, s3) -> schedule cpu s = s' ->
  n = default (Idle cpu) r ->
  current s' = <[cpu := Some n]> (current s3) /\ need_resched s' = <[cpu := false]> (need_resched s3) /\
  wake_inbox s' = wake_inbox s3 /\
  (forall x, same_rq (thr s3 x) (thr s' x) /\
     (x <> n -> thr s' x = thr s3 x)) /\
  t_state (thr s' n) = THREAD_STATE_RUNNING /\ 0 < t_timeslice_left (thr s' n) /\
  ready_head s' = ready_head s3 /\ ready_tail s' = ready_tail s3 /\ ready_bitmap s' = ready_bitmap s3.
Proof.
  intros Ep <- Hn. unfold schedule. rewrite Ep. rewrite <- Hn. cbv zeta. rewrite upd_same. rsimpl.
  destruct (Z.leb_spec (t_timeslice_left (thr s3 n)) 0) as [Hts|Hts]; unfold bump; rsimpl;
    (split; [done|]); (split; [done|]); (split; [done|]); (split; [|split; [|split; [|done]]]);
    rewrite ?upd_same; rsimpl; try done; try lia.
  all: intros x; rewrite !upd_thr, ?(decide_True (P := n = n)) by done;
    destruct (decide (x = n)) as [->|]; rsimpl; done.
Qed.

Lemma requeue_prio cpu s x : t_prio (thr (requeue_prev cpu s) x) = t_prio (thr s x).
Proof.
  unfold requeue_prev. cbv zeta. repeat break_if; rewrite ?(keeps_prio _ _ (proj1 (rq_push_keeps _ _ x))); try done.
  all: rewrite upd_thr; destruct (decide _) as [->|]; by rsimpl.
Qed.

(** The thread popped is no longer queued. *)
Lemma pop_fresh s qs rdy r qs' cpu x p :
  sched_inv s qs -> pop_spec rdy qs r qs' -> prio_ok p -> x ∈ qs' p -> valid x -> x <> default (Idle cpu) r.
Proof.
  intros Hs Hps Hp Hx (i & -> & _). destruct r as [t|]; cbn in *; [|done]. intros <-.
  destruct Hps as (p0 & skip & Hp0 & Eq & _ & _ & Hhi & Hlo).
  assert (Hin : Thr i ∈ qs p0) by (rewrite Eq; apply elem_of_app; right; by left).
  destruct (Z.lt_trichotomy p p0) as [Hlt|[->|Hlt]].
  - rewrite Hlo in Hx by done. pose proof (si_disjoint s qs p p0 _ Hs Hp Hp0 Hx Hin). lia.
  - destruct (si_queue _ _ Hs p0 Hp0) as (_ & _ & Hnd). rewrite Eq in Hnd.
    apply list.NoDup_app in Hnd as (_ & _ & Hnd). by apply list.NoDup_cons in Hnd as [? _].
  - destruct (Hhi p Hp Hlt) as [_ E]. rewrite E in Hx. by apply not_elem_of_nil in Hx.
Qed.

Lemma requeue_inbox cpu s : wake_inbox (requeue_prev cpu s) = wake_inbox s.
Proof. unfold requeue_prev. cbv zeta. repeat break_if; rewrite ?(proj2 (rq_push_rest _ _)); done. Qed.

Lemma picks_ext q q' r : (forall p, prio_ok p -> q p = q' p) -> picks q r -> picks q' r.
Proof.
  intros He. destruct r as [t|]; cbn; [|intros H p Hp; by rewrite <- He; auto].
  intros (p & rest & Hp & Eq & Hhi). exists p, rest. rewrite <- He by done.
  split; [done|]. split; [done|]. intros p' Hp' Hlt. rewrite <- He by done. by apply Hhi.
Qed.

Lemma schedule_spec cpu s qs l :
  sched_inv s qs -> inbox s l -> current_thread cpu s = Idle cpu \/ valid (current_thread cpu s) ->
  let s' := schedule cpu s in
  exists r qs', let n := default (Idle cpu) r in
    picks (order s cpu qs l) r /\
    current s' cpu = Some n /\ t_state (thr s' n) = THREAD_STATE_RUNNING /\
    0 < t_timeslice_left (thr s' n) /\ need_resched s' cpu = false /\
    sched_inv s' qs' /\ inbox s' [] /\
    (forall x, t_prio (thr s' x) = t_prio (thr s x)) /\
    forall p, prio_ok p -> filter (is_ready s') (qs' p) =
      match r with
      | Some t => if decide (p = t_prio (thr s t)) then tail (order s cpu qs l p) else order s cpu qs l p
      | None => []
      end.
Proof.
  intros Hs Hi Hcur s'. destruct (drain_inbox_spec s qs l Hs Hi) as (Hs1 & Hk1 & (_ & Hc1 & _) & Hw1).
  destruct (requeue_spec cpu s _ qs _ l Hs Hi Hcur Hs1 (fun p => eq_refl) Hk1 Hc1) as [Hs2 Hr2].
  set (qs2 := fun p => qs p ++ arrivals s l p ++ rejoin s cpu l p) in *.
  destruct (rq_pop_highest cpu (requeue_prev cpu (drain_inbox s))) as [r s3] eqn:Ep.
  destruct (pop_highest_spec cpu _ qs2 r s3 Hs2 Ep) as (qs' & Hs3 & Hps & Hf3).
  destruct (schedule_end cpu s r s3 s' _ Ep eq_refl eq_refl) as (E1 & E2 & E3 & E4 & E5 & E6 & E7 & E8 & E9).
  set (n := default (Idle cpu) r) in *. clearbody s'.
  assert (Hs' : sched_inv s' qs').
  { apply (sched_inv_ext s3); [intros x; apply E4|by rewrite E7|by rewrite E8|done|done]. }
  assert (Hw2 : wake_inbox s' = None) by (rewrite E3, (pf_inbox _ _ Hf3); by rewrite requeue_inbox).
  assert (Hpr2 : forall x, t_prio (thr (requeue_prev cpu (drain_inbox s)) x) = t_prio (thr s x))
    by (intros x; rewrite requeue_prio; apply keeps_prio, Hk1).
  set (s2 := requeue_prev cpu (drain_inbox s)) in *. clearbody s2. clear Ep.
  assert (Hord : forall p, prio_ok p -> filter (is_ready s2) (qs2 p) = order s cpu qs l p).
  { intros p Hp. apply filter_ext_in. intros x Hx. apply Hr2. intros ->.
    destruct (si_mem _ _ Hs2 _ p Hp Hx) as (_ & _ & i & Hi' & _). discriminate Hi'. }
  destruct (pop_picks (is_ready s2) s2 qs2 r qs' Hs2 Hps) as [Hpk Hrest].
  exists r, qs'. cbv zeta. fold n. split; [|split; [by rewrite E1, fn_lookup_insert|]].
  { by apply (picks_ext (fun p => filter (is_ready s2) (qs2 p))). }
  do 2 (split; [done|]). split; [by rewrite E2, fn_lookup_insert|]. split; [done|].
  split; [split; [done|]; split; [apply list.NoDup_nil; done|by apply Forall_nil_2]|].
  split; [intros x; by rewrite (proj2 (proj2 (proj1 (E4 x)))), <- Hpr2, (pf_prio s2 s3)|].
  assert (Hsame : forall p, prio_ok p -> filter (is_ready s') (qs' p) = filter (is_ready s2) (qs' p)).
  { intros p Hp. apply filter_ext_in. intros x Hx. destruct (si_mem _ _ Hs' x p Hp Hx) as (Hxq & _ & i & -> & _).
    unfold is_ready. rewrite (proj2 (E4 (Thr i))), (pf_state s2 s3); [done|done|].
    apply (pop_fresh s2 qs2 (is_ready s2) r qs' cpu (Thr i) p); [done..|]. by apply (si_mem _ _ Hs' _ p). }
  intros p Hp. rewrite Hsame, Hrest by done. destruct r as [t|]; [|done]. rewrite Hord by done.
  destruct Hpk as (p0 & rest & Hp0 & Eq & Hhi). rewrite Hord in Eq by done.
  assert (Hmem : t ∈ qs2 p0) by (apply (list_elem_of_filter (is_ready s2)); rewrite Hord, Eq by done; by left).
  destruct (si_mem _ _ Hs2 t p0 Hp0 Hmem) as (_ & Hpr & _). rewrite Hpr2 in Hpr.
  destruct (decide (p = t_prio (thr s t))) as [->|Hne].
  - by rewrite decide_True by congruence.
  - rewrite decide_False; [done|]. intros Hin. apply Hne.
    destruct (si_mem _ _ Hs2 t p Hp Hin) as (_ & Hpr' & _). rewrite Hpr2 in Hpr'. congruence.
Qed.

(** C8: [schedule] is a priority scheduler, first come first served.  In a
    well-formed state with inbox [l], let [order p] be the runnable threads of
    priority [p]: the queue, then the inbox, then the thread that was running.
    [schedule] runs the first thread of the highest non-empty [order], or the
    idle thread when all are empty; it leaves the state well formed, with the
    other runnable threads queued in the same order, the inbox empty, and a
    positive time slice for the thread chosen. *)
Theorem schedule_refines cpu s qs l :
  sched_inv s qs -> inbox s l -> current_thread cpu s = Idle cpu \/ valid (current_thread cpu s) ->
  let s' := schedule cpu s in
  exists r qs', let n := default (Idle cpu) r in
    picks (order s cpu qs l) r /\
    current s' cpu = Some n /\ t_state (thr s' n) = THREAD_STATE_RUNNING /\
    0 < t_timeslice_left (thr s' n) /\ need_resched s' cpu = false /\
    sched_inv s' qs' /\ inbox s' [] /\
    (forall x, t_prio (thr s' x) = t_prio (thr s x)) /\
    forall p, prio_ok p -> filter (is_ready s') (qs' p) =
      match r with
      | Some t => if decide (p = t_prio (thr s t)) then tail (order s cpu qs l p) else order s cpu qs l p
      | None => []
      end.
Proof. apply schedule_spec. Qed.

(** ** Wake-ups *)
Lemma kick_frame cpu t s : exists k st, kick_cpus cpu t s = s <| kicks := k |> <| sched_stats := st |>.
Proof.
  unfold kick_cpus. apply (for_range_ind (fun _ s' => exists k st, s' = s <| kicks := k |> <| sched_stats := st |>)).
  - lia.
  - exists (kicks s), (sched_stats s). by destruct s.
  - intros c s' _ (k & st & ->). repeat (break_if; [by exists k, st|]). break_match; [|by exists k, st].
    break_if; [|by exists k, st]. eexists _, _. unfold bump. rsimpl. reflexivity.
Qed.

(** A thread [sched_wake] makes ready. *)
Definition wakeable (b : tcb) : bool :=
  negb (st_eqb (t_state b) THREAD_STATE_DEAD || st_eqb (t_state b) THREAD_STATE_RUNNING ||
        st_eqb (t_state b) THREAD_STATE_ZOMBIE) &&
  negb (st_eqb (t_state b) THREAD_STATE_READY && t_in_ready_q b).

Lemma sched_wake_eff cpu t s :
  let s' := sched_wake cpu t s in
  (forall x, thr s' x = if decide (x = t /\ wakeable (thr s t) = true)
     then (if t_in_ready_q (thr s t) then (thr s t) <| t_state := THREAD_STATE_READY |>
           else (thr s t) <| t_state := THREAD_STATE_READY |> <| t_inbox_next := wake_inbox s |>)
     else thr s x) /\
  wake_inbox s' = (if wakeable (thr s t) && negb (t_in_ready_q (thr s t)) then Some t else wake_inbox s) /\
  ready_head s' = ready_head s /\ ready_tail s' = ready_tail s /\ ready_bitmap s' = ready_bitmap s /\
  current s' = current s /\ now_ticks s' = now_ticks s /\ next_deadline s' = next_deadline s /\
  (forall c, c <> cpu -> need_resched s' c = need_resched s c) /\
  need_resched s' cpu = need_resched s cpu ||
    (wakeable (thr s t) && (t_prio (thr s t) >? t_prio (thr s (current_thread cpu s)))).
Proof.
  cbv zeta. unfold sched_wake. set (W := wakeable (thr s t)).
  assert (Hid : (forall x, thr s x = if decide (x = t /\ false = true) then
     (if t_in_ready_q (thr s t) then (thr s t) <| t_state := THREAD_STATE_READY |>
           else (thr s t) <| t_state := THREAD_STATE_READY |> <| t_inbox_next := wake_inbox s |>) else thr s x)).
  { intros x. by rewrite decide_False by naive_solver. }
  unfold W, wakeable. break_if; [cbn [negb andb]; rewrite orb_false_r; by split_and!|].
  break_if; [cbn [negb andb]; rewrite orb_false_r; by split_and!|]. cbn [negb andb]. clear Hid.
  rewrite upd_same. rsimpl.
  set (s1 := if t_in_ready_q (thr s t) then _ else _).
  assert (H1 : (forall x, thr s1 x = if decide (x = t) then
     (if t_in_ready_q (thr s t) then (thr s t) <| t_state := THREAD_STATE_READY |>
           else (thr s t) <| t_state := THREAD_STATE_READY |> <| t_inbox_next := wake_inbox s |>) else thr s x) /\
    wake_inbox s1 = (if negb (t_in_ready_q (thr s t)) then Some t else wake_inbox s) /\
    same_rest s s1 /\ ready_head s1 = ready_head s /\ ready_tail s1 = ready_tail s /\ ready_bitmap s1 = ready_bitmap s).
  { unfold s1. destruct (t_in_ready_q (thr s t)); cbn [negb]; (split; [|by split]); intros x; rsimpl;
      rewrite !upd_thr; rewrite ?(decide_True (P := t = t)) by done; by destruct (decide (x = t)) as [->|]. }
  clearbody s1. destruct H1 as (Hx & Hw & (R1 & R2 & R3 & R4 & R5 & R6) & Hh & Ht & Hb).
  assert (Hcp : t_prio (thr s1 t) = t_prio (thr s t) /\
    t_prio (thr s1 (current_thread cpu s1)) = t_prio (thr s (current_thread cpu s))).
  { unfold current_thread. rewrite R2, !Hx. split; (destruct (decide _) as [E|]; [|done]);
      rewrite ?E; by destruct (t_in_ready_q (thr s t)). }
  destruct Hcp as [-> ->]. match goal with |- context [kick_cpus cpu t ?x] => destruct (kick_frame cpu t x) as (k & st & ->) end.
  rsimpl. destruct (t_prio (thr s t) >? _); rsimpl; rewrite ?orb_true_r, ?orb_false_r, ?R1; split_and!; try done.
  all: try (intros x; rewrite Hx; destruct (decide (x = t)); [rewrite decide_True|rewrite decide_False]; naive_solver).
  - intros c Hc. by rewrite fn_lookup_insert_ne.
  - by rewrite fn_lookup_insert.
Qed.

Lemma sched_wake_inv cpu t s qs : sched_inv s qs -> sched_inv (sched_wake cpu t s) qs.
Proof.
  destruct (sched_wake_eff cpu t s) as (Hx & _ & Hh & Ht & Hb & _).
  apply sched_inv_ext; [|by rewrite Hh|by rewrite Ht|done]. intros x. rewrite Hx.
  destruct (decide _) as [[-> _]|]; [|by split]. by destruct (t_in_ready_q (thr s t)) eqn:E; split; rsimpl.
Qed.

Lemma sched_wake_inbox cpu t s l :
  inbox s l -> valid t -> t ∉ l ->
  inbox (sched_wake cpu t s) (if wakeable (thr s t) && negb (t_in_ready_q (thr s t)) then t :: l else l).
Proof.
  intros (Hl & Hnd & Hv) Hvt Ht. destruct (sched_wake_eff cpu t s) as (Hx & Hw & _).
  assert (Hl' : links (fun x => t_inbox_next (thr (sched_wake cpu t s) x)) (wake_inbox s) l).
  { apply (links_ext (fun x => t_inbox_next (thr s x))); [|done]. intros x Hxl. rewrite Hx, decide_False; [done|].
    intros [-> _]. done. }
  unfold inbox. rewrite Hw. destruct (wakeable (thr s t)) eqn:Ew, (t_in_ready_q (thr s t)) eqn:Eq; cbn [andb negb];
    try (by split_and!). split; [|split; [by apply list.NoDup_cons|by apply Forall_cons_2]].
  split; [done|]. rewrite Hx, decide_True by done. by rsimpl.
Qed.

(** A thread waiting for something. *)
Definition blocked (b : tcb) : Prop :=
  t_state b <> THREAD_STATE_RUNNING /\ t_state b <> THREAD_STATE_READY /\
  t_state b <> THREAD_STATE_DEAD /\ t_state b <> THREAD_STATE_ZOMBIE.

Lemma blocked_wakeable b : blocked b -> wakeable b = true.
Proof.
  intros (H1 & H2 & H3 & H4). unfold wakeable, st_eqb. by rewrite !bool_decide_eq_false_2 by done.
Qed.

(** In [picks], the thread chosen has at least the priority of every other one. *)
Lemma picks_max q r t p :
  picks q r -> prio_ok p -> t ∈ q p ->
  exists n p', r = Some n /\ prio_ok p' /\ p <= p' /\ n ∈ q p' /\ (p = p' -> hd_error (q p) = Some n).
Proof.
  intros Hpk Hp Ht. destruct r as [n|]; cbn in Hpk.
  - destruct Hpk as (p' & rest & Hp' & Eq & Hhi). exists n, p'. split; [done|]. split; [done|].
    destruct (Z.le_gt_cases p p') as [Hle|Hgt].
    + split; [done|]. split; [rewrite Eq; by left|]. intros ->. by rewrite Eq.
    + rewrite Hhi in Ht by (done || lia). by apply not_elem_of_nil in Ht.
  - rewrite Hpk in Ht by done. by apply not_elem_of_nil in Ht.
Qed.

(** A thread woken from a blocked state is in the running order. *)
Lemma woken_ordered cpu t s qs l :
  sched_inv s qs -> inbox s l -> valid t -> blocked (thr s t) -> t ∉ l ->
  exists l', inbox (sched_wake cpu t s) l' /\ t ∈ order (sched_wake cpu t s) cpu qs l' (t_prio (thr s t)).
Proof.
  intros Hs Hi Hv Hb Ht. pose proof (sched_wake_inbox cpu t s l Hi Hv Ht) as Hi'.
  rewrite (blocked_wakeable _ Hb) in Hi'. cbn [andb] in Hi'. eexists. split; [exact Hi'|].
  destruct (sched_wake_eff cpu t s) as (Hx & _). specialize (Hx t).
  rewrite decide_True in Hx by (split; [done|by apply blocked_wakeable]).
  assert (Hr : is_ready (sched_wake cpu t s) t) by (unfold is_ready; rewrite Hx; by destruct (t_in_ready_q (thr s t)); rsimpl).
  apply list_elem_of_filter. split; [by left|]. apply elem_of_app.
  destruct (t_in_ready_q (thr s t)) eqn:Eq; cbn [negb] in *.
  - left. by apply (si_in _ _ Hs).
  - right. apply elem_of_app. left. apply list_elem_of_filter. split; [|by left]. split; [done|]. rewrite Hx. by rsimpl.
Qed.

Lemma order_mem s cpu qs l p t :
  sched_inv s qs -> inbox s l -> current_thread cpu s = Idle cpu \/ valid (current_thread cpu s) ->
  prio_ok p -> t ∈ order s cpu qs l p -> t_prio (thr s t) = p /\ valid t.
Proof.
  intros Hs (_ & _ & Hv) Hc Hp [_ Ht]%list_elem_of_filter.
  apply elem_of_app in Ht as [Ht|[Ht|Ht]%elem_of_app].
  - by destruct (si_mem _ _ Hs t p Hp Ht) as (_ & ? & ?).
  - apply list_elem_of_filter in Ht as [(_ & _ & ?) Hl]. split; [done|]. rewrite list.Forall_forall in Hv. by apply Hv.
  - unfold rejoin in Ht. cbv zeta in Ht. destruct (decide _) as [(Hni & _ & Hpr & _)|]; [|by apply not_elem_of_nil in Ht].
    apply list_elem_of_singleton in Ht as ->. destruct Hc as [?|?]; [done|]. done.
Qed.


(** ** Deadlines *)
Definition sleeping (s : sched) (i : Z) : Prop := t_state (thr s (Thr i)) = THREAD_STATE_SLEEPING.

(** [s1] is the state after the sleepers [1..k] of [s] have been scanned. *)
Definition scanned (s : sched) (k : Z) (s1 : sched) : Prop :=
  now_ticks s1 = now_ticks s /\
  (forall i, k < i -> thr s1 (Thr i) = thr s (Thr i)) /\
  (forall i, 1 <= i <= k -> sleeping s i ->
     if t_wake_at_tick (thr s (Thr i)) <=? now_ticks s then is_ready s1 (Thr i)
     else thr s1 (Thr i) = thr s (Thr i) /\ next_deadline s1 <= t_wake_at_tick (thr s (Thr i))) /\
  (next_deadline s1 = U64_MAX \/
   exists i, 1 <= i <= k /\ sleeping s i /\ now_ticks s < next_deadline s1 /\
             next_deadline s1 = t_wake_at_tick (thr s (Thr i))).

Lemma scan_step cpu s k s1 :
  0 <= k -> t_wake_at_tick (thr s (Thr (k + 1))) <= U64_MAX -> scanned s k s1 ->
  scanned s (k + 1) (
    let t := Thr (k + 1) in
    if negb (st_eqb (t_state (thr s1 t)) THREAD_STATE_SLEEPING) then s1
    else if t_wake_at_tick (thr s1 t) <=? now_ticks s1 then sched_wake cpu t s1
    else if t_wake_at_tick (thr s1 t) <? next_deadline s1
    then s1 <| next_deadline := t_wake_at_tick (thr s1 t) |> else s1).
Proof.
  intros Hk Hmax (Hn & Hlater & Hdone & Hnd). cbv zeta. rewrite Hlater, Hn by lia.
  unfold st_eqb. case_bool_decide as Esl; cbn [negb].
  - destruct (Z.leb_spec (t_wake_at_tick (thr s (Thr (k + 1)))) (now_ticks s)) as [Hle|Hgt].
    + destruct (sched_wake_eff cpu (Thr (k + 1)) s1) as (Hx & _ & _ & _ & _ & _ & Hnow & Hnd' & _).
      rewrite Hlater in Hx by lia.
      assert (Hw : wakeable (thr s (Thr (k + 1))) = true).
      { apply blocked_wakeable. unfold blocked. rewrite Esl. by split_and!. }
      split; [congruence|]. split; [|split; [|rewrite Hnd'; destruct Hnd as [?|(i & ? & ?)]; [by left|right; exists i; split; [lia|done]]]].
      * intros i Hi. rewrite Hx, decide_False, Hlater; [done|lia|]. intros [[= ->] _]. lia.
      * intros i Hi Hsl. destruct (decide (i = k + 1)) as [->|].
        -- replace (_ <=? _) with true by lia. unfold is_ready. rewrite Hx, decide_True by done.
           by destruct (t_in_ready_q _); rsimpl.
        -- specialize (Hdone i ltac:(lia) Hsl). unfold is_ready in *. rewrite Hnd'.
           rewrite Hx, decide_False; [done|]. intros [[= ->] _]. lia.
    + destruct (Z.ltb_spec (t_wake_at_tick (thr s (Thr (k + 1)))) (next_deadline s1)) as [Hlt|Hge].
      * split; [done|]. split; [intros; rsimpl; apply Hlater; lia|]. split.
        -- intros i Hi Hsl. destruct (decide (i = k + 1)) as [->|].
           ++ replace (_ <=? _) with false by lia. rsimpl. split; [apply Hlater|]; lia.
           ++ specialize (Hdone i ltac:(lia) Hsl). destruct (_ <=? _); [done|]. rsimpl. destruct Hdone. split; [done|lia].
        -- right. exists (k + 1). rsimpl. split_and!; [lia|lia|done|lia|done].
      * split; [done|]. split; [intros; apply Hlater; lia|]. split.
        -- intros i Hi Hsl. destruct (decide (i = k + 1)) as [->|]; [|apply Hdone; [lia|done]].
           replace (_ <=? _) with false by lia. split; [apply Hlater|]; lia.
        -- destruct Hnd as [?|(i & ? & ?)]; [by left|right; exists i; split; [lia|done]].
  - split; [done|]. split; [intros; apply Hlater; lia|]. split.
    + intros i Hi Hsl. destruct (decide (i = k + 1)) as [->|]; [done|]. apply Hdone; [lia|done].
    + destruct Hnd as [?|(i & ? & ?)]; [by left|right; exists i; split; [lia|done]].
Qed.

(** When a deadline passes, the scan wakes exactly the due sleepers: every
    sleeping thread whose wake-up tick has come is made ready, every other one
    is left alone, and the new deadline is the earliest remaining wake-up tick
    (or none): no sleeper can be forgotten. *)
Theorem sleepers_woken cpu s :
  (forall i, 1 <= i < SCHED_MAX_THREADS -> t_wake_at_tick (thr s (Thr i)) <= U64_MAX) ->
  let s' := wake_sleepers cpu s in
  (forall i, 1 <= i < SCHED_MAX_THREADS -> sleeping s i ->
     if t_wake_at_tick (thr s (Thr i)) <=? now_ticks s then is_ready s' (Thr i)
     else thr s' (Thr i) = thr s (Thr i) /\ next_deadline s' <= t_wake_at_tick (thr s (Thr i))) /\
  (next_deadline s' = U64_MAX \/
   exists i, 1 <= i < SCHED_MAX_THREADS /\ sleeping s i /\ now_ticks s < next_deadline s' /\
             next_deadline s' = t_wake_at_tick (thr s (Thr i))).
Proof.
  intros Hmax s'. assert (H : scanned s (SCHED_MAX_THREADS - 1) s').
  { apply (for_range_ind (scanned s)).
    - unfold SCHED_MAX_THREADS. lia.
    - split; [done|]. split; [done|]. split; [intros; lia|by left].
    - intros k s1 Hk Hsc. apply scan_step; [lia| |done]. apply Hmax. lia. }
  destruct H as (_ & _ & Hdone & Hnd). split; [intros i Hi; apply Hdone; lia|].
  destruct Hnd as [?|(i & ? & ?)]; [by left|right]. exists i. split; [lia|done].
Qed.

(** The timer is always armed for at least one and at most 500 ticks, and
    the boot CPU, which runs the deadlines, never arms it past the next one. *)
Theorem arm_bounds cpu s :
  1 <= arm_ticks cpu s <= SCHED_MAX_ARM_TICKS /\
  (cpu = 0 -> now_ticks s < next_deadline s -> next_deadline s <> U64_MAX ->
   now_ticks s + arm_ticks cpu s <= next_deadline s) /\
  armed_ticks (sched_arm_next_deadline cpu s) cpu = arm_ticks cpu s.
Proof.
  split; [|split].
  - unfold arm_ticks. cbv zeta. repeat break_if; bools; lia.
  - intros -> Hlt Hne. unfold arm_ticks. cbv zeta.
    replace (next_deadline s =? U64_MAX) with false by lia. cbn [Z.eqb andb negb].
    replace (next_deadline s >? now_ticks s) with true by lia. repeat break_if; bools; lia.
  - unfold sched_arm_next_deadline. cbv zeta. rsimpl. by rewrite fn_lookup_insert.
Qed.

(** ** Thread creation *)

(** Rewriting a thread that is in no queue. *)
Lemma sched_inv_unqueued t f s qs :
  t_in_ready_q (thr s t) = false -> t_in_ready_q (f (thr s t)) = false -> prio_ok (t_prio (f (thr s t))) ->
  sched_inv s qs -> sched_inv (upd t f s) qs.
Proof.
  intros Hq Hq' Hp Hs.
  assert (Hnot : forall p x, prio_ok p -> x ∈ qs p -> x <> t).
  { intros p x Hpp Hx ->. destruct (si_mem _ _ Hs t p Hpp Hx) as [He _]. congruence. }
  split.
  - intros p Hpp. destruct (si_queue _ _ Hs p Hpp) as (Hl & Hl2). split; [|done].
    apply (links_ext (fun x => t_rq_next (thr s x))); [|done]. intros x Hx. by rewrite upd_ne by eauto.
  - apply Hs.
  - apply Hs.
  - intros x p Hpp Hx. rewrite upd_ne by eauto. by apply Hs.
  - intros x Hv. rewrite upd_thr. destruct (decide (x = t)) as [->|]; [congruence|by apply Hs].
  - intros x Hv. rewrite upd_thr. destruct (decide (x = t)) as [->|]; [done|by apply Hs].
Qed.

Lemma alloc_tcb_Some fpu name prio s t s' :
  alloc_tcb fpu name prio s = (Some t, s') ->
  exists i, t = Thr i /\ 1 <= i < SCHED_MAX_THREADS /\ t_state (thr s t) = THREAD_STATE_DEAD /\
    s' = upd t (fun b => fresh_tcb fpu (t_tid b) prio name) s /\
    forall j, 1 <= j < i -> t_state (thr s (Thr j)) <> THREAD_STATE_DEAD.
Proof.
  unfold alloc_tcb. destruct (find_first _ _) as [i|] eqn:E; [|done]. intros [= <- <-].
  apply find_first_Some in E as (Hi & Hd & Hlt). unfold st_eqb in *. apply bool_decide_eq_true in Hd.
  exists (i + 1). split; [done|]. split; [lia|]. split; [done|]. split; [done|]. intros j Hj.
  specialize (Hlt (j - 1) ltac:(lia)). replace (j - 1 + 1) with j in Hlt by lia. by apply bool_decide_eq_false in Hlt.
Qed.

(** The record [thread_create_user_locked] builds. *)
Definition user_tcb (fpu : list Z) (tid prio : Z) (name : list Z) (aspace pager entry stack : Z) : tcb :=
  (fresh_tcb fpu tid prio name) <| t_address_space := aspace |> <| t_pager_tid := pager |>
    <| t_uctx := arch_uctx_init_user entry stack |>.

(** [sched_ready_now] on a thread just rewritten by [f]. *)
Lemma sched_ready_spec t (f : tcb -> tcb) s s1 qs :
  sched_inv s qs -> valid t -> t_in_ready_q (thr s t) = false ->
  t_in_ready_q (f (thr s t)) = false -> prio_ok (t_prio (f (thr s t))) ->
  thr s1 t = f (thr s t) -> (forall x, x <> t -> thr s1 x = thr s x) ->
  ready_head s1 = ready_head s /\ ready_tail s1 = ready_tail s /\ ready_bitmap s1 = ready_bitmap s ->
  let s' := sched_ready_now t s1 in
  sched_inv s' (push qs (t_prio (f (thr s t))) t) /\
  exists q n i, thr s' t = (f (thr s t)) <| t_state := THREAD_STATE_READY |>
                  <| t_in_ready_q := q |> <| t_rq_next := n |> <| t_inbox_next := i |> /\
  (forall x, x <> t -> keeps (thr s x) (thr s' x)).
Proof.
  intros Hs Hv Hq Hq' Hp E Hne (Eh & Et & Eb). unfold sched_ready_now. cbv zeta.
  set (s2 := upd t _ s1). assert (E2 : thr s2 t = (f (thr s t)) <| t_state := THREAD_STATE_READY |>)
    by (unfold s2; by rewrite upd_same, E).
  assert (Hs2 : sched_inv s2 qs).
  { unfold s2. apply sched_inv_upd; [by rsimpl|].
    apply (sched_inv_ext (upd t f s)); [|by rewrite Eh|by rewrite Et|done|by apply sched_inv_unqueued].
    intros x. rewrite upd_thr. destruct (decide (x = t)) as [->|]; [rewrite E|rewrite Hne by done]; done. }
  assert (Hne2 : forall x, x <> t -> thr s2 x = thr s x) by (intros; unfold s2; rewrite upd_ne by done; by apply Hne).
  clearbody s2. pose proof (rq_push_inv t s2 qs Hv Hs2) as Hpush. rewrite E2 in Hpush. rsimpl. rewrite Hq' in Hpush.
  split; [exact Hpush|]. destruct (rq_push_keeps t s2 t) as ((q & n & ix & Hk) & _). exists q, n, ix.
  split; [by rewrite Hk, E2|]. intros x Hx. rewrite <- Hne2 by done. apply rq_push_keeps.
Qed.

(** Thread creation takes the first dead slot: if the slot has left the
    ready queues and the priority is below 32, the new thread is ready at the
    tail of its priority's queue with its own identity as group and session,
    entering at the given address in user mode; all other threads and queues are
    untouched, and the state stays well formed. *)
Theorem thread_create_user_correct fpu name entry stack prio aspace pager s qs t s' :
  sched_inv s qs -> prio_ok prio ->
  (forall i, 1 <= i < SCHED_MAX_THREADS -> t_state (thr s (Thr i)) = THREAD_STATE_DEAD ->
             t_in_ready_q (thr s (Thr i)) = false /\ t_tid (thr s (Thr i)) = i) ->
  thread_create_user_locked fpu name entry stack prio aspace pager s = (Some t, s') ->
  exists i, t = Thr i /\ 1 <= i < SCHED_MAX_THREADS /\ t_state (thr s t) = THREAD_STATE_DEAD /\
    (forall j, 1 <= j < i -> t_state (thr s (Thr j)) <> THREAD_STATE_DEAD) /\
    sched_inv s' (push qs prio t) /\ is_ready s' t /\
    t_tid (thr s' t) = i /\ t_pgid (thr s' t) = i /\ t_sid (thr s' t) = i /\ t_prio (thr s' t) = prio /\
    t_address_space (thr s' t) = aspace /\ t_pager_tid (thr s' t) = pager /\
    t_uctx (thr s' t) = arch_uctx_init_user entry stack /\
    t_sig_pending (thr s' t) = 0 /\ t_send_q_head (thr s' t) = None /\
    (forall x, x <> t -> keeps (thr s x) (thr s' x)).
Proof.
  intros Hs Hp Hdead. unfold thread_create_user_locked.
  destruct (alloc_tcb fpu name prio s) as [[u|] s1] eqn:Ea; [|done]. intros [= <- <-].
  destruct (alloc_tcb_Some _ _ _ _ _ _ Ea) as (i & -> & Hi & Hd & -> & Hfirst).
  destruct (Hdead i Hi Hd) as [Hq Htid]. exists i. split; [done|]. split; [done|]. split; [done|]. split; [done|].
  destruct (sched_ready_spec (Thr i) (fun b => user_tcb fpu (t_tid b) prio name aspace pager entry stack) s
    (upd (Thr i) (fun b => b <| t_address_space := aspace |> <| t_pager_tid := pager |>
      <| t_uctx := arch_uctx_init_user entry stack |>) (upd (Thr i) (fun b => fresh_tcb fpu (t_tid b) prio name) s))
    qs Hs) as (H1 & q & n & ix & H2 & H3); [exists i; split; [done|lia]|done|done|done|by rewrite !upd_same|..].
  { intros x Hx. by rewrite !upd_ne. } { by split_and!. }
  split; [exact H1|]. unfold is_ready. rewrite H2, Htid. do 10 (split; [reflexivity|]). exact H3.
Qed.

(** ** Boot *)

(** The zero-initialised statics. *)
Definition sched_zero : sched :=
  mk_sched (fun _ => tcb_zero) (fun _ => None) (fun _ => None) 0 None (fun _ => false) 0 (fun _ => 0)
    U64_MAX (mk_sched_stats 0 0 0 0 0 0 0 0 0) (fun c => c =? 0) (fun _ => None) [] (fun _ => 0).

(** The first [k] slots of the table are initialised. *)
Record booted (k : Z) (s : sched) : Prop := {
  bo_inbox : wake_inbox s = None;
  bo_bits : ready_bitmap s = 0;
  bo_queues p : ready_head s p = None /\ ready_tail s p = None;
  bo_thr x : t_in_ready_q (thr s x) = false /\ t_prio (thr s x) = 0;
  bo_slot i : 0 <= i < k -> t_tid (thr s (Thr i)) = i /\ t_state (thr s (Thr i)) = THREAD_STATE_DEAD
}.

Lemma booted_step k s :
  booted k s -> booted (k + 1) (upd (Thr k) (fun b => b <| t_tid := k |> <| t_state := THREAD_STATE_DEAD |>) s).
Proof.
  intros [H1 H2 H3 H4 H5]. split; [exact H1|exact H2|exact H3|..].
  - intros x. rewrite upd_thr. destruct (decide (x = Thr k)) as [->|]; rsimpl; apply H4.
  - intros i Hi. rewrite upd_thr. destruct (decide (Thr i = Thr k)) as [[= ->]|Hne]; rsimpl; [done|].
    apply H5. assert (i <> k) by congruence. lia.
Qed.

Lemma empty_inv s :
  (forall p, ready_head s p = None /\ ready_tail s p = None) -> ready_bitmap s = 0 ->
  (forall t, valid t -> t_in_ready_q (thr s t) = false /\ prio_ok (t_prio (thr s t))) ->
  sched_inv s (fun _ => []).
Proof.
  intros Hq Hb Ht. split.
  - intros p _. destruct (Hq p) as [-> ->]. split; [done|]. split; [done|]. apply list.NoDup_nil. done.
  - rewrite Hb. lia.
  - intros p _. rewrite Hb, Z.bits_0. done.
  - intros t p _ Hin. by apply not_elem_of_nil in Hin.
  - intros t Hv. by rewrite (proj1 (Ht t Hv)).
  - intros t Hv. apply Ht, Hv.
Qed.

Lemma init_idle_inv idle_entry idle_end idle_name cpu s0 :
  booted SCHED_MAX_THREADS s0 ->
  let s := init_idle_for_this_cpu idle_entry idle_end idle_name cpu s0 in
  sched_inv s (fun _ => []) /\ inbox s [] /\ current_thread cpu s = Idle cpu /\
  (forall i, 0 <= i < SCHED_MAX_THREADS -> t_tid (thr s (Thr i)) = i /\
     t_state (thr s (Thr i)) = THREAD_STATE_DEAD /\ t_in_ready_q (thr s (Thr i)) = false).
Proof.
  intros [H1 H2 H3 H6 H7]. unfold init_idle_for_this_cpu. cbv zeta.
  set (s1 := upd (Idle cpu) _ s0). assert (E1 : forall x, x <> Idle cpu -> thr s1 x = thr s0 x) by (intros; by apply upd_ne).
  assert (Eh : (forall p, ready_head s1 p = None) /\ (forall p, ready_tail s1 p = None) /\ ready_bitmap s1 = 0 /\
    wake_inbox s1 = None) by (split_and!; [apply H3|apply H3|done|done]). clearbody s1. destruct Eh as (G1 & G2 & G3 & G4).
  split; [|split; [|split]].
  - apply empty_inv; rsimpl; [done|done|]. intros t (i & -> & _). rewrite E1 by done.
    destruct (H6 (Thr i)) as [-> ->]. unfold prio_ok, SCHED_PRIO_LEVELS. split; [done|lia].
  - split; [done|]. split; [apply list.NoDup_nil; done|by apply Forall_nil_2].
  - unfold current_thread. rsimpl. by rewrite fn_lookup_insert.
  - intros i Hi. rsimpl. rewrite E1 by done. destruct (H7 i Hi) as [-> ->]. split_and!; [done|done|apply H6].
Qed.

Lemma sched_init_booted :
  booted SCHED_MAX_THREADS (for_range SCHED_MAX_THREADS (fun i s =>
    upd (Thr i) (fun b => b <| t_tid := i |> <| t_state := THREAD_STATE_DEAD |>) s) sched_zero).
Proof.
  apply (for_range_ind booted).
  - unfold SCHED_MAX_THREADS. lia.
  - split; [done|done|done|done|]. intros. lia.
  - intros i s _. apply booted_step.
Qed.

Lemma sched_init_inv idle_entry idle_end idle_name cpu :
  let s := sched_init idle_entry idle_end idle_name cpu sched_zero in
  sched_inv s (fun _ => []) /\ inbox s [] /\ current_thread cpu s = Idle cpu /\
  (forall i, 0 <= i < SCHED_MAX_THREADS -> t_tid (thr s (Thr i)) = i /\
     t_state (thr s (Thr i)) = THREAD_STATE_DEAD /\ t_in_ready_q (thr s (Thr i)) = false).
Proof. exact (init_idle_inv idle_entry idle_end idle_name cpu _ sched_init_booted). Qed.

(** ** Examples *)

Definition demo_boot : sched := sched_init 0 (fun _ => 0) (fun _ => []) 0 sched_zero.
#[local] Opaque sched_init thread_create_user_locked.
Lemma thread_create_user_correct_witness :
  exists s', thread_create_user_locked [] [65] 0x1000 0x2000 5 0 0 demo_boot = (Some (Thr 1), s') /\
    sched_inv s' (push (fun _ => []) 5 (Thr 1)) /\ is_ready s' (Thr 1).
Proof.
  assert (Eo : (thread_create_user_locked [] [65] 0x1000 0x2000 5 0 0 demo_boot).1 = Some (Thr 1))
    by (vm_compute; reflexivity).
  destruct (sched_init_inv 0 (fun _ => 0) (fun _ => []) 0) as (H1 & _ & _ & H4). fold demo_boot in H1, H4.
  revert Eo H1 H4. generalize demo_boot. intros s0 Eo H1 H4.
  destruct (thread_create_user_locked [] [65] 0x1000 0x2000 5 0 0 s0) as [o s'] eqn:E. cbn in Eo. subst o.
  exists s'. split; [reflexivity|].
  destruct (thread_create_user_correct [] [65] 0x1000 0x2000 5 0 0 s0 (fun _ => []) (Thr 1) s')
    as (i & Hi & _ & _ & _ & H5 & H6 & _); [exact H1|unfold prio_ok, SCHED_PRIO_LEVELS; lia| |exact E|].
  - intros i Hi _. destruct (H4 i ltac:(lia)) as (Ha & _ & Hb). split; [exact Hb|exact Ha].
  - split; [exact H5|exact H6].
Defined.

(** Thread 1 waits for a message, thread 2 sleeps until tick 3; the idle thread
    is running. *)
Definition demo_wait : sched :=
  sched_zero <| thr := fun t =>
    match t with
    | Thr 1 => tcb_zero <| t_state := THREAD_STATE_WAIT_RECV |> <| t_prio := 5 |>
    | Thr 2 => tcb_zero <| t_state := THREAD_STATE_SLEEPING |> <| t_prio := 9 |> <| t_wake_at_tick := 3 |>
    | _ => tcb_zero <| t_state := THREAD_STATE_DEAD |>
    end |>
  <| current := fun _ => Some (Idle 0) |> <| now_ticks := 4 |>.

Lemma demo_wait_inv : sched_inv demo_wait (fun _ => []) /\ inbox demo_wait [].
Proof.
  split; [apply empty_inv; [done|done|]|split; [done|]; split; [apply list.NoDup_nil; done|by apply Forall_nil_2]].
  intros t (i & -> & _). unfold demo_wait, prio_ok, SCHED_PRIO_LEVELS. rsimpl.
  destruct i as [|[p|[|[]|]|]|]; rsimpl; (split; [reflexivity|]); cbn; lia.
Qed.

Lemma schedule_refines_witness :
  exists r qs', picks (order demo_wait 0 (fun _ => []) []) r /\
    current (schedule 0 demo_wait) 0 = Some (default (Idle 0) r) /\ sched_inv (schedule 0 demo_wait) qs'.
Proof.
  destruct demo_wait_inv as [H1 H2].
  destruct (schedule_refines 0 demo_wait (fun _ => []) [] H1 H2) as (r & qs' & Hp & Hc & _ & _ & _ & Hi & _).
  - left. reflexivity.
  - exists r, qs'. split; [exact Hp|]. split; [exact Hc|exact Hi].
Defined.


Lemma sleepers_woken_witness : is_ready (wake_sleepers 0 demo_wait) (Thr 2).
Proof.
  destruct (sleepers_woken 0 demo_wait) as [H _].
  - intros i Hi. unfold demo_wait, U64_MAX. rsimpl. destruct i as [|[p|[|[]|]|]|]; rsimpl; cbn; lia.
  - apply (H 2); [unfold SCHED_MAX_THREADS; lia|reflexivity].
Defined.

(** ** Limits *)

(** The hypothesis that a woken thread is not already in the inbox matters: if
    thread 2 is woken twice before the inbox is drained, it is linked to itself,
    and thread 1, woken before, is dropped: it is ready, but in no queue. *)
Lemma double_wake_loses_thread :
  let s := sched_wake 0 (Thr 2) (sched_wake 0 (Thr 2) (sched_wake 0 (Thr 1) demo_wait)) in
  let s' := schedule 0 s in
  current s' 0 = Some (Thr 2) /\ t_state (thr s' (Thr 1)) = THREAD_STATE_READY /\
  t_in_ready_q (thr s' (Thr 1)) = false /\ wake_inbox s' = None /\ ready_bitmap s' = 0.
Proof. vm_compute. auto. Qed.
