(* ===== verification/Cmdline.v ===== *)
(** * The kernel command line ([src/src/core/cmdline.c])

    [cmdline_parse] splits the boot loader's string into [key=value] tokens
    inside a fixed buffer; [cmdline_get] looks a key up.  The buffer is the
    list of its characters up to the terminator; a token's strings end where
    the code writes a NUL.  The theorem shows that a command line printed from
    a list of settings parses back to it. *)
From Stdlib Require Import ZArith Lia.
From stdpp Require Import base numbers list.
From S2P Require Import Prelude Memory.

Notation CMDLINE_BUF_SIZE := (256)%Z (only parsing).
Notation CMDLINE_MAX_TOKENS := (16)%Z (only parsing).
Definition SPACE : Z := 32.
Definition EQUALS : Z := 61.

(** [while ( *p == ' ') p++] *)
Fixpoint skip_spaces (p : list Z) : list Z :=
  match p with
  | c :: p' => if c =? SPACE then skip_spaces p' else p
  | [] => []
  end.

(** The characters before the first one satisfying [stop], and the rest. *)
Fixpoint scan (stop : Z -> bool) (p : list Z) : list Z * list Z :=
  match p with
  | c :: p' => if stop c then ([], p) else let '(w, r) := scan stop p' in (c :: w, r)
  | [] => ([], [])
  end.

(** The loop: one token, or one word without [=], per round. *)
Fixpoint token_loop (fuel : nat) (p : list Z) (tokens : list (list Z * list Z)) : list (list Z * list Z) :=
  match fuel with
  | O => tokens
  | S fuel =>
      if (length p =? 0)%nat || negb (Z.of_nat (length tokens) <? CMDLINE_MAX_TOKENS) then tokens
      else
        match skip_spaces p with
        | [] => tokens
        | p =>
            let '(key, p) := scan (fun c => (c =? SPACE) || (c =? EQUALS)) p in
            match p with
            | c :: p' =>
                if c =? EQUALS then
                  let '(value, p') := scan (fun c => c =? SPACE) p' in
                  token_loop fuel (drop 1 p') (tokens ++ [(key, value)])
                else token_loop fuel p' tokens
            | [] => token_loop fuel [] tokens
            end
        end
  end.

(** [raw] is the string, [None] for NULL.  Every round consumes a character,
    so the buffer's size bounds the rounds. *)
Definition cmdline_parse (raw : option (list Z)) : list (list Z * list Z) :=
  match raw with
  | None => []
  | Some s =>
      let buf := take (Z.to_nat (CMDLINE_BUF_SIZE - 1)) s in
      token_loop (Z.to_nat CMDLINE_BUF_SIZE) buf []
  end.

(** [strncmp(keys[i], key, klen + 1) == 0] compares up to and including the
    terminator of [key]. *)
Definition cmdline_get (tokens : list (list Z * list Z)) (key : list Z) : option (list Z) :=
  snd <$> List.find (fun t => bool_decide (t.1 = key)) tokens.

(** ** Round trip *)
Definition key_char (c : Z) : Prop := c <> SPACE /\ c <> EQUALS.
Definition token_ok (t : list Z * list Z) : Prop := Forall key_char t.1 /\ Forall (fun c => c <> SPACE) t.2.
Definition print_token (t : list Z * list Z) : list Z := t.1 ++ [EQUALS] ++ t.2.
Fixpoint print_cmdline (l : list (list Z * list Z)) : list Z :=
  match l with
  | [] => []
  | [t] => print_token t
  | t :: l => print_token t ++ [SPACE] ++ print_cmdline l
  end.

Lemma scan_app stop w r :
  Forall (fun c => stop c = false) w -> (match r with c :: _ => stop c = true | [] => True end) ->
  scan stop (w ++ r) = (w, r).
Proof.
  intros Hw Hr. induction Hw as [|c w Hc Hw IH]; cbn [app scan].
  - destruct r; cbn [scan]; [done|by rewrite Hr].
  - by rewrite Hc, IH.
Qed.

Lemma skip_spaces_length p : (length (skip_spaces p) <= length p)%nat.
Proof. induction p as [|c p IH]; cbn; [lia|]. destruct (c =? SPACE); cbn; lia. Qed.

Lemma scan_length stop p w r : scan stop p = (w, r) -> length p = (length w + length r)%nat.
Proof.
  revert w r. induction p as [|c p IH]; intros w r; cbn; [by intros [= <- <-]|].
  destruct (stop c); [by intros [= <- <-]|]. destruct (scan stop p) as [w' r']. intros [= <- <-].
  cbn. by rewrite (IH w' r').
Qed.

(** More fuel than characters changes nothing. *)
Lemma token_loop_fuel fuel : forall p tokens,
  (length p < fuel)%nat -> token_loop (S fuel) p tokens = token_loop fuel p tokens.
Proof.
  induction fuel as [|fuel IH]; intros p tokens Hf; [lia|].
  cbn [token_loop]. destruct (_ || _); [done|]. pose proof (skip_spaces_length p) as Hs.
  destruct (skip_spaces p) as [|c0 p0]; [done|]. destruct (scan _ (c0 :: p0)) as [key r] eqn:Ek.
  apply scan_length in Ek. cbn [length] in *. destruct r as [|c r].
  - destruct fuel; [lia|]. by rewrite <- IH by (cbn; lia).
  - cbn [length] in Ek. destruct (c =? EQUALS); [|apply IH; lia].
    destruct (scan _ r) as [value q] eqn:Eq. apply scan_length in Eq. apply IH. rewrite length_drop. lia.
Qed.

Lemma parse_round fuel k v rest tokens :
  token_ok (k, v) -> Z.of_nat (length tokens) < CMDLINE_MAX_TOKENS ->
  (match rest with c :: _ => c = SPACE | [] => True end) ->
  token_loop (S fuel) (print_token (k, v) ++ rest) tokens = token_loop fuel (drop 1 rest) (tokens ++ [(k, v)]).
Proof.
  intros [Hk Hv] Hn Hr. cbn [fst snd] in *. unfold print_token. cbn [token_loop fst snd].
  replace (length ((k ++ [EQUALS] ++ v) ++ rest) =? 0)%nat with false
    by (symmetry; apply Nat.eqb_neq; rewrite !length_app; simpl; lia).
  replace (Z.of_nat (length tokens) <? CMDLINE_MAX_TOKENS) with true by lia. cbn [orb negb].
  assert (Es : skip_spaces ((k ++ [EQUALS] ++ v) ++ rest) = k ++ EQUALS :: v ++ rest).
  { rewrite <- !app_assoc. destruct Hk as [|c k [Hc _] Hk]; cbn [app skip_spaces]; [done|].
    by rewrite (proj2 (Z.eqb_neq c SPACE) Hc). }
  rewrite Es. destruct (k ++ EQUALS :: v ++ rest) as [|c0 p0] eqn:Ep; [by destruct k|]. rewrite <- Ep. clear Ep Es.
  rewrite (scan_app _ k (EQUALS :: v ++ rest)); [|eapply Forall_impl; [exact Hk|]; unfold key_char; cbn; lia|done].
  rewrite Z.eqb_refl. rewrite (scan_app _ v rest); [done|eapply Forall_impl; [exact Hv|]; cbn; lia|].
  destruct rest; [done|]. rewrite Hr. apply Z.eqb_refl.
Qed.

Lemma parse_print l : forall fuel tokens,
  Forall token_ok l -> Z.of_nat (length tokens + length l) <= CMDLINE_MAX_TOKENS ->
  (length l < fuel)%nat -> token_loop fuel (print_cmdline l) tokens = tokens ++ l.
Proof.
  induction l as [|[k v] l IH]; intros fuel tokens Hok Hn Hf; (destruct fuel as [|fuel]; [simpl in Hf; lia|]).
  { cbn. by rewrite app_nil_r. }
  apply list.Forall_cons in Hok as [Ht Hok]. cbn [length] in *.
  destruct l as [|t l].
  - cbn [print_cmdline]. rewrite <- (app_nil_r (print_token (k, v))), parse_round by (done || lia).
    destruct fuel; cbn [token_loop drop length Nat.eqb orb]; [simpl in Hf; lia|done].
  - change (print_cmdline ((k, v) :: t :: l)) with (print_token (k, v) ++ SPACE :: print_cmdline (t :: l)).
    rewrite parse_round by (done || lia). cbn [drop].
    rewrite IH; [by rewrite <- app_assoc|done|rewrite length_app; simpl in *; lia|simpl in *; lia].
Qed.

(** Settings survive the command line.  For up to sixteen settings whose
    keys contain neither space nor [=] and whose values contain no space, and
    whose text fits the buffer, parsing the printed command line gives back
    exactly the settings, in order; so [cmdline_get] finds for each key the
    first value given. *)
Theorem cmdline_roundtrip l key :
  Forall token_ok l -> Z.of_nat (length l) <= CMDLINE_MAX_TOKENS ->
  Z.of_nat (length (print_cmdline l)) < CMDLINE_BUF_SIZE ->
  cmdline_parse (Some (print_cmdline l)) = l /\
  cmdline_get (cmdline_parse (Some (print_cmdline l))) key =
    snd <$> List.find (fun t => bool_decide (t.1 = key)) l.
Proof.
  intros Hok Hn Hlen.
  assert (E : cmdline_parse (Some (print_cmdline l)) = l).
  { unfold cmdline_parse. rewrite take_ge by (lia).
    apply (parse_print l (Z.to_nat CMDLINE_BUF_SIZE) []); [done|simpl; lia|].
    lia. }
  split; [done|]. by rewrite E.
Qed.

Lemma cmdline_roundtrip_witness :
  cmdline_get (cmdline_parse (Some (print_cmdline [([114], [97; 98]); ([113], []); ([114], [99])]))) [114]
    = Some [97; 98].
Proof.
  destruct (cmdline_roundtrip [([114], [97; 98]); ([113], []); ([114], [99])] [114]) as [_ E].
  - repeat (apply Forall_cons_2; [split; cbn; repeat constructor; done|]). by apply Forall_nil_2.
  - done.
  - done.
  - rewrite E. reflexivity.
Defined.
