(* ===== verification/Bootinfo.v ===== *)
(** * Boot information ([src/arch/x86_64/src/pvh_mem.c], [src/src/boot/rootfs.c])

    What the boot loader hands over: the Multiboot2 tag list or the PVH start
    structure, read from physical memory.  Each accessor of the code repeats
    the same walk over the tags; [mb2_walk] is that loop, with the body of the
    accessor.  [None] is a walk that never ends, which the code enters on a
    tag whose rounded size is zero; [tag_list] describes a list that ends, and
    the theorems are about such lists. *)
From Stdlib Require Import ZArith Lia.
From stdpp Require Import base numbers sets list list_numbers functions.
From S2P Require Import Prelude Abi Memory Pmm PageTable.

Notation PVH_MAGIC := (0x336ec578)%Z (only parsing).
Notation MB2_MAGIC := (0x36d76289)%Z (only parsing).
Notation MB2_TAG_RSDP_OLD := (14)%Z (only parsing).
Notation MB2_TAG_RSDP_NEW := (15)%Z (only parsing).
Notation MB2_TAG_FRAMEBUFFER := (8)%Z (only parsing).
Notation HVM_MEMMAP_TYPE_RAM := (1)%Z (only parsing).
Notation FALLBACK_BASE := (0x1000000)%Z (only parsing).
Notation FALLBACK_LEN := (0x1000000)%Z (only parsing).

(** ** Tags *)
Definition tag_type (m : mem) (tag : Z) : Z := ld32 m tag.
Definition tag_size (m : mem) (tag : Z) : Z := ld32 m (tag + 4).
(** [(tag->size + 7) & ~7] in 32 bits *)
Definition tag_step (m : mem) (tag : Z) : Z := Z.land (u32 (tag_size m tag + 7)) (not32 7).
Definition mod_start (m : mem) (tag : Z) : Z := ld32 m (tag + 8).
Definition mod_end (m : mem) (tag : Z) : Z := ld32 m (tag + 12).
Definition mod_cmdline (tag : Z) : Z := tag + 16.
(** Base and length of a module. *)
Definition mod_range (m : mem) (tag : Z) : Z * Z := (mod_start m tag, u32 (mod_end m tag - mod_start m tag)).

(** The walk; the body's boolean says whether to return. *)
Fixpoint mb2_walk {A : Type} (fuel : nat) (m : mem) (limit ptr : Z) (body : Z -> A -> A * bool) (acc : A)
  : option (A * bool) :=
  match fuel with
  | O => None
  | S fuel =>
      if ptr <? limit then
        if tag_type m ptr =? 0 then Some (acc, false)
        else
          let '(acc, ret) := body ptr acc in
          if (ret : bool) then Some (acc, true)
          else mb2_walk fuel m limit (ptr + tag_step m ptr) body acc
      else Some (acc, false)
  end.

Section boot.
(** Where the boot loader left its structures; zero when absent. *)
Context (multiboot2_info_ptr pvh_start_info_ptr : Z).

(** Each step of a walk that ends advances by at least eight bytes. *)
Definition mb2_tags {A : Type} (m : mem) (body : Z -> A -> A * bool) (acc : A) : option (A * bool) :=
  let total_size := ld32 m multiboot2_info_ptr in
  mb2_walk (Z.to_nat (total_size / 8) + 2) m (multiboot2_info_ptr + total_size) (multiboot2_info_ptr + 8) body acc.

Definition pvh_info (m : mem) : option Z :=
  if tru pvh_start_info_ptr && (ld32 m pvh_start_info_ptr =? PVH_MAGIC) && (ld32 m (pvh_start_info_ptr + 4) >=? 1)
  then Some pvh_start_info_ptr else None.
Definition nr_modules (m : mem) (info : Z) : Z := ld32 m (info + 12).
Definition modlist_paddr (m : mem) (info : Z) : Z := ld64 m (info + 16).
Definition cmdline_paddr (m : mem) (info : Z) : Z := ld64 m (info + 24).
Definition rsdp_paddr (m : mem) (info : Z) : Z := ld64 m (info + 32).
Definition memmap_paddr (m : mem) (info : Z) : Z := ld64 m (info + 40).
Definition memmap_entries (m : mem) (info : Z) : Z := ld32 m (info + 48).

Definition arch_boot_magic (m : mem) : option Z :=
  if tru multiboot2_info_ptr then Some MB2_MAGIC else (fun info => ld32 m info) <$> pvh_info m.

(** The address of the string; the inner [None] is NULL. *)
Definition arch_boot_cmdline (m : mem) : option (option Z) :=
  let pvh := match pvh_info m with
             | Some info => if tru (cmdline_paddr m info) then Some (cmdline_paddr m info) else None
             | None => None
             end in
  if tru multiboot2_info_ptr then
    match mb2_tags m (fun tag acc => if tag_type m tag =? 1 then (Some (tag + 8), true) else (acc, false)) None with
    | None => None
    | Some (s, true) => Some s
    | Some (_, false) => Some pvh
    end
  else Some pvh.

Definition arch_boot_module (m : mem) : option (option (Z * Z)) :=
  let pvh := match pvh_info m with
             | Some info =>
                 if (nr_modules m info =? 0) || negb (tru (modlist_paddr m info)) then None
                 else Some (ld64 m (modlist_paddr m info), ld64 m (modlist_paddr m info + 8))
             | None => None
             end in
  if tru multiboot2_info_ptr then
    match mb2_tags m (fun tag acc => if tag_type m tag =? 3 then (Some (mod_range m tag), true) else (acc, false)) None with
    | None => None
    | Some (r, true) => Some r
    | Some (_, false) => Some pvh
    end
  else Some pvh.

(** [name] is a string without its terminator. *)
Fixpoint str_eq (m : mem) (a : Z) (name : list Z) : bool :=
  match name with
  | [] => m a =? 0
  | c :: name => negb (m a =? 0) && (m a =? c) && str_eq m (a + 1) name
  end.

Definition arch_boot_module_by_name (name : list Z) (m : mem) : option (option (Z * Z)) :=
  if negb (tru multiboot2_info_ptr) then Some None
  else fst <$> mb2_tags m (fun tag acc =>
    if (tag_type m tag =? 3) && str_eq m (mod_cmdline tag) name
    then (Some (mod_range m tag), true) else (acc, false)) None.

Definition arch_boot_module_count (m : mem) : option Z :=
  if negb (tru multiboot2_info_ptr) then Some 0
  else fst <$> mb2_tags m (fun tag n => (if tag_type m tag =? 3 then i32 (n + 1) else n, false)) 0.

Definition arch_boot_module_at (index : Z) (m : mem) : option (option (Z * Z)) :=
  if negb (tru multiboot2_info_ptr) then Some None
  else snd ∘ fst <$> mb2_tags m (fun tag '(cur, r) =>
    if tag_type m tag =? 3 then
      if cur =? index then ((cur, Some (mod_range m tag)), true) else ((i32 (cur + 1), r), false)
    else ((cur, r), false)) (0, None).

Definition arch_boot_rsdp (m : mem) : option (option Z) :=
  let pvh := match pvh_info m with
             | Some info => if tru (rsdp_paddr m info) then Some (rsdp_paddr m info) else None
             | None => None
             end in
  if tru multiboot2_info_ptr then
    match mb2_tags m (fun tag acc =>
        if (tag_type m tag =? MB2_TAG_RSDP_OLD) || (tag_type m tag =? MB2_TAG_RSDP_NEW)
        then (Some (tag + 8), true) else (acc, false)) None with
    | None => None
    | Some (r, true) => Some r
    | Some (_, false) => Some pvh
    end
  else Some pvh.

(** The record written to [out]: the colour fields only for type 1. *)
Definition read_fb (m : mem) (tag : Z) (out : fb_info_t) : fb_info_t :=
  let rgb := m (tag + 29) =? 1 in
  let pick off old := if (rgb : bool) then m (tag + off) else old in
  mk_fb_info (ld64 m (tag + 8)) (ld32 m (tag + 16)) (ld32 m (tag + 20)) (ld32 m (tag + 24)) (m (tag + 28))
    (m (tag + 29)) (pick 32 (red_pos out)) (pick 33 (red_size out)) (pick 34 (green_pos out))
    (pick 35 (green_size out)) (pick 36 (blue_pos out)) (pick 37 (blue_size out)).
Definition arch_boot_framebuffer (out : fb_info_t) (m : mem) : option (option fb_info_t) :=
  if negb (tru multiboot2_info_ptr) then Some None
  else fst <$> mb2_tags m (fun tag acc =>
    if tag_type m tag =? MB2_TAG_FRAMEBUFFER then (Some (read_fb m tag out), true) else (acc, false)) None.

(** ** Memory *)
Definition region_usable_len (addr len : Z) : Z :=
  if addr >=? ROBU_IDENTITY_MAP_LIMIT then 0
  else
    let max_len := ROBU_IDENTITY_MAP_LIMIT - addr in
    if len <? max_len then len else max_len.

(** The loop over memory-map entries: base, length and usable length of the
    best region so far. *)
Definition pick_region (is_ram : Z -> bool) (addr size : Z -> Z) (n : Z) : Z * Z * Z :=
  for_range n (fun i '(best_base, best_len, best_usable) =>
    if negb (is_ram i) then (best_base, best_len, best_usable)
    else
      let usable := region_usable_len (addr i) (size i) in
      if usable >? best_usable then (addr i, size i, usable) else (best_base, best_len, best_usable)) (0, 0, 0).

Definition mmap_best (m : mem) (tag : Z) : Z * Z * Z :=
  let entry_size := ld32 m (tag + 8) in
  let nentries := u32 (tag_size m tag - 16) / entry_size in
  let e i := tag + 16 + u32 (i * entry_size) in
  pick_region (fun i => ld32 m (e i + 16) =? 1) (fun i => ld64 m (e i)) (fun i => ld64 m (e i + 8)) nentries.

Definition arch_detect_memory (m : mem) : option (Z * Z) :=
  let pvh :=
    match pvh_info m with
    | Some info =>
        if tru (memmap_paddr m info) && (memmap_entries m info >? 0) then
          let e i := memmap_paddr m info + 24 * i in
          let '(best_base, best_len, _) :=
            pick_region (fun i => ld32 m (e i + 16) =? HVM_MEMMAP_TYPE_RAM) (fun i => ld64 m (e i))
              (fun i => ld64 m (e i + 8)) (memmap_entries m info) in
          if best_len >? 0 then (best_base, best_len) else (FALLBACK_BASE, FALLBACK_LEN)
        else (FALLBACK_BASE, FALLBACK_LEN)
    | None => (FALLBACK_BASE, FALLBACK_LEN)
    end in
  if tru multiboot2_info_ptr then
    match mb2_tags m (fun tag acc =>
        if tag_type m tag =? 6 then
          let '(best_base, best_len, _) := mmap_best m tag in
          if best_len >? 0 then ((best_base, best_len), true) else (acc, false)
        else (acc, false)) (0, 0) with
    | None => None
    | Some (r, true) => Some r
    | Some (_, false) => Some pvh
    end
  else Some pvh.

(** ** The root file system: the boot modules by name *)

(** Start and end of the module; a walk that does not end finds nothing. *)
Definition rootfs_lookup (name : list Z) (m : mem) : option (Z * Z) :=
  match arch_boot_module_by_name name m with
  | Some (Some (mod_base, mod_len)) => Some (mod_base, mod_base + mod_len)
  | _ => None
  end.
End boot.

(** [rootfs_readdir] always fails. *)
Definition rootfs_readdir (index : Z) : option (list Z * Z) := None.

(** * Theorems *)

(** The tags from [ptr] on, for a list that ends. *)
Inductive tag_list (m : mem) (limit : Z) : Z -> list Z -> Prop :=
  | tags_done ptr : limit <= ptr -> tag_list m limit ptr []
  | tags_end ptr : ptr < limit -> tag_type m ptr = 0 -> tag_list m limit ptr []
  | tags_cons ptr l : ptr < limit -> tag_type m ptr <> 0 -> 0 < tag_step m ptr ->
      tag_list m limit (ptr + tag_step m ptr) l -> tag_list m limit ptr (ptr :: l).

(** What a walk over the tags [l] computes. *)
Fixpoint fold_until {A} (body : Z -> A -> A * bool) (l : list Z) (acc : A) : A * bool :=
  match l with
  | [] => (acc, false)
  | t :: l => let '(acc, ret) := body t acc in if (ret : bool) then (acc, true) else fold_until body l acc
  end.

Lemma tag_step_mult m tag : tag_step m tag mod 8 = 0 /\ 0 <= tag_step m tag < 2 ^ 32.
Proof.
  unfold tag_step. pose proof (u32_range (tag_size m tag + 7)) as Hr.
  set (x := u32 (tag_size m tag + 7)) in *.
  assert (E : Z.land x (not32 7) = x - x mod 8).
  { change 8 with (2 ^ 3). rewrite <- Z.land_ones by lia. apply Z.bits_inj'. intros j Hj.
    rewrite Z.sub_nocarry_ldiff, Z.ldiff_spec, !Z.land_spec.
    2: { apply Z.bits_inj'. intros k Hk. rewrite Z.ldiff_spec, Z.land_spec, Z.bits_0. destruct (Z.testbit x k); lia. }
    destruct (decide (j < 32)).
    - unfold not32, u32. rewrite Z.mod_pow2_bits_low, Z.lnot_spec by lia. change 7 with (Z.ones 3).
      destruct (Z.testbit x j), (Z.testbit (Z.ones 3) j); done.
    - rewrite (testbit_high x 32) by lia. done. }
  rewrite E. Z.div_mod_to_equations. lia.
Qed.

(** The walk ends, within the fuel, and visits exactly the tags. *)
Lemma mb2_walk_spec {A} m limit ptr l (body : Z -> A -> A * bool) :
  tag_list m limit ptr l -> forall fuel acc, (limit - ptr) / 8 + 1 < Z.of_nat fuel ->
  0 < Z.of_nat fuel -> mb2_walk fuel m limit ptr body acc = Some (fold_until body l acc).
Proof.
  induction 1 as [ptr Hp|ptr Hp Ht|ptr l Hp Ht Hs Hl IH]; intros fuel acc Hf H1;
    (destruct fuel as [|fuel]; [lia|]); cbn [mb2_walk fold_until].
  - by replace (ptr <? limit) with false by lia.
  - replace (ptr <? limit) with true by lia. by rewrite Ht.
  - replace (ptr <? limit) with true by lia. rewrite (proj2 (Z.eqb_neq _ _) Ht).
    destruct (body ptr acc) as [acc' []]; [done|].
    destruct (tag_step_mult m ptr) as [Hm _].
    apply IH; Z.div_mod_to_equations; lia.
Qed.

Lemma mb2_tags_spec {A} ptr m l (body : Z -> A -> A * bool) acc :
  mem_wf m -> tag_list m (ptr + ld32 m ptr) (ptr + 8) l ->
  mb2_tags ptr m body acc = Some (fold_until body l acc).
Proof.
  intros Hm Hl. unfold mb2_tags. apply (mb2_walk_spec _ _ _ _ _ Hl);
    pose proof (ld32_range m ptr Hm); Z.div_mod_to_equations; lia.
Qed.

Definition is_module (m : mem) (tag : Z) : bool := tag_type m tag =? 3.

Lemma fold_until_find {A} (p : Z -> bool) (f : Z -> A) l :
  (fold_until (fun t acc => if p t then (Some (f t), true) else (acc, false)) l None).1 = f <$> List.find p l.
Proof. induction l as [|t l IH]; cbn; [done|]. by destruct (p t). Qed.

Lemma find_filter {A} (p q : A -> bool) l :
  List.find (fun t => p t && q t) l = List.find q (List.filter p l).
Proof. induction l as [|t l IH]; cbn; [done|]. destruct (p t); cbn; [by destruct (q t)|done]. Qed.

Lemma tag_list_length m limit ptr l : tag_list m limit ptr l -> 8 * Z.of_nat (length l) <= Z.max 0 (limit - ptr + 7).
Proof.
  induction 1 as [| |ptr l Hp Ht Hs Hl IH]; cbn [length]; [lia|lia|].
  destruct (tag_step_mult m ptr). Z.div_mod_to_equations. lia.
Qed.

Lemma fold_count m l n :
  0 <= n -> n + Z.of_nat (length l) < 2 ^ 31 ->
  fold_until (fun tag n => (if tag_type m tag =? 3 then i32 (n + 1) else n, false)) l n =
  (n + Z.of_nat (length (List.filter (is_module m) l)), false).
Proof.
  revert n. induction l as [|t l IH]; intros n Hn Hb; cbn [fold_until length List.filter] in *; [f_equal; lia|].
  unfold is_module at 1. destruct (tag_type m t =? 3).
  - rewrite i32_small by lia. rewrite IH by lia. cbn [length]. f_equal. lia.
  - rewrite IH by lia. done.
Qed.

Lemma fold_at m index l cur r :
  0 <= cur -> cur + Z.of_nat (length l) < 2 ^ 31 ->
  (fold_until (fun tag '(cur, r) =>
    if tag_type m tag =? 3 then
      if cur =? index then ((cur, Some (mod_range m tag)), true) else ((i32 (cur + 1), r), false)
    else ((cur, r), false)) l (cur, r)).1.2 =
  if cur <=? index then
    match List.filter (is_module m) l !! Z.to_nat (index - cur) with Some t => Some (mod_range m t) | None => r end
  else r.
Proof.
  revert cur. induction l as [|t l IH]; intros cur Hn Hb; cbn [fold_until length List.filter] in *.
  { by destruct (cur <=? index). }
  unfold is_module at 1. destruct (tag_type m t =? 3).
  - destruct (cur =? index) eqn:E.
    + apply Z.eqb_eq in E as ->. replace (index <=? index) with true by lia.
      by rewrite Z.sub_diag.
    + apply Z.eqb_neq in E. rewrite i32_small, IH by lia. destruct (cur <=? index) eqn:E2.
      * replace (cur + 1 <=? index) with true by lia.
        replace (Z.to_nat (index - cur)) with (S (Z.to_nat (index - (cur + 1)))) by lia. done.
      * by replace (cur + 1 <=? index) with false by lia.
  - rewrite IH by lia. done.
Qed.

(** C40: The boot modules are enumerated completely and in order.  On a
    Multiboot2 tag list that ends, every walk of the code terminates, and
    with [mods] the module tags in list order: the count is their number, the
    module at index i is the i-th of them (none outside the range), and the
    module found by name is the first one with that name. *)
Theorem boot_modules_listed mb m tags name index :
  mb <> 0 -> mem_wf m -> tag_list m (mb + ld32 m mb) (mb + 8) tags ->
  let mods := List.filter (is_module m) tags in
  arch_boot_module_count mb m = Some (Z.of_nat (length mods)) /\
  arch_boot_module_at mb index m =
    Some (if 0 <=? index then mod_range m <$> mods !! Z.to_nat index else None) /\
  arch_boot_module_by_name mb name m =
    Some (mod_range m <$> List.find (fun t => str_eq m (mod_cmdline t) name) mods).
Proof.
  intros Hmb Hm Hl mods.
  assert (Htru : tru mb = true) by (unfold tru; by rewrite (proj2 (Z.eqb_neq _ _) Hmb)).
  pose proof (tag_list_length _ _ _ _ Hl) as Hlen. pose proof (ld32_range m mb Hm).
  unfold arch_boot_module_count, arch_boot_module_at, arch_boot_module_by_name. rewrite Htru. cbn [negb].
  rewrite !(mb2_tags_spec mb m tags) by done. split; [|split].
  - rewrite fold_count by lia. done.
  - cbn [option_fmap fmap option_map compose]. rewrite fold_at by lia. rewrite Z.sub_0_r. fold mods.
    destruct (0 <=? index); [|done]. by destruct (mods !! Z.to_nat index).
  - cbn [option_fmap fmap option_map]. rewrite (fold_until_find (fun t => is_module m t && str_eq m (mod_cmdline t) name)).
    by rewrite find_filter.
Qed.

(** A tag list with a command line, two modules named "a" and "b", and the
    end tag. *)
Definition demo_boot : mem :=
  let m := st32 (fun _ => 0) 0x1000 96 in
  let m := st32 (st32 (put_bytes m 0x1010 [120]) 0x1008 1) 0x100c 10 in
  let m := st32 (st32 (st32 (st32 (put_bytes m 0x1028 [97]) 0x1018 3) 0x101c 18) 0x1020 0x5000) 0x1024 0x5100 in
  let m := st32 (st32 (st32 (st32 (put_bytes m 0x1040 [98]) 0x1030 3) 0x1034 18) 0x1038 0x6000) 0x103c 0x6008 in
  st32 m 0x104c 8.

Lemma demo_boot_wf : mem_wf demo_boot.
Proof.
  unfold demo_boot. repeat (apply st32_wf || (apply put_bytes_wf; [|repeat constructor; lia])).
  intros x. lia.
Qed.

Lemma boot_modules_listed_witness :
  arch_boot_module_count 0x1000 demo_boot = Some 2 /\
  arch_boot_module_at 0x1000 1 demo_boot = Some (Some (0x6000, 8)) /\
  arch_boot_module_by_name 0x1000 [98] demo_boot = Some (Some (0x6000, 8)).
Proof.
  destruct (boot_modules_listed 0x1000 demo_boot [0x1008; 0x1018; 0x1030] [98] 1) as (H1 & H2 & H3).
  - done.
  - apply demo_boot_wf.
  - apply tags_cons; [vm_compute; done..|].
    change (0x1008 + tag_step demo_boot 0x1008) with 0x1018. apply tags_cons; [vm_compute; done..|].
    change (0x1018 + tag_step demo_boot 0x1018) with 0x1030. apply tags_cons; [vm_compute; done..|].
    apply tags_end; vm_compute; done.
  - rewrite H1, H2, H3. split; [|split]; vm_compute; reflexivity.
Defined.

(** A tag whose rounded size is zero is never left. *)
Lemma zero_tag_hangs {A} m limit ptr (body : Z -> A -> A * bool) :
  ptr < limit -> tag_type m ptr <> 0 -> tag_step m ptr = 0 -> (forall acc, (body ptr acc).2 = false) ->
  forall fuel acc, mb2_walk fuel m limit ptr body acc = None.
Proof.
  intros Hp Ht Hs Hb fuel. induction fuel as [|fuel IH]; intros acc; cbn [mb2_walk]; [done|].
  replace (ptr <? limit) with true by lia. rewrite (proj2 (Z.eqb_neq _ _) Ht).
  specialize (Hb acc). destruct (body ptr acc) as [acc' ret]. cbn in Hb. subst ret. rewrite Hs, Z.add_0_r. apply IH.
Qed.

(** ** The memory region chosen *)
Lemma pick_region_spec is_ram addr size n :
  0 <= n -> let '(b, l, u) := pick_region is_ram addr size n in
  (u = 0 /\ b = 0 /\ l = 0 \/ exists i, 0 <= i < n /\ is_ram i = true /\ b = addr i /\ l = size i /\
     u = region_usable_len (addr i) (size i) /\ 0 < u) /\
  forall i, 0 <= i < n -> is_ram i = true -> region_usable_len (addr i) (size i) <= u.
Proof.
  intros Hn. unfold pick_region.
  apply (for_range_ind (fun k '(b, l, u) =>
    (u = 0 /\ b = 0 /\ l = 0 \/ exists i, 0 <= i < k /\ is_ram i = true /\ b = addr i /\ l = size i /\
       u = region_usable_len (addr i) (size i) /\ 0 < u) /\
    forall i, 0 <= i < k -> is_ram i = true -> region_usable_len (addr i) (size i) <= u)); [lia| |].
  { split; [by left|lia]. }
  intros k [[b l] u] Hk [Hsel Hmax].
  assert (Hold : u = 0 /\ b = 0 /\ l = 0 \/ exists i, 0 <= i < k + 1 /\ is_ram i = true /\ b = addr i /\ l = size i /\
    u = region_usable_len (addr i) (size i) /\ 0 < u).
  { destruct Hsel as [?|(i & Hi & ?)]; [by left|right]. exists i. split; [lia|done]. }
  assert (Hu : 0 <= u) by (destruct Hsel as [(-> & _)|(i & _ & _ & _ & _ & _ & ?)]; lia).
  destruct (is_ram k) eqn:Er; cbn [negb].
  2: { split; [done|]. intros i Hi Hr. destruct (decide (i = k)) as [->|]; [congruence|]. apply Hmax; [lia|done]. }
  destruct (_ >? u) eqn:Eu.
  - split; [right; exists k; split_and!; try done; lia|]. intros i Hi Hr.
    destruct (decide (i = k)) as [->|]; [done|]. pose proof (Hmax i ltac:(lia) Hr). lia.
  - split; [done|]. intros i Hi Hr. destruct (decide (i = k)) as [->|]; [lia|]. apply Hmax; [lia|done].
Qed.
