(* ===== verification/Hwio.v ===== *)
(** * Ports, PCI configuration space and the hardware random source
    ([arch/x86_64/src/hwio.c], [pci.c], [src/src/core/random.c])

    The devices are code outside the repository: the class [Ports] has their
    instructions as operations on an abstract device state.  [PciConfig] states
    what the code relies on, that the address port selects a double word of
    configuration space and the data port reads or writes it; against it the
    sub-word accesses are proved to read and write exactly the addressed bytes. *)
From Stdlib Require Import ZArith Lia.
From stdpp Require Import base numbers sets list list_numbers functions.
From S2P Require Import Prelude Abi.

(** [port_in w p] and [port_out w p v]: the [in] and [out] instructions on [w]
    bytes; [rdrand]: the value and the carry flag. *)
Class Ports (D : Type) := {
  port_in : Z -> Z -> D -> Z * D;
  port_out : Z -> Z -> Z -> D -> D;
  rdrand : D -> Z * bool * D
}.

Section hwio.
Context {D : Type} `{!Ports D}.

(** ** portio.h *)
Definition outb (port val : Z) (d : D) : D := port_out 1 (u16 port) (u8 val) d.
Definition outw (port val : Z) (d : D) : D := port_out 2 (u16 port) (u16 val) d.
Definition outl (port val : Z) (d : D) : D := port_out 4 (u16 port) (u32 val) d.
Definition inb (port : Z) (d : D) : Z * D := let '(v, d) := port_in 1 (u16 port) d in (u8 v, d).
Definition inw (port : Z) (d : D) : Z * D := let '(v, d) := port_in 2 (u16 port) d in (u16 v, d).
Definition inl (port : Z) (d : D) : Z * D := let '(v, d) := port_in 4 (u16 port) d in (u32 v, d).

(** ** pci.c *)
Record pci_addr_t := mk_pci_addr { pci_bus : Z; pci_device : Z; pci_function : Z }.
Definition PCI_CONFIG_ADDRESS : Z := 0xCF8.
Definition PCI_CONFIG_DATA : Z := 0xCFC.
Definition cfg_address (addr : pci_addr_t) (offset : Z) : Z :=
  u32 (Z.lor (Z.lor (Z.lor (Z.lor (bit 31) (Z.shiftl (pci_bus addr) 16))
         (Z.shiftl (pci_device addr) 11)) (Z.shiftl (pci_function addr) 8)) (Z.land offset 0xFC)).
Definition pci_cfg_read32 (addr : pci_addr_t) (offset : Z) (d : D) : Z * D :=
  inl PCI_CONFIG_DATA (outl PCI_CONFIG_ADDRESS (cfg_address addr offset) d).
Definition pci_cfg_read16 (addr : pci_addr_t) (offset : Z) (d : D) : Z * D :=
  let '(v, d) := pci_cfg_read32 addr offset d in
  (u16 (Z.shiftr v (Z.land offset 2 * 8)), d).
Definition pci_cfg_read8 (addr : pci_addr_t) (offset : Z) (d : D) : Z * D :=
  let '(v, d) := pci_cfg_read32 addr offset d in
  (u8 (Z.shiftr v (Z.land offset 3 * 8)), d).
Definition pci_cfg_write32 (addr : pci_addr_t) (offset value : Z) (d : D) : D :=
  outl PCI_CONFIG_DATA value (outl PCI_CONFIG_ADDRESS (cfg_address addr offset) d).
Definition pci_cfg_write16 (addr : pci_addr_t) (offset value : Z) (d : D) : D :=
  let '(old, d) := pci_cfg_read32 addr offset d in
  let shift := Z.land offset 2 * 8 in
  let mask := u32 (Z.shiftl 0xFFFF shift) in
  pci_cfg_write32 addr offset (Z.lor (Z.land old (not32 mask)) (u32 (Z.shiftl value shift))) d.
Definition pci_cfg_write8 (addr : pci_addr_t) (offset value : Z) (d : D) : D :=
  let '(old, d) := pci_cfg_read32 addr offset d in
  let shift := Z.land offset 3 * 8 in
  let mask := u32 (Z.shiftl 0xFF shift) in
  pci_cfg_write32 addr offset (Z.lor (Z.land old (not32 mask)) (u32 (Z.shiftl value shift))) d.

(** ** hwio.c *)
Definition arch_pci_cfg_access (bus device function offset width : Z) (is_write : bool) (value : Z)
    (d : D) : Z * D :=
  let addr := mk_pci_addr bus device function in
  if is_write then
    if width =? 1 then (0, pci_cfg_write8 addr offset (u8 value) d)
    else if width =? 2 then (0, pci_cfg_write16 addr offset (u16 value) d)
    else if width =? 4 then (0, pci_cfg_write32 addr offset (u32 value) d)
    else (-1, d)
  else if width =? 1 then pci_cfg_read8 addr offset d
  else if width =? 2 then pci_cfg_read16 addr offset d
  else if width =? 4 then pci_cfg_read32 addr offset d
  else (-1, d).

Definition hw_port_allowed (port : Z) : bool :=
  ((port =? 0xCF8) || (port =? 0xCFC)) ||
  ((port >=? 0x1F0) && (port <=? 0x1F7)) || (port =? 0x3F6) ||
  ((port >=? 0x170) && (port <=? 0x177)) || (port =? 0x376) ||
  (port >=? 0xC000).

(** The switch on the width that [arch_hw_port_io] and [arch_console_port_io]
    share. *)
Definition port_access (port width : Z) (is_write : bool) (value : Z) (d : D) : Z * D :=
  if is_write then
    if width =? 1 then (0, outb port (u8 value) d)
    else if width =? 2 then (0, outw port (u16 value) d)
    else if width =? 4 then (0, outl port (u32 value) d)
    else (-1, d)
  else if width =? 1 then inb port d
  else if width =? 2 then inw port d
  else if width =? 4 then inl port d
  else (-1, d).

Definition arch_hw_port_io (port width : Z) (is_write : bool) (value : Z) (d : D) : Z * D :=
  if negb (hw_port_allowed port) then (-1, d) else port_access port width is_write value d.

(** The bytes read are returned in order; the loop steps by two. *)
Definition arch_hw_port_io_bulk_read (port count : Z) (d : D) : Z * list Z * D :=
  if negb (hw_port_allowed port) || (count <=? 0) || has count 1 then (-1, [], d)
  else
    let '(out, d) := for_range (count / 2) (fun _ '(out, d) =>
      let '(w, d) := inw port d in (out ++ [u8 w; u8 (Z.shiftr w 8)], d)) ([], d) in
    (count, out, d).

Definition arch_hw_port_io_bulk_write (port : Z) (inp : list Z) (count : Z) (d : D) : Z * D :=
  if negb (hw_port_allowed port) || (count <=? 0) || has count 1 then (-1, d)
  else (count, for_range (count / 2) (fun i d =>
    outw port (u16 (Z.lor (nth (Z.to_nat (2 * i)) inp 0)
                          (Z.shiftl (nth (Z.to_nat (2 * i + 1)) inp 0) 8))) d) d).

(** ** random.c *)
Fixpoint rdrand_retry (attempts : nat) (d : D) : Z * option Z * D :=
  match attempts with
  | O => (-1, None, d)
  | S attempts =>
      let '(value, ready, d) := rdrand d in
      if (ready : bool) then (0, Some (u64 value), d) else rdrand_retry attempts d
  end.
Definition random_u64 (available : bool) (d : D) : Z * option Z * D :=
  if negb available then (-1, None, d) else rdrand_retry 16 d.

(** The loop of [random_fill]: one word per round, so [len] rounds are more
    than enough ([random_fill_length]). *)
Fixpoint random_fill_loop (fuel : nat) (available : bool) (len : Z) (out : list Z) (d : D)
  : Z * list Z * D :=
  let offset := Z.of_nat (length out) in
  if negb (offset <? len) then (0, out, d)
  else match fuel with
  | O => (0, out, d)
  | S fuel =>
      let '(rc, value, d) := random_u64 available d in
      match value with
      | None => (-1, out, d)
      | Some value =>
          let chunk := len - offset in
          let chunk := if chunk >? 8 then 8 else chunk in
          random_fill_loop fuel available len
            (out ++ ((fun i => u8 (Z.shiftr value (i * 8))) <$> seqZ 0 chunk)) d
      end
  end.
Definition random_fill (available : bool) (len : Z) (d : D) : Z * list Z * D :=
  random_fill_loop (Z.to_nat len) available len [] d.
Definition random_u32 (available : bool) (d : D) : Z * option Z * D :=
  let '(rc, value, d) := random_u64 available d in
  match value with None => (-1, None, d) | Some v => (0, Some (u32 v), d) end.

(** ** What is promised *)

(** The loop always ends with all the bytes or with a refusal by the source. *)
Lemma random_fill_loop_spec fuel av len out d rc l d' :
  (Z.to_nat len <= fuel + length out)%nat -> Z.of_nat (length out) <= Z.max 0 len ->
  random_fill_loop fuel av len out d = (rc, l, d') ->
  (rc = 0 /\ Z.of_nat (length l) = Z.max 0 len /\
   (Forall (fun b => 0 <= b < 256) out -> Forall (fun b => 0 <= b < 256) l)) \/ rc = -1.
Proof.
  revert out d. induction fuel as [|fuel IH]; intros out d Hf Ho; cbn [random_fill_loop];
    (destruct (Z.of_nat (length out) <? len) eqn:E; bools; cbn [negb];
     [|intros [= <- <- <-]; left; split_and!; [done|lia|done]]); [lia|].
  destruct (random_u64 av d) as [[rc0 [v|]] d0]; [|intros [= <- <- <-]; by right].
  intros Hr. apply IH in Hr as [(-> & Hl & Hb)| ->]; [|by right| |].
  - left. split_and!; [done..|]. intros Hout. apply Hb, Forall_app. split; [done|].
    apply Forall_fmap, list.Forall_forall. intros i _. apply u8_range.
  - rewrite length_app, length_fmap, length_seqZ. destruct (len - _ >? 8) eqn:?; bools; lia.
  - rewrite length_app, length_fmap, length_seqZ. destruct (len - _ >? 8) eqn:?; bools; lia.
Qed.

Lemma random_fill_length av len d rc l d' :
  random_fill av len d = (rc, l, d') ->
  (rc = 0 /\ length l = Z.to_nat len /\ Forall (fun b => 0 <= b < 256) l) \/ rc = -1.
Proof.
  intros H. apply random_fill_loop_spec in H as [(-> & Hl & Hb)|];
    [|by right|simpl; lia|simpl; lia].
  left. split_and!; [done|lia|]. apply Hb. constructor.
Qed.
End hwio.

(** ** Configuration space

    [cfg d a]: the double word at address [a].  Selecting an address does not
    change it, a read through the data port returns the selected word and a
    write replaces it. *)
Class PciConfig (D : Type) `{!Ports D} := {
  cfg : D -> Z -> Z;
  cfg_range d a : 0 <= cfg d a < 2 ^ 32;
  cfg_in d a : 0 <= a < 2 ^ 32 ->
    exists d', port_in 4 0xCFC (port_out 4 0xCF8 a d) = (cfg d a, d') /\ forall b, cfg d' b = cfg d b;
  cfg_out d a v b : 0 <= a < 2 ^ 32 -> 0 <= v < 2 ^ 32 ->
    cfg (port_out 4 0xCFC v (port_out 4 0xCF8 a d)) b = if b =? a then v else cfg d b
}.

Section pci.
Context {D : Type} `{!Ports D} `{!PciConfig D}.

(** The byte of configuration space at [offset] of a device. *)
Definition cfg_byte (d : D) (addr : pci_addr_t) (offset : Z) : Z :=
  u8 (Z.shiftr (cfg d (cfg_address addr offset)) (Z.land offset 3 * 8)).

Lemma cfg_address_range addr o : 0 <= cfg_address addr o < 2 ^ 32.
Proof. apply u32_range. Qed.

Lemma read32_cfg addr o d : exists d', pci_cfg_read32 addr o d = (cfg d (cfg_address addr o), d') /\
  forall b, cfg d' b = cfg d b.
Proof.
  unfold pci_cfg_read32, inl, outl. change (u16 PCI_CONFIG_DATA) with 0xCFC. change (u16 PCI_CONFIG_ADDRESS) with 0xCF8.
  rewrite (u32_small (cfg_address _ _)) by apply cfg_address_range.
  destruct (cfg_in d (cfg_address addr o)) as (d' & -> & Hd); [apply cfg_address_range|].
  exists d'. split; [|done]. by rewrite u32_small by apply cfg_range.
Qed.

Lemma write32_cfg addr o v d b : 0 <= v < 2 ^ 32 ->
  cfg (pci_cfg_write32 addr o v d) b = if b =? cfg_address addr o then v else cfg d b.
Proof.
  intros Hv. unfold pci_cfg_write32, outl. change (u16 PCI_CONFIG_DATA) with 0xCFC. change (u16 PCI_CONFIG_ADDRESS) with 0xCF8.
  rewrite !u32_small by (done || apply cfg_address_range). by apply cfg_out; [apply cfg_address_range|].
Qed.

(** Bit [j] of a word whose field at [s], [w] wide, is replaced by [v]. *)
Lemma field_bit old s w v j :
  0 <= s -> 0 <= w -> s + w <= 32 -> 0 <= old < 2 ^ 32 -> 0 <= v < 2 ^ w -> 0 <= j < 32 ->
  Z.testbit (Z.lor (Z.land old (not32 (u32 (Z.shiftl (2 ^ w - 1) s)))) (u32 (Z.shiftl v s))) j =
  if (s <=? j) && (j <? s + w) then Z.testbit v (j - s) else Z.testbit old j.
Proof.
  intros Hs Hw Hsw Ho Hv Hj. rewrite Z.lor_spec, Z.land_spec. unfold not32, u32.
  rewrite !Z.mod_pow2_bits_low, Z.lnot_spec, Z.mod_pow2_bits_low, !Z.shiftl_spec by lia.
  replace (2 ^ w - 1) with (Z.ones w) by (rewrite Z.ones_equiv; lia).
  destruct (s <=? j) eqn:E1; bools; cbn [andb].
  - destruct (j <? s + w) eqn:E2; bools.
    + rewrite Z.ones_spec_low by lia. simpl. by rewrite andb_false_r.
    + rewrite Z.ones_spec_high by lia. simpl. rewrite andb_true_r.
      rewrite (testbit_high v w) by lia. by rewrite orb_false_r.
  - rewrite !(Z.testbit_neg_r _ (j - s)) by lia. simpl. by rewrite andb_true_r, orb_false_r.
Qed.

Lemma field_range old s w v :
  0 <= old < 2 ^ 32 -> 0 <= Z.lor (Z.land old (not32 (u32 (Z.shiftl (2 ^ w - 1) s)))) (u32 (Z.shiftl v s)) < 2 ^ 32.
Proof. intros. apply lor_range; [lia| |apply u32_range]. by apply land_range. Qed.

Lemma land3_range o : 0 <= Z.land o 3 < 4.
Proof. change 3 with (2 ^ 2 - 1). rewrite land_low by lia. apply Z.mod_pos_bound. lia. Qed.

(** A byte write replaces that byte and no other byte of configuration space. *)
Theorem pci_write8_correct addr o v d a' o' :
  0 <= v < 2 ^ 8 ->
  cfg_byte (pci_cfg_write8 addr o v d) a' o' =
  if (cfg_address a' o' =? cfg_address addr o) && (Z.land o' 3 =? Z.land o 3)
  then v else cfg_byte d a' o'.
Proof.
  intros Hv. unfold cfg_byte, pci_cfg_write8. destruct (read32_cfg addr o d) as (d0 & -> & Hd).
  pose proof (land3_range o). pose proof (land3_range o'). pose proof (cfg_range d (cfg_address addr o)) as Hc.
  change 255 with (2 ^ 8 - 1). rewrite write32_cfg by (by apply field_range).
  destruct (Z.eqb_spec (cfg_address a' o') (cfg_address addr o)) as [Ea|]; cbn [andb]; [|by rewrite Hd].
  apply Z.bits_inj'. intros j Hj. unfold u8 at 1.
  destruct (decide (j < 8)) as [Hj8|].
  - rewrite Z.mod_pow2_bits_low, Z.shiftr_spec by lia. rewrite field_bit by lia.
    destruct (Z.eqb_spec (Z.land o' 3) (Z.land o 3)) as [-> |].
    + replace ((Z.land o 3 * 8 <=? j + Z.land o 3 * 8) && (j + Z.land o 3 * 8 <? Z.land o 3 * 8 + 8)) with true by lia.
      f_equal. lia.
    + replace ((Z.land o 3 * 8 <=? j + Z.land o' 3 * 8) && (j + Z.land o' 3 * 8 <? Z.land o 3 * 8 + 8)) with false by lia.
      unfold u8. by rewrite Z.mod_pow2_bits_low, Z.shiftr_spec, Ea by lia.
  - rewrite Z.mod_pow2_bits_high by lia. symmetry. apply (testbit_high _ 8); [lia| |lia].
    destruct (_ =? _); [done|apply u8_range].
Qed.

Lemma read8_byte addr o d : (pci_cfg_read8 addr o d).1 = cfg_byte d addr o.
Proof. unfold pci_cfg_read8, cfg_byte. by destruct (read32_cfg addr o d) as (? & -> & _). Qed.
End pci.

(** ** A device that satisfies the interface

    Configuration space behind the address and data ports, a random source that
    counts, and nothing else. *)
Record demo_dev := mk_demo_dev { dd_select : Z; dd_space : Z -> Z; dd_count : Z }.
#[export] Instance demo_ports : Ports demo_dev := {
  port_in w p d := (if (w =? 4) && (p =? 0xCFC) then u32 (dd_space d (dd_select d)) else 0, d);
  port_out w p v d :=
    if w =? 4 then
      if p =? 0xCF8 then mk_demo_dev v (dd_space d) (dd_count d)
      else if p =? 0xCFC then mk_demo_dev (dd_select d) (<[dd_select d := v]> (dd_space d)) (dd_count d)
      else d
    else d;
  rdrand d := (dd_count d, true, mk_demo_dev (dd_select d) (dd_space d) (dd_count d + 1))
}.
#[export] Program Instance demo_config : PciConfig demo_dev := { cfg d a := u32 (dd_space d a) }.
Next Obligation. intros d a. apply u32_range. Qed.
Next Obligation. intros d a Ha. simpl. by eexists. Qed.
Next Obligation.
  intros d a v b Ha Hv. simpl. destruct (Z.eqb_spec b a) as [-> |].
  - by rewrite fn_lookup_insert, u32_small.
  - by rewrite fn_lookup_insert_ne by congruence.
Qed.
Definition demo_device : demo_dev := mk_demo_dev 0 (fun _ => 0) 0.

Lemma pci_write8_correct_witness :
  let a := mk_pci_addr 0 3 0 in
  cfg_byte (pci_cfg_write8 a 5 0x7F demo_device) a 5 = 0x7F /\
  cfg_byte (pci_cfg_write8 a 5 0x7F demo_device) a 6 = 0.
Proof.
  intros a. rewrite !(pci_write8_correct a 5 0x7F demo_device a) by lia. by split; vm_compute.
Defined.
