(* ===== verification/Font.v ===== *)
(** * The console font ([src/include/robu/font8x16.h])

    One byte per glyph row, sixteen rows per character, bit [x] of a row its
    pixel in column [x]. *)
From Stdlib Require Import ZArith.
From stdpp Require Import base list.
From S2P Require Import Prelude.

Definition font8x16 : list Z := [
  0; 0; 0; 0; 0; 0; 0; 0; 0; 0; 0; 0; 0; 0; 0; 0;
  0; 0; 0; 0; 0; 0; 0; 0; 0; 0; 0; 0; 0; 0; 0; 0;
  0; 0; 0; 0; 0; 0; 0; 0; 0; 0; 0; 0; 0; 0; 0; 0;
  0; 0; 0; 0; 0; 0; 0; 0; 0; 0; 0; 0; 0; 0; 0; 0;
  0; 0; 0; 0; 0; 0; 0; 0; 0; 0; 0; 0; 0; 0; 0; 0;
  0; 0; 0; 0; 0; 0; 0; 0; 0; 0; 0; 0; 0; 0; 0; 0;
  0; 0; 0; 0; 0; 0; 0; 0; 0; 0; 0; 0; 0; 0; 0; 0;
  0; 0; 0; 0; 0; 0; 0; 0; 0; 0; 0; 0; 0; 0; 0; 0;
  0; 0; 0; 0; 0; 0; 0; 0; 0; 0; 0; 0; 0; 0; 0; 0;
  0; 0; 0; 0; 0; 0; 0; 0; 0; 0; 0; 0; 0; 0; 0; 0;
  0; 0; 0; 0; 0; 0; 0; 0; 0; 0; 0; 0; 0; 0; 0; 0;
  0; 0; 0; 0; 0; 0; 0; 0; 0; 0; 0; 0; 0; 0; 0; 0;
  0; 0; 0; 0; 0; 0; 0; 0; 0; 0; 0; 0; 0; 0; 0; 0;
  0; 0; 0; 0; 0; 0; 0; 0; 0; 0; 0; 0; 0; 0; 0; 0;
  0; 0; 0; 0; 0; 0; 0; 0; 0; 0; 0; 0; 0; 0; 0; 0;
  0; 0; 0; 0; 0; 0; 0; 0; 0; 0; 0; 0; 0; 0; 0; 0;
  0; 0; 0; 0; 0; 0; 0; 0; 0; 0; 0; 0; 0; 0; 0; 0;
  0; 0; 0; 0; 0; 0; 0; 0; 0; 0; 0; 0; 0; 0; 0; 0;
  0; 0; 0; 0; 0; 0; 0; 0; 0; 0; 0; 0; 0; 0; 0; 0;
  0; 0; 0; 0; 0; 0; 0; 0; 0; 0; 0; 0; 0; 0; 0; 0;
  0; 0; 0; 0; 0; 0; 0; 0; 0; 0; 0; 0; 0; 0; 0; 0;
  0; 0; 0; 0; 0; 0; 0; 0; 0; 0; 0; 0; 0; 0; 0; 0;
  0; 0; 0; 0; 0; 0; 0; 0; 0; 0; 0; 0; 0; 0; 0; 0;
  0; 0; 0; 0; 0; 0; 0; 0; 0; 0; 0; 0; 0; 0; 0; 0;
  0; 0; 0; 0; 0; 0; 0; 0; 0; 0; 0; 0; 0; 0; 0; 0;
  0; 0; 0; 0; 0; 0; 0; 0; 0; 0; 0; 0; 0; 0; 0; 0;
  0; 0; 0; 0; 0; 0; 0; 0; 0; 0; 0; 0; 0; 0; 0; 0;
  0; 0; 0; 0; 0; 0; 0; 0; 0; 0; 0; 0; 0; 0; 0; 0;
  0; 0; 0; 0; 0; 0; 0; 0; 0; 0; 0; 0; 0; 0; 0; 0;
  0; 0; 0; 0; 0; 0; 0; 0; 0; 0; 0; 0; 0; 0; 0; 0;
  0; 0; 0; 0; 0; 0; 0; 0; 0; 0; 0; 0; 0; 0; 0; 0;
  0; 0; 0; 0; 0; 0; 0; 0; 0; 0; 0; 0; 0; 0; 0; 0;
  0; 0; 0; 0; 0; 0; 0; 0; 0; 0; 0; 0; 0; 0; 0; 0;
  0; 0; 24; 24; 24; 24; 24; 24; 24; 0; 24; 24; 0; 0; 0; 0;
  0; 0; 108; 108; 54; 0; 0; 0; 0; 0; 0; 0; 0; 0; 0; 0;
  0; 0; 0; 54; 54; 127; 54; 54; 127; 54; 54; 0; 0; 0; 0; 0;
  0; 8; 8; 62; 107; 11; 11; 62; 104; 104; 107; 62; 8; 8; 0; 0;
  0; 0; 0; 51; 19; 24; 8; 12; 4; 6; 50; 51; 0; 0; 0; 0;
  0; 0; 28; 54; 54; 28; 108; 62; 51; 51; 123; 206; 0; 0; 0; 0;
  0; 0; 24; 24; 12; 0; 0; 0; 0; 0; 0; 0; 0; 0; 0; 0;
  0; 0; 48; 24; 24; 12; 12; 12; 12; 12; 24; 24; 48; 0; 0; 0;
  0; 0; 12; 24; 24; 48; 48; 48; 48; 48; 24; 24; 12; 0; 0; 0;
  0; 0; 0; 0; 0; 54; 28; 127; 28; 54; 0; 0; 0; 0; 0; 0;
  0; 0; 0; 0; 0; 24; 24; 126; 24; 24; 0; 0; 0; 0; 0; 0;
  0; 0; 0; 0; 0; 0; 0; 0; 0; 0; 24; 24; 12; 0; 0; 0;
  0; 0; 0; 0; 0; 0; 0; 126; 0; 0; 0; 0; 0; 0; 0; 0;
  0; 0; 0; 0; 0; 0; 0; 0; 0; 0; 24; 24; 0; 0; 0; 0;
  0; 0; 96; 32; 48; 16; 24; 8; 12; 4; 6; 2; 3; 0; 0; 0;
  0; 0; 62; 99; 99; 99; 107; 107; 99; 99; 99; 62; 0; 0; 0; 0;
  0; 0; 24; 30; 24; 24; 24; 24; 24; 24; 24; 24; 0; 0; 0; 0;
  0; 0; 62; 99; 96; 96; 48; 24; 12; 6; 3; 127; 0; 0; 0; 0;
  0; 0; 62; 99; 96; 96; 60; 96; 96; 96; 99; 62; 0; 0; 0; 0;
  0; 0; 48; 56; 60; 54; 51; 127; 48; 48; 48; 48; 0; 0; 0; 0;
  0; 0; 127; 3; 3; 63; 96; 96; 96; 96; 99; 62; 0; 0; 0; 0;
  0; 0; 60; 6; 3; 3; 63; 99; 99; 99; 99; 62; 0; 0; 0; 0;
  0; 0; 127; 96; 48; 48; 24; 24; 24; 12; 12; 12; 0; 0; 0; 0;
  0; 0; 62; 99; 99; 99; 62; 99; 99; 99; 99; 62; 0; 0; 0; 0;
  0; 0; 62; 99; 99; 99; 126; 96; 96; 96; 48; 30; 0; 0; 0; 0;
  0; 0; 0; 0; 0; 24; 24; 0; 0; 0; 24; 24; 0; 0; 0; 0;
  0; 0; 0; 0; 0; 24; 24; 0; 0; 0; 24; 24; 12; 0; 0; 0;
  0; 0; 96; 48; 24; 12; 6; 6; 12; 24; 48; 96; 0; 0; 0; 0;
  0; 0; 0; 0; 0; 126; 0; 0; 126; 0; 0; 0; 0; 0; 0; 0;
  0; 0; 6; 12; 24; 48; 96; 96; 48; 24; 12; 6; 0; 0; 0; 0;
  0; 0; 62; 99; 96; 48; 48; 24; 24; 0; 24; 24; 0; 0; 0; 0;
  0; 0; 60; 102; 115; 123; 107; 107; 123; 51; 6; 60; 0; 0; 0; 0;
  0; 0; 62; 99; 99; 99; 127; 99; 99; 99; 99; 99; 0; 0; 0; 0;
  0; 0; 63; 99; 99; 99; 63; 99; 99; 99; 99; 63; 0; 0; 0; 0;
  0; 0; 60; 102; 3; 3; 3; 3; 3; 3; 102; 60; 0; 0; 0; 0;
  0; 0; 31; 51; 99; 99; 99; 99; 99; 99; 51; 31; 0; 0; 0; 0;
  0; 0; 127; 3; 3; 3; 63; 3; 3; 3; 3; 127; 0; 0; 0; 0;
  0; 0; 127; 3; 3; 3; 63; 3; 3; 3; 3; 3; 0; 0; 0; 0;
  0; 0; 60; 102; 3; 3; 3; 115; 99; 99; 102; 124; 0; 0; 0; 0;
  0; 0; 99; 99; 99; 99; 127; 99; 99; 99; 99; 99; 0; 0; 0; 0;
  0; 0; 60; 24; 24; 24; 24; 24; 24; 24; 24; 60; 0; 0; 0; 0;
  0; 0; 48; 48; 48; 48; 48; 48; 48; 48; 51; 30; 0; 0; 0; 0;
  0; 0; 99; 51; 27; 15; 7; 7; 15; 27; 51; 99; 0; 0; 0; 0;
  0; 0; 3; 3; 3; 3; 3; 3; 3; 3; 3; 127; 0; 0; 0; 0;
  0; 0; 99; 99; 119; 127; 127; 107; 107; 99; 99; 99; 0; 0; 0; 0;
  0; 0; 99; 99; 103; 111; 111; 123; 123; 115; 99; 99; 0; 0; 0; 0;
  0; 0; 62; 99; 99; 99; 99; 99; 99; 99; 99; 62; 0; 0; 0; 0;
  0; 0; 63; 99; 99; 99; 99; 63; 3; 3; 3; 3; 0; 0; 0; 0;
  0; 0; 62; 99; 99; 99; 99; 99; 99; 111; 123; 62; 48; 96; 0; 0;
  0; 0; 63; 99; 99; 99; 99; 63; 27; 51; 99; 99; 0; 0; 0; 0;
  0; 0; 62; 99; 3; 3; 14; 56; 96; 96; 99; 62; 0; 0; 0; 0;
  0; 0; 126; 24; 24; 24; 24; 24; 24; 24; 24; 24; 0; 0; 0; 0;
  0; 0; 99; 99; 99; 99; 99; 99; 99; 99; 99; 62; 0; 0; 0; 0;
  0; 0; 99; 99; 99; 99; 99; 54; 54; 28; 28; 8; 0; 0; 0; 0;
  0; 0; 99; 99; 107; 107; 107; 107; 127; 54; 54; 54; 0; 0; 0; 0;
  0; 0; 99; 99; 54; 54; 28; 28; 54; 54; 99; 99; 0; 0; 0; 0;
  0; 0; 195; 195; 102; 102; 60; 60; 24; 24; 24; 24; 0; 0; 0; 0;
  0; 0; 127; 48; 48; 24; 24; 12; 12; 6; 6; 127; 0; 0; 0; 0;
  0; 0; 60; 12; 12; 12; 12; 12; 12; 12; 12; 60; 0; 0; 0; 0;
  0; 0; 3; 2; 6; 4; 12; 8; 24; 16; 48; 32; 96; 0; 0; 0;
  0; 0; 60; 48; 48; 48; 48; 48; 48; 48; 48; 60; 0; 0; 0; 0;
  0; 8; 28; 54; 99; 0; 0; 0; 0; 0; 0; 0; 0; 0; 0; 0;
  0; 0; 0; 0; 0; 0; 0; 0; 0; 0; 0; 0; 0; 255; 0; 0;
  0; 0; 12; 12; 24; 0; 0; 0; 0; 0; 0; 0; 0; 0; 0; 0;
  0; 0; 0; 0; 0; 62; 96; 126; 99; 99; 115; 110; 0; 0; 0; 0;
  0; 0; 3; 3; 3; 59; 103; 99; 99; 99; 103; 59; 0; 0; 0; 0;
  0; 0; 0; 0; 0; 62; 99; 3; 3; 3; 99; 62; 0; 0; 0; 0;
  0; 0; 96; 96; 96; 110; 115; 99; 99; 99; 115; 110; 0; 0; 0; 0;
  0; 0; 0; 0; 0; 62; 99; 99; 127; 3; 99; 62; 0; 0; 0; 0;
  0; 0; 60; 102; 6; 31; 6; 6; 6; 6; 6; 6; 0; 0; 0; 0;
  0; 0; 0; 0; 0; 110; 115; 99; 99; 99; 115; 110; 96; 99; 62; 0;
  0; 0; 3; 3; 3; 59; 103; 99; 99; 99; 99; 99; 0; 0; 0; 0;
  0; 0; 12; 12; 0; 12; 12; 12; 12; 12; 12; 56; 0; 0; 0; 0;
  0; 0; 48; 48; 0; 48; 48; 48; 48; 48; 48; 48; 48; 51; 30; 0;
  0; 0; 3; 3; 3; 99; 51; 27; 15; 31; 51; 99; 0; 0; 0; 0;
  0; 0; 12; 12; 12; 12; 12; 12; 12; 12; 12; 56; 0; 0; 0; 0;
  0; 0; 0; 0; 0; 53; 107; 107; 107; 107; 107; 107; 0; 0; 0; 0;
  0; 0; 0; 0; 0; 59; 103; 99; 99; 99; 99; 99; 0; 0; 0; 0;
  0; 0; 0; 0; 0; 62; 99; 99; 99; 99; 99; 62; 0; 0; 0; 0;
  0; 0; 0; 0; 0; 59; 103; 99; 99; 99; 103; 59; 3; 3; 3; 0;
  0; 0; 0; 0; 0; 110; 115; 99; 99; 99; 115; 110; 96; 224; 96; 0;
  0; 0; 0; 0; 0; 59; 103; 3; 3; 3; 3; 3; 0; 0; 0; 0;
  0; 0; 0; 0; 0; 62; 99; 14; 56; 96; 99; 62; 0; 0; 0; 0;
  0; 0; 0; 12; 12; 62; 12; 12; 12; 12; 12; 56; 0; 0; 0; 0;
  0; 0; 0; 0; 0; 99; 99; 99; 99; 99; 115; 110; 0; 0; 0; 0;
  0; 0; 0; 0; 0; 99; 99; 54; 54; 28; 28; 8; 0; 0; 0; 0;
  0; 0; 0; 0; 0; 99; 107; 107; 107; 62; 54; 54; 0; 0; 0; 0;
  0; 0; 0; 0; 0; 99; 54; 28; 28; 28; 54; 99; 0; 0; 0; 0;
  0; 0; 0; 0; 0; 99; 99; 54; 54; 28; 28; 12; 12; 6; 3; 0;
  0; 0; 0; 0; 0; 127; 96; 48; 24; 12; 6; 127; 0; 0; 0; 0;
  0; 0; 112; 24; 24; 24; 24; 14; 24; 24; 24; 24; 112; 0; 0; 0;
  0; 24; 24; 24; 24; 24; 24; 24; 24; 24; 24; 24; 24; 0; 0; 0;
  0; 0; 14; 24; 24; 24; 24; 112; 24; 24; 24; 24; 14; 0; 0; 0;
  0; 0; 0; 0; 0; 0; 110; 59; 0; 0; 0; 0; 0; 0; 0; 0;
  0; 0; 0; 0; 0; 0; 0; 0; 0; 0; 0; 0; 0; 0; 0; 0;
  0; 0; 0; 0; 0; 0; 0; 0; 0; 0; 0; 0; 0; 0; 0; 0;
  0; 0; 0; 0; 0; 0; 0; 0; 0; 0; 0; 0; 0; 0; 0; 0;
  0; 0; 0; 0; 0; 0; 0; 0; 0; 0; 0; 0; 0; 0; 0; 0;
  0; 0; 0; 0; 0; 0; 0; 0; 0; 0; 0; 0; 0; 0; 0; 0;
  0; 0; 0; 0; 0; 0; 0; 0; 0; 0; 0; 0; 0; 0; 0; 0;
  0; 0; 0; 0; 0; 0; 0; 0; 0; 0; 0; 0; 0; 0; 0; 0;
  0; 0; 0; 0; 0; 0; 0; 0; 0; 0; 0; 0; 0; 0; 0; 0;
  0; 0; 0; 0; 0; 0; 0; 0; 0; 0; 0; 0; 0; 0; 0; 0;
  0; 0; 0; 0; 0; 0; 0; 0; 0; 0; 0; 0; 0; 0; 0; 0;
  0; 0; 0; 0; 0; 0; 0; 0; 0; 0; 0; 0; 0; 0; 0; 0;
  0; 0; 0; 0; 0; 0; 0; 0; 0; 0; 0; 0; 0; 0; 0; 0;
  0; 0; 0; 0; 0; 0; 0; 0; 0; 0; 0; 0; 0; 0; 0; 0;
  0; 0; 0; 0; 0; 0; 0; 0; 0; 0; 0; 0; 0; 0; 0; 0;
  0; 0; 0; 0; 0; 0; 0; 0; 0; 0; 0; 0; 0; 0; 0; 0;
  0; 0; 0; 0; 0; 0; 0; 0; 0; 0; 0; 0; 0; 0; 0; 0;
  0; 0; 0; 0; 0; 0; 0; 0; 0; 0; 0; 0; 0; 0; 0; 0;
  0; 0; 0; 0; 0; 0; 0; 0; 0; 0; 0; 0; 0; 0; 0; 0;
  0; 0; 0; 0; 0; 0; 0; 0; 0; 0; 0; 0; 0; 0; 0; 0;
  0; 0; 0; 0; 0; 0; 0; 0; 0; 0; 0; 0; 0; 0; 0; 0;
  0; 0; 0; 0; 0; 0; 0; 0; 0; 0; 0; 0; 0; 0; 0; 0;
  0; 0; 0; 0; 0; 0; 0; 0; 0; 0; 0; 0; 0; 0; 0; 0;
  0; 0; 0; 0; 0; 0; 0; 0; 0; 0; 0; 0; 0; 0; 0; 0;
  0; 0; 0; 0; 0; 0; 0; 0; 0; 0; 0; 0; 0; 0; 0; 0;
  0; 0; 0; 0; 0; 0; 0; 0; 0; 0; 0; 0; 0; 0; 0; 0;
  0; 0; 0; 0; 0; 0; 0; 0; 0; 0; 0; 0; 0; 0; 0; 0;
  0; 0; 0; 0; 0; 0; 0; 0; 0; 0; 0; 0; 0; 0; 0; 0;
  0; 0; 0; 0; 0; 0; 0; 0; 0; 0; 0; 0; 0; 0; 0; 0;
  0; 0; 0; 0; 0; 0; 0; 0; 0; 0; 0; 0; 0; 0; 0; 0;
  0; 0; 0; 0; 0; 0; 0; 0; 0; 0; 0; 0; 0; 0; 0; 0;
  0; 0; 0; 0; 0; 0; 0; 0; 0; 0; 0; 0; 0; 0; 0; 0;
  0; 0; 0; 0; 0; 0; 0; 0; 0; 0; 0; 0; 0; 0; 0; 0;
  0; 0; 0; 0; 0; 0; 0; 0; 0; 0; 0; 0; 0; 0; 0; 0;
  0; 0; 0; 0; 0; 0; 0; 0; 0; 0; 0; 0; 0; 0; 0; 0;
  0; 0; 0; 0; 24; 24; 0; 24; 24; 24; 24; 24; 24; 24; 0; 0;
  0; 0; 0; 8; 8; 62; 107; 11; 11; 11; 107; 62; 8; 8; 0; 0;
  0; 0; 28; 54; 6; 6; 31; 6; 6; 7; 111; 59; 0; 0; 0; 0;
  0; 0; 0; 0; 102; 60; 102; 102; 102; 60; 102; 0; 0; 0; 0; 0;
  0; 0; 195; 195; 102; 102; 60; 126; 24; 126; 24; 24; 0; 0; 0; 0;
  0; 0; 24; 24; 24; 24; 0; 0; 24; 24; 24; 24; 0; 0; 0; 0;
  0; 60; 102; 12; 30; 51; 99; 102; 60; 24; 51; 30; 0; 0; 0; 0;
  0; 0; 54; 54; 0; 0; 0; 0; 0; 0; 0; 0; 0; 0; 0; 0;
  0; 0; 60; 66; 153; 165; 133; 165; 153; 66; 60; 0; 0; 0; 0; 0;
  0; 30; 48; 62; 51; 59; 54; 0; 63; 0; 0; 0; 0; 0; 0; 0;
  0; 0; 0; 0; 0; 108; 54; 27; 27; 54; 108; 0; 0; 0; 0; 0;
  0; 0; 0; 0; 0; 0; 127; 96; 96; 96; 0; 0; 0; 0; 0; 0;
  0; 0; 0; 0; 0; 0; 0; 60; 0; 0; 0; 0; 0; 0; 0; 0;
  0; 0; 60; 66; 157; 165; 157; 165; 165; 66; 60; 0; 0; 0; 0; 0;
  0; 126; 0; 0; 0; 0; 0; 0; 0; 0; 0; 0; 0; 0; 0; 0;
  0; 0; 28; 54; 54; 28; 0; 0; 0; 0; 0; 0; 0; 0; 0; 0;
  0; 0; 0; 0; 24; 24; 126; 24; 24; 0; 126; 0; 0; 0; 0; 0;
  0; 30; 51; 24; 12; 6; 63; 0; 0; 0; 0; 0; 0; 0; 0; 0;
  0; 30; 51; 24; 48; 51; 30; 0; 0; 0; 0; 0; 0; 0; 0; 0;
  0; 48; 24; 12; 0; 0; 0; 0; 0; 0; 0; 0; 0; 0; 0; 0;
  0; 0; 0; 0; 0; 102; 102; 102; 102; 102; 118; 110; 6; 6; 3; 0;
  0; 0; 126; 47; 47; 47; 46; 40; 40; 40; 40; 40; 0; 0; 0; 0;
  0; 0; 0; 0; 0; 0; 0; 24; 24; 0; 0; 0; 0; 0; 0; 0;
  0; 0; 0; 0; 0; 0; 0; 0; 0; 0; 0; 0; 24; 48; 30; 0;
  0; 12; 14; 12; 12; 12; 30; 0; 0; 0; 0; 0; 0; 0; 0; 0;
  0; 30; 51; 51; 51; 51; 30; 0; 63; 0; 0; 0; 0; 0; 0; 0;
  0; 0; 0; 0; 0; 27; 54; 108; 108; 54; 27; 0; 0; 0; 0; 0;
  0; 16; 28; 24; 24; 24; 0; 127; 0; 24; 28; 26; 62; 24; 0; 0;
  0; 16; 28; 24; 24; 24; 0; 127; 0; 28; 54; 24; 12; 62; 0; 0;
  0; 28; 54; 24; 54; 28; 0; 127; 0; 24; 28; 26; 62; 24; 0; 0;
  0; 0; 0; 0; 12; 12; 0; 12; 12; 6; 6; 3; 99; 62; 0; 0;
  12; 24; 62; 99; 99; 99; 127; 99; 99; 99; 99; 99; 0; 0; 0; 0;
  24; 12; 62; 99; 99; 99; 127; 99; 99; 99; 99; 99; 0; 0; 0; 0;
  8; 20; 62; 99; 99; 99; 127; 99; 99; 99; 99; 99; 0; 0; 0; 0;
  110; 59; 62; 99; 99; 99; 127; 99; 99; 99; 99; 99; 0; 0; 0; 0;
  54; 0; 62; 99; 99; 99; 127; 99; 99; 99; 99; 99; 0; 0; 0; 0;
  28; 54; 62; 99; 99; 99; 127; 99; 99; 99; 99; 99; 0; 0; 0; 0;
  0; 0; 254; 51; 51; 51; 255; 51; 51; 51; 51; 243; 0; 0; 0; 0;
  0; 0; 60; 102; 3; 3; 3; 3; 3; 3; 102; 60; 24; 48; 30; 0;
  12; 24; 127; 3; 3; 3; 63; 3; 3; 3; 3; 127; 0; 0; 0; 0;
  24; 12; 127; 3; 3; 3; 63; 3; 3; 3; 3; 127; 0; 0; 0; 0;
  8; 20; 127; 3; 3; 3; 63; 3; 3; 3; 3; 127; 0; 0; 0; 0;
  54; 0; 127; 3; 3; 3; 63; 3; 3; 3; 3; 127; 0; 0; 0; 0;
  12; 24; 60; 24; 24; 24; 24; 24; 24; 24; 24; 60; 0; 0; 0; 0;
  48; 24; 60; 24; 24; 24; 24; 24; 24; 24; 24; 60; 0; 0; 0; 0;
  24; 36; 60; 24; 24; 24; 24; 24; 24; 24; 24; 60; 0; 0; 0; 0;
  102; 0; 60; 24; 24; 24; 24; 24; 24; 24; 24; 60; 0; 0; 0; 0;
  0; 0; 30; 54; 102; 102; 111; 102; 102; 102; 54; 30; 0; 0; 0; 0;
  110; 59; 99; 99; 103; 111; 111; 123; 123; 115; 99; 99; 0; 0; 0; 0;
  6; 12; 62; 99; 99; 99; 99; 99; 99; 99; 99; 62; 0; 0; 0; 0;
  48; 24; 62; 99; 99; 99; 99; 99; 99; 99; 99; 62; 0; 0; 0; 0;
  8; 20; 62; 99; 99; 99; 99; 99; 99; 99; 99; 62; 0; 0; 0; 0;
  110; 59; 62; 99; 99; 99; 99; 99; 99; 99; 99; 62; 0; 0; 0; 0;
  54; 0; 62; 99; 99; 99; 99; 99; 99; 99; 99; 62; 0; 0; 0; 0;
  0; 0; 0; 0; 0; 102; 60; 24; 60; 102; 0; 0; 0; 0; 0; 0;
  0; 32; 62; 115; 115; 107; 107; 107; 107; 103; 103; 62; 2; 0; 0; 0;
  12; 24; 99; 99; 99; 99; 99; 99; 99; 99; 99; 62; 0; 0; 0; 0;
  24; 12; 99; 99; 99; 99; 99; 99; 99; 99; 99; 62; 0; 0; 0; 0;
  8; 20; 99; 99; 99; 99; 99; 99; 99; 99; 99; 62; 0; 0; 0; 0;
  54; 0; 99; 99; 99; 99; 99; 99; 99; 99; 99; 62; 0; 0; 0; 0;
  48; 24; 195; 195; 102; 102; 60; 60; 24; 24; 24; 24; 0; 0; 0; 0;
  0; 0; 15; 6; 62; 102; 102; 102; 102; 62; 6; 15; 0; 0; 0; 0;
  0; 0; 30; 51; 51; 27; 51; 99; 99; 99; 99; 59; 0; 0; 0; 0;
  0; 12; 24; 48; 0; 62; 96; 126; 99; 99; 115; 110; 0; 0; 0; 0;
  0; 48; 24; 12; 0; 62; 96; 126; 99; 99; 115; 110; 0; 0; 0; 0;
  0; 8; 28; 54; 0; 62; 96; 126; 99; 99; 115; 110; 0; 0; 0; 0;
  0; 0; 110; 59; 0; 62; 96; 126; 99; 99; 115; 110; 0; 0; 0; 0;
  0; 0; 54; 54; 0; 62; 96; 126; 99; 99; 115; 110; 0; 0; 0; 0;
  0; 28; 54; 28; 0; 62; 96; 126; 99; 99; 115; 110; 0; 0; 0; 0;
  0; 0; 0; 0; 0; 110; 219; 216; 254; 27; 219; 118; 0; 0; 0; 0;
  0; 0; 0; 0; 0; 62; 99; 3; 3; 3; 99; 62; 24; 48; 30; 0;
  0; 12; 24; 48; 0; 62; 99; 99; 127; 3; 99; 62; 0; 0; 0; 0;
  0; 48; 24; 12; 0; 62; 99; 99; 127; 3; 99; 62; 0; 0; 0; 0;
  0; 8; 28; 54; 0; 62; 99; 99; 127; 3; 99; 62; 0; 0; 0; 0;
  0; 0; 54; 54; 0; 62; 99; 99; 127; 3; 99; 62; 0; 0; 0; 0;
  0; 6; 12; 24; 0; 12; 12; 12; 12; 12; 12; 56; 0; 0; 0; 0;
  0; 24; 12; 6; 0; 12; 12; 12; 12; 12; 12; 56; 0; 0; 0; 0;
  0; 8; 28; 54; 0; 12; 12; 12; 12; 12; 12; 56; 0; 0; 0; 0;
  0; 0; 54; 54; 0; 12; 12; 12; 12; 12; 12; 56; 0; 0; 0; 0;
  0; 0; 44; 24; 52; 96; 124; 102; 102; 102; 102; 60; 0; 0; 0; 0;
  0; 0; 110; 59; 0; 59; 103; 99; 99; 99; 99; 99; 0; 0; 0; 0;
  0; 6; 12; 24; 0; 62; 99; 99; 99; 99; 99; 62; 0; 0; 0; 0;
  0; 48; 24; 12; 0; 62; 99; 99; 99; 99; 99; 62; 0; 0; 0; 0;
  0; 8; 28; 54; 0; 62; 99; 99; 99; 99; 99; 62; 0; 0; 0; 0;
  0; 0; 110; 59; 0; 62; 99; 99; 99; 99; 99; 62; 0; 0; 0; 0;
  0; 0; 54; 54; 0; 62; 99; 99; 99; 99; 99; 62; 0; 0; 0; 0;
  0; 0; 0; 0; 24; 24; 0; 126; 0; 24; 24; 0; 0; 0; 0; 0;
  0; 0; 0; 0; 32; 62; 115; 107; 107; 107; 103; 62; 2; 0; 0; 0;
  0; 6; 12; 24; 0; 99; 99; 99; 99; 99; 115; 110; 0; 0; 0; 0;
  0; 48; 24; 12; 0; 99; 99; 99; 99; 99; 115; 110; 0; 0; 0; 0;
  0; 8; 28; 54; 0; 99; 99; 99; 99; 99; 115; 110; 0; 0; 0; 0;
  0; 0; 54; 54; 0; 99; 99; 99; 99; 99; 115; 110; 0; 0; 0; 0;
  0; 48; 24; 12; 0; 99; 99; 54; 54; 28; 28; 12; 12; 6; 3; 0;
  0; 0; 15; 6; 6; 62; 102; 102; 102; 102; 102; 62; 6; 6; 15; 0;
  0; 0; 54; 54; 0; 99; 99; 54; 54; 28; 28; 12; 12; 6; 3; 0
].
