(* ===== verification/Fbconsole.v ===== *)
(** * The framebuffer console ([src/arch/x86_64/src/fbconsole.c])

    A text grid drawn into a linear framebuffer.  The theorems show that what
    is on the screen is always the picture of the grid: the pixels of each cell
    are the glyph of its character, with the two bottom lines inverted at the
    cursor, for every character sequence, escape sequences and scrolling
    included. *)
From Stdlib Require Import ZArith Lia.
From stdpp Require Import base numbers sets list list_numbers functions.
From S2P Require Import Prelude Abi Memory Pmm Untyped Font PageTable.

Notation FB_CHAR_W := (8)%Z (only parsing).
Notation FB_CHAR_H := (16)%Z (only parsing).
Notation FB_COLOR_FG := (0x00FFFFFF)%Z (only parsing).
Notation FB_COLOR_BG := (0)%Z (only parsing).
Notation FB_CURSOR_H := (2)%Z (only parsing).
Notation FB_TEXT_MAX_COLS := (512)%Z (only parsing).
Notation FB_TEXT_MAX_ROWS := (256)%Z (only parsing).

(** [fb_px i] is the 32-bit pixel [fb_mem[i]]. *)
Record fbcon := mk_fbcon {
  fb_mem : Z;
  fb_px : Z -> Z;
  fb_pitch_px : Z;
  fb_width : Z;
  fb_height : Z;
  fb_cols : Z;
  fb_rows : Z;
  cur_row : Z;
  cur_col : Z;
  fb_ansi_state : Z;
  fb_ansi_param : Z;
  fb_cells : Z -> Z -> Z
}.
#[export] Instance eta_fbcon : Eta fbcon := fun f =>
  mk_fbcon (fb_mem f) (fb_px f) (fb_pitch_px f) (fb_width f) (fb_height f) (fb_cols f) (fb_rows f)
    (cur_row f) (cur_col f) (fb_ansi_state f) (fb_ansi_param f) (fb_cells f).

(** A pixel loop: [line = fb_mem + (y0 + gy) * fb_pitch_px + x0] for each line,
    [line[gx] = g gx gy line[gx]] for each pixel of it. *)
Definition paint_line (base w : Z) (g : Z -> Z -> Z) (px : Z -> Z) : Z -> Z :=
  for_range w (fun gx px => <[base + gx := g gx (px (base + gx))]> px) px.
Definition paint (x0 y0 w h : Z) (g : Z -> Z -> Z -> Z) (f : fbcon) : fbcon :=
  f <| fb_px := for_range h (fun gy px =>
    paint_line (u32 (u32 (y0 + gy) * fb_pitch_px f) + x0) w (fun gx => g gx gy) px) (fb_px f) |>.

(** The glyph's row [gy] and its pixel [gx]. *)
Definition glyph_row (c gy : Z) : Z := nth (Z.to_nat (c * 16 + gy)) font8x16 0.
Definition glyph_px (c gx gy : Z) : Z :=
  if has (glyph_row c gy) (Z.shiftl 1 gx) then FB_COLOR_FG else FB_COLOR_BG.

Definition fb_draw_glyph (col row c : Z) (f : fbcon) : fbcon :=
  if (col >=? fb_cols f) || (row >=? fb_rows f) then f
  else
    let x0 := u32 (col * FB_CHAR_W) in
    let y0 := u32 (row * FB_CHAR_H) in
    paint x0 y0 FB_CHAR_W FB_CHAR_H (fun gx gy _ => glyph_px c gx gy) f.

Definition fb_cursor_xor (f : fbcon) : fbcon :=
  if (cur_col f >=? fb_cols f) || (cur_row f >=? fb_rows f) then f
  else
    let x0 := u32 (cur_col f * FB_CHAR_W) in
    let y0 := u32 (cur_row f * FB_CHAR_H + (FB_CHAR_H - FB_CURSOR_H)) in
    paint x0 y0 FB_CHAR_W FB_CURSOR_H (fun _ _ p => Z.lxor p FB_COLOR_FG) f.

Definition set_cell {A} (row col : Z) (v : A) (cells : Z -> Z -> A) : Z -> Z -> A :=
  <[row := <[col := v]> (cells row)]> cells.

Definition fb_clear_cells (f : fbcon) : fbcon :=
  f <| fb_cells := for_range (fb_rows f) (fun row cells =>
    for_range (fb_cols f) (fun col cells => set_cell row col 32 cells) cells) (fb_cells f) |>.

Definition fb_render_cells (f : fbcon) : fbcon :=
  for_range (fb_rows f) (fun row f =>
    for_range (fb_cols f) (fun col f => fb_draw_glyph col row (fb_cells f row col) f) f) f.

(** [for (row = 1; row < fb_rows; row++)]: the index is shifted by one. *)
Definition fb_scroll_up (f : fbcon) : fbcon :=
  let cells := for_range (fb_rows f - 1) (fun i cells =>
    for_range (fb_cols f) (fun col cells => set_cell (i + 1 - 1) col (cells (i + 1) col) cells) cells)
    (fb_cells f) in
  let cells := for_range (fb_cols f) (fun col cells => set_cell (u32 (fb_rows f - 1)) col 32 cells) cells in
  fb_render_cells (f <| fb_cells := cells |>).

Definition fb_next_row (f : fbcon) : fbcon :=
  let f := f <| cur_col := 0 |> in
  let f := f <| cur_row := u32 (cur_row f + 1) |> in
  if cur_row f >=? fb_rows f then
    let f := fb_scroll_up f in f <| cur_row := u32 (fb_rows f - 1) |>
  else f.

Definition fb_clear_screen (f : fbcon) : fbcon :=
  paint 0 0 (fb_width f) (fb_height f) (fun _ _ _ => FB_COLOR_BG) f.

Definition fbconsole_clear (f : fbcon) : fbcon :=
  if negb (tru (fb_mem f)) then f
  else
    let f := f <| cur_row := 0 |> <| cur_col := 0 |> <| fb_ansi_state := 0 |> <| fb_ansi_param := 0 |> in
    fb_cursor_xor (fb_clear_screen (fb_clear_cells f)).

Definition fbconsole_init (fb : fb_info_t) (m : mach) (f : fbcon) : mach * fbcon :=
  let m := m <| g_boot_fb := fb |> <| g_boot_fb_present := true |> in
  let cols := width fb / FB_CHAR_W in
  let rows := height fb / FB_CHAR_H in
  let f := f <| fb_mem := FRAMEBUFFER_VA |> <| fb_pitch_px := pitch fb / 4 |>
    <| fb_width := width fb |> <| fb_height := height fb |>
    <| fb_cols := if cols >? FB_TEXT_MAX_COLS then FB_TEXT_MAX_COLS else cols |>
    <| fb_rows := if rows >? FB_TEXT_MAX_ROWS then FB_TEXT_MAX_ROWS else rows |> in
  (m, fbconsole_clear f).

(** [cells] is the flat array of 16-bit cells. *)
Definition fbconsole_redraw (cells : Z -> Z) (cols rows cursor_row cursor_col : Z) (f : fbcon) : fbcon :=
  if negb (tru (fb_mem f)) then f
  else
    let f := fb_clear_cells f in
    let source_cols := cols in
    let cols := if cols >? fb_cols f then fb_cols f else cols in
    let rows := if rows >? fb_rows f then fb_rows f else rows in
    let f := f <| fb_cells := for_range rows (fun row c =>
      for_range cols (fun col c => set_cell row col (u8 (cells (u32 (row * source_cols + col)))) c) c)
      (fb_cells f) |> in
    let f := f <| cur_row := if cursor_row <? fb_rows f then cursor_row else u32 (fb_rows f - 1) |>
               <| cur_col := if cursor_col <? fb_cols f then cursor_col else u32 (fb_cols f - 1) |>
               <| fb_ansi_state := 0 |> <| fb_ansi_param := 0 |> in
    fb_cursor_xor (fb_render_cells f).

(** The part of [fbconsole_putc] after the escape sequences: the cursor is off
    the screen while it runs. *)
Definition fb_plain (c : Z) (f : fbcon) : fbcon :=
  if c =? 10 then fb_next_row f
  else if c =? 13 then f <| cur_col := 0 |>
  else if c =? 8 then
    if cur_col f >? 0 then
      let f := f <| cur_col := cur_col f - 1 |> in
      let f := f <| fb_cells := set_cell (cur_row f) (cur_col f) 32 (fb_cells f) |> in
      fb_draw_glyph (cur_col f) (cur_row f) 32 f
    else f
  else if c <? 32 then f
  else
    let f := f <| fb_cells := set_cell (cur_row f) (cur_col f) (u8 c) (fb_cells f) |> in
    let f := fb_draw_glyph (cur_col f) (cur_row f) c f in
    let f := f <| cur_col := u32 (cur_col f + 1) |> in
    if cur_col f >=? fb_cols f then fb_next_row f else f.

(** The escape-sequence automaton: [inl] when it consumes the character, [inr]
    when the character goes on to [fb_plain]. *)
Definition fb_escape (c : Z) (f : fbcon) : fbcon + fbcon :=
  if fb_ansi_state f =? 0 then
    if c =? 27 then inl (f <| fb_ansi_state := 1 |>) else inr f
  else if fb_ansi_state f =? 1 then
    if c =? 91 then inl (f <| fb_ansi_state := 2 |> <| fb_ansi_param := 0 |>)
    else inr (f <| fb_ansi_state := 0 |>)
  else if fb_ansi_state f =? 2 then
    if (c >=? 48) && (c <=? 57) then
      inl (f <| fb_ansi_param := u32 (fb_ansi_param f * 10 + (c - 48)) |>)
    else if c =? 59 then inl (f <| fb_ansi_param := 0 |>)
    else
      let f := if c =? 72 then f <| cur_row := 0 |> <| cur_col := 0 |>
               else if (c =? 74) && negb (fb_ansi_param f =? 3)
               then fb_clear_screen (fb_clear_cells f) else f in
      inl (f <| fb_ansi_state := 0 |> <| fb_ansi_param := 0 |>)
  else inr f.

Definition fbconsole_putc (c : Z) (f : fbcon) : fbcon :=
  if negb (tru (fb_mem f)) then f
  else
    let f := fb_cursor_xor f in
    match fb_escape c f with
    | inl f => fb_cursor_xor f
    | inr f => fb_cursor_xor (fb_plain c f)
    end.

(** ** Pixels *)

(** What the code relies on of the mode it is given: at least one cell, and
    lines that do not overlap and stay within 32-bit pixel indices. *)
Record fb_geom (f : fbcon) : Prop := {
  fg_mem : fb_mem f <> 0;
  fg_cols : 0 < fb_cols f <= FB_TEXT_MAX_COLS;
  fg_rows : 0 < fb_rows f <= FB_TEXT_MAX_ROWS;
  fg_width : fb_cols f * 8 <= fb_width f <= fb_pitch_px f;
  fg_height : fb_rows f * 16 <= fb_height f;
  fg_size : fb_height f * fb_pitch_px f < 2 ^ 32
}.
Definition same_geom (f f' : fbcon) : Prop :=
  fb_mem f' = fb_mem f /\ fb_pitch_px f' = fb_pitch_px f /\ fb_width f' = fb_width f /\
  fb_height f' = fb_height f /\ fb_cols f' = fb_cols f /\ fb_rows f' = fb_rows f.
(** The pixel [gx], [gy] of a cell. *)
Definition cell_px (f : fbcon) (row col gx gy : Z) : Z :=
  fb_px f ((row * 16 + gy) * fb_pitch_px f + (col * 8 + gx)).

Lemma fb_geom_same f f' : same_geom f f' -> fb_geom f -> fb_geom f'.
Proof. intros (E1 & E2 & E3 & E4 & E5 & E6) []. constructor; rewrite ?E1, ?E2, ?E3, ?E4, ?E5, ?E6; done. Qed.

Lemma same_geom_trans f1 f2 f3 : same_geom f1 f2 -> same_geom f2 f3 -> same_geom f1 f3.
Proof. unfold same_geom. intuition congruence. Qed.

Lemma paint_line_spec b w g px i :
  paint_line b w g px i = if (b <=? i) && (i <? b + w) then g (i - b) (px i) else px i.
Proof.
  unfold paint_line. destruct (decide (0 <= w)) as [Hw|].
  - apply (for_range_ind (fun k q => forall i, q i =
      if (b <=? i) && (i <? b + k) then g (i - b) (px i) else px i)); [done| |].
    + intros j. by replace ((b <=? j) && (j <? b + 0)) with false by lia.
    + intros k q Hk IH j. destruct (decide (b + k = j)) as [<-|].
      * rewrite fn_lookup_insert, IH. replace (b + k <? b + k) with false by lia. rewrite andb_false_r.
        replace ((b <=? b + k) && (b + k <? b + (k + 1))) with true by lia. f_equal. lia.
      * rewrite fn_lookup_insert_ne, IH by done. by replace (j <? b + (k + 1)) with (j <? b + k) by lia.
  - rewrite for_range_0 by lia. by replace ((b <=? i) && (i <? b + w)) with false by lia.
Qed.

(** Distinct pixels have distinct indices. *)
Lemma pixel_index p y x y' x' : 0 <= x < p -> 0 <= x' < p -> y * p + x = y' * p + x' -> y = y' /\ x = x'.
Proof.
  intros Hx Hx' E.
  assert (y = y') as ->; [|split; [done|lia]].
  assert ((y * p + x) / p = y) as <- by (rewrite Z.div_add_l by lia; rewrite Z.div_small by lia; lia).
  rewrite E, Z.div_add_l by lia. rewrite Z.div_small by lia. lia.
Qed.

(** Painting a rectangle inside the screen changes its pixels and no others. *)
Lemma paint_spec x0 y0 w h g f x y :
  0 <= x0 -> 0 <= w -> x0 + w <= fb_pitch_px f -> 0 <= y0 -> 0 <= h -> y0 + h <= fb_height f ->
  fb_height f * fb_pitch_px f < 2 ^ 32 -> 0 <= x < fb_pitch_px f -> 0 <= y ->
  fb_px (paint x0 y0 w h g f) (y * fb_pitch_px f + x) =
  let p := fb_px f (y * fb_pitch_px f + x) in
  if (x0 <=? x) && (x <? x0 + w) && (y0 <=? y) && (y <? y0 + h) then g (x - x0) (y - y0) p else p.
Proof.
  intros Hx0 Hw Hxw Hy0 Hh Hyh Hsz Hx Hy. unfold paint. rsimpl. revert x Hx y Hy.
  apply (for_range_ind (fun k q => forall x, 0 <= x < fb_pitch_px f -> forall y, 0 <= y ->
    q (y * fb_pitch_px f + x) = let p := fb_px f (y * fb_pitch_px f + x) in
      if (x0 <=? x) && (x <? x0 + w) && (y0 <=? y) && (y <? y0 + k) then g (x - x0) (y - y0) p else p)); [done| |].
  - intros x Hx y Hy. cbv zeta. replace ((x0 <=? x) && (x <? x0 + w) && (y0 <=? y) && (y <? y0 + 0)) with false by lia.
    done.
  - intros k q Hk IH x Hx y Hy. cbv zeta. rewrite paint_line_spec, IH by done. cbv zeta.
    assert (0 <= (y0 + k) * fb_pitch_px f < 2 ^ 32) as Hr by nia.
    rewrite (u32_small (y0 + k)) by nia. rewrite (u32_small ((y0 + k) * _)) by done.
    destruct (decide (y = y0 + k)) as [-> |Hne].
    + replace (y0 + k <? y0 + k) with false by lia. rewrite andb_false_r.
      replace (y0 + k <? y0 + (k + 1)) with true by lia. replace (y0 <=? y0 + k) with true by lia. rewrite !andb_true_r.
      replace (((y0 + k) * fb_pitch_px f + x0 <=? (y0 + k) * fb_pitch_px f + x) &&
               ((y0 + k) * fb_pitch_px f + x <? (y0 + k) * fb_pitch_px f + x0 + w))
        with ((x0 <=? x) && (x <? x0 + w)) by lia.
      destruct (_ && _); [|done]. f_equal; lia.
    + replace (y <? y0 + (k + 1)) with (y <? y0 + k) by lia.
      destruct (((y0 + k) * fb_pitch_px f + x0 <=? y * fb_pitch_px f + x) && _) eqn:E; [|done].
      exfalso. bools. apply Hne.
      apply (pixel_index (fb_pitch_px f) y x (y0 + k) (y * fb_pitch_px f + x - (y0 + k) * fb_pitch_px f)); lia.
Qed.

Lemma paint_same x0 y0 w h g f : same_geom f (paint x0 y0 w h g f) /\
  fb_cells (paint x0 y0 w h g f) = fb_cells f /\ cur_row (paint x0 y0 w h g f) = cur_row f /\
  cur_col (paint x0 y0 w h g f) = cur_col f.
Proof. unfold paint, same_geom. by rsimpl. Qed.

(** A rectangle inside one cell, of lines [t .. t + h - 1]. *)
Lemma paint_cell f row col t h g row' col' gx gy :
  fb_geom f -> 0 <= row < fb_rows f -> 0 <= col < fb_cols f -> 0 <= t -> 0 <= h -> t + h <= 16 ->
  0 <= row' < fb_rows f -> 0 <= col' < fb_cols f -> 0 <= gx < 8 -> 0 <= gy < 16 ->
  cell_px (paint (u32 (col * FB_CHAR_W)) (u32 (row * FB_CHAR_H + t)) FB_CHAR_W h g f) row' col' gx gy =
  let p := cell_px f row' col' gx gy in
  if (row' =? row) && (col' =? col) && (t <=? gy) && (gy <? t + h) then g gx (gy - t) p else p.
Proof.
  intros [_ Hc Hr Hw Hh Hs] Hrow Hcol Ht Hh' Hth Hrow' Hcol' Hgx Hgy.
    rewrite !u32_small by lia. unfold cell_px.
  replace (fb_pitch_px (paint (col * 8) (row * 16 + t) 8 h g f)) with (fb_pitch_px f) by (unfold paint; by rsimpl).
  rewrite paint_spec by lia. cbv zeta.
  destruct (Z.eqb_spec row' row) as [-> |]; cbn [andb].
  - destruct (Z.eqb_spec col' col) as [-> |]; cbn [andb].
    + replace (col * 8 <=? col * 8 + gx) with true by lia. replace (col * 8 + gx <? col * 8 + 8) with true by lia.
      cbn [andb]. replace (row * 16 + t <=? row * 16 + gy) with (t <=? gy) by lia.
      replace (row * 16 + gy <? row * 16 + t + h) with (gy <? t + h) by lia.
      destruct (_ && _); [|done]. f_equal; lia.
    + destruct (_ && _) eqn:E; [|done]. exfalso. bools. lia.
  - destruct (_ && _) eqn:E; [|done]. exfalso. bools. lia.
Qed.

(** ** Drawing *)
Definition in_grid (f : fbcon) (row col : Z) : Prop := 0 <= row < fb_rows f /\ 0 <= col < fb_cols f.
Definition in_cell (gx gy : Z) : Prop := 0 <= gx < 8 /\ 0 <= gy < 16.
(** Every pixel of the grid is that of its cell's glyph, ... *)
Definition shown (f : fbcon) : Prop := forall row col gx gy,
  in_grid f row col -> in_cell gx gy -> cell_px f row col gx gy = glyph_px (fb_cells f row col) gx gy.
(** ... inverted under the cursor. *)
Definition at_cursor (f : fbcon) (row col gy : Z) : bool :=
  (row =? cur_row f) && (col =? cur_col f) && (14 <=? gy) && (gy <? 14 + 2).
Definition shown_cursor (f : fbcon) : Prop := forall row col gx gy,
  in_grid f row col -> in_cell gx gy ->
  cell_px f row col gx gy =
  let g := glyph_px (fb_cells f row col) gx gy in
  if at_cursor f row col gy then Z.lxor g FB_COLOR_FG else g.
Definition cursor_ok (f : fbcon) : Prop := in_grid f (cur_row f) (cur_col f).

(** The fields the pixel operations leave alone. *)
Definition same_text (f f' : fbcon) : Prop :=
  fb_cells f' = fb_cells f /\ cur_row f' = cur_row f /\ cur_col f' = cur_col f /\
  fb_ansi_state f' = fb_ansi_state f /\ fb_ansi_param f' = fb_ansi_param f.
Definition same_text_geom (f f' : fbcon) : Prop := same_geom f f' /\ same_text f f'.

Lemma same_refl f : same_text_geom f f.
Proof. by repeat split. Qed.
Lemma same_trans f1 f2 f3 : same_text_geom f1 f2 -> same_text_geom f2 f3 -> same_text_geom f1 f3.
Proof. unfold same_text_geom, same_geom, same_text. intuition congruence. Qed.
Lemma paint_frame x0 y0 w h g f : same_text_geom f (paint x0 y0 w h g f).
Proof. unfold paint, same_text_geom, same_geom, same_text. by rsimpl. Qed.
Lemma draw_frame col row c f : same_text_geom f (fb_draw_glyph col row c f).
Proof. unfold fb_draw_glyph. destruct (_ || _); [apply same_refl|apply paint_frame]. Qed.
Lemma xor_frame f : same_text_geom f (fb_cursor_xor f).
Proof. unfold fb_cursor_xor. destruct (_ || _); [apply same_refl|apply paint_frame]. Qed.
#[local] Hint Resolve same_refl paint_frame draw_frame xor_frame : robu.

(** Facts carried over a step that keeps text and geometry. *)
Lemma in_grid_same f f' row col : same_geom f f' -> in_grid f' row col <-> in_grid f row col.
Proof. intros (_ & _ & _ & _ & E1 & E2). unfold in_grid. by rewrite E1, E2. Qed.
Lemma cursor_ok_same f f' : same_text_geom f f' -> cursor_ok f -> cursor_ok f'.
Proof. intros [Hg (_ & E1 & E2 & _)]. unfold cursor_ok. rewrite E1, E2. by apply in_grid_same. Qed.

Lemma draw_spec f row col c row' col' gx gy :
  fb_geom f -> in_grid f row col -> in_grid f row' col' -> in_cell gx gy ->
  cell_px (fb_draw_glyph col row c f) row' col' gx gy =
  if (row' =? row) && (col' =? col) then glyph_px c gx gy else cell_px f row' col' gx gy.
Proof.
  intros Hg [Hr Hc] [Hr' Hc'] [Hgx Hgy]. unfold fb_draw_glyph.
  replace ((col >=? fb_cols f) || (row >=? fb_rows f)) with false by lia.
  replace (row * FB_CHAR_H) with (row * FB_CHAR_H + 0) by lia.
  rewrite paint_cell by (done || lia). cbv zeta.
  replace (0 <=? gy) with true by lia. replace (gy <? 0 + FB_CHAR_H) with true by (lia).
  rewrite !andb_true_r. destruct (_ && _); [|done]. f_equal. lia.
Qed.

Lemma xor_spec f row col gx gy :
  fb_geom f -> cursor_ok f -> in_grid f row col -> in_cell gx gy ->
  cell_px (fb_cursor_xor f) row col gx gy =
  if at_cursor f row col gy then Z.lxor (cell_px f row col gx gy) FB_COLOR_FG else cell_px f row col gx gy.
Proof.
  intros Hg [Hr Hc] [Hr' Hc'] [Hgx Hgy]. unfold fb_cursor_xor.
  replace ((cur_col f >=? fb_cols f) || (cur_row f >=? fb_rows f)) with false by lia.
  rewrite paint_cell by (done || lia). done.
Qed.

(** Drawing the cursor, and removing it. *)
Lemma xor_on f : fb_geom f -> cursor_ok f -> shown f -> shown_cursor (fb_cursor_xor f).
Proof.
  intros Hg Hc Hs row col gx gy Hgr Hce. destruct (xor_frame f) as [Hsg (E1 & E2 & E3 & _)].
  apply (in_grid_same f) in Hgr; [|done]. rewrite xor_spec by done. cbv zeta. unfold at_cursor.
  rewrite E1, E2, E3, Hs by done. done.
Qed.
Lemma xor_off f : fb_geom f -> cursor_ok f -> shown_cursor f -> shown (fb_cursor_xor f).
Proof.
  intros Hg Hc Hs row col gx gy Hgr Hce. destruct (xor_frame f) as [Hsg (E1 & _)].
  apply (in_grid_same f) in Hgr; [|done]. rewrite xor_spec by done. rewrite E1, Hs by done. cbv zeta.
  destruct (at_cursor f row col gy); [|done]. by rewrite Z.lxor_assoc, Z.lxor_nilpotent, Z.lxor_0_r.
Qed.

Lemma blank_glyph gx gy : 0 <= gy < 16 -> glyph_px 32 gx gy = FB_COLOR_BG.
Proof.
  intros Hy. assert (glyph_row 32 gy = 0) as E.
  { assert (forallb (fun i => glyph_row 32 i =? 0) (seqZ 0 16) = true) as H by (vm_compute; done).
    rewrite forallb_forall in H. apply Z.eqb_eq, H, list_elem_of_In, elem_of_seqZ. lia. }
  unfold glyph_px. by rewrite E.
Qed.

Lemma clear_screen_spec f row col gx gy :
  fb_geom f -> in_grid f row col -> in_cell gx gy ->
  cell_px (fb_clear_screen f) row col gx gy = FB_COLOR_BG.
Proof.
  intros [_ Hc Hr Hw Hh Hs] [Hr' Hc'] [Hgx Hgy]. unfold fb_clear_screen, cell_px in *.
  replace (fb_pitch_px (paint 0 0 (fb_width f) (fb_height f) (fun _ _ _ => FB_COLOR_BG) f)) with (fb_pitch_px f)
    by (unfold paint; by rsimpl).
  rewrite paint_spec by lia. cbv zeta.
  replace ((0 <=? col * 8 + gx) && (col * 8 + gx <? 0 + fb_width f) && (0 <=? row * 16 + gy) &&
           (row * 16 + gy <? 0 + fb_height f)) with true by lia. done.
Qed.

(** ** The grid *)
Lemma set_cell_spec {A} r c (v : A) cells r' c' :
  set_cell r c v cells r' c' = if (r' =? r) && (c' =? c) then v else cells r' c'.
Proof.
  unfold set_cell. destruct (Z.eqb_spec r' r) as [-> |]; cbn [andb].
  - rewrite fn_lookup_insert. destruct (Z.eqb_spec c' c) as [-> |]; [by rewrite fn_lookup_insert|].
    by rewrite fn_lookup_insert_ne by congruence.
  - by rewrite fn_lookup_insert_ne by congruence.
Qed.

(** A loop over one row whose stores do not feed its loads. *)
Lemma fill_row {A} r n (v : (Z -> Z -> A) -> Z -> A) cells r' c' :
  (forall k cells', 0 <= k < n -> (forall r2 c2, r2 <> r -> cells' r2 c2 = cells r2 c2) -> v cells' k = v cells k) ->
  for_range n (fun c cells => set_cell r c (v cells c) cells) cells r' c' =
  if (r' =? r) && (0 <=? c') && (c' <? n) then v cells c' else cells r' c'.
Proof.
  intros Hv. destruct (decide (0 <= n)) as [Hn|].
  - enough ((forall r2 c2, r2 <> r -> for_range n (fun c cells => set_cell r c (v cells c) cells) cells r2 c2 = cells r2 c2) /\
            forall r' c', for_range n (fun c cells => set_cell r c (v cells c) cells) cells r' c' =
              if (r' =? r) && (0 <=? c') && (c' <? n) then v cells c' else cells r' c') as [_ H] by apply H.
    apply (for_range_ind (fun k q => (forall r2 c2, r2 <> r -> q r2 c2 = cells r2 c2) /\
      forall r' c', q r' c' = if (r' =? r) && (0 <=? c') && (c' <? k) then v cells c' else cells r' c')); [done| |].
    + split; [done|]. intros r2 c2. by replace ((r2 =? r) && (0 <=? c2) && (c2 <? 0)) with false by lia.
    + intros k q Hk [H1 H2]. split.
      * intros r2 c2 Hne. rewrite set_cell_spec. replace (r2 =? r) with false by lia. by apply H1.
      * intros r2 c2. rewrite set_cell_spec, H2, Hv by done.
        destruct (decide (c2 = k)) as [-> |].
        -- rewrite Z.eqb_refl. replace (k <? k) with false by lia. replace (k <? k + 1) with true by lia.
           replace (0 <=? k) with true by lia. by destruct (r2 =? r).
        -- replace (c2 =? k) with false by lia. rewrite andb_false_r.
           by replace (c2 <? k + 1) with (c2 <? k) by lia.
  - rewrite for_range_0 by lia. by replace ((r' =? r) && (0 <=? c') && (c' <? n)) with false by lia.
Qed.

(** The grid filled from a function. *)
Lemma fill_grid {A} rows cols (v : Z -> Z -> A) cells r c :
  for_range rows (fun r cells => for_range cols (fun c cells => set_cell r c (v r c) cells) cells) cells r c =
  if (0 <=? r) && (r <? rows) && (0 <=? c) && (c <? cols) then v r c else cells r c.
Proof.
  destruct (decide (0 <= rows)) as [Hn|].
  - revert r c. apply (for_range_ind (fun k q => forall r c, q r c =
      if (0 <=? r) && (r <? k) && (0 <=? c) && (c <? cols) then v r c else cells r c)); [done| |].
    + intros r c. by replace ((0 <=? r) && (r <? 0) && (0 <=? c) && (c <? cols)) with false by lia.
    + intros k q Hk IH r c. rewrite (fill_row k cols (fun _ c => v k c)) by done. rewrite IH.
      destruct (decide (r = k)) as [-> |].
      * rewrite Z.eqb_refl. replace (k <? k) with false by lia. rewrite andb_false_r.
        replace ((0 <=? k) && (k <? k + 1)) with true by lia. cbn [andb].
        done.
      * replace (r =? k) with false by lia. by replace (r <? k + 1) with (r <? k) by lia.
  - rewrite for_range_0 by lia. by replace ((0 <=? r) && (r <? rows) && (0 <=? c) && (c <? cols)) with false by lia.
Qed.

Lemma clear_cells_spec f row col :
  in_grid f row col -> fb_cells (fb_clear_cells f) row col = 32.
Proof.
  intros [Hr Hc]. unfold fb_clear_cells. rsimpl. rewrite (fill_grid _ _ (fun _ _ => 32)).
  by replace ((0 <=? row) && (row <? fb_rows f) && (0 <=? col) && (col <? fb_cols f)) with true by lia.
Qed.
Lemma clear_cells_frame f : same_geom f (fb_clear_cells f) /\ cur_row (fb_clear_cells f) = cur_row f /\
  cur_col (fb_clear_cells f) = cur_col f.
Proof. unfold fb_clear_cells, same_geom. by rsimpl. Qed.

(** Clearing the grid and the screen shows the empty grid. *)
Lemma clear_shown f : fb_geom f -> shown (fb_clear_screen (fb_clear_cells f)).
Proof.
  intros Hg row col gx gy Hgr [Hgx Hgy].
  destruct (clear_cells_frame f) as [Hsg _]. destruct (paint_frame 0 0 (fb_width (fb_clear_cells f))
    (fb_height (fb_clear_cells f)) (fun _ _ _ => FB_COLOR_BG) (fb_clear_cells f)) as [Hsg2 (Ec & _)].
  assert (in_grid (fb_clear_cells f) row col) as Hgr2 by (by apply (in_grid_same _ _ _ _ Hsg2)).
  rewrite clear_screen_spec by (done || by apply (fb_geom_same f)).
  replace (fb_cells (fb_clear_screen (fb_clear_cells f)) row col) with 32; [by rewrite blank_glyph|].
  unfold fb_clear_screen. rewrite Ec. symmetry. apply clear_cells_spec. by apply (in_grid_same f).
Qed.

(** Rendering shows the grid whatever was on the screen. *)
Lemma render_row f row :
  fb_geom f -> 0 <= row < fb_rows f ->
  let f' := for_range (fb_cols f) (fun col f => fb_draw_glyph col row (fb_cells f row col) f) f in
  same_text_geom f f' /\
  (forall r c gx gy, in_grid f r c -> in_cell gx gy -> cell_px f' r c gx gy =
     if r =? row then glyph_px (fb_cells f r c) gx gy else cell_px f r c gx gy).
Proof.
  intros Hg Hrow. cbv zeta.
  pose proof (for_range_ind (fun k q => same_text_geom f q /\ forall r c gx gy, in_grid f r c -> in_cell gx gy ->
    cell_px q r c gx gy = if (r =? row) && (c <? k) then glyph_px (fb_cells f r c) gx gy else cell_px f r c gx gy)
    (fun col f => fb_draw_glyph col row (fb_cells f row col) f) (fb_cols f) f) as HP.
  destruct HP as [H1 H2]; [pose proof (fg_cols _ Hg); lia| | |].
  - split; [apply same_refl|]. intros r c gx gy [_ Hc] _. by replace (c <? 0) with false by lia; rewrite andb_false_r.
  - intros k q Hk [[Hsg Hst] IH]. split; [by eapply same_trans; [split; [exact Hsg|exact Hst]|apply draw_frame]|].
    intros r c gx gy Hrc Hce. rewrite draw_spec; [|by apply (fb_geom_same f)| |by apply (in_grid_same f)|done].
    2:{ apply (in_grid_same f); [done|]. split; [done|lia]. }
    rewrite IH by done. destruct Hst as [-> _].
    destruct (Z.eqb_spec r row) as [-> |]; cbn [andb]; [|done].
    destruct (Z.eqb_spec c k) as [-> |].
    + by replace (k <? k + 1) with true by lia.
    + by replace (c <? k + 1) with (c <? k) by lia.
  - split; [done|]. intros r c gx gy Hrc Hce. rewrite H2 by done. destruct Hrc as [_ Hc].
    replace (c <? fb_cols f) with true by lia. by rewrite andb_true_r.
Qed.

Lemma render_spec f : fb_geom f -> shown (fb_render_cells f) /\ same_text_geom f (fb_render_cells f).
Proof.
  intros Hg. unfold fb_render_cells.
  pose proof (for_range_ind (fun k q => same_text_geom f q /\ forall r c gx gy, in_grid f r c -> in_cell gx gy ->
    r < k -> cell_px q r c gx gy = glyph_px (fb_cells f r c) gx gy)
    (fun row f => for_range (fb_cols f) (fun col f => fb_draw_glyph col row (fb_cells f row col) f) f) (fb_rows f) f) as HP.
  destruct HP as [[Hsg Hst] H2]; [pose proof (fg_rows _ Hg); lia| | |].
  - split; [apply same_refl|]. intros r c gx gy [Hr _]. lia.
  - intros k q Hk [[Hsg Hst] IH].
    destruct (render_row q k) as [Hq1 Hq2]; [by apply (fb_geom_same f)|destruct Hsg as (_ & _ & _ & _ & _ & ->); lia|].
    split; [by eapply same_trans; [split; [exact Hsg|exact Hst]|]|].
    intros r c gx gy Hrc Hce Hlt. rewrite Hq2; [|by apply (in_grid_same f)|done]. destruct Hst as [-> _].
    destruct (Z.eqb_spec r k); [done|]. apply IH; [done..|lia].
  - split; [|done]. intros r c gx gy Hrc Hce. apply (in_grid_same f) in Hrc; [|done].
    rewrite H2 by (done || apply Hrc). by destruct Hst as [-> _].
Qed.

(** Every row but the last replaced by the one below it. *)
Lemma shift_rows {A} n cols (cells : Z -> Z -> A) r c :
  0 <= n ->
  for_range n (fun i cells => for_range cols
    (fun c cells => set_cell (i + 1 - 1) c (cells (i + 1) c) cells) cells) cells r c =
  if (0 <=? r) && (r <? n) && (0 <=? c) && (c <? cols) then cells (r + 1) c else cells r c.
Proof.
  intros Hn. revert r c. apply (for_range_ind (fun k q => forall r c, q r c =
    if (0 <=? r) && (r <? k) && (0 <=? c) && (c <? cols) then cells (r + 1) c else cells r c)); [done| |].
  - intros r c. by replace ((0 <=? r) && (r <? 0) && (0 <=? c) && (c <? cols)) with false by lia.
  - intros k q Hk IH r c. replace (k + 1 - 1) with k by lia.
    rewrite (fill_row k _ (fun cells c => cells (k + 1) c)) by (intros k0 cells' _ He; apply He; lia).
    rewrite !IH. destruct (Z.eqb_spec r k) as [-> |]; cbn [andb].
    + replace (k <? k) with false by lia. replace (k + 1 <? k) with false by lia.
      replace (k <? k + 1) with true by lia. replace (0 <=? k) with true by lia. rewrite !andb_false_r. done.
    + by replace (r <? k + 1) with (r <? k) by lia.
Qed.

(** Scrolling moves every row up by one and blanks the last. *)
Lemma scroll_cells f row col :
  fb_geom f -> in_grid f row col ->
  fb_cells (fb_scroll_up f) row col = if row =? fb_rows f - 1 then 32 else fb_cells f (row + 1) col.
Proof.
  intros Hg [Hr Hc]. unfold fb_scroll_up. pose proof (fg_rows _ Hg) as Hrows.   match goal with |- fb_cells (fb_render_cells ?f') _ _ = _ =>
    destruct (render_spec f') as [_ [_ [-> _]]]; [apply (fb_geom_same f); [by repeat split|done]|] end.
  rsimpl. rewrite u32_small by lia. rewrite (fill_row _ _ (fun _ _ => 32)) by done.
  replace ((0 <=? col) && (col <? fb_cols f)) with true by lia. rewrite <- andb_assoc.
  replace ((0 <=? col) && (col <? fb_cols f)) with true by lia. rewrite andb_true_r.
  destruct (Z.eqb_spec row (fb_rows f - 1)); [done|].
  rewrite shift_rows by lia.
  by replace ((0 <=? row) && (row <? fb_rows f - 1) && (0 <=? col) && (col <? fb_cols f)) with true by lia.
Qed.

(** ** Characters *)
Definition fb_mid (f : fbcon) : Prop := fb_geom f /\ cursor_ok f /\ shown f.
Definition fb_ok (f : fbcon) : Prop := fb_geom f /\ cursor_ok f /\ shown_cursor f.

Lemma xor_mid f : fb_mid f -> fb_ok (fb_cursor_xor f).
Proof.
  intros (Hg & Hc & Hs). pose proof (xor_frame f) as Hf. split_and!.
  - by apply (fb_geom_same f), Hg; apply Hf.
  - by apply (cursor_ok_same f).
  - by apply xor_on.
Qed.
Lemma xor_ok f : fb_ok f -> fb_mid (fb_cursor_xor f).
Proof.
  intros (Hg & Hc & Hs). pose proof (xor_frame f) as Hf. split_and!.
  - by apply (fb_geom_same f), Hg; apply Hf.
  - by apply (cursor_ok_same f).
  - by apply xor_off.
Qed.

(** Moving the cursor or the automaton does not change what is shown. *)
Lemma mid_move f f' :
  same_geom f f' -> fb_px f' = fb_px f -> fb_cells f' = fb_cells f -> cursor_ok f' -> fb_mid f -> fb_mid f'.
Proof.
  intros Hsg Epx Ec Hc (Hg & _ & Hs). split_and!; [by apply (fb_geom_same f)|done|].
  intros row col gx gy Hgr Hce. apply (in_grid_same f) in Hgr; [|done]. rewrite Ec, <- Hs by done.
  unfold cell_px. rewrite Epx. by destruct Hsg as (_ & -> & _).
Qed.

Lemma scroll_mid f : fb_geom f -> shown (fb_scroll_up f) /\ same_geom f (fb_scroll_up f).
Proof.
  intros Hg. unfold fb_scroll_up.
  match goal with |- shown (fb_render_cells ?f') /\ _ =>
    destruct (render_spec f') as [H1 [H2 _]]; [apply (fb_geom_same f); [by repeat split|done]|] end.
  split; [done|]. eapply same_geom_trans; [|exact H2]. by repeat split.
Qed.

Lemma next_row_mid f : fb_geom f -> shown f -> 0 <= cur_row f < fb_rows f -> fb_mid (fb_next_row f).
Proof.
  intros Hg Hs Hr. unfold fb_next_row. pose proof (fg_rows _ Hg) as Hrows. pose proof (fg_cols _ Hg) as Hcols.
  rsimpl. rewrite u32_small by lia.
  set (f1 := f <| cur_col := 0 |>). set (f2 := f1 <| cur_row := cur_row f + 1 |>).
  assert (same_geom f f2) as Hsg by (by repeat split).
  assert (fb_geom f2) as Hg2 by (by apply (fb_geom_same f)).
  change (fb_rows f1) with (fb_rows f). destruct (cur_row f + 1 >=? fb_rows f) eqn:E; bools.
  - destruct (scroll_mid f2 Hg2) as [Hs2 Hsg2].
    assert (fb_geom (fb_scroll_up f2)) as Hg3 by (by apply (fb_geom_same f2)).
    assert (fb_rows (fb_scroll_up f2) = fb_rows f) as Er by (destruct Hsg2 as (_ & _ & _ & _ & _ & ->); done).
    assert (fb_cols (fb_scroll_up f2) = fb_cols f) as Ec by (destruct Hsg2 as (_ & _ & _ & _ & -> & _); done).
    assert (cur_col (fb_scroll_up f2) = 0) as Ecc.
    { unfold fb_scroll_up. match goal with |- cur_col (fb_render_cells ?f') = _ =>
        destruct (render_spec f') as [_ [_ (_ & _ & -> & _)]]; [apply (fb_geom_same f2); [by repeat split|done]|] end. done. }
    split_and!; [by apply (fb_geom_same (fb_scroll_up f2)); [repeat split|]| |by apply Hs2].
    unfold cursor_ok, in_grid. rsimpl. rewrite Er, Ec, Ecc, u32_small by lia. lia.
  - split_and!; [done| |by apply Hs]. unfold cursor_ok, in_grid. unfold f2, f1. rsimpl. lia.
Qed.

(** Storing and drawing a character at the cursor. *)
Lemma store_mid f c :
  fb_mid f -> shown (fb_draw_glyph (cur_col f) (cur_row f) c
    (f <| fb_cells := set_cell (cur_row f) (cur_col f) c (fb_cells f) |>)).
Proof.
  intros (Hg & Hc & Hs). set (f1 := f <| fb_cells := _ |>).
  intros row col gx gy Hgr Hce. destruct (draw_frame (cur_col f) (cur_row f) c f1) as [Hsg (-> & _)].
  apply (in_grid_same f1) in Hgr; [|done].
  assert (fb_geom f1) as Hg1 by (by apply (fb_geom_same f); [repeat split|]).
  rewrite draw_spec by first [exact Hg1|exact Hc|done]. unfold f1 at 2. rsimpl. rewrite set_cell_spec.
  destruct (_ && _); [done|]. by apply Hs.
Qed.

Lemma plain_mid c f : 0 <= c < 256 -> fb_mid f -> fb_mid (fb_plain c f).
Proof.
  intros Hb Hm. pose proof Hm as (Hg & Hc & Hs). pose proof Hc as [Hcr Hcc].
  pose proof (fg_cols _ Hg) as Hcols. unfold fb_plain.
  destruct (c =? 10); [by apply next_row_mid|].
  destruct (c =? 13); [apply (mid_move f); [by repeat split|done|done|split; rsimpl; lia|done]|].
  destruct (c =? 8).
  - destruct (cur_col f >? 0) eqn:E; bools; [|done].
    set (f0 := f <| cur_col := cur_col f - 1 |>).
    assert (fb_mid f0) as Hm0 by (apply (mid_move f); [by repeat split|done|done| |done]; split; unfold f0; rsimpl; lia).
    pose proof (store_mid f0 32 Hm0) as Hs0. cbv zeta.
    destruct (draw_frame (cur_col f0) (cur_row f0) 32 (f0 <| fb_cells := set_cell (cur_row f0) (cur_col f0) 32 (fb_cells f0) |>))
      as [Hsg Hst].
    split_and!; [|apply (cursor_ok_same (f0 <| fb_cells := set_cell (cur_row f0) (cur_col f0) 32 (fb_cells f0) |>)); [by split|apply Hm0]|exact Hs0].
    eapply fb_geom_same; [exact Hsg|]. by apply (fb_geom_same f); [repeat split|].
  - destruct (c <? 32); [done|]. cbv zeta. rewrite u8_small by lia.
    set (f1 := f <| fb_cells := set_cell (cur_row f) (cur_col f) c (fb_cells f) |>).
    pose proof (store_mid f c Hm) as Hs1. fold f1 in Hs1. change (cur_col f1) with (cur_col f). change (cur_row f1) with (cur_row f).
    destruct (draw_frame (cur_col f) (cur_row f) c f1) as [Hsg (_ & Ecr & Ecc & _)].
    set (f2 := fb_draw_glyph (cur_col f) (cur_row f) c f1) in *. clearbody f2.
    change (cur_row f1) with (cur_row f) in Ecr. change (cur_col f1) with (cur_col f) in Ecc.
    assert (same_geom f f2) as Hsg2 by exact Hsg. rewrite Ecc. rewrite u32_small by lia.
    assert (fb_geom f2) as Hg2 by (by apply (fb_geom_same f)).
    destruct Hsg2 as (_ & _ & _ & _ & E5 & E6). rsimpl. rewrite E5.
    destruct (cur_col f + 1 >=? fb_cols f) eqn:E; bools.
    + apply next_row_mid; [by apply (fb_geom_same f2); [repeat split|]|exact Hs1|]. rsimpl. rewrite Ecr, E6. done.
    + split_and!; [by apply (fb_geom_same f2); [repeat split|]| |exact Hs1].
      split; rsimpl; rewrite ?Ecr, ?E5, ?E6; lia.
Qed.

Lemma escape_mid c f :
  fb_mid f -> match fb_escape c f with inl f' => fb_mid f' | inr f' => fb_mid f' end.
Proof.
  intros Hm. pose proof Hm as (Hg & [Hcr Hcc] & Hs). pose proof (fg_cols _ Hg). pose proof (fg_rows _ Hg).
  unfold fb_escape.
  destruct (fb_ansi_state f =? 0); [by destruct (c =? 27); [apply (mid_move f); [repeat split|..]|]|].
  destruct (fb_ansi_state f =? 1); [by destruct (c =? 91); apply (mid_move f); [repeat split|..]|].
  destruct (fb_ansi_state f =? 2); [|done].
  destruct (_ && _); [by apply (mid_move f); [repeat split|..]|].
  destruct (c =? 59); [by apply (mid_move f); [repeat split|..]|].
  set (f0 := if c =? 72 then _ else _). assert (fb_mid f0) as Hm0.
  { unfold f0. destruct (c =? 72); [apply (mid_move f); [by repeat split|done|done|split; rsimpl; lia|done]|].
    destruct (_ && _); [|done]. destruct (clear_cells_frame f) as (Hsg & Er & Ec).
    destruct (paint_frame 0 0 (fb_width (fb_clear_cells f)) (fb_height (fb_clear_cells f))
      (fun _ _ _ => FB_COLOR_BG) (fb_clear_cells f)) as [Hsg2 (_ & Er2 & Ec2 & _)].
    assert (same_geom f (fb_clear_screen (fb_clear_cells f))) as Hsg3 by (by eapply same_geom_trans).
    split_and!; [by apply (fb_geom_same f)| |by apply clear_shown].
    unfold cursor_ok. apply (in_grid_same f); [done|]. unfold fb_clear_screen. by rewrite Er2, Ec2, Er, Ec. }
  by apply (mid_move f0); [repeat split| | |apply Hm0|].
Qed.

Lemma putc_ok c f : 0 <= c < 256 -> fb_ok f -> fb_ok (fbconsole_putc c f).
Proof.
  intros Hb Hok. unfold fbconsole_putc. destruct (negb _); [done|].
  pose proof (escape_mid c _ (xor_ok f Hok)) as He.
  destruct (fb_escape c _); apply xor_mid; [done|by apply plain_mid].
Qed.

Lemma clear_ok f : fb_geom f -> fb_ok (fbconsole_clear f).
Proof.
  intros Hg. unfold fbconsole_clear. pose proof (fg_mem _ Hg). replace (negb (tru (fb_mem f))) with false by (unfold tru; lia).
  set (f0 := f <| cur_row := 0 |> <| cur_col := 0 |> <| fb_ansi_state := 0 |> <| fb_ansi_param := 0 |>).
  assert (fb_geom f0) as Hg0 by (by apply (fb_geom_same f); [repeat split|]).
  apply xor_mid. destruct (clear_cells_frame f0) as (Hsg & Er & Ec).
  destruct (paint_frame 0 0 (fb_width (fb_clear_cells f0)) (fb_height (fb_clear_cells f0))
      (fun _ _ _ => FB_COLOR_BG) (fb_clear_cells f0)) as [Hsg2 (_ & Er2 & Ec2 & _)].
  assert (same_geom f0 (fb_clear_screen (fb_clear_cells f0))) as Hsg3 by (by eapply same_geom_trans).
  split_and!; [by apply (fb_geom_same f0)| |by apply clear_shown].
  unfold cursor_ok. apply (in_grid_same f0); [done|]. unfold fb_clear_screen. rewrite Er2, Ec2, Er, Ec.
  pose proof (fg_cols _ Hg). pose proof (fg_rows _ Hg). split; unfold f0; rsimpl; lia.
Qed.

Lemma redraw_ok cells cols rows r c f :
  0 <= r -> 0 <= c -> fb_geom f -> fb_ok (fbconsole_redraw cells cols rows r c f).
Proof.
  intros Hr Hc Hg. unfold fbconsole_redraw. pose proof (fg_mem _ Hg).
  replace (negb (tru (fb_mem f))) with false by (unfold tru; lia). cbv zeta.
  match goal with |- fb_ok (fb_cursor_xor (fb_render_cells ?f')) => set (f0 := f') end.
  assert (same_geom f f0) as Hsg by (by repeat split).
  assert (fb_geom f0) as Hg0 by (by apply (fb_geom_same f)).
  destruct (render_spec f0 Hg0) as [Hs [Hsg2 Hst]]. apply xor_mid. split_and!; [by apply (fb_geom_same f0)| |done].
  apply (cursor_ok_same f0); [by split|]. pose proof (fg_cols _ Hg) as H1. pose proof (fg_rows _ Hg) as H2.
    assert (0 <= cur_row f0 < fb_rows f /\ 0 <= cur_col f0 < fb_cols f) as Hcur.
  { unfold f0, fb_clear_cells. rsimpl.
    split; [destruct (r <? fb_rows f) eqn:?|destruct (c <? fb_cols f) eqn:?]; bools; rewrite ?u32_small; lia. }
  exact Hcur.
Qed.

(** ** Sessions *)
Inductive fb_op :=
  | FbPutc (c : Z)
  | FbClear
  | FbRedraw (cells : Z -> Z) (cols rows cursor_row cursor_col : Z).
Definition fb_step (f : fbcon) (o : fb_op) : fbcon :=
  match o with
  | FbPutc c => fbconsole_putc c f
  | FbClear => fbconsole_clear f
  | FbRedraw cells cols rows r c => fbconsole_redraw cells cols rows r c f
  end.
(** Characters are bytes and the cursor coordinates unsigned. *)
Definition fb_op_ok (o : fb_op) : Prop :=
  match o with
  | FbPutc c => 0 <= c < 256
  | FbClear => True
  | FbRedraw _ _ _ r c => 0 <= r /\ 0 <= c
  end.
(** A graphics mode with room for a character and a consistent pitch. *)
Definition mode_ok (fb : fb_info_t) : Prop :=
  8 <= width fb /\ 16 <= height fb /\ width fb <= pitch fb / 4 /\ height fb * (pitch fb / 4) < 2 ^ 32.

Lemma init_geom fb m f : mode_ok fb -> fb_ok (fbconsole_init fb m f).2.
Proof.
  intros (Hw & Hh & Hp & Hs). unfold fbconsole_init. cbn [snd]. apply clear_ok.
  assert (1 <= width fb / 8) by (by apply Z.div_le_lower_bound; lia).
  assert (1 <= height fb / 16) by (by apply Z.div_le_lower_bound; lia).
  pose proof (Z.mul_div_le (width fb) 8). pose proof (Z.mul_div_le (height fb) 16).
  constructor; rsimpl; try done;
    repeat (destruct (_ >? _) eqn:?; bools); try lia.
Qed.

(** C36: What the framebuffer shows is the text grid.  For every graphics mode
    and every sequence of characters, clears and redraws, the cursor stays in
    the grid and each pixel of each cell is the pixel of the glyph of the cell's
    character, inverted in the last two lines of the cursor's cell. *)
Theorem fb_screen_shows_grid fb m f ops :
  mode_ok fb -> Forall fb_op_ok ops ->
  let f' := foldl fb_step (fbconsole_init fb m f).2 ops in
  0 <= cur_row f' < fb_rows f' /\ 0 <= cur_col f' < fb_cols f' /\
  forall row col gx gy,
    0 <= row < fb_rows f' -> 0 <= col < fb_cols f' -> 0 <= gx < 8 -> 0 <= gy < 16 ->
    fb_px f' ((row * 16 + gy) * fb_pitch_px f' + (col * 8 + gx)) =
    let g := glyph_px (fb_cells f' row col) gx gy in
    if (row =? cur_row f') && (col =? cur_col f') && (14 <=? gy) then Z.lxor g FB_COLOR_FG else g.
Proof.
  intros Hm Hops. cbv zeta. assert (fb_ok (foldl fb_step (fbconsole_init fb m f).2 ops)) as (Hg & [Hr Hc] & Hs).
  { pose proof (init_geom fb m f Hm) as Hok. revert Hok. generalize (fbconsole_init fb m f).2. clear Hm m f.
    induction Hops as [|o ops Ho Hops IH]; intros f Hok; [done|]. apply IH. destruct o; simpl in *.
    - by apply putc_ok.
    - apply clear_ok, Hok.
    - apply redraw_ok; [apply Ho|apply Ho|apply Hok]. }
  split; [done|]. split; [done|]. intros row col gx gy Hrow Hcol Hgx Hgy.
  specialize (Hs row col gx gy (conj Hrow Hcol) (conj Hgx Hgy)). unfold cell_px in Hs. rewrite Hs. cbv zeta.
  unfold at_cursor. replace (gy <? 14 + 2) with true by lia. by rewrite andb_true_r.
Qed.

Definition demo_mode : fb_info_t := mk_fb_info 0 64 16 32 32 0 0 0 0 0 0 0.
Lemma fb_screen_shows_grid_witness :
  let f := mk_fbcon 0 (fun _ => 7) 0 0 0 0 0 0 0 0 0 (fun _ _ => 0) in
  let m := mk_mach (fun _ => 0) (pmm_zero) (untyped_init 0 0) (dma_region_init 0 0) false demo_mode
             (fun _ => 0) (mk_vm_activate_stats 0 0) in
  let f' := foldl fb_step (fbconsole_init demo_mode m f).2 [FbPutc 65; FbPutc 10; FbPutc 66] in
  cur_row f' = 1 /\ cur_col f' = 1 /\
  fb_px f' ((0 * 16 + 4) * fb_pitch_px f' + (0 * 8 + 4)) = glyph_px 65 4 4.
Proof.
  intros f m f'. split; [vm_compute; reflexivity|]. split; [vm_compute; reflexivity|].
  destruct (fb_screen_shows_grid demo_mode m f [FbPutc 65; FbPutc 10; FbPutc 66]) as (_ & _ & H).
  - repeat split; vm_compute; congruence.
  - repeat constructor; vm_compute; congruence.
  - fold f' in H. rewrite H; [|split; vm_compute; congruence..]. vm_compute. reflexivity.
Defined.
