(* ===== verification/Console.v ===== *)
(** * Virtual terminals ([src/arch/x86_64/src/console.c]) and [kprintf]'s
    back end ([src/src/lib/kprintf.c])

    Each virtual terminal has a 25x80 text screen with a scroll-back buffer, an
    escape-sequence automaton and an input ring; the mouse has its own ring.
    The theorems show that the input rings are bounded first-in-first-out
    queues, that the text screen is a window over the scroll-back lines
    followed by the live lines, and that [emit_udec] and [emit_hex] print the
    digits of their argument. *)
From Stdlib Require Import ZArith Lia.
From stdpp Require Import base numbers sets list list_numbers functions.
From S2P Require Import Prelude Abi Ring Memory Pmm Untyped Font PageTable Hwio Fbconsole.

Notation COM1 := (0x3F8)%Z (only parsing).
Notation SERIAL_READY_SPIN_MAX := (100000)%Z (only parsing).
Notation VT_COUNT := (6)%Z (only parsing).
Notation CONSOLE_RING_SIZE := (256)%Z (only parsing).
Notation VGA_COLS := (80)%Z (only parsing).
Notation VGA_ROWS := (25)%Z (only parsing).
Notation VGA_HISTORY_MAX := (200)%Z (only parsing).
Notation DEFAULT_ATTR := (0x07)%Z (only parsing).
Notation MOUSE_RING_SIZE := (64)%Z (only parsing).

Record vt_state_t := mk_vt { raw_mode : Z; vt_ring : Z -> Z; vt_ring_head : Z; vt_ring_tail : Z }.
#[export] Instance eta_vt : Eta vt_state_t := fun v =>
  mk_vt (raw_mode v) (vt_ring v) (vt_ring_head v) (vt_ring_tail v).
Record vga_vt_state_t := mk_vga_vt {
  live_screen : Z -> Z -> Z;
  history_buf : Z -> Z -> Z;
  live_row : Z;
  live_col : Z;
  history_head : Z;
  view_offset : Z;
  vga_attr : Z;
  ansi_state : Z;
  ansi_param : Z
}.
#[export] Instance eta_vga_vt : Eta vga_vt_state_t := fun g =>
  mk_vga_vt (live_screen g) (history_buf g) (live_row g) (live_col g) (history_head g)
    (view_offset g) (vga_attr g) (ansi_state g) (ansi_param g).

(** The file's static state, with the text memory at 0xB8000 and the
    framebuffer console it drives. *)
Record console := mk_console {
  serial_present : bool;
  vts : Z -> vt_state_t;
  active_vt : Z;
  fb_owner_tid : Z;
  vga_vts : Z -> vga_vt_state_t;
  vga_mem : Z -> Z;
  mouse_ring : Z -> Z;
  mouse_ring_head : Z;
  mouse_ring_tail : Z;
  fbc : fbcon
}.
#[export] Instance eta_console : Eta console := fun c =>
  mk_console (serial_present c) (vts c) (active_vt c) (fb_owner_tid c) (vga_vts c) (vga_mem c)
    (mouse_ring c) (mouse_ring_head c) (mouse_ring_tail c) (fbc c).

(** ** The text screen *)

(** [(uint16_t)((g->vga_attr << 8) | ch)] *)
Definition vga_cell (attr ch : Z) : Z := u16 (Z.lor (Z.shiftl attr 8) ch).

(** [for (i = 0; i < n; i++) dst128[i] = src128[i];] on cells: eight at a time. *)
Definition copy128 (base n : Z) (src : Z -> Z) (dst : Z -> Z) : Z -> Z :=
  for_range n (fun i dst =>
    for_range 8 (fun k dst => <[base + i * 8 + k := src (i * 8 + k)]> dst) dst) dst.

Definition live_scroll_up (g : vga_vt_state_t) : vga_vt_state_t :=
  let hist_idx := history_head g mod VGA_HISTORY_MAX in
  let hist := for_range VGA_COLS (fun c h => set_cell hist_idx c (live_screen g 0 c) h) (history_buf g) in
  let g := g <| history_buf := hist |> <| history_head := history_head g + 1 |> in
  let live := for_range (VGA_ROWS - 1) (fun i s =>
    for_range VGA_COLS (fun c s => set_cell (i + 1 - 1) c (s (i + 1) c) s) s) (live_screen g) in
  let live := for_range VGA_COLS (fun c s => set_cell (VGA_ROWS - 1) c (vga_cell (vga_attr g) 32) s) live in
  g <| live_screen := live |> <| live_row := VGA_ROWS - 1 |>.

Definition vga_clear_vt (g : vga_vt_state_t) : vga_vt_state_t :=
  let g := g <| vga_attr := DEFAULT_ATTR |> in
  let blank := vga_cell (vga_attr g) 32 in
  g <| live_screen := for_range VGA_ROWS (fun r s => for_range VGA_COLS (fun c s => set_cell r c blank s) s)
                        (live_screen g) |>
    <| history_buf := for_range VGA_HISTORY_MAX (fun r s => for_range VGA_COLS (fun c s => set_cell r c blank s) s)
                        (history_buf g) |>
    <| history_head := 0 |> <| live_row := 0 |> <| live_col := 0 |> <| view_offset := 0 |>.

Definition apply_ansi_color (code : Z) (g : vga_vt_state_t) : vga_vt_state_t :=
  let fg x := g <| vga_attr := Z.lor (Z.land (vga_attr g) 0xF0) x |> in
  let bg x := g <| vga_attr := Z.lor (Z.land (vga_attr g) 0x8F) x |> in
  match code with
  | 0 => g <| vga_attr := DEFAULT_ATTR |>
  | 1 => g <| vga_attr := Z.lor (vga_attr g) 0x08 |>
  | 30 => fg 0x00 | 31 => fg 0x0C | 32 => fg 0x0A | 33 => fg 0x0E | 34 => fg 0x09
  | 35 => fg 0x0D | 36 => fg 0x0B | 37 => fg 0x0F | 39 => fg 0x07
  | 40 => bg 0x00 | 41 => bg 0x40 | 42 => bg 0x20 | 43 => bg 0x60 | 44 => bg 0x10
  | 45 => bg 0x50 | 46 => bg 0x30 | 47 => bg 0x70 | 49 => bg 0x00
  | _ => g
  end.

(** [live_col = 0; if (++live_row >= VGA_ROWS) live_scroll_up(vt);] *)
Definition vga_newline (g : vga_vt_state_t) : vga_vt_state_t :=
  let g := g <| live_col := 0 |> in
  let g := g <| live_row := live_row g + 1 |> in
  if live_row g >=? VGA_ROWS then live_scroll_up g else g.

(** The text half of [vga_putc]. *)
Definition vga_plain (c : Z) (g : vga_vt_state_t) : vga_vt_state_t :=
  if c =? 10 then vga_newline g
  else if c =? 13 then g <| live_col := 0 |>
  else if c =? 8 then
    let g := if live_col g >? 0 then g <| live_col := live_col g - 1 |> else g in
    g <| live_screen := set_cell (live_row g) (live_col g) (vga_cell (vga_attr g) 32) (live_screen g) |>
  else if u8 c <? 32 then g
  else
    let g := g <| live_screen := set_cell (live_row g) (live_col g) (vga_cell (vga_attr g) (u8 c))
                                   (live_screen g) |> in
    let g := g <| live_col := live_col g + 1 |> in
    if live_col g >=? VGA_COLS then vga_newline g else g.

(** [vga_putc] on the terminal's own state; the parameter is an [int]. *)
Definition vga_putc_g (c : Z) (g : vga_vt_state_t) : vga_vt_state_t :=
  if ansi_state g =? 0 then
    if c =? 27 then g <| ansi_state := 1 |> else vga_plain c g
  else if ansi_state g =? 1 then
    if c =? 91 then g <| ansi_state := 2 |> <| ansi_param := 0 |>
    else vga_plain c (g <| ansi_state := 0 |>)
  else if ansi_state g =? 2 then
    if (c >=? 48) && (c <=? 57) then g <| ansi_param := i32 (ansi_param g * 10 + (c - 48)) |>
    else if (c =? 59) || (c =? 109) then
      let g := apply_ansi_color (ansi_param g) g in
      let g := g <| ansi_param := 0 |> in
      if c =? 109 then g <| ansi_state := 0 |> else g
    else if c =? 75 then
      let n := VGA_COLS - live_col g in
      let s := for_range n (fun i s =>
        set_cell (live_row g) (live_col g + i) (vga_cell (vga_attr g) 32) s) (live_screen g) in
      g <| live_screen := s |> <| ansi_state := 0 |>
    else if (c =? 74) || (c =? 72) then
      let g := if c =? 74 then vga_clear_vt g else g <| live_row := 0 |> <| live_col := 0 |> in
      g <| ansi_state := 0 |>
    else g <| ansi_state := 0 |>
  else vga_plain c g.

Definition vga_putc (vt c : Z) (s : console) : console :=
  s <| vga_vts := <[vt := vga_putc_g c (vga_vts s vt)]> (vga_vts s) |>.

(** The lines of text memory that [render_screen] writes: the view clamped to
    the history there is, and each row from the history, the live screen or
    blank. *)
Definition total_history (g : vga_vt_state_t) : Z :=
  if history_head g <? VGA_HISTORY_MAX then history_head g else VGA_HISTORY_MAX.
Definition clamp_view (g : vga_vt_state_t) : vga_vt_state_t :=
  let g := if view_offset g >? total_history g then g <| view_offset := total_history g |> else g in
  if view_offset g <? 0 then g <| view_offset := 0 |> else g.
Definition view_line (g : vga_vt_state_t) (r : Z) : Z -> Z :=
  let total := total_history g in
  let target_line := total + r - view_offset g in
  if target_line <? 0 then fun _ => vga_cell (vga_attr g) 32
  else if target_line <? total then
    let hist_idx := Z.rem (history_head g - total + target_line + VGA_HISTORY_MAX) VGA_HISTORY_MAX in
    history_buf g hist_idx
  else
    let live_r := target_line - total in
    if live_r <? VGA_ROWS then live_screen g live_r else fun _ => vga_cell (vga_attr g) 32.

Section console.
Context {D : Type} `{!Ports D}.
Implicit Types (s : console) (d : D).

(** ** Serial line *)
Definition serial_init s d : console * D :=
  let d := outb (COM1 + 1) 0x00 d in
  let d := outb (COM1 + 3) 0x80 d in
  let d := outb (COM1 + 0) 0x01 d in
  let d := outb (COM1 + 1) 0x00 d in
  let d := outb (COM1 + 3) 0x03 d in
  let d := outb (COM1 + 2) 0xC7 d in
  let d := outb (COM1 + 4) 0x0B d in
  let d := outb (COM1 + 7) 0xAA d in
  let '(v, d) := inb (COM1 + 7) d in
  if v =? 0xAA then
    let d := outb (COM1 + 7) 0x55 d in
    let '(v, d) := inb (COM1 + 7) d in
    (s <| serial_present := v =? 0x55 |>, d)
  else (s <| serial_present := false |>, d).

(** At most [spins + 1] reads of the line status; [false] when it gives up. *)
Fixpoint serial_wait (spins : nat) d : bool * D :=
  let '(v, d) := inb (COM1 + 5) d in
  if has v 0x20 then (true, d)
  else match spins with
  | O => (false, d)
  | S spins => serial_wait spins d
  end.
Definition serial_putc (c : Z) s d : D :=
  if negb (serial_present s) then d
  else
    let '(ready, d) := serial_wait (Z.to_nat (SERIAL_READY_SPIN_MAX - 1)) d in
    if (ready : bool) then outb COM1 (u8 c) d else d.

(** ** Screen updates *)
Definition update_cursor s d : D :=
  let g := vga_vts s (active_vt s) in
  if view_offset g =? 0 then
    let pos := u16 (live_row g * VGA_COLS + live_col g) in
    let d := outb 0x3D4 0x0F d in
    let d := outb 0x3D5 (u8 (Z.land pos 0xFF)) d in
    let d := outb 0x3D4 0x0E d in
    outb 0x3D5 (u8 (Z.land (Z.shiftr pos 8) 0xFF)) d
  else d.

Definition render_screen s d : console * D :=
  let g := vga_vts s (active_vt s) in
  if view_offset g =? 0 then
    let s := s <| vga_mem := copy128 0 (VGA_ROWS * VGA_COLS * 2 / 16)
                   (fun i => live_screen g (i / VGA_COLS) (i mod VGA_COLS)) (vga_mem s) |> in
    (s, update_cursor s d)
  else
    let g := clamp_view g in
    let s := s <| vga_vts := <[active_vt s := g]> (vga_vts s) |> in
    (s <| vga_mem := for_range VGA_ROWS (fun r m =>
       copy128 (r * VGA_COLS) (VGA_COLS * 2 / 16) (view_line g r) m) (vga_mem s) |>, d).

Definition arch_console_flush s d : console * D := render_screen s d.

Definition arch_console_switch_vt (vt : Z) s d : console * D :=
  if (vt <? 0) || (vt >=? VT_COUNT) || (vt =? active_vt s) then (s, d)
  else
    let '(s, d) := render_screen (s <| active_vt := vt |>) d in
    if negb (tru (fb_owner_tid s)) then
      let g := vga_vts s (active_vt s) in
      (s <| fbc ::= fbconsole_redraw (fun i => live_screen g (i / VGA_COLS) (i mod VGA_COLS))
              VGA_COLS VGA_ROWS (u32 (live_row g)) (u32 (live_col g)) |>, d)
    else (s, d).

Definition arch_console_get_active_vt s : Z := active_vt s.

Definition arch_console_scroll (delta : Z) s d : console * D :=
  let g := vga_vts s (active_vt s) in
  let g := g <| view_offset := i32 (view_offset g + delta) |> in
  let g := if view_offset g <? 0 then g <| view_offset := 0 |> else g in
  render_screen (s <| vga_vts := <[active_vt s := g]> (vga_vts s) |>) d.

Definition arch_console_init s d : console * D :=
  let '(s, d) := serial_init s d in
  render_screen (s <| vga_vts := for_range VT_COUNT (fun vt v => <[vt := vga_clear_vt (v vt)]> v) (vga_vts s) |>) d.

Definition arch_console_set_fb_owner (tid : Z) s : console := s <| fb_owner_tid := tid |>.
Definition arch_console_get_fb_owner s : Z := fb_owner_tid s.

Definition arch_console_putc (c : Z) s d : console * D :=
  let s := vga_putc (active_vt s) c s in
  let s := if negb (tru (fb_owner_tid s)) then s <| fbc ::= fbconsole_putc c |> else s in
  let d := if c =? 10 then serial_putc 13 s d else d in
  (s, serial_putc c s d).

Definition arch_console_vt_putc (vt c : Z) s d : console * D :=
  let s := vga_putc vt c s in
  let s := if (vt =? active_vt s) && negb (tru (fb_owner_tid s)) then s <| fbc ::= fbconsole_putc c |> else s in
  let d := if c =? 10 then serial_putc 13 s d else d in
  (s, serial_putc c s d).

(** ** Input *)
Definition ring_push_locked (c : Z) (v : vt_state_t) : vt_state_t :=
  let next := u32 (vt_ring_head v + 1) mod CONSOLE_RING_SIZE in
  if next =? vt_ring_tail v then v
  else v <| vt_ring := <[vt_ring_head v := c]> (vt_ring v) |> <| vt_ring_head := next |>.

Definition arch_console_set_raw_mode (vt enable : Z) s : console :=
  if (vt <? 0) || (vt >=? VT_COUNT) then s
  else
    let s := s <| vts := <[vt := (vts s vt) <| raw_mode := if tru enable then 1 else 0 |>]> (vts s) |> in
    if negb (tru enable)
    then s <| vga_vts := <[vt := (vga_vts s vt) <| vga_attr := DEFAULT_ATTR |>]> (vga_vts s) |> else s.

Definition arch_console_get_raw_mode (vt : Z) s : Z :=
  if (vt <? 0) || (vt >=? VT_COUNT) then 0 else raw_mode (vts s vt).

Definition arch_console_feed_bytes (vt : Z) (buf : list Z) s d : console * D :=
  if (vt <? 0) || (vt >=? VT_COUNT) then (s, d)
  else
    let v := foldl (fun v b => ring_push_locked b v) (vts s vt) buf in
    let s := s <| vts := <[vt := v]> (vts s) |> in
    if (vt =? active_vt s) && negb (view_offset (vga_vts s vt) =? 0) then
      render_screen (s <| vga_vts := <[vt := (vga_vts s vt) <| view_offset := 0 |>]> (vga_vts s) |>) d
    else (s, d).

Definition arch_console_port_io (port width : Z) (is_write : bool) (value : Z) d : Z * D :=
  let allowed := (port =? 0x60) || (port =? 0x64) || ((port >=? COM1) && (port <=? COM1 + 7)) in
  if negb allowed then (-1, d) else port_access port width is_write value d.

(** Up to [max] bytes from the tail of the ring, in order. *)
Fixpoint ring_drain (max : nat) (v : vt_state_t) : list Z * vt_state_t :=
  match max with
  | O => ([], v)
  | S max =>
      if vt_ring_tail v =? vt_ring_head v then ([], v)
      else
        let b := u8 (vt_ring v (vt_ring_tail v)) in
        let '(l, v) := ring_drain max (v <| vt_ring_tail := u32 (vt_ring_tail v + 1) mod CONSOLE_RING_SIZE |>) in
        (b :: l, v)
  end.
Definition arch_console_read_line_bytes (vt max : Z) s : list Z * console :=
  if (vt <? 0) || (vt >=? VT_COUNT) then ([], s)
  else
    let '(l, v) := ring_drain (Z.to_nat max) (vts s vt) in
    (l, s <| vts := <[vt := v]> (vts s) |>).

Definition arch_console_mouse_feed (packed_event : Z) s : console :=
  let next := u32 (mouse_ring_head s + 1) mod MOUSE_RING_SIZE in
  if negb (next =? mouse_ring_tail s)
  then s <| mouse_ring := <[mouse_ring_head s := packed_event]> (mouse_ring s) |> <| mouse_ring_head := next |>
  else s.

Fixpoint mouse_drain (max : nat) s : list Z * console :=
  match max with
  | O => ([], s)
  | S max =>
      if mouse_ring_tail s =? mouse_ring_head s then ([], s)
      else
        let e := mouse_ring s (mouse_ring_tail s) in
        let '(l, s) := mouse_drain max (s <| mouse_ring_tail := u32 (mouse_ring_tail s + 1) mod MOUSE_RING_SIZE |>) in
        (e :: l, s)
  end.
Definition arch_console_mouse_read (max : Z) s : list Z * console := mouse_drain (Z.to_nat max) s.

(** ** kprintf.c *)
Definition putc_all (cs : list Z) s d : console * D :=
  foldl (fun '(s, d) c => arch_console_putc c s d) (s, d) cs.

(** The digits of [v], least significant first: [buf[0 .. i-1]].  Twenty
    digits hold any 64-bit value ([udec_value]). *)
Fixpoint udec_digits (fuel : nat) (v : Z) : list Z :=
  match fuel with
  | O => []
  | S fuel => if v =? 0 then [] else (48 + v mod 10) :: udec_digits fuel (v / 10)
  end.
Definition udec_text (v : Z) : list Z := if v =? 0 then [48] else rev (udec_digits 20 v).
Definition emit_udec (v : Z) s d : console * D := putc_all (udec_text v) s d.

Definition hex_digit (x : Z) : Z := if x <? 10 then 48 + x else 97 + (x - 10).
Fixpoint hex_digits (fuel : nat) (v : Z) : list Z :=
  match fuel with
  | O => []
  | S fuel => if v =? 0 then [] else hex_digit (Z.land v 0xF) :: hex_digits fuel (Z.shiftr v 4)
  end.
Definition hex_text (v min_digits : Z) : list Z :=
  let buf := hex_digits 16 v in
  let buf := if (length buf =? 0)%nat then [48] else buf in
  rev (buf ++ replicate (Z.to_nat min_digits - length buf) 48).
Definition emit_hex (v min_digits : Z) s d : console * D := putc_all (hex_text v min_digits) s d.

(** A string argument: [None] is NULL. *)
Definition str_text (str : option (list Z)) : list Z := default [40; 110; 117; 108; 108; 41] str.
Definition emit_str (str : option (list Z)) s d : console * D := putc_all (str_text str) s d.

Definition kputs (str : option (list Z)) s d : console * D :=
  let '(s, d) := emit_str str s d in
  let '(s, d) := arch_console_putc 10 s d in
  arch_console_flush s d.

Definition kwrite (vt : Z) (buf : list Z) s d : console * D :=
  let '(s, d) := foldl (fun '(s, d) b => arch_console_vt_putc vt b s d) (s, d) buf in
  arch_console_flush s d.
End console.

(** ** Format strings *)

(** An argument of [kprintf]: an integer or a string. *)
Inductive karg := KInt (v : Z) | KStr (str : option (list Z)).
Definition karg_int (a : karg) : Z := match a with KInt v => v | KStr _ => 0 end.
Definition karg_str (a : karg) : option (list Z) := match a with KInt _ => None | KStr l => l end.

(** Skips the [l] modifiers: whether there was one, and what follows. *)
Fixpoint skip_l (fmt : list Z) (wide : bool) : bool * list Z :=
  match fmt with
  | c :: rest => if c =? 108 then skip_l rest true else (wide, fmt)
  | [] => (wide, [])
  end.

(** One conversion, with the argument it takes ([va_arg] past the end of the
    arguments is undefined; it reads as zero here). *)
Definition conversion (c : Z) (wide : bool) (args : list karg) : list Z * list karg :=
  let a := default (KInt 0) (head args) in
  let rest := tail args in
  if c =? 99 then ([u8 (karg_int a)], rest)
  else if c =? 115 then (str_text (karg_str a), rest)
  else if c =? 100 then
    let v := if wide then i64 (karg_int a) else i32 (karg_int a) in
    (if v <? 0 then 45 :: udec_text (u64 (- v)) else udec_text v, rest)
  else if c =? 117 then (udec_text (if wide then u64 (karg_int a) else u32 (karg_int a)), rest)
  else if c =? 120 then (hex_text (if wide then u64 (karg_int a) else u32 (karg_int a)) 1, rest)
  else if c =? 112 then ([48; 120] ++ hex_text (u64 (karg_int a)) 16, rest)
  else if c =? 37 then ([37], args)
  else ([37; c], args).

(** The text [kprintf] emits; a lone [%] ends the output. *)
Fixpoint format_text (fuel : nat) (fmt : list Z) (args : list karg) : list Z :=
  match fuel, fmt with
  | S fuel, c :: fmt =>
      if negb (c =? 37) then c :: format_text fuel fmt args
      else
        let '(wide, fmt) := skip_l fmt false in
        match fmt with
        | [] => []
        | c :: fmt =>
            let '(out, args) := conversion c wide args in out ++ format_text fuel fmt args
        end
  | _, _ => []
  end.
Definition kprintf_text (fmt : list Z) (args : list karg) : list Z := format_text (length fmt) fmt args.
Definition kprintf {D} `{!Ports D} (fmt : list Z) (args : list karg) (s : console) (d : D) : console * D :=
  let '(s, d) := putc_all (kprintf_text fmt args) s d in arch_console_flush s d.

(** ** Input rings *)
Definition ring_ok (v : vt_state_t) : Prop :=
  0 <= vt_ring_head v < CONSOLE_RING_SIZE /\ 0 <= vt_ring_tail v < CONSOLE_RING_SIZE /\
  forall i, 0 <= vt_ring v i < 256.
(** The bytes waiting, oldest first. *)
Definition vt_input (v : vt_state_t) : list Z :=
  ring_seq CONSOLE_RING_SIZE (vt_ring v) (vt_ring_tail v) ((vt_ring_head v - vt_ring_tail v) mod CONSOLE_RING_SIZE).

Lemma u32_next h n : 0 < n <= 2 ^ 16 -> 0 <= h < n -> u32 (h + 1) mod n = (h + 1) mod n.
Proof. intros. by rewrite u32_small by lia. Qed.

(** Index arithmetic of a circular buffer of [n] cells. *)
Lemma ring_full n h t : 0 < n -> 0 <= h < n -> 0 <= t < n -> (h + 1) mod n = t <-> (h - t) mod n = n - 1.
Proof.
  intros Hn Hh Ht. destruct (decide (t <= h)).
  - rewrite (Z.mod_small (h - t)) by lia. destruct (decide (h + 1 < n)).
    + rewrite Z.mod_small by lia. lia.
    + replace (h + 1) with n by lia. rewrite Z.mod_same by lia. lia.
  - replace (h - t) with ((h - t + n) + (-1) * n) by lia. rewrite Z.mod_add, (Z.mod_small (h - t + n)) by lia.
    rewrite Z.mod_small by lia. lia.
Qed.
Lemma ring_grow n h t : 0 < n -> 0 <= h < n -> 0 <= t < n -> (h + 1) mod n <> t ->
  ((h + 1) mod n - t) mod n = (h - t) mod n + 1.
Proof.
  intros Hn Hh Ht Hne. rewrite ring_full in Hne by done. rewrite Zminus_mod_idemp_l.
  pose proof (Z.mod_pos_bound (h - t) n Hn).
  replace (h + 1 - t) with (h - t + 1) by lia. rewrite <- Zplus_mod_idemp_l, Z.mod_small by lia. done.
Qed.
Lemma ring_shrink n h t : 0 < n -> 0 <= h < n -> 0 <= t < n -> t <> h ->
  (h - (t + 1) mod n) mod n = (h - t) mod n - 1 /\ 0 < (h - t) mod n.
Proof.
  intros Hn Hh Ht Hne. pose proof (Z.mod_pos_bound (h - t) n Hn).
  assert ((h - t) mod n <> 0).
  { intros E. apply Z.mod_divide in E as [k Hk]; [|lia]. assert (k = 0) as -> by nia. lia. }
  rewrite Zminus_mod_idemp_r. replace (h - (t + 1)) with (h - t - 1) by lia.
  rewrite <- Zminus_mod_idemp_l, Z.mod_small by lia. lia.
Qed.

Lemma push_input c v :
  ring_ok v -> 0 <= c < 256 ->
  ring_ok (ring_push_locked c v) /\
  vt_input (ring_push_locked c v) =
    (if (length (vt_input v) <? 255)%nat then vt_input v ++ [c] else vt_input v).
Proof.
  intros (Hh & Ht & Hb) Hc. unfold ring_push_locked. rewrite u32_next by (lia).
  unfold vt_input at 2. rewrite ring_seq_length.
  pose proof (ring_full CONSOLE_RING_SIZE (vt_ring_head v) (vt_ring_tail v) eq_refl Hh Ht) as Hfull.
  pose proof (Z.mod_pos_bound (vt_ring_head v - vt_ring_tail v) CONSOLE_RING_SIZE eq_refl) as Hlen.
  set (len := (vt_ring_head v - vt_ring_tail v) mod CONSOLE_RING_SIZE) in *.
  destruct (Z.eqb_spec ((vt_ring_head v + 1) mod CONSOLE_RING_SIZE) (vt_ring_tail v)) as [E|E].
  - split; [done|]. apply Hfull in E.     by replace (Z.to_nat len <? 255)%nat with false by (symmetry; apply Nat.ltb_ge; lia).
  - split.
    { split; [|split]; rsimpl; [by apply Z.mod_pos_bound|done|].
      intros i. destruct (decide (i = vt_ring_head v)) as [-> |]; [by rewrite fn_lookup_insert|by rewrite fn_lookup_insert_ne]. }
    assert (len <> CONSOLE_RING_SIZE - 1) as Hnl by (intros E2; apply E, Hfull, E2).
        replace (Z.to_nat len <? 255)%nat with true by (symmetry; apply Nat.ltb_lt; lia).
    unfold vt_input. rsimpl. rewrite ring_grow by done. fold len.
    change [c] with ((fun _ : Z => c) <$> seqZ 0 1).
    rewrite <- (ring_fill_app CONSOLE_RING_SIZE eq_refl (vt_ring v) (vt_ring_tail v) len 1 (fun _ => c))
      by (lia).
    apply ring_seq_ext. intros x. unfold ring_fill. rewrite (for_range_S 0) by lia. rewrite for_range_0 by lia.
    replace ((vt_ring_tail v + len + 0) mod CONSOLE_RING_SIZE) with (vt_ring_head v); [done|].
    unfold len. rewrite Z.add_0_r, Zplus_mod_idemp_r.
    replace (vt_ring_tail v + (vt_ring_head v - vt_ring_tail v)) with (vt_ring_head v) by lia.
    by rewrite Z.mod_small.
Qed.

Lemma feed_input buf v :
  ring_ok v -> Forall (fun b => 0 <= b < 256) buf ->
  let v' := foldl (fun v b => ring_push_locked b v) v buf in
  ring_ok v' /\ vt_input v' = take 255 (vt_input v ++ buf).
Proof.
  cbv zeta. intros Hv Hb. revert v Hv. induction Hb as [|b buf Hb Hbuf IH]; intros v Hv; cbn [foldl].
  - split; [done|]. rewrite app_nil_r, take_ge; [done|]. destruct Hv as (Hh & Ht & _).
    unfold vt_input. rewrite ring_seq_length.
    pose proof (Z.mod_pos_bound (vt_ring_head v - vt_ring_tail v) CONSOLE_RING_SIZE eq_refl).
    lia.
  - destruct (push_input b v Hv Hb) as [Hv' E]. destruct (IH _ Hv') as [H1 H2]. split; [done|]. rewrite H2, E.
    destruct (Nat.ltb_spec (length (vt_input v)) 255); [by rewrite <- app_assoc|].
    rewrite !take_app_le by lia. done.
Qed.

Lemma drain_input n v l v' :
  ring_ok v -> ring_drain n v = (l, v') ->
  ring_ok v' /\ l = take n (vt_input v) /\ vt_input v' = drop n (vt_input v).
Proof.
  revert v l v'. induction n as [|n IH]; intros v l v' Hv; cbn [ring_drain].
  { intros [= <- <-]. by rewrite take_0, drop_0. }
  destruct Hv as (Hh & Ht & Hb).
  destruct (Z.eqb_spec (vt_ring_tail v) (vt_ring_head v)) as [E|E].
  { intros [= <- <-]. split; [done|]. unfold vt_input. rewrite E, Z.sub_diag. by rewrite Z.mod_0_l. }
  destruct (ring_shrink CONSOLE_RING_SIZE (vt_ring_head v) (vt_ring_tail v) eq_refl Hh Ht E) as [E1 E2].
  destruct (ring_drain n _) as [l0 v0] eqn:Ed. intros [= <- <-].
  rewrite u32_next in Ed by (lia).
  apply IH in Ed as (Hv0 & -> & Ei).
  2:{ split; [|split]; rsimpl; [done|by apply Z.mod_pos_bound|done]. }
  split; [done|]. rewrite Ei.
  set (v1 := v <| vt_ring_tail := _ |>) in *.
  assert (vt_input v = u8 (vt_ring v (vt_ring_tail v)) :: vt_input v1) as ->; [|done].
  unfold vt_input, v1. rsimpl. rewrite E1.
  rewrite (ring_seq_split CONSOLE_RING_SIZE (vt_ring v) (vt_ring_tail v) _ 1) by lia.
  unfold ring_seq at 1. change (seqZ 0 1) with [0]. cbn [fmap list_fmap app].
  by rewrite Z.add_0_r, (Z.mod_small _ _ Ht), u8_small.
Qed.

(** C37: The console input of a virtual terminal is a bounded queue of 255 bytes.
    Feeding bytes appends as many as fit, in order; a read of up to [max] bytes
    returns the oldest ones and removes exactly those; other terminals are not
    touched. *)
Theorem console_input_fifo {D} `{!Ports D} vt buf max (s : console) (d : D) :
  0 <= vt < VT_COUNT -> ring_ok (vts s vt) -> Forall (fun b => 0 <= b < 256) buf -> 0 <= max ->
  let s1 := (arch_console_feed_bytes vt buf s d).1 in
  let '(l, s2) := arch_console_read_line_bytes vt max s1 in
  vt_input (vts s1 vt) = take 255 (vt_input (vts s vt) ++ buf) /\
  l = take (Z.to_nat max) (vt_input (vts s1 vt)) /\
  vt_input (vts s2 vt) = drop (Z.to_nat max) (vt_input (vts s1 vt)) /\
  ring_ok (vts s2 vt) /\
  forall vt', vt' <> vt -> vts s2 vt' = vts s vt'.
Proof.
  intros Hvt Hok Hbuf Hmax. cbv zeta. unfold arch_console_feed_bytes, arch_console_read_line_bytes.
  replace ((vt <? 0) || (vt >=? VT_COUNT)) with false by lia.
  destruct (feed_input buf (vts s vt) Hok Hbuf) as [Hok1 E1].
  set (v1 := foldl _ (vts s vt) buf) in *. set (s0 := s <| vts := <[vt := v1]> (vts s) |>).
  assert (forall s' d', (vts s' = vts s0) -> vts (render_screen s' d').1 = vts s0) as Hr.
  { intros s' d' E. unfold render_screen. by destruct (_ =? 0). }
  assert (vts (if (vt =? active_vt s0) && negb (view_offset (vga_vts s0 vt) =? 0)
    then render_screen (s0 <| vga_vts := <[vt:=(vga_vts s0 vt) <| view_offset := 0 |>]> (vga_vts s0) |>) d
    else (s0, d)).1 = vts s0) as E2 by (destruct (_ && _); [by apply Hr|done]).
  set (s1 := fst _) in *. clearbody s1.
  replace (vts s1 vt) with v1 by (rewrite E2; unfold s0; rsimpl; by rewrite fn_lookup_insert).
  destruct (ring_drain (Z.to_nat max) v1) as [l v2] eqn:Ed.
  destruct (drain_input _ _ _ _ Hok1 Ed) as (Hok2 & -> & E3).
  rsimpl. rewrite !fn_lookup_insert. split_and!; [done..|].
  intros vt' Hne. rewrite fn_lookup_insert_ne, E2 by done. unfold s0. rsimpl. by rewrite fn_lookup_insert_ne.
Qed.

(** ** The text screen as a window *)
Record vga_ok (g : vga_vt_state_t) : Prop := {
  vo_row : 0 <= live_row g < VGA_ROWS;
  vo_col : 0 <= live_col g < VGA_COLS;
  vo_hist : 0 <= history_head g;
  vo_view : 0 <= view_offset g;
  vo_attr : 0 <= vga_attr g < 2 ^ 8;
  vo_ansi : 0 <= ansi_state g <= 2
}.
(** Line [k] of the scroll-back: the oldest kept history line is line 0, and the
    live screen follows the history. *)
Definition vga_line (g : vga_vt_state_t) (k : Z) : Z -> Z :=
  if k <? total_history g
  then history_buf g ((history_head g - total_history g + k) mod VGA_HISTORY_MAX)
  else live_screen g (k - total_history g).

Lemma copy128_spec base n src dst i :
  0 <= n ->
  copy128 base n src dst i = if (base <=? i) && (i <? base + n * 8) then src (i - base) else dst i.
Proof.
  intros Hn. unfold copy128. revert i.
  apply (for_range_ind (fun k q => forall i, q i = if (base <=? i) && (i <? base + k * 8) then src (i - base) else dst i));
    [done| |].
  - intros i. by replace ((base <=? i) && (i <? base + 0 * 8)) with false by lia.
  - intros k q Hk IH i.
    replace (for_range 8 _ q i) with (paint_line (base + k * 8) 8 (fun x _ => src (k * 8 + x)) q i).
    2:{ done. }
    rewrite paint_line_spec, IH.
    destruct ((base + k * 8 <=? i) && (i <? base + k * 8 + 8)) eqn:E; bools.
    + replace ((base <=? i) && (i <? base + (k + 1) * 8)) with true by lia. f_equal. lia.
    + replace ((base <=? i) && (i <? base + (k + 1) * 8)) with ((base <=? i) && (i <? base + k * 8)); [done|].
      apply andb_false_iff in E. lia.
Qed.

Lemma view_line_spec g r :
  0 <= history_head g -> 0 <= view_offset g <= total_history g -> 0 <= r < VGA_ROWS ->
  view_line g r = vga_line g (total_history g + r - view_offset g).
Proof.
  intros Hh Hv Hr. unfold view_line, vga_line.
  assert (0 <= total_history g <= history_head g) as Ht.
  { unfold total_history in *. destruct (_ <? _) eqn:E; bools; lia. }
  set (total := total_history g) in *. replace (total + r - view_offset g <? 0) with false by lia.
  destruct (total + r - view_offset g <? total) eqn:E; bools.
  - rewrite Z.rem_mod_nonneg by (lia).
    replace (history_head g - total + (total + r - view_offset g) + VGA_HISTORY_MAX)
      with (history_head g - total + (total + r - view_offset g) + 1 * VGA_HISTORY_MAX) by lia.
    by rewrite Z.mod_add by done.
  - replace (total + r - view_offset g - total <? VGA_ROWS) with true; [done|]. lia.
Qed.

Lemma clamp_view_spec g :
  0 <= view_offset g -> 0 <= history_head g ->
  clamp_view g = g <| view_offset := Z.min (view_offset g) (total_history g) |>.
Proof.
  intros Hv Hh. unfold clamp_view.
  assert (0 <= total_history g) by (unfold total_history; destruct (_ <? _); lia).
  destruct (view_offset g >? total_history g) eqn:E; bools; rsimpl.
  - replace (total_history g <? 0) with false by lia. f_equal. rewrite Z.min_r by lia. done.
  - replace (view_offset g <? 0) with false by lia. rewrite Z.min_l by lia. by destruct g.
Qed.

(** Scrolling: the top live line becomes the newest history line, everything
    moves up by one, and the oldest line is dropped once 200 are kept. *)
Lemma scroll_line g k c :
  vga_ok g -> 0 <= c < VGA_COLS ->
  let g' := live_scroll_up g in
  0 <= k < total_history g' + VGA_ROWS ->
  vga_line g' k c =
  if k =? total_history g' + VGA_ROWS - 1 then vga_cell (vga_attr g) 32
  else vga_line g (k + (total_history g + 1 - total_history g')) c.
Proof.
  intros [Hrow Hcol Hh _ _ _] Hc. cbv zeta.
  assert (total_history (live_scroll_up g) = if history_head g + 1 <? 200 then history_head g + 1 else 200) as Et by done.
  assert (forall r, 0 <= r < VGA_ROWS -> live_screen (live_scroll_up g) r c =
    if r =? VGA_ROWS - 1 then vga_cell (vga_attr g) 32 else live_screen g (r + 1) c) as Hlive.
  { intros r Hr. unfold live_scroll_up. rsimpl. rewrite (fill_row _ _ (fun _ _ => vga_cell _ 32)) by done.
    replace (0 <=? c) with true by lia. replace (c <? VGA_COLS) with true by lia. rewrite !andb_true_r.
    destruct (Z.eqb_spec r (VGA_ROWS - 1)); [done|].
    rewrite shift_rows by done.     by replace ((0 <=? r) && (r <? 25 - 1) && (0 <=? c) && (c <? VGA_COLS)) with true by lia. }
  assert (forall h, history_buf (live_scroll_up g) h c =
    if h =? history_head g mod VGA_HISTORY_MAX then live_screen g 0 c else history_buf g h c) as Hhist.
  { intros h. unfold live_scroll_up. rsimpl. rewrite (fill_row _ _ (fun _ c => live_screen g 0 c)) by done.
    replace (0 <=? c) with true by lia. replace (c <? VGA_COLS) with true by lia. by rewrite !andb_true_r. }
  assert (history_head (live_scroll_up g) = history_head g + 1) as Ehh by done.
  set (g' := live_scroll_up g) in *. clearbody g'. unfold vga_line. intros Hk. rewrite Ehh.
  assert (total_history g' <= 200) as Ht2 by (rewrite Et; destruct (_ <? _) eqn:?; bools; lia).
  set (T := total_history g) in *. set (T' := total_history g') in *.   replace (history_head g - T + (k + (T + 1 - T'))) with (history_head g + 1 - T' + k) by lia.
  destruct (k <? T') eqn:Ek; bools.
  - replace (k =? T' + VGA_ROWS - 1) with false by (lia). rewrite Hhist.
    destruct (decide (k = T' - 1)) as [-> |].
    + replace (history_head g + 1 - T' + (T' - 1)) with (history_head g) by lia. rewrite Z.eqb_refl.
      replace (T' - 1 + (T + 1 - T') <? T) with false by lia. f_equal. lia.
    + replace (k + (T + 1 - T') <? T) with true by lia.
      destruct (Z.eqb_spec ((history_head g + 1 - T' + k) mod 200) (history_head g mod 200)) as [E|]; [|done].
      exfalso. assert ((history_head g - (history_head g + 1 - T' + k)) mod 200 = 0) as E0
        by (rewrite Zminus_mod, E, Z.sub_diag; done).
      rewrite Z.mod_small in E0; lia.
  - replace (k + (T + 1 - T') <? T) with false by lia. rewrite Hlive by lia.
    replace (k - T' =? VGA_ROWS - 1) with (k =? T' + VGA_ROWS - 1) by lia.
    destruct (_ =? _); [done|]. f_equal. lia.
Qed.

(** ** Well-formed terminals *)
Lemma ansi_color_ok code g : vga_ok g -> vga_ok (apply_ansi_color code g).
Proof.
  intros Hg. assert (exists a, 0 <= a < 2 ^ 8 /\ apply_ansi_color code g = g <| vga_attr := a |>) as (a & Ha & ->).
  { assert (forall m x, 0 <= x < 2 ^ 8 -> 0 <= Z.lor (Z.land (vga_attr g) m) x < 2 ^ 8) as Hl.
    { intros m x Hx. apply lor_range; [lia|apply land_range; [lia|apply Hg]|done]. }
    assert (apply_ansi_color code g = g <| vga_attr := vga_attr g |>
      \/ exists a, 0 <= a < 2 ^ 8 /\ apply_ansi_color code g = g <| vga_attr := a |>) as [->|?]; [|by exists (vga_attr g); split; [apply Hg|]|done].
    unfold apply_ansi_color.
    repeat (match goal with |- context [match ?c with _ => _ end] => destruct c end;
      try (by left; destruct g); try (right; eexists; split; [|reflexivity]; first [apply Hl; done|done|apply lor_range; [done|apply Hg|done]])). }
  destruct Hg. constructor; rsimpl; done.
Qed.

Lemma newline_ok g : vga_ok g -> vga_ok (vga_newline g).
Proof.
  intros []. unfold vga_newline. rsimpl. destruct (live_row g + 1 >=? VGA_ROWS) eqn:E; bools.
  - constructor; unfold live_scroll_up; rsimpl; try done; lia.
  - constructor; rsimpl; try done; lia.
Qed.

Lemma plain_ok c g : vga_ok g -> vga_ok (vga_plain c g).
Proof.
  intros Hg. unfold vga_plain. destruct (c =? 10); [by apply newline_ok|].
  destruct (c =? 13); [destruct Hg; constructor; rsimpl; try done; lia|].
  destruct (c =? 8); [destruct Hg; destruct (live_col g >? 0) eqn:?; bools; constructor; rsimpl; try done; lia|].
  destruct (u8 c <? 32); [done|]. cbv zeta. destruct (_ >=? _) eqn:E; bools; rsimpl.
  - pose proof (newline_ok g Hg) as []. unfold vga_newline in *. rsimpl.
    destruct (live_row g + 1 >=? VGA_ROWS) eqn:?; bools; constructor; unfold live_scroll_up in *; rsimpl; try done; lia.
  - destruct Hg. constructor; rsimpl; try done; lia.
Qed.

Lemma vga_putc_ok c g : vga_ok g -> vga_ok (vga_putc_g c g).
Proof.
  intros Hg. assert (forall a p, 0 <= a <= 2 -> vga_ok (g <| ansi_state := a |> <| ansi_param := p |>)) as Ha
    by (intros; destruct Hg; constructor; rsimpl; done).
  assert (forall a, 0 <= a <= 2 -> vga_ok (g <| ansi_state := a |>)) as Ha1
    by (intros; destruct Hg; constructor; rsimpl; done).
  unfold vga_putc_g.
  destruct (ansi_state g =? 0); [destruct (c =? 27); [by apply Ha1|by apply plain_ok]|].
  destruct (ansi_state g =? 1); [destruct (c =? 91); [by apply Ha|by apply plain_ok, Ha1]|].
  destruct (ansi_state g =? 2); [|by apply plain_ok].
  destruct (_ && _); [destruct Hg; constructor; rsimpl; done|].
  destruct (_ || _).
  { pose proof (ansi_color_ok (ansi_param g) g Hg) as [].
    destruct (c =? 109); constructor; rsimpl; done. }
  destruct (c =? 75); [destruct Hg; constructor; rsimpl; done|].
  destruct (_ || _); [|by apply Ha1].
  destruct (c =? 74); destruct Hg; constructor; unfold vga_clear_vt; rsimpl; done.
Qed.

Section window.
Context {D : Type} `{!Ports D}.

Lemma vt_putc_vga vt c s (d : D) :
  vga_vts (arch_console_vt_putc vt c s d).1 = <[vt := vga_putc_g c (vga_vts s vt)]> (vga_vts s) /\
  active_vt (arch_console_vt_putc vt c s d).1 = active_vt s /\
  vts (arch_console_vt_putc vt c s d).1 = vts s.
Proof. unfold arch_console_vt_putc, vga_putc. cbn [fst]. by destruct (_ && _). Qed.

Lemma putc_fold vt buf s (d : D) :
  let s' := (foldl (fun '(s, d) b => arch_console_vt_putc vt b s d) (s, d) buf).1 in
  vga_vts s' vt = foldl (fun g c => vga_putc_g c g) (vga_vts s vt) buf /\ active_vt s' = active_vt s.
Proof.
  revert s d. induction buf as [|b buf IH]; intros s d; [done|]. cbn [foldl].
  destruct (vt_putc_vga vt b s d) as (E1 & E2 & _).
  destruct (arch_console_vt_putc vt b s d) as [s1 d1]. simpl in E1, E2. destruct (IH s1 d1) as [-> ->].
  by rewrite E1, E2, fn_lookup_insert.
Qed.

(** What a refresh leaves in text memory. *)
Lemma render_window s (d : D) r c :
  let g := vga_vts s (active_vt s) in
  0 <= view_offset g -> 0 <= history_head g -> 0 <= r < VGA_ROWS -> 0 <= c < VGA_COLS ->
  vga_mem (render_screen s d).1 (r * VGA_COLS + c) =
  vga_line g (total_history g + r - Z.min (view_offset g) (total_history g)) c.
Proof.
  cbv zeta. intros Hv Hh Hr Hc. set (g := vga_vts s (active_vt s)) in *. unfold render_screen. fold g.
  assert (0 <= total_history g) as Ht by (unfold total_history; destruct (_ <? _); lia).
  destruct (Z.eqb_spec (view_offset g) 0) as [E|E]; cbn [fst]; rsimpl.
  - rewrite copy128_spec by done. change (25 * 80 * 2 / 16 * 8) with 2000.
    replace ((0 <=? r * 80 + c) && (r * 80 + c <? 0 + 2000)) with true by lia. rewrite E, Z.min_l, Z.sub_0_r by lia.
    rewrite Z.div_add_l, Z.div_small, Z.add_0_r by lia.
    rewrite Z.add_comm, Z.mod_add, Z.mod_small by lia. unfold vga_line.
    replace (total_history g + r - 0 <? total_history g) with false by lia. f_equal. lia.
  - rewrite clamp_view_spec by done. set (g1 := g <| view_offset := _ |>).
    replace (vga_line g (total_history g + r - Z.min (view_offset g) (total_history g)))
      with (view_line g1 r).
    2:{ rewrite view_line_spec; [done|done| |done]. unfold g1. rsimpl. change (total_history g1) with (total_history g). lia. }
    assert (forall k, 0 <= k -> forall m i, for_range k (fun r m => copy128 (r * VGA_COLS) (VGA_COLS * 2 / 16) (view_line g1 r) m) m i =
      if (0 <=? i) && (i <? k * 80) then view_line g1 (i / 80) (i mod 80) else m i) as H.
    { refine (natlike_ind _ _ _).
      - intros m i. rewrite for_range_0 by lia. by replace ((0 <=? i) && (i <? 0 * 80)) with false by lia.
      - intros k Hk IH m i. unfold Z.succ. rewrite for_range_S by done. rewrite copy128_spec by done. rewrite IH.
        change (VGA_COLS * 2 / 16 * 8) with 80. change VGA_COLS with 80.
        destruct ((k * 80 <=? i) && (i <? k * 80 + 80)) eqn:E2; bools.
        + replace ((0 <=? i) && (i <? (k + 1) * 80)) with true by lia.
          replace i with (k * 80 + (i - k * 80)) at 2 3 by lia. rewrite Z.div_add_l, Z.div_small, Z.add_0_r by lia.
          f_equal. rewrite Z.add_comm, Z.mod_add, Z.mod_small by lia. lia.
        + apply andb_false_iff in E2.
          by replace ((0 <=? i) && (i <? (k + 1) * 80)) with ((0 <=? i) && (i <? k * 80)) by lia. }
    rewrite H by done.     replace ((0 <=? r * 80 + c) && (r * 80 + c <? 25 * 80)) with true by lia.
    rewrite Z.div_add_l, Z.div_small, Z.add_0_r by lia. by rewrite Z.add_comm, Z.mod_add, Z.mod_small by lia.
Qed.
End window.

(** The text screen is a window over the terminal's lines.  After any bytes
    written to the active terminal, escape sequences included, the terminal is
    well formed (cursor inside 25x80, colour a byte) and every cell of text
    memory is the cell of the scroll-back line the view offset selects, the
    view never reaching before the oldest line kept. *)
Theorem console_screen_window {D} `{!Ports D} buf (s : console) (d : D) r c :
  vga_ok (vga_vts s (active_vt s)) -> 0 <= r < VGA_ROWS -> 0 <= c < VGA_COLS ->
  let g := foldl (fun g b => vga_putc_g b g) (vga_vts s (active_vt s)) buf in
  vga_ok g /\
  vga_mem (kwrite (active_vt s) buf s d).1 (r * VGA_COLS + c) =
  vga_line g (total_history g + r - Z.min (view_offset g) (total_history g)) c.
Proof.
  intros Hok Hr Hc. cbv zeta.
  assert (vga_ok (foldl (fun g b => vga_putc_g b g) (vga_vts s (active_vt s)) buf)) as Hok'.
  { clear Hr Hc. revert Hok. generalize (vga_vts s (active_vt s)). induction buf as [|b buf IH]; intros g Hg; [done|].
    apply IH, vga_putc_ok, Hg. }
  split; [done|]. unfold kwrite, arch_console_flush.
  destruct (putc_fold (active_vt s) buf s d) as [E1 E2].
  destruct (foldl _ (s, d) buf) as [s1 d1]. cbn [fst] in *.
  rewrite <- E1, <- E2. rewrite <- E2 in E1.
  apply render_window; [rewrite E1, E2; apply (vo_view _ Hok')|rewrite E1, E2; apply (vo_hist _ Hok')|done..].
Qed.

(** ** Numbers *)
Definition dec_value (l : list Z) : Z := foldl (fun a d => a * 10 + (d - 48)) 0 l.
Definition hex_nibble (c : Z) : Z := if c <? 58 then c - 48 else c - 87.
Definition hex_value (l : list Z) : Z := foldl (fun a d => a * 16 + hex_nibble d) 0 l.

Lemma dec_value_snoc l x : dec_value (l ++ [x]) = dec_value l * 10 + (x - 48).
Proof. unfold dec_value. by rewrite foldl_app. Qed.
Lemma hex_value_snoc l x : hex_value (l ++ [x]) = hex_value l * 16 + hex_nibble x.
Proof. unfold hex_value. by rewrite foldl_app. Qed.

Lemma udec_digits_value fuel v :
  0 <= v < 10 ^ Z.of_nat fuel -> dec_value (rev (udec_digits fuel v)) = v /\
  Forall (fun c => 48 <= c <= 57) (udec_digits fuel v).
Proof.
  revert v. induction fuel as [|fuel IH]; intros v Hv; cbn [udec_digits].
  { simpl in Hv. split; [by replace v with 0 by lia|constructor]. }
  destruct (Z.eqb_spec v 0) as [-> |]; [by split; [|constructor]|].
  pose proof (Z.mod_pos_bound v 10 eq_refl). pose proof (Z.div_mod v 10).
  destruct (IH (v / 10)) as [E F].
  { split; [by apply Z.div_pos; lia|]. apply Z.div_lt_upper_bound; [lia|]. rewrite Nat2Z.inj_succ, Z.pow_succ_r in Hv by lia. lia. }
  cbn [rev]. rewrite dec_value_snoc, E. split; [lia|]. constructor; [lia|done].
Qed.

Lemma hex_digit_nibble x : 0 <= x < 16 -> hex_nibble (hex_digit x) = x.
Proof. intros. unfold hex_nibble, hex_digit. destruct (x <? 10) eqn:E; bools; destruct (_ <? 58) eqn:?; bools; lia. Qed.

Lemma hex_digits_value fuel v : 0 <= v < 16 ^ Z.of_nat fuel -> hex_value (rev (hex_digits fuel v)) = v.
Proof.
  revert v. induction fuel as [|fuel IH]; intros v Hv; cbn [hex_digits].
  { simpl in Hv. by replace v with 0 by lia. }
  destruct (Z.eqb_spec v 0) as [-> |]; [done|].
  change 15 with (2 ^ 4 - 1). rewrite land_low, Z.shiftr_div_pow2 by lia. change (2 ^ 4) with 16.
  pose proof (Z.mod_pos_bound v 16 eq_refl). pose proof (Z.div_mod v 16).
  cbn [rev]. rewrite hex_value_snoc, hex_digit_nibble, IH; [lia| |lia].
  split; [by apply Z.div_pos; lia|]. apply Z.div_lt_upper_bound; [lia|]. rewrite Nat2Z.inj_succ, Z.pow_succ_r in Hv by lia. lia.
Qed.

Lemma hex_value_zeros n l : hex_value (replicate n 48 ++ l) = hex_value l.
Proof.
  unfold hex_value. rewrite foldl_app. f_equal. induction n as [|n IH]; [done|]. done.
Qed.

Lemma rev_replicate {A} n (x : A) : rev (replicate n x) = replicate n x.
Proof. induction n as [|n IH]; [done|]. simpl. rewrite IH. symmetry. apply replicate_cons_app. Qed.

Lemma udec_digits_length fuel v : (length (udec_digits fuel v) <= fuel)%nat.
Proof. revert v. induction fuel as [|fuel IH]; intros v; simpl; [lia|]. destruct (v =? 0); simpl; [lia|]. specialize (IH (v / 10)). lia. Qed.
Lemma hex_digits_length fuel v : (length (hex_digits fuel v) <= fuel)%nat.
Proof. revert v. induction fuel as [|fuel IH]; intros v; simpl; [lia|]. destruct (v =? 0); simpl; [lia|]. specialize (IH (Z.shiftr v 4)). lia. Qed.

(** The numbers [kprintf] prints read back: the decimal and the hexadecimal
    digits emitted for a 64-bit value denote that value, the twenty- and
    sixteen-byte buffers are never exceeded, and padding only adds zeros. *)
Theorem printed_numbers_roundtrip v min_digits :
  0 <= v < 2 ^ 64 -> 0 <= min_digits <= 16 ->
  dec_value (udec_text v) = v /\ Forall (fun c => 48 <= c <= 57) (udec_text v) /\
  (length (udec_text v) <= 20)%nat /\
  hex_value (hex_text v min_digits) = v /\
  (Z.to_nat min_digits <= length (hex_text v min_digits) <= 16)%nat.
Proof.
  intros Hv Hm. pose proof (udec_digits_length 20 v). pose proof (hex_digits_length 16 v).
  assert (dec_value (udec_text v) = v /\ Forall (fun c => 48 <= c <= 57) (udec_text v) /\
    (length (udec_text v) <= 20)%nat) as (H1 & H2 & H3).
  { unfold udec_text. destruct (Z.eqb_spec v 0) as [-> |]; [split_and!; [done|by repeat constructor|simpl; lia]|].
    destruct (udec_digits_value 20 v) as [E F]; [change (10 ^ Z.of_nat 20) with 100000000000000000000; lia|].
    rewrite length_rev. split_and!; [done|by apply Forall_rev|done]. }
  split; [done|]. split; [done|]. split; [done|]. unfold hex_text.
  rewrite rev_app_distr, rev_replicate, hex_value_zeros, length_app, length_replicate, length_rev.
  destruct (Nat.eqb_spec (length (hex_digits 16 v)) 0) as [E|E].
  - assert (v = 0) as ->.
    { destruct (hex_digits 16 v) eqn:Eh; [|done]. pose proof (hex_digits_value 16 v) as E2.
      rewrite Eh in E2. symmetry. apply E2. change (16 ^ Z.of_nat 16) with (2 ^ 64). done. }
    simpl. split; [done|]. lia.
  - rewrite hex_digits_value by (change (16 ^ Z.of_nat 16) with (2 ^ 64); done). split; [done|]. lia.
Qed.

Lemma printed_numbers_roundtrip_witness :
  udec_text 18446744073709551615 = [49;56;52;52;54;55;52;52;48;55;51;55;48;57;53;53;49;54;49;53] /\
  dec_value (udec_text 18446744073709551615) = 18446744073709551615 /\ hex_value (hex_text 18446744073709551615 16) = 18446744073709551615.
Proof.
  split; [reflexivity|].
  destruct (printed_numbers_roundtrip 18446744073709551615 16) as (H1 & _ & _ & H2 & _); [lia|lia|].
  by split.
Defined.

(** ** Witnesses *)
Definition demo_vt : vt_state_t := mk_vt 0 (fun _ => 0) 250 250.
Definition demo_vga : vga_vt_state_t :=
  mk_vga_vt (fun _ _ => 0) (fun _ _ => 0) 24 79 3 0 7 0 0.
Definition demo_console : console :=
  mk_console false (fun _ => demo_vt) 0 0 (fun _ => demo_vga) (fun _ => 0) (fun _ => 0) 0 0
    (mk_fbcon 0 (fun _ => 0) 0 0 0 0 0 0 0 0 0 (fun _ _ => 0)).

Lemma console_input_fifo_witness :
  let s1 := (arch_console_feed_bytes 2 [104; 105; 10] demo_console demo_device).1 in
  (arch_console_read_line_bytes 2 2 s1).1 = [104; 105].
Proof.
  intros s1. pose proof (console_input_fifo 2 [104; 105; 10] 2 demo_console demo_device) as H.
  cbv zeta in H. fold s1 in H. destruct (arch_console_read_line_bytes 2 2 s1) as [l s2]. cbn [fst].
  destruct H as (E1 & -> & _).
  - done.
  - repeat split; vm_compute; congruence.
  - repeat constructor; vm_compute; congruence.
  - done.
  - rewrite E1. vm_compute. reflexivity.
Defined.

Lemma console_screen_window_witness :
  let s := (kwrite 0 [65; 66] demo_console demo_device).1 in
  vga_mem s (23 * VGA_COLS + 79) = vga_cell 7 65 /\ vga_mem s (24 * VGA_COLS + 0) = vga_cell 7 66.
Proof.
  assert (vga_ok (vga_vts demo_console (active_vt demo_console))) as Hok
    by (constructor; cbn; lia).
  pose proof (console_screen_window [65; 66] demo_console demo_device 23 79 Hok) as H1.
  pose proof (console_screen_window [65; 66] demo_console demo_device 24 0 Hok) as H2.
  assert (0 <= 23 < VGA_ROWS /\ 0 <= 24 < VGA_ROWS /\ 0 <= 79 < VGA_COLS /\ 0 <= 0 < VGA_COLS) as (R1 & R2 & C1 & C2)
    by (lia).
  split; [etransitivity; [exact (proj2 (H1 R1 C1))|]|etransitivity; [exact (proj2 (H2 R2 C2))|]]; vm_compute; reflexivity.
Defined.

(** The terminal number of a write request is not checked: the byte is stored
    through [vga_vts[vt]] for any [vt] up to 255, past the six terminals. *)
Lemma kwrite_out_of_range :
  let s := (kwrite 6 [65] demo_console demo_device).1 in
  VT_COUNT <= 6 /\ live_screen (vga_vts s 6) 23 79 <> live_screen (vga_vts demo_console 6) 23 79.
Proof. split; vm_compute; congruence. Qed.
