(* ===== verification/Pages.v ===== *)
(** * Filling an address space with fresh pages

    The loader and the address-space operations give a thread memory one page
    at a time: take a frame, zero it, map it and write into it.  This file
    describes the effect of any number of such steps and how they compose; it
    models no code of its own. *)
From Stdlib Require Import ZArith Lia.
From stdpp Require Import base numbers sets list list_numbers functions.
From S2P Require Import Prelude Abi Memory Pmm PageTable.

(** The address space may gain tables and pages made of free frames; nothing
    else changes. *)
Record vm_grow (s : mach) (ls : Z -> list Z) (s' : mach) (ls' : Z -> list Z) (asp : Z) : Prop := {
  gr_inv : vm_inv s' ls' asp;
  gr_frame : vm_frame s s' ls asp;
  gr_free : exists used, all_free ls ≡ₚ used ++ all_free ls';
  gr_new : forall q u, path_ok q -> node (ram s') 4 asp q = Some u ->
    node (ram s) 4 asp q = Some u \/ u ∈ all_free ls
}.

(** A frame that is neither free nor a table of [asp]. *)
Record own (s : mach) (ls : Z -> list Z) (asp f : Z) : Prop := {
  own_ok : frame_ok f;
  own_used : f ∉ all_free ls;
  own_leaf : forall q, path_ok q -> node (ram s) 4 asp q <> Some f
}.

(** A page to be given to an address space. *)
Record page := mk_page { pg_va : Z; pg_prot : Z; pg_byte : Z -> Z }.

(** The page is mapped, with its permissions, to a frame with its bytes. *)
Definition shows (s : mach) (ls : Z -> list Z) (asp : Z) (pg : page) : Prop :=
  exists f, own s ls asp f /\ arch_vm_translate (ram s) asp (pg_va pg) = f /\
    (let e := (lookup_va (ram s) asp (pg_va pg)).2 in
     has e X86_PTE_RW = has (pg_prot pg) VM_PROT_WRITE /\ has e X86_PTE_US = has (pg_prot pg) VM_PROT_USER /\
     has e X86_PTE_NX = negb (has (pg_prot pg) VM_PROT_EXEC)) /\
    forall i, 0 <= i < PAGE_SIZE_4K -> ram s (f + i) = pg_byte pg i.

(** The steps from [s] to [s'] added exactly [pages]. *)
Record loaded (asp : Z) (pages : list page) (s : mach) (ls : Z -> list Z) (s' : mach) (ls' : Z -> list Z)
  : Prop := {
  ld_grow : vm_grow s ls s' ls' asp;
  ld_cost : (length (all_free ls) <= 4 * length pages + length (all_free ls'))%nat;
  ld_shows : Forall (shows s' ls' asp) pages;
  ld_other : forall v, 0 <= v < 2 ^ 48 ->
    Forall (fun pg => v / PAGE_SIZE_4K <> pg_va pg / PAGE_SIZE_4K) pages ->
    lookup_va (ram s') asp v = lookup_va (ram s) asp v
}.

(** Pages at distinct, canonical addresses. *)
Definition pages_ok (pages : list page) : Prop :=
  Forall (fun pg => 0 <= pg_va pg < 2 ^ 48) pages /\ NoDup ((fun pg => pg_va pg / PAGE_SIZE_4K) <$> pages).

(** ** Composition *)
Lemma grow_refl s ls asp : vm_inv s ls asp -> vm_grow s ls s ls asp.
Proof. intros H. split; auto; [|by exists []]. split; [by destruct s|done]. Qed.

Lemma grow_sub s ls s' ls' asp f : vm_grow s ls s' ls' asp -> f ∈ all_free ls' -> f ∈ all_free ls.
Proof. intros [_ _ [u ->] _] Hf. apply elem_of_app. by right. Qed.

Lemma frame_trans s1 l1 s2 l2 s3 asp :
  vm_frame s1 s2 l1 asp -> vm_frame s2 s3 l2 asp ->
  (forall f, f ∈ all_free l2 -> f ∈ all_free l1) ->
  (forall q u, path_ok q -> node (ram s2) 4 asp q = Some u ->
    node (ram s1) 4 asp q = Some u \/ u ∈ all_free l1) ->
  vm_frame s1 s3 l1 asp.
Proof.
  intros [E1 F1] [E2 F2] Hsub Hnew. split; [by rewrite E2, E1|]. intros x Hx.
  destruct (decide (ram s2 x = ram s1 x)) as [Ex|Ex]; [|by apply F1].
  rewrite <- Ex in Hx. destruct (F2 x Hx) as (f & Hf & [Hfree|(p & Hp & Hn)]); exists f; (split; [done|]).
  - left. auto.
  - destruct (Hnew p f Hp Hn); [right; eauto|by left].
Qed.

Lemma grow_trans s1 l1 s2 l2 s3 l3 asp :
  vm_grow s1 l1 s2 l2 asp -> vm_grow s2 l2 s3 l3 asp -> vm_grow s1 l1 s3 l3 asp.
Proof.
  intros G1 G2. pose proof (fun f => grow_sub _ _ _ _ _ f G1) as Hsub. destruct G2 as [I2 F2 [u2 P2] N2].
  split; [done| | |].
  - eapply frame_trans; [apply G1|done|exact Hsub|apply G1].
  - destruct G1 as [_ _ [u1 P1] _]. exists (u1 ++ u2). by rewrite <- app_assoc, <- P2.
  - intros q u Hq Hn. destruct (N2 q u Hq Hn) as [Ho|Hf]; [by apply G1|right]. by apply Hsub.
Qed.

(** A frame owned before stays owned and keeps its bytes. *)
Lemma grow_own s ls s' ls' asp f :
  vm_inv s ls asp -> vm_grow s ls s' ls' asp -> own s ls asp f ->
  own s' ls' asp f /\ forall x, f <= x < f + PAGE_SIZE_4K -> ram s' x = ram s x.
Proof.
  intros Hi G [Hok Hu Hl]. pose proof (grow_sub _ _ _ _ _ f G) as Hsub.
  destruct G as [_ [_ F] _ N]. split.
  - split; [done|auto|]. intros q Hq Hn. destruct (N q f Hq Hn); [by apply (Hl q)|done].
  - intros x Hx. destruct (decide (ram s' x = ram s x)) as [|Hne]; [done|exfalso].
    destruct (F x Hne) as (g & Hg & Hwhy).
    assert (frame_ok g /\ f <> g) as [Hgok Hfg].
    { destruct Hwhy as [Hfree|(p & Hp & Hn)].
      - split; [by apply (free_tbl_ok s ls asp)|by intros ->].
      - split; [by apply (pt_nodes _ _ _ (vi_pt _ _ _ Hi) p g)|]. intros ->. by apply (Hl p). }
    destruct (frames_disjoint f g); [done..| |]; lia.
Qed.

(** A frame taken from the free list, and not made a table, is owned; writing
    into it is still only growth. *)
Lemma grow_write s ls s' ls' asp f m' :
  vm_grow s ls s' ls' asp -> f ∈ all_free ls -> own s' ls' asp f ->
  (forall x, ~ f <= x < f + PAGE_SIZE_4K -> m' x = ram s' x) ->
  vm_grow s ls (s' <| ram := m' |>) ls' asp /\ own (s' <| ram := m' |>) ls' asp f /\
  forall v, lookup_va m' asp v = lookup_va (ram s') asp v.
Proof.
  intros [Hi [E F] P N] Hf [Hok Hu Hl] Hm.
  assert (Hag : tables_agree (ram s') m' asp).
  { intros p t x Hp Hn Hx. apply Hm. intros Hfx.
    assert (f <> t) by (intros ->; by apply (Hl p)).
    destruct (frames_disjoint f t); [done|by apply (pt_nodes _ _ _ (vi_pt _ _ _ Hi) p t)|done|lia|lia]. }
  pose proof (node_agree _ _ _ Hag) as Hnode.
  split; [|split].
  - split; rsimpl.
    + destruct Hi as [Hrep Hlow Hwf]. split; rsimpl; [|done|].
      * eapply rep_mem_ext; [|exact Hrep]. intros g x Hg Hx. symmetry. apply Hm. intros Hfx.
        destruct (frames_disjoint f g); [done|by apply (rep_ok _ _ _ Hrep)|by intros ->|lia|lia].
      * split; [intros p t Hp; rewrite Hnode by done; by apply Hwf|].
        intros p q t Hp Hq. rewrite !Hnode by done. by apply Hwf.
    + split; [rsimpl; by rewrite E at 1|]. rsimpl. intros x Hx.
      destruct (decide (f <= x < f + PAGE_SIZE_4K)) as [Hfx|Hfx]; [exists f; auto|].
      rewrite Hm in Hx by done. by apply F.
    + done.
    + intros q u Hq. rewrite Hnode by done. by apply N.
  - split; rsimpl; [done..|]. intros q Hq. rewrite Hnode by done. by apply Hl.
  - intros v. by apply lookup_agree.
Qed.

Lemma loaded_nil s ls asp : vm_inv s ls asp -> loaded asp [] s ls s ls.
Proof. intros H. split; [by apply grow_refl|simpl; lia|by apply Forall_nil_2|done]. Qed.

Lemma shows_grow s ls s' ls' asp pg :
  vm_inv s ls asp -> vm_grow s ls s' ls' asp ->
  lookup_va (ram s') asp (pg_va pg) = lookup_va (ram s) asp (pg_va pg) ->
  shows s ls asp pg -> shows s' ls' asp pg.
Proof.
  intros Hi G El (f & Ho & Ht & Hp & Hb). destruct (grow_own _ _ _ _ _ f Hi G Ho) as [Ho' Hk].
  exists f. split; [done|]. rewrite translate_lookup, El, <- translate_lookup. split; [done|]. split; [done|].
  intros i Hi'. rewrite Hk by lia. auto.
Qed.

Lemma loaded_app asp P1 P2 s1 l1 s2 l2 s3 l3 :
  loaded asp P1 s1 l1 s2 l2 -> loaded asp P2 s2 l2 s3 l3 -> pages_ok (P1 ++ P2) ->
  loaded asp (P1 ++ P2) s1 l1 s3 l3.
Proof.
  intros [G1 C1 S1 O1] [G2 C2 S2 O2] [Hc Hnd]. split.
  - by eapply grow_trans.
  - rewrite length_app. lia.
  - apply Forall_app. split; [|done]. rewrite list.Forall_forall in *. intros pg Hpg.
    apply (shows_grow s2 l2); [apply G1|done| |by apply S1].
    apply O2; [apply Hc, elem_of_app; by left|]. rewrite list.Forall_forall. intros pg' Hpg' E.
    rewrite fmap_app in Hnd. apply list.NoDup_app in Hnd as (_ & Hd & _).
    apply (Hd (pg_va pg / PAGE_SIZE_4K)); [by apply (list_elem_of_fmap_2 (fun pg => pg_va pg / PAGE_SIZE_4K))|].
    rewrite E. by apply (list_elem_of_fmap_2 (fun pg => pg_va pg / PAGE_SIZE_4K)).
  - intros v Hv. rewrite Forall_app. intros [H1 H2]. rewrite O2, O1 by done. done.
Qed.

(** Only the bytes of the pages matter. *)
Lemma loaded_ext asp pg pg' s ls s' ls' :
  pg_va pg' = pg_va pg -> pg_prot pg' = pg_prot pg ->
  (forall i, 0 <= i < PAGE_SIZE_4K -> pg_byte pg' i = pg_byte pg i) ->
  loaded asp [pg] s ls s' ls' -> loaded asp [pg'] s ls s' ls'.
Proof.
  intros Ev Ep Eb [G C S O]. split; [done|done| |].
  - rewrite list.Forall_singleton in *. destruct S as (f & Ho & Ht & Hp & Hb). exists f. rewrite Ev, Ep.
    split; [done|]. split; [done|]. split; [done|]. intros i Hi. rewrite Eb by done. auto.
  - intros v Hv. rewrite list.Forall_singleton, Ev. intros Hne. apply O; [done|]. by apply list.Forall_singleton.
Qed.

(** ** One page *)
Section fresh.
Context (s : mach) (ls : Z -> list Z) (asp va prot fr : Z) (s1 : mach) (m1 : mem).
Hypothesis Hinv : vm_inv s ls asp.
Hypothesis Hnl : not_large (ram s) asp va.
Hypothesis Hlen : (4 <= length (all_free ls))%nat.
Hypothesis Hva : 0 <= va < 2 ^ 48.
Hypothesis Halloc : pmm_alloc_m PMM_COLOR_ANY s = (fr, s1).
Hypothesis Hm1 : forall x, ~ fr <= x < fr + PAGE_SIZE_4K -> m1 x = ram s1 x.

Lemma fresh_frame :
  fr <> 0 /\ fr ∈ all_free ls /\ exists l1, all_free ls ≡ₚ fr :: all_free l1 /\
    vm_grow s ls (s1 <| ram := m1 |>) l1 asp /\ own (s1 <| ram := m1 |>) l1 asp fr /\
    forall v, lookup_va m1 asp v = lookup_va (ram s) asp v.
Proof.
  clear Hnl Hva. destruct (alloc_table_spec _ _ _ _ (vi_rep _ _ _ Hinv) Halloc) as [[_ E]|(l1 & Hf & Hp & Hr & Es & Hx)].
  { rewrite E in Hlen. simpl in Hlen. lia. }
  assert (Hin : fr ∈ all_free ls) by (rewrite Hp; by left).
  pose proof (free_tbl_ok _ _ _ _ Hinv Hin) as Hok. destruct Hinv as [Hrep Hlow Hwf].
  pose proof (rep_nodup _ _ _ Hrep) as Hnd. rewrite Hp in Hnd. apply list.NoDup_cons in Hnd as [Hnf _].
  assert (Hm : forall x, ~ fr <= x < fr + PAGE_SIZE_4K -> m1 x = ram s x).
  { intros x Hfx. rewrite Hm1, Hx by done. by replace ((fr <=? x) && (x <? fr + PAGE_SIZE_4K)) with false by lia. }
  assert (Hnot : forall q, path_ok q -> node (ram s) 4 asp q <> Some fr).
  { intros q Hq Hn. by destruct (pt_nodes _ _ _ Hwf q fr Hq Hn). }
  assert (Hag : tables_agree (ram s) m1 asp).
  { intros p t x Hpt Hn Hfx. apply Hm. intros Hfx'.
    assert (fr <> t) by (intros ->; by apply (Hnot p)).
    destruct (frames_disjoint fr t); [apply Hok|by apply (pt_nodes _ _ _ Hwf p t)|done|lia|lia]. }
  split; [done|]. split; [done|]. exists l1. split; [done|].
  split; [split; rsimpl|split; [split; rsimpl|]].
  - split; rsimpl; [| |].
    + eapply rep_mem_ext; [|exact Hr]. intros g x Hg Hgx. symmetry. apply Hm1. intros Hfx.
      destruct (frames_disjoint fr g); [apply Hok|by apply (rep_ok _ _ _ Hr)|by intros ->|lia|lia].
    + rewrite Hp in Hlow. by apply list.Forall_cons in Hlow as [_ ?].
    + split.
      * intros p t Hpt. rewrite (node_agree _ _ _ Hag) by done. intros Hn.
        destruct (pt_nodes _ _ _ Hwf p t Hpt Hn) as [? Hu]. rewrite Hp in Hu. set_solver.
      * intros p q t Hpt Hq. rewrite !(node_agree _ _ _ Hag) by done. by apply Hwf.
  - split; [rsimpl; by rewrite Es at 1|]. rsimpl. intros x Hne. exists fr.
    destruct (decide (fr <= x < fr + PAGE_SIZE_4K)); [auto|]. by rewrite Hm in Hne.
  - exists [fr]. by rewrite Hp.
  - intros q u Hq. rewrite (node_agree _ _ _ Hag) by done. auto.
  - apply Hok.
  - done.
  - intros q Hq. rewrite (node_agree _ _ _ Hag) by done. by apply Hnot.
  - intros v. by apply lookup_agree.
Qed.

(** Mapping the frame; the caller then writes into it as it likes. *)
Lemma fresh_page :
  let s2 := (arch_vm_map_page asp va fr prot (s1 <| ram := m1 |>)).2 in
  fr <> 0 /\ (forall x, fr <= x < fr + PAGE_SIZE_4K -> ram s2 x = m1 x) /\
  forall m', (forall x, ~ fr <= x < fr + PAGE_SIZE_4K -> m' x = ram s2 x) ->
    exists ls', loaded asp [mk_page va prot (fun i => m' (fr + i))] s ls (s2 <| ram := m' |>) ls'.
Proof.
  destruct fresh_frame as (Hf & Hin & l1 & Hp & G1 & Ho & Hl). unfold arch_vm_map_page.
  destruct (get_pt asp va (s1 <| ram := m1 |>)) as [pt s'] eqn:Eg. cbn [snd].
  destruct (x86_flags_spec prot) as (F1 & F2 & F3 & F4 & F5 & F6).
  set (fl := x86_flags X86_PTE_P prot) in *. pose proof (free_tbl_ok _ _ _ _ Hinv Hin) as [[Hf1 Hf2] Hf3].
  assert (Hfr : 0 <= fr < 2 ^ 52) by (unfold PAGE_SIZE_4K in *; lia).
  destruct (pte_frame_map fr fl Hfr F1 F2 F3) as (E1 & E2 & E3).
  set (e := Z.lor (Z.land fr PAGE_MASK_4K) fl) in *.
  set (s2 := s' <| ram := stw (ram s') pt (PT_INDEX va) e |>).
  assert (Hc : length (all_free ls) = S (length (all_free l1))) by (by rewrite Hp).
  destruct (map_leaf_spec (s1 <| ram := m1 |>) l1 asp va e pt s' s2) as (L1 & L2 & l2 & I2 & V2 & C2 & P2 & N2);
    [apply G1|unfold not_large; rsimpl; by rewrite Hl|lia|done|done|done|].
  assert (G2 : vm_grow (s1 <| ram := m1 |>) l1 s2 l2 asp) by (split; done).
  destruct (grow_own _ _ _ _ _ fr (gr_inv _ _ _ _ _ G1) G2 Ho) as [Ho2 Hk]. rsimpl.
  split; [done|]. split; [done|]. intros m' Hm'. exists l2.
  destruct (grow_write s ls s2 l2 asp fr m') as (G3 & Ho3 & Hl3); [by eapply grow_trans|done|done|done|].
  split; [done|simpl; lia| |].
  - apply list.Forall_singleton. exists fr. rewrite translate_lookup. cbn [pg_va pg_prot pg_byte]. rsimpl. cbv zeta. rewrite Hl3, L1. cbn [snd].
    rewrite E2. split; [done|]. split; [cbn [negb]; rewrite E3; unfold frame_ok in *; lia|]. split; [|done].
    by apply pte_perms.
  - intros v Hv. rewrite list.Forall_singleton. cbn [pg_va]. intros Hne. rsimpl.
    rewrite Hl3, L2, Hl; [done|]. intros E. apply Hne. by apply path_page.
Qed.
End fresh.

(** ** A loop over pages *)
Section loop.
Context (asp : Z) (step : Z -> mach -> mach * bool) (pg : Z -> page) (N : Z) (s : mach) (ls : Z -> list Z).
Hypothesis Hinv : vm_inv s ls asp.
Hypothesis Hpages : pages_ok (pg <$> seqZ 0 N).
Hypothesis Hlarge : forall i, 0 <= i < N -> not_large (ram s) asp (pg_va (pg i)).
Hypothesis Hfree : 4 * N <= Z.of_nat (length (all_free ls)).
Hypothesis Hstep : forall i s' ls', 0 <= i < N -> vm_grow s ls s' ls' asp ->
  (4 <= length (all_free ls'))%nat -> not_large (ram s') asp (pg_va (pg i)) ->
  exists s'' ls'', step i s' = (s'', true) /\ loaded asp [pg i] s' ls' s'' ls''.

Lemma seqZ_snoc n : 0 <= n -> seqZ 0 (n + 1) = seqZ 0 n ++ [n].
Proof. intros. by rewrite seqZ_app by lia. Qed.

Lemma pages_prefix n :
  0 <= n < N -> pages_ok ((pg <$> seqZ 0 n) ++ [pg n]) /\
  Forall (fun p => pg_va (pg n) / PAGE_SIZE_4K <> pg_va p / PAGE_SIZE_4K) (pg <$> seqZ 0 n) /\
  0 <= pg_va (pg n) < 2 ^ 48.
Proof.
  intros Hn. destruct Hpages as [Hc Hnd].
  replace N with ((n + 1) + (N - (n + 1))) in Hc, Hnd by lia.
  rewrite seqZ_app, seqZ_snoc, !fmap_app in Hc, Hnd by lia.
  apply Forall_app in Hc as [Hc _]. rewrite fmap_app in Hnd. apply list.NoDup_app in Hnd as [Hnd _].
  split; [by split|]. apply Forall_app in Hc as [_ Hc]. apply list.Forall_cons in Hc as [Hc _]. split; [|done].
  rewrite fmap_app in Hnd. apply list.NoDup_app in Hnd as (_ & Hd & _). apply list.Forall_forall.
  intros p Hp E. apply (Hd (pg_va p / PAGE_SIZE_4K)); [by apply (list_elem_of_fmap_2 (fun p => pg_va p / PAGE_SIZE_4K))|].
  rewrite <- E. by left.
Qed.

Lemma load_loop :
  0 <= N -> exists s' ls', for_try N step s = (s', true) /\ loaded asp (pg <$> seqZ 0 N) s ls s' ls'.
Proof.
  intros HN. cut (forall n, 0 <= n -> n <= N -> exists s' ls', for_try n step s = (s', true) /\
    loaded asp (pg <$> seqZ 0 n) s ls s' ls'); [intros H; apply H; lia|].
  refine (natlike_ind _ _ _).
  { intros _. exists s, ls. rewrite for_try_0 by lia. split; [done|by apply loaded_nil]. }
  intros n Hn IH Hle. destruct IH as (s1 & l1 & E & L); [lia|].
  destruct (pages_prefix n) as (Hok & Hne & Hv); [lia|].
  destruct (Hstep n s1 l1) as (s2 & l2 & E2 & L2).
  - lia.
  - apply L.
  - pose proof (ld_cost _ _ _ _ _ _ L) as Hc. rewrite length_fmap, length_seqZ in Hc. lia.
  - unfold not_large. rewrite (ld_other _ _ _ _ _ _ L) by done. apply Hlarge. lia.
  - exists s2, l2. unfold Z.succ. rewrite for_try_S, E by done. split; [done|].
    rewrite seqZ_snoc, fmap_app by done. by eapply loaded_app.
Qed.
End loop.
