(* ===== verification/Elf.v ===== *)
(** * ELF images ([src/src/core/elf.c], [src/include/robu/elf.h])

    Parsing with its bounds checks, the image cache, and the loading of
    segments, stack and argument pages into an address space.  The theorems
    show that an accepted image has one to four segments whose file ranges lie
    inside the file, and that loading gives every page of a segment the bytes
    of the file, zero elsewhere. *)
From Stdlib Require Import ZArith Lia.
From stdpp Require Import base numbers sets list list_numbers functions.
From S2P Require Import Prelude Abi Ring Memory Pmm Untyped PageTable Vm Pages.

Notation ELF_CACHE_SIZE := (8)%Z (only parsing).
Notation APP_STACK_PAGES := (8)%Z (only parsing).
Notation SPAWN_INFO_RESERVED_TAIL := (128)%Z (only parsing).

(** The bytes between [elf_start] and [elf_end]: a boot module in physical
    memory, or the kernel's staging buffer (whose address plays no role). *)
Inductive blob := InRam (start len : Z) | InBuf (bytes : list Z).
Definition blob_len (b : blob) : Z :=
  match b with InRam _ len => len | InBuf l => Z.of_nat (length l) end.
Definition blob_start (b : blob) : Z := match b with InRam start _ => start | InBuf _ => 0 end.
Definition blob_at (b : blob) (m : mem) (i : Z) : Z :=
  match b with InRam start _ => m (start + i) | InBuf l => buf_at l i end.
(** A little-endian field of [n] bytes. *)
Definition field (n : nat) (b : blob) (m : mem) (off : Z) : Z := ldn n (blob_at b m) off.

(** ** Headers *)
Record elf64_ehdr_t := mk_ehdr {
  e_ident : Z -> Z; e_type : Z; e_machine : Z; e_version : Z; e_entry : Z; e_phoff : Z; e_shoff : Z;
  e_flags : Z; e_ehsize : Z; e_phentsize : Z; e_phnum : Z; e_shentsize : Z; e_shnum : Z; e_shstrndx : Z
}.
Definition sizeof_ehdr : Z := 64.
Definition read_ehdr (b : blob) (m : mem) : elf64_ehdr_t :=
  mk_ehdr (blob_at b m) (field 2 b m 16) (field 2 b m 18) (field 4 b m 20) (field 8 b m 24) (field 8 b m 32)
    (field 8 b m 40) (field 4 b m 48) (field 2 b m 52) (field 2 b m 54) (field 2 b m 56) (field 2 b m 58)
    (field 2 b m 60) (field 2 b m 62).
Record elf64_phdr_t := mk_phdr {
  p_type : Z; p_flags : Z; p_offset : Z; p_vaddr : Z; p_paddr : Z; p_filesz : Z; p_memsz : Z; p_align : Z
}.
Definition sizeof_phdr : Z := 56.
Definition read_phdr (b : blob) (m : mem) (off : Z) : elf64_phdr_t :=
  mk_phdr (field 4 b m off) (field 4 b m (off + 4)) (field 8 b m (off + 8)) (field 8 b m (off + 16))
    (field 8 b m (off + 24)) (field 8 b m (off + 32)) (field 8 b m (off + 40)) (field 8 b m (off + 48)).

Record elf_segment_t := mk_seg { seg_vaddr : Z; seg_file_off : Z; seg_filesz : Z; seg_memsz : Z; seg_prot : Z }.
(** [segs] holds the first [nsegs] elements of the array. *)
Record elf_image_t := mk_image { img_start : Z; img_entry : Z; img_segs : list elf_segment_t; img_in_use : bool }.
#[export] Instance eta_image : Eta elf_image_t := fun i =>
  mk_image (img_start i) (img_entry i) (img_segs i) (img_in_use i).
Definition nsegs (i : elf_image_t) : Z := Z.of_nat (length (img_segs i)).

Definition prot_from_pflags (p_flags : Z) : Z :=
  let prot := VM_PROT_USER in
  let prot := if has p_flags PF_R then Z.lor prot VM_PROT_READ else prot in
  let prot := if has p_flags PF_W then Z.lor prot VM_PROT_WRITE else prot in
  if has p_flags PF_X then Z.lor prot VM_PROT_EXEC else prot.

(** The body of the program-header loop: the segments so far and whether to go
    on. *)
Definition parse_phdr (blob_len : Z) (ph : elf64_phdr_t) (segs : list elf_segment_t)
  : list elf_segment_t * bool :=
  if negb (p_type ph =? PT_LOAD) then (segs, true)
  else
    let seg_file_end := u64 (p_offset ph + p_filesz ph) in
    if (p_filesz ph >? p_memsz ph) || (p_offset ph >? blob_len) || (seg_file_end >? blob_len) ||
       (seg_file_end <? p_offset ph) then (segs, false)
    else if Z.of_nat (length segs) >=? ELF_MAX_LOAD_SEGMENTS then (segs, false)
    else (segs ++ [mk_seg (p_vaddr ph) (p_offset ph) (p_filesz ph) (p_memsz ph)
                     (prot_from_pflags (p_flags ph))], true).

(** The checks on the file header. *)
Definition ehdr_ok (blob_len : Z) (eh : elf64_ehdr_t) : bool :=
  let magic := (e_ident eh 0 =? ELF_MAGIC0) && (e_ident eh 1 =? ELF_MAGIC1) &&
               (e_ident eh 2 =? ELF_MAGIC2) && (e_ident eh 3 =? ELF_MAGIC3) in
  let class := (e_ident eh 4 =? ELFCLASS64) && (e_ident eh 5 =? ELFDATA2LSB) && (e_ident eh 6 =? EV_CURRENT) in
  let phtable_end := u64 (e_phoff eh + e_phnum eh * e_phentsize eh) in
  magic && class && (e_machine eh =? EM_X86_64) && negb (e_type eh =? ET_DYN) && (e_type eh =? ET_EXEC) &&
  (e_phentsize eh =? sizeof_phdr) &&
  negb ((e_phoff eh >? blob_len) || (phtable_end >? blob_len) || (phtable_end <? e_phoff eh)).

(** [None] is the refusal [-1]. *)
Definition elf_parse_into (b : blob) (m : mem) : option elf_image_t :=
  if blob_len b <? sizeof_ehdr then None
  else
    let eh := read_ehdr b m in
    if negb (ehdr_ok (blob_len b) eh) then None
    else
      let '(segs, ok) := for_try (e_phnum eh) (fun i segs =>
        parse_phdr (blob_len b) (read_phdr b m (e_phoff eh + i * sizeof_phdr)) segs) [] in
      if negb ok then None
      else if (length segs =? 0)%nat then None
      else Some (mk_image (blob_start b) (e_entry eh) segs false).

(** ** The cache *)
Record elf_cache_stats_t := mk_elf_stats { parses : Z; cache_hits : Z }.
Record elf_cache_st := mk_elf_cache {
  elf_cache : Z -> elf_image_t;
  elf_cache_next_victim : Z;
  elf_cache_stats : elf_cache_stats_t
}.
#[export] Instance eta_elf_cache : Eta elf_cache_st := fun c =>
  mk_elf_cache (elf_cache c) (elf_cache_next_victim c) (elf_cache_stats c).

Definition cache_lookup (start : Z) (c : elf_cache_st) : option Z :=
  find_first ELF_CACHE_SIZE (fun i => img_in_use (elf_cache c i) && (img_start (elf_cache c i) =? start)).

Definition elf_parse (b : blob) (m : mem) (c : elf_cache_st) : option elf_image_t * elf_cache_st :=
  match cache_lookup (blob_start b) c with
  | Some i =>
      (Some (elf_cache c i), c <| elf_cache_stats ::= fun st => mk_elf_stats (parses st) (u64 (cache_hits st + 1)) |>)
  | None =>
      match elf_parse_into b m with
      | None => (None, c)
      | Some img =>
          let slot := elf_cache_next_victim c in
          let c := c <| elf_cache_next_victim := u32 (elf_cache_next_victim c + 1) mod ELF_CACHE_SIZE |> in
          let img := img <| img_in_use := true |> in
          let c := c <| elf_cache := <[slot := img]> (elf_cache c) |> in
          (Some img, c <| elf_cache_stats ::= fun st => mk_elf_stats (u64 (parses st + 1)) (cache_hits st) |>)
      end
  end.
Definition elf_parse_nocache (b : blob) (m : mem) : option elf_image_t := elf_parse_into b m.

(** ** Loading *)

(** [memcpy(dst, elf_start + off, n)] *)
Definition copy_blob (m : mem) (dst : Z) (b : blob) (off n : Z) : mem :=
  for_range n (fun i m => <[dst + i := blob_at b m (off + i)]> m) m.

Definition seg_lo (seg : elf_segment_t) : Z := Z.land (seg_vaddr seg) (not64 (PAGE_SIZE_4K - 1)).
Definition seg_hi (seg : elf_segment_t) : Z :=
  Z.land (u64 (u64 (seg_vaddr seg + seg_memsz seg) + PAGE_SIZE_4K - 1)) (not64 (PAGE_SIZE_4K - 1)).

(** One page of a segment; [false] when no frame is left. *)
Definition load_page (asp : Z) (seg : elf_segment_t) (b : blob) (page_va : Z) (s : mach) : mach * bool :=
  let '(frame, s) := pmm_alloc_m PMM_COLOR_ANY s in
  if frame =? 0 then (s, false)
  else
    let s := s <| ram := memset (ram s) frame 0 PAGE_SIZE_4K |> in
    let s := (arch_vm_map_page asp page_va frame (seg_prot seg) s).2 in
    let seg_data_lo := seg_vaddr seg in
    let seg_data_hi := u64 (seg_vaddr seg + seg_filesz seg) in
    let copy_lo := if page_va >? seg_data_lo then page_va else seg_data_lo in
    let page_end := u64 (page_va + PAGE_SIZE_4K) in
    let copy_hi := if page_end <? seg_data_hi then page_end else seg_data_hi in
    if copy_hi >? copy_lo then
      let file_off := u64 (seg_file_off seg + (copy_lo - seg_vaddr seg)) in
      (s <| ram := copy_blob (ram s) (frame + (copy_lo - page_va)) b file_off (copy_hi - copy_lo) |>, true)
    else (s, true).

(** [for (page_va = seg_lo; page_va < seg_hi; page_va += PAGE_SIZE_4K)] *)
Definition load_segment (asp : Z) (seg : elf_segment_t) (b : blob) (s : mach) : mach * bool :=
  for_try ((seg_hi seg - seg_lo seg) / PAGE_SIZE_4K) (fun i s =>
    load_page asp seg b (seg_lo seg + i * PAGE_SIZE_4K) s) s.

Fixpoint load_segments (asp : Z) (segs : list elf_segment_t) (b : blob) (highest_end : Z) (s : mach)
  : option Z * mach :=
  match segs with
  | [] => (Some highest_end, s)
  | seg :: segs =>
      let '(s, ok) := load_segment asp seg b s in
      if negb ok then (None, s)
      else load_segments asp segs b (if seg_hi seg >? highest_end then seg_hi seg else highest_end) s
  end.

Definition PROT_RWU : Z := Z.lor (Z.lor VM_PROT_READ VM_PROT_WRITE) VM_PROT_USER.

(** Result: the stack top, 0 when memory ran out. *)
Definition map_segments_and_stack (asp : Z) (img : elf_image_t) (b : blob) (s : mach) : Z * mach :=
  match load_segments asp (img_segs img) b 0 s with
  | (None, s) => (0, s)
  | (Some highest_end, s) =>
      let stack_base := u64 (highest_end + PAGE_SIZE_4K) in
      let stack_top := u64 (stack_base + APP_STACK_PAGES * PAGE_SIZE_4K) in
      let '(s, ok) := for_try APP_STACK_PAGES (fun i s =>
        let '(frame, s) := pmm_alloc_m PMM_COLOR_ANY s in
        if frame =? 0 then (s, false)
        else
          let s := s <| ram := memset (ram s) frame 0 PAGE_SIZE_4K |> in
          ((arch_vm_map_page asp (u64 (stack_base + i * PAGE_SIZE_4K)) frame PROT_RWU s).2, true)) s in
      if (ok : bool) then (stack_top, s) else (0, s)
  end.

(** The strings of an argument page: pointers from [base] on, then the
    characters, each string ended by NUL; [false] when [limit] is exceeded. *)
Definition put_strings (frame page_va limit : Z) (items : list (list Z)) (m : mem) : mem * bool :=
  let count := Z.of_nat (length items) in
  let '((m, _), ok) := for_try count (fun i '(m, str_off) =>
    let item := nth (Z.to_nat i) items [] in
    let len := u64 (Z.of_nat (length item) + 1) in
    if u64 (str_off + len) >? limit then ((m, str_off), false)
    else
      let m := put_bytes m (frame + str_off) (item ++ [0]) in
      let m := stw m frame i (u64 (page_va + str_off)) in
      ((m, u64 (str_off + len)), true)) (m, (count + 1) * 8) in
  if (ok : bool) then (stw m frame count 0, true) else (m, false).

(** Result: status, the user address of the array (0 when empty). *)
Definition build_string_array_page (asp page_va : Z) (items : list (list Z)) (s : mach) : Z * Z * mach :=
  if (length items =? 0)%nat then (0, 0, s)
  else
    let '(frame, s) := pmm_alloc_m PMM_COLOR_ANY s in
    if frame =? 0 then (-1, 0, s)
    else
      let s := (arch_vm_map_page asp page_va frame PROT_RWU s).2 in
      let '(m, ok) := put_strings frame page_va PAGE_SIZE_4K items (ram s) in
      if (ok : bool) then (0, page_va, s <| ram := m |>) else (-1, 0, s <| ram := m |>).

(** * Parsing is exact *)

(** The bytes of the file are bytes, and its length fits an address. *)
Definition blob_ok (b : blob) (m : mem) : Prop :=
  0 <= blob_len b < 2 ^ 64 /\ mem_wf (blob_at b m).

Definition is_load (ph : elf64_phdr_t) : bool := p_type ph =? PT_LOAD.
Definition seg_of_phdr (ph : elf64_phdr_t) : elf_segment_t :=
  mk_seg (p_vaddr ph) (p_offset ph) (p_filesz ph) (p_memsz ph) (prot_from_pflags (p_flags ph)).
Definition phdr_fits (len : Z) (ph : elf64_phdr_t) : Prop :=
  p_filesz ph <= p_memsz ph /\ p_offset ph + p_filesz ph <= len.
Definition phdr_ranged (ph : elf64_phdr_t) : Prop :=
  0 <= p_offset ph < 2 ^ 64 /\ 0 <= p_filesz ph < 2 ^ 64.
(** The program headers, in file order. *)
Definition phdr_table (b : blob) (m : mem) : list elf64_phdr_t :=
  let eh := read_ehdr b m in
  (fun i => read_phdr b m (e_phoff eh + i * sizeof_phdr)) <$> seqZ 0 (e_phnum eh).
(** The header describes a 64-bit little-endian x86-64 executable. *)
Definition ehdr_kind (eh : elf64_ehdr_t) : Prop :=
  e_ident eh 0 = ELF_MAGIC0 /\ e_ident eh 1 = ELF_MAGIC1 /\ e_ident eh 2 = ELF_MAGIC2 /\
  e_ident eh 3 = ELF_MAGIC3 /\ e_ident eh 4 = ELFCLASS64 /\ e_ident eh 5 = ELFDATA2LSB /\
  e_ident eh 6 = EV_CURRENT /\ e_machine eh = EM_X86_64 /\ e_type eh = ET_EXEC /\
  e_phentsize eh = sizeof_phdr.

(** The overflow-safe form of a range check. *)
Lemma range_check a n len :
  0 <= a < 2 ^ 64 -> 0 <= n < 2 ^ 64 -> 0 <= len < 2 ^ 64 ->
  (a >? len) || (u64 (a + n) >? len) || (u64 (a + n) <? a) = (a + n >? len).
Proof.
  intros Ha Hn Hl. destruct (decide (a + n < 2 ^ 64)).
  - rewrite u64_small by lia. lia.
  - replace (u64 (a + n)) with (a + n - 2 ^ 64); [lia|].
    unfold u64. apply Zmod_unique with 1; lia.
Qed.

Lemma parse_phdr_true len ph segs segs' :
  0 <= len < 2 ^ 64 -> phdr_ranged ph ->
  parse_phdr len ph segs = (segs', true) <->
  segs' = segs ++ (if is_load ph then [seg_of_phdr ph] else []) /\
  (is_load ph = true -> phdr_fits len ph /\ Z.of_nat (length segs) < ELF_MAX_LOAD_SEGMENTS).
Proof.
  intros Hl [Ho Hf]. unfold parse_phdr, phdr_fits, is_load, seg_of_phdr.
  destruct (p_type ph =? PT_LOAD); cbn [negb].
  2: { rewrite app_nil_r. split; [intros [= <-]; done|]. by intros [-> _]. }
  rewrite <- !orb_assoc, (orb_assoc (p_offset ph >? len)), range_check by done.
  destruct (p_filesz ph >? p_memsz ph) eqn:E1, (p_offset ph + p_filesz ph >? len) eqn:E2; cbn [orb];
    try (split; [done|]; intros [_ H]; destruct (H eq_refl); lia).
  destruct (_ >=? _) eqn:E3; split; try done.
  - intros [_ H]; destruct (H eq_refl); lia.
  - intros [= <-]. split; [done|]. lia.
  - by intros [-> _].
Qed.

Section loop.
Context (len : Z) (ph : Z -> elf64_phdr_t).
Hypothesis Hlen : 0 <= len < 2 ^ 64.
Hypothesis Hph : forall i, phdr_ranged (ph i).

Definition loads (n : Z) : list elf64_phdr_t := List.filter is_load (ph <$> seqZ 0 n).

Lemma loads_S n : 0 <= n -> loads (n + 1) = loads n ++ (if is_load (ph n) then [ph n] else []).
Proof.
  intros. unfold loads. rewrite seqZ_app by lia. rewrite fmap_app, List.filter_app. done.
Qed.

(** The loop collects the load headers, in order, when they all fit and are
    at most four. *)
Lemma parse_loop n segs :
  0 <= n ->
  for_try n (fun i => parse_phdr len (ph i)) [] = (segs, true) <->
  segs = seg_of_phdr <$> loads n /\ Forall (phdr_fits len) (loads n) /\
  Z.of_nat (length (loads n)) <= ELF_MAX_LOAD_SEGMENTS.
Proof.
  intros Hn. revert n Hn segs. refine (natlike_ind _ _ _).
  { intros segs. rewrite for_try_0 by lia. unfold loads. cbn. split; [|naive_solver].
    intros [= <-]. split; [done|]. split; [constructor|]. done. }
  intros n Hn IH segs. unfold Z.succ. rewrite for_try_S, loads_S by done.
  rewrite fmap_app, Forall_app, length_app.
  destruct (for_try n _ []) as [s1 []] eqn:E.
  - destruct (IH s1) as [[-> [Hfit Hc]] _]; [done|].
    rewrite parse_phdr_true by done. rewrite length_fmap.
    destruct (is_load (ph n)) eqn:El; cbn; [|rewrite app_nil_r; split; [intros [-> _]|intros [-> _]]; auto with lia].
    rewrite list.Forall_singleton. split.
    + intros [-> H]. destruct (H eq_refl). split; [done|]. split; [done|]. lia.
    + intros (-> & [_ H] & H3). split; [done|]. intros _. split; [done|lia].
  - split; [done|]. intros (Es & [Hfit _] & Hc).
    destruct (IH (seg_of_phdr <$> loads n)) as [_ H]. discriminate H. split; [done|]. split; [done|lia].
Qed.
End loop.

Lemma ehdr_ok_true len eh :
  0 <= len < 2 ^ 64 -> 0 <= e_phoff eh < 2 ^ 64 -> 0 <= e_phnum eh < 2 ^ 16 ->
  ehdr_ok len eh = true <-> ehdr_kind eh /\ e_phoff eh + e_phnum eh * sizeof_phdr <= len.
Proof.
  intros Hl Ho Hn. unfold ehdr_ok, ehdr_kind.
  destruct (e_phentsize eh =? sizeof_phdr) eqn:Es.
  2: { rewrite andb_false_r. cbn. split; [done|]. intros [H _]. lia. }
  apply Z.eqb_eq in Es. rewrite Es, range_check by (unfold sizeof_phdr; lia).
  rewrite !andb_true_iff, !negb_true_iff, !Z.eqb_eq. split; [|lia].
  intros H. decompose [and] H. repeat split; lia.
Qed.

Lemma read_ranges b m off :
  mem_wf (blob_at b m) -> phdr_ranged (read_phdr b m off) /\
  0 <= e_phoff (read_ehdr b m) < 2 ^ 64 /\ 0 <= e_phnum (read_ehdr b m) < 2 ^ 16.
Proof.
  intros Hm. unfold phdr_ranged, read_phdr, read_ehdr, field. cbn [p_offset p_filesz e_phoff e_phnum].
  split; [split|split]; exact (ldn_range _ _ _ Hm).
Qed.

(** C25: The ELF parser is exact.  A file is accepted precisely when its header
    is that of a 64-bit little-endian x86-64 executable, the program-header
    table lies inside the file, there are one to four load segments, and each
    of them has a file range inside the file that is no longer than its memory
    range - all in unbounded arithmetic, so no wrap-around slips through the
    64-bit checks.  The image then lists exactly the load segments, in file
    order. *)
Theorem elf_parse_exact b m img :
  blob_ok b m ->
  elf_parse_into b m = Some img <->
  let eh := read_ehdr b m in
  let loads := List.filter is_load (phdr_table b m) in
  sizeof_ehdr <= blob_len b /\ ehdr_kind eh /\ e_phoff eh + e_phnum eh * sizeof_phdr <= blob_len b /\
  (1 <= length loads <= 4)%nat /\ Forall (phdr_fits (blob_len b)) loads /\
  img = mk_image (blob_start b) (e_entry eh) (seg_of_phdr <$> loads) false.
Proof.
  intros [Hl Hm]. unfold elf_parse_into, phdr_table. cbv zeta.
  destruct (read_ranges b m 0 Hm) as (_ & Ho & Hn). set (eh := read_ehdr b m) in *.
  destruct (blob_len b <? sizeof_ehdr) eqn:E1; [split; [done|lia]|].
  pose proof (ehdr_ok_true (blob_len b) eh Hl Ho Hn) as He.
  destruct (ehdr_ok (blob_len b) eh); cbn [negb]; [|split; [done|]; intros (_ & H1 & H2 & _); destruct He as [_ He]; by specialize (He (conj H1 H2))].
  destruct He as [[Hk Ht] _]; [done|].
  set (ph := fun i => read_phdr b m (e_phoff eh + i * sizeof_phdr)).
  pose proof (parse_loop (blob_len b) ph Hl (fun i => proj1 (read_ranges b m _ Hm)) (e_phnum eh)) as Hloop.
  unfold ph in Hloop at 1.   change (List.filter is_load (ph <$> seqZ 0 (e_phnum eh))) with (loads ph (e_phnum eh)).
  destruct (for_try (e_phnum eh) _ []) as [segs [|]]; cbn [negb].
  2: { split; [done|]. intros (_ & _ & _ & Hc & Hf & _).
       destruct (Hloop (seg_of_phdr <$> loads ph (e_phnum eh))) as [_ H]; [lia|].
       discriminate H. split; [done|]. split; [done|lia]. }
  destruct (Hloop segs) as [[-> [Hf Hc]] _]; [lia|done|]. rewrite length_fmap.
  destruct (length (loads ph (e_phnum eh)) =? 0)%nat eqn:Ez; [apply Nat.eqb_eq in Ez; split; [done|]; lia|].
  apply Nat.eqb_neq in Ez.
  split; [intros [= <-]|intros (_ & _ & _ & _ & _ & ->); done].
  repeat (split; [done || lia|]). done.
Qed.

(** A file of 124 bytes: header, one load header, four bytes of code. *)
Definition demo_elf : list Z :=
  [127;69;76;70;2;1;1;0] ++ replicate 8 0 ++ [2;0;62;0;1;0;0;0; 0;0;0x40;0;0x10;0;0;0; 64;0;0;0;0;0;0;0] ++
  replicate 8 0 ++ [0;0;0;0;64;0;56;0;1;0;0;0;0;0;0;0] ++
  [1;0;0;0;5;0;0;0; 120;0;0;0;0;0;0;0; 0;0;0x40;0;0x10;0;0;0] ++ replicate 8 0 ++
  [4;0;0;0;0;0;0;0; 0x10;0x10;0;0;0;0;0;0; 0;0x10;0;0;0;0;0;0] ++ [15;11;0xeb;0xfe].
Definition demo_segment : elf_segment_t := mk_seg 0x1000400000 120 4 0x1010 13.

Lemma demo_elf_ok m : blob_ok (InBuf demo_elf) m.
Proof.
  split; [vm_compute; by split|]. intros x. cbn [blob_at]. unfold buf_at.
  assert (H : Forall (fun v => 0 <= v < 256) demo_elf) by (unfold demo_elf; cbn; repeat constructor; lia).
  destruct (decide (Z.to_nat x < length demo_elf)%nat) as [Hx|Hx].
  - rewrite List.Forall_forall in H. by apply H, nth_In.
  - rewrite nth_overflow by lia. lia.
Qed.

Lemma elf_parse_exact_witness :
  elf_parse_into (InBuf demo_elf) (fun _ => 0) = Some (mk_image 0 0x1000400000 [demo_segment] false).
Proof.
  apply (elf_parse_exact (InBuf demo_elf) (fun _ => 0)); [apply demo_elf_ok|].
  split; [vm_compute; discriminate|]. split; [vm_compute; intuition reflexivity|].
  split; [vm_compute; discriminate|]. split; [vm_compute; lia|]. split; [|vm_compute; reflexivity].
  change (List.filter is_load _) with [read_phdr (InBuf demo_elf) (fun _ => 0) 64].
  apply list.Forall_singleton. split; vm_compute; discriminate.
Defined.

(** * Loading *)

(** The byte at address [x] of a loaded segment. *)
Definition file_byte (b : blob) (m : mem) (seg : elf_segment_t) (x : Z) : Z :=
  if (seg_vaddr seg <=? x) && (x <? seg_vaddr seg + seg_filesz seg)
  then blob_at b m (seg_file_off seg + (x - seg_vaddr seg)) else 0.
Definition seg_page (b : blob) (m : mem) (seg : elf_segment_t) (i : Z) : page :=
  let va := seg_lo seg + i * PAGE_SIZE_4K in mk_page va (seg_prot seg) (fun j => file_byte b m seg (va + j)).
Definition seg_npages (seg : elf_segment_t) : Z := (seg_hi seg - seg_lo seg) / PAGE_SIZE_4K.
Definition seg_pages (b : blob) (m : mem) (seg : elf_segment_t) : list page :=
  seg_page b m seg <$> seqZ 0 (seg_npages seg).
Definition stack_pages (base : Z) : list page :=
  (fun i => mk_page (base + i * PAGE_SIZE_4K) PROT_RWU (fun _ => 0)) <$> seqZ 0 APP_STACK_PAGES.

(** A segment the parser accepted, within the canonical half of the address
    space. *)
Record seg_ok (len : Z) (seg : elf_segment_t) : Prop := {
  so_lo : 0 <= seg_vaddr seg; so_off : 0 <= seg_file_off seg; so_size : 0 <= seg_filesz seg <= seg_memsz seg;
  so_hi : seg_vaddr seg + seg_memsz seg < 2 ^ 47; so_file : seg_file_off seg + seg_filesz seg <= len
}.

(** The file is in the staging buffer, or in frames that are not free. *)
Definition blob_stable (s : mach) (ls : Z -> list Z) (asp : Z) (b : blob) : Prop :=
  match b with
  | InBuf _ => True
  | InRam start len => forall i, 0 <= i < len -> exists f, own s ls asp f /\ f <= start + i < f + PAGE_SIZE_4K
  end.

Lemma blob_keep s ls s' ls' asp b :
  vm_inv s ls asp -> vm_grow s ls s' ls' asp -> blob_stable s ls asp b ->
  blob_stable s' ls' asp b /\
  forall i, 0 <= i < blob_len b -> blob_at b (ram s') i = blob_at b (ram s) i.
Proof.
  intros Hi G Hb. destruct b as [start len|l]; [|done]. cbn in *. split; intros i Hin;
    destruct (Hb i Hin) as (f & Ho & Hf); destruct (grow_own _ _ _ _ _ f Hi G Ho) as [Ho' Hk]; [eauto|].
  by apply Hk.
Qed.

Lemma copy_blob_spec m dst b off n x :
  0 <= n ->
  (forall start len i j, b = InRam start len -> 0 <= i < n -> 0 <= j < n -> start + (off + i) <> dst + j) ->
  copy_blob m dst b off n x =
  if (dst <=? x) && (x <? dst + n) then blob_at b m (off + (x - dst)) else m x.
Proof.
  intros Hn Hd. unfold copy_blob. revert x.
  apply (for_range_ind (fun k m' => forall x, m' x =
    if (dst <=? x) && (x <? dst + k) then blob_at b m (off + (x - dst)) else m x)); [lia| |].
  - intros x. by replace ((dst <=? x) && (x <? dst + 0)) with false by lia.
  - intros i m' Hi IH x. destruct (decide (dst + i = x)) as [<-|Hne].
    + rewrite fn_lookup_insert. replace ((dst <=? dst + i) && (dst + i <? dst + (i + 1))) with true by lia.
      replace (off + (dst + i - dst)) with (off + i) by lia.
      destruct b as [start len|l]; [|done]. cbn [blob_at]. rewrite IH.
      destruct (_ && _) eqn:E; [|done]. exfalso.
      apply (Hd start len i (start + (off + i) - dst)); [done|lia..].
    + rewrite fn_lookup_insert_ne, IH by done.
      by replace (x <? dst + (i + 1)) with (x <? dst + i) by lia.
Qed.

Lemma seg_bounds len seg :
  seg_ok len seg ->
  seg_lo seg = seg_vaddr seg - seg_vaddr seg mod PAGE_SIZE_4K /\ 0 <= seg_lo seg /\
  seg_hi seg = seg_lo seg + seg_npages seg * PAGE_SIZE_4K /\
  seg_vaddr seg + seg_memsz seg <= seg_hi seg < 2 ^ 47 + PAGE_SIZE_4K /\ 0 <= seg_npages seg.
Proof.
  intros [H1 H2 H3 H4 H5].
  assert (Elo : seg_lo seg = seg_vaddr seg - seg_vaddr seg mod PAGE_SIZE_4K).
  { unfold seg_lo, PAGE_SIZE_4K. change (0x1000 - 1) with (2 ^ 12 - 1). by rewrite align_down_spec by lia. }
  assert (Ehi : seg_hi seg = let e := seg_vaddr seg + seg_memsz seg + PAGE_SIZE_4K - 1 in e - e mod PAGE_SIZE_4K).
  { unfold seg_hi, PAGE_SIZE_4K. rewrite (u64_small (_ + seg_memsz seg)), u64_small by lia.
    change (0x1000 - 1) with (2 ^ 12 - 1). by rewrite align_down_spec by lia. }
  unfold seg_npages. unfold PAGE_SIZE_4K in *. cbv zeta in Ehi.
  pose proof (Z.div_mod (seg_vaddr seg) 0x1000 ltac:(lia)).
  pose proof (Z.div_mod (seg_vaddr seg + seg_memsz seg + 0x1000 - 1) 0x1000 ltac:(lia)).
  pose proof (Z.mod_pos_bound (seg_vaddr seg) 0x1000 ltac:(lia)).
  pose proof (Z.mod_pos_bound (seg_vaddr seg + seg_memsz seg + 0x1000 - 1) 0x1000 ltac:(lia)).
  assert (E : seg_hi seg - seg_lo seg = ((seg_vaddr seg + seg_memsz seg + 0x1000 - 1) / 0x1000 - seg_vaddr seg / 0x1000) * 0x1000)
    by lia.
  rewrite E, Z.div_mul by lia. lia.
Qed.

(** The bytes [load_page] copies into the frame are those of [file_byte]. *)
Definition copy_part (seg : elf_segment_t) (b : blob) (frame page_va : Z) (m : mem) : mem :=
  let lo := Z.max page_va (seg_vaddr seg) in
  let hi := Z.min (page_va + PAGE_SIZE_4K) (seg_vaddr seg + seg_filesz seg) in
  if hi >? lo then copy_blob m (frame + (lo - page_va)) b (seg_file_off seg + (lo - seg_vaddr seg)) (hi - lo)
  else m.

Lemma load_page_copy asp seg b i s :
  seg_ok (blob_len b) seg -> blob_len b < 2 ^ 64 -> 0 <= i < seg_npages seg ->
  let va := seg_lo seg + i * PAGE_SIZE_4K in
  load_page asp seg b va s =
  let '(frame, s) := pmm_alloc_m PMM_COLOR_ANY s in
  if frame =? 0 then (s, false)
  else
    let s := (arch_vm_map_page asp va frame (seg_prot seg) (s <| ram := memset (ram s) frame 0 PAGE_SIZE_4K |>)).2 in
    (s <| ram := copy_part seg b frame va (ram s) |>, true).
Proof.
  intros Hok Hlen Hi va. destruct (seg_bounds _ _ Hok) as (B1 & B2 & B3 & B4 & B5).
  destruct Hok as [H1 H2 H3 H4 H5]. unfold load_page. fold va.
  destruct (pmm_alloc_m PMM_COLOR_ANY s) as [frame s1]. destruct (frame =? 0); [done|].
  destruct (arch_vm_map_page _ _ _ _ _) as [r s2]. cbn [snd]. unfold copy_part. cbv zeta.
  assert (0 <= va < 2 ^ 48) by (unfold va, PAGE_SIZE_4K in *; lia).
  rewrite !(u64_small (va + PAGE_SIZE_4K)), !(u64_small (seg_vaddr seg + seg_filesz seg))
    by (unfold PAGE_SIZE_4K in *; lia).
  replace (if va >? seg_vaddr seg then va else seg_vaddr seg) with (Z.max va (seg_vaddr seg))
    by (break_if; lia).
  replace (if va + PAGE_SIZE_4K <? _ then _ else _)
    with (Z.min (va + PAGE_SIZE_4K) (seg_vaddr seg + seg_filesz seg)) by (break_if; lia).
  destruct (_ >? _) eqn:E; [|by destruct s2]. rewrite u64_small by lia. done.
Qed.

Lemma copy_part_spec seg b frame va m x :
  0 <= seg_filesz seg ->
  (forall start len i j, b = InRam start len -> 0 <= i < seg_filesz seg -> 0 <= j < PAGE_SIZE_4K ->
     start + (seg_file_off seg + i) <> frame + j) ->
  (forall j, 0 <= j < PAGE_SIZE_4K -> m (frame + j) = 0) ->
  copy_part seg b frame va m x =
  if (frame <=? x) && (x <? frame + PAGE_SIZE_4K) then file_byte b m seg (va + (x - frame)) else m x.
Proof.
  intros Hs Hd Hz. unfold copy_part, file_byte. cbv zeta.
  destruct (_ >? _) eqn:E.
  - rewrite copy_blob_spec; [|lia|].
    2: { intros start len i j -> Hi Hj.
         pose proof (Hd start len (Z.max va (seg_vaddr seg) - seg_vaddr seg + i)
           (Z.max va (seg_vaddr seg) - va + j) eq_refl). lia. }
    destruct ((frame <=? x) && (x <? frame + PAGE_SIZE_4K)) eqn:Ex.
    + destruct ((seg_vaddr seg <=? va + (x - frame)) && _) eqn:Ey.
      * replace (_ && _) with true by lia. f_equal. lia.
      * replace (_ && _) with false by lia. replace x with (frame + (x - frame)) by lia. apply Hz. lia.
    + by replace (_ && _) with false by lia.
  - destruct ((frame <=? x) && (x <? frame + PAGE_SIZE_4K)) eqn:Ex; [|done].
    replace (_ && _) with false by lia. replace x with (frame + (x - frame)) by lia. apply Hz. lia.
Qed.

(** One page. *)
Lemma load_page_spec asp seg b i s ls m0 :
  vm_inv s ls asp -> blob_stable s ls asp b -> seg_ok (blob_len b) seg -> blob_len b < 2 ^ 64 ->
  0 <= i < seg_npages seg -> (4 <= length (all_free ls))%nat ->
  not_large (ram s) asp (seg_lo seg + i * PAGE_SIZE_4K) ->
  (forall j, 0 <= j < blob_len b -> blob_at b (ram s) j = blob_at b m0 j) ->
  exists s' ls', load_page asp seg b (seg_lo seg + i * PAGE_SIZE_4K) s = (s', true) /\
    loaded asp [seg_page b m0 seg i] s ls s' ls'.
Proof.
  intros Hinv Hst Hok Hlen Hi Hfree Hnl Hm0. rewrite load_page_copy by done.
  set (va := seg_lo seg + i * PAGE_SIZE_4K) in *.
  destruct (pmm_alloc_m PMM_COLOR_ANY s) as [fr s1] eqn:Ea.
  destruct (seg_bounds _ _ Hok) as (B1 & B2 & B3 & B4 & B5).
  assert (Hva : 0 <= va < 2 ^ 48) by (unfold va, PAGE_SIZE_4K in *; lia).
  assert (Hm1 : forall x, ~ fr <= x < fr + PAGE_SIZE_4K -> memset (ram s1) fr 0 PAGE_SIZE_4K x = ram s1 x)
    by (intros x Hx; apply memset_out; lia).
  destruct (fresh_page s ls asp va (seg_prot seg) fr s1 _ Hinv Hnl Hfree Hva Ea Hm1) as (Hf & Hz & Hload).
  destruct (fresh_frame s ls asp fr s1 _ Hinv Hfree Ea Hm1) as (_ & Hin & _).
  rewrite (proj2 (Z.eqb_neq _ _) Hf). revert Hz Hload. cbv zeta. generalize (arch_vm_map_page asp va fr (seg_prot seg)
    (s1 <| ram := memset (ram s1) fr 0 PAGE_SIZE_4K |>)).2. intros s2 Hz Hload.
  assert (Hps : 0 <= PAGE_SIZE_4K) by done.
  assert (Hz2 : forall j, 0 <= j < PAGE_SIZE_4K -> ram s2 (fr + j) = 0).
  { intros j Hj. rewrite Hz, memset_spec by lia.
    by replace (_ && _) with true by lia. }
  pose proof (so_file _ _ Hok). pose proof (so_off _ _ Hok). pose proof (so_size _ _ Hok).
  assert (Hcopy : forall x, copy_part seg b fr va (ram s2) x =
    if (fr <=? x) && (x <? fr + PAGE_SIZE_4K) then file_byte b (ram s2) seg (va + (x - fr)) else ram s2 x).
  { intros x. apply copy_part_spec; [lia| |done].
    intros start len k j -> Hk Hj E. destruct (Hst (seg_file_off seg + k)) as (g & Ho & Hg); [cbn [blob_len] in *; lia|].
    pose proof (free_tbl_ok _ _ _ _ Hinv Hin) as [Hfok _]. destruct Ho as [Hgok Hgu _].
    destruct (frames_disjoint fr g); [done..|by intros ->|lia|lia]. }
  destruct (Hload (copy_part seg b fr va (ram s2))) as [ls' Hl].
  { intros x Hx. rewrite Hcopy. by replace (_ && _) with false by lia. }
  exists (s2 <| ram := copy_part seg b fr va (ram s2) |>), ls'. split; [done|].
  eapply loaded_ext; [..|exact Hl]; [done..|]. intros j Hj. cbn [seg_page pg_byte]. fold va.
  rewrite Hcopy. replace (_ && _) with true by lia. replace (va + (fr + j - fr)) with (va + j) by lia.
  unfold file_byte. destruct (_ && _) eqn:Eb; [|done].
  destruct (Hload (ram s2)) as [l2 H2]; [done|].
  destruct (blob_keep _ _ _ _ _ b Hinv (ld_grow _ _ _ _ _ _ H2) Hst) as [_ Hk].
  change (ram (s2 <| ram := ram s2 |>)) with (ram s2) in Hk. rewrite Hk, Hm0 by lia. done.
Qed.

Definition image_pages (b : blob) (m : mem) (segs : list elf_segment_t) : list page :=
  concat (seg_pages b m <$> segs).
Definition image_end (segs : list elf_segment_t) : Z := foldl Z.max 0 (seg_hi <$> segs).

Lemma pages_ok_app P1 P2 : pages_ok (P1 ++ P2) -> pages_ok P1 /\ pages_ok P2.
Proof.
  intros [Hc Hnd]. apply Forall_app in Hc as [? ?]. rewrite fmap_app in Hnd.
  apply list.NoDup_app in Hnd as (? & _ & ?). done.
Qed.

(** Pages not yet touched are still not covered by a large page. *)
Lemma loaded_not_large asp P1 P2 s ls s' ls' :
  loaded asp P1 s ls s' ls' -> pages_ok (P1 ++ P2) ->
  Forall (fun pg => not_large (ram s) asp (pg_va pg)) P2 ->
  Forall (fun pg => not_large (ram s') asp (pg_va pg)) P2.
Proof.
  intros L [Hc Hnd] Hn. rewrite list.Forall_forall in *. intros pg Hpg. unfold not_large.
  rewrite (ld_other _ _ _ _ _ _ L); [by apply Hn|apply Hc, elem_of_app; by right|].
  apply list.Forall_forall. intros pg' Hpg' E. rewrite fmap_app in Hnd.
  apply list.NoDup_app in Hnd as (_ & Hd & _).
  apply (Hd (pg_va pg' / PAGE_SIZE_4K)); [by apply (list_elem_of_fmap_2 (fun p => pg_va p / PAGE_SIZE_4K))|].
  rewrite <- E. by apply (list_elem_of_fmap_2 (fun p => pg_va p / PAGE_SIZE_4K)).
Qed.

Section load.
Context (asp : Z) (b : blob) (m0 : mem).
Hypothesis Hlen : blob_len b < 2 ^ 64.

(** What holds before each step of loading. *)
Record ready (s : mach) (ls : Z -> list Z) (pages : list page) : Prop := {
  rd_inv : vm_inv s ls asp;
  rd_blob : blob_stable s ls asp b;
  rd_same : forall j, 0 <= j < blob_len b -> blob_at b (ram s) j = blob_at b m0 j;
  rd_pages : pages_ok pages;
  rd_large : Forall (fun pg => not_large (ram s) asp (pg_va pg)) pages;
  rd_free : (4 * length pages <= length (all_free ls))%nat
}.

Lemma ready_blob s ls pages s' ls' :
  ready s ls pages -> vm_grow s ls s' ls' asp ->
  blob_stable s' ls' asp b /\ forall j, 0 <= j < blob_len b -> blob_at b (ram s') j = blob_at b m0 j.
Proof.
  intros R G. destruct (blob_keep _ _ _ _ _ b (rd_inv _ _ _ R) G (rd_blob _ _ _ R)) as [H1 H2].
  split; [done|]. intros j Hj. rewrite H2 by done. by apply R.
Qed.

Lemma ready_app s ls P1 P2 s' ls' :
  ready s ls (P1 ++ P2) -> loaded asp P1 s ls s' ls' -> ready s' ls' P2.
Proof.
  intros R L. destruct (ready_blob _ _ _ _ _ R (ld_grow _ _ _ _ _ _ L)) as [H1 H2].
  pose proof (rd_pages _ _ _ R) as Hp. pose proof (rd_large _ _ _ R) as Hl. apply Forall_app in Hl as [_ Hl].
  split; [apply L|done|done|by destruct (pages_ok_app _ _ Hp)|by eapply loaded_not_large|].
  pose proof (rd_free _ _ _ R) as Hf. pose proof (ld_cost _ _ _ _ _ _ L). rewrite length_app in Hf. lia.
Qed.

Lemma ready_prefix s ls P1 P2 : ready s ls (P1 ++ P2) -> ready s ls P1.
Proof.
  intros [? ? ? Hp Hl Hf]. split; [done..|by destruct (pages_ok_app _ _ Hp)|by apply Forall_app in Hl as [? ?]|].
  rewrite length_app in Hf. lia.
Qed.

Lemma ready_loop s ls N step pg :
  0 <= N -> ready s ls (pg <$> seqZ 0 N) ->
  (forall i s' ls', 0 <= i < N -> vm_grow s ls s' ls' asp -> (4 <= length (all_free ls'))%nat ->
     not_large (ram s') asp (pg_va (pg i)) ->
     exists s'' ls'', step i s' = (s'', true) /\ loaded asp [pg i] s' ls' s'' ls'') ->
  exists s' ls', for_try N step s = (s', true) /\ loaded asp (pg <$> seqZ 0 N) s ls s' ls'.
Proof.
  intros HN R Hstep. apply (load_loop asp step pg N s ls); [apply R|apply R| | |done|done].
  - intros i Hi. pose proof (rd_large _ _ _ R) as Hl. rewrite list.Forall_forall in Hl. apply Hl.
    apply list_elem_of_fmap_2, elem_of_seqZ. lia.
  - pose proof (rd_free _ _ _ R) as Hf. rewrite length_fmap, length_seqZ in Hf. lia.
Qed.

Lemma load_segment_spec s ls seg :
  ready s ls (seg_pages b m0 seg) -> seg_ok (blob_len b) seg ->
  exists s' ls', load_segment asp seg b s = (s', true) /\ loaded asp (seg_pages b m0 seg) s ls s' ls'.
Proof.
  intros R Hok. unfold load_segment. fold (seg_npages seg).
  apply ready_loop; [by eapply seg_bounds|done|]. intros i s' ls' Hi G Hf Hnl.
  destruct (ready_blob _ _ _ _ _ R G). apply load_page_spec; try done. apply G.
Qed.

Lemma load_segments_spec segs : forall s ls h,
  ready s ls (image_pages b m0 segs) -> Forall (seg_ok (blob_len b)) segs ->
  exists s' ls', load_segments asp segs b h s = (Some (foldl Z.max h (seg_hi <$> segs)), s') /\
    loaded asp (image_pages b m0 segs) s ls s' ls'.
Proof.
  induction segs as [|seg segs IH]; intros s ls h R Hok.
  { exists s, ls. split; [done|]. apply loaded_nil, R. }
  apply list.Forall_cons in Hok as [Hseg Hok]. cbn [load_segments fmap list_fmap foldl].
  change (image_pages b m0 (seg :: segs)) with (seg_pages b m0 seg ++ image_pages b m0 segs) in *.
  destruct (load_segment_spec s ls seg) as (s1 & l1 & E & L); [by eapply ready_prefix|done|].
  rewrite E. cbn [negb].
  replace (if seg_hi seg >? h then seg_hi seg else h) with (Z.max h (seg_hi seg)) by (break_if; lia).
  destruct (IH s1 l1 (Z.max h (seg_hi seg))) as (s2 & l2 & E2 & L2); [by eapply ready_app|done|].
  exists s2, l2. split; [done|]. eapply loaded_app; [done..|]. apply R.
Qed.

(** A zeroed page of the stack. *)
Lemma stack_page_spec s ls va :
  vm_inv s ls asp -> (4 <= length (all_free ls))%nat -> not_large (ram s) asp va -> 0 <= va < 2 ^ 48 ->
  exists s' ls',
    (let '(frame, s) := pmm_alloc_m PMM_COLOR_ANY s in
     if frame =? 0 then (s, false)
     else
       let s := s <| ram := memset (ram s) frame 0 PAGE_SIZE_4K |> in
       ((arch_vm_map_page asp va frame PROT_RWU s).2, true)) = (s', true) /\
    loaded asp [mk_page va PROT_RWU (fun _ => 0)] s ls s' ls'.
Proof.
  intros Hinv Hf Hnl Hva. destruct (pmm_alloc_m PMM_COLOR_ANY s) as [fr s1] eqn:Ea.
  assert (Hm1 : forall x, ~ fr <= x < fr + PAGE_SIZE_4K -> memset (ram s1) fr 0 PAGE_SIZE_4K x = ram s1 x)
    by (intros x Hx; apply memset_out; lia).
  destruct (fresh_page s ls asp va PROT_RWU fr s1 _ Hinv Hnl Hf Hva Ea Hm1) as (Hf0 & Hz & Hload).
  rewrite (proj2 (Z.eqb_neq _ _) Hf0). revert Hz Hload. cbv zeta. generalize (arch_vm_map_page asp va fr PROT_RWU
    (s1 <| ram := memset (ram s1) fr 0 PAGE_SIZE_4K |>)).2. intros s2 Hz Hload.
  destruct (Hload (ram s2)) as [ls' L]; [done|]. exists s2, ls'. split; [done|].
  replace (s2 <| ram := ram s2 |>) with s2 in L by (by destruct s2).
  eapply loaded_ext; [..|exact L]; [done..|]. intros i Hi. cbn [pg_byte]. rewrite Hz by lia.
  rewrite memset_spec by done. by replace (_ && _) with true by lia.
Qed.

Lemma stack_loop_spec s ls base :
  0 <= base -> base + APP_STACK_PAGES * PAGE_SIZE_4K < 2 ^ 48 -> ready s ls (stack_pages base) ->
  exists s' ls',
    for_try APP_STACK_PAGES (fun i s =>
        let '(frame, s) := pmm_alloc_m PMM_COLOR_ANY s in
        if frame =? 0 then (s, false)
        else
          let s := s <| ram := memset (ram s) frame 0 PAGE_SIZE_4K |> in
          ((arch_vm_map_page asp (u64 (base + i * PAGE_SIZE_4K)) frame PROT_RWU s).2, true)) s = (s', true) /\
    loaded asp (stack_pages base) s ls s' ls'.
Proof.
  intros H0 Hb R. unfold stack_pages in *. apply ready_loop; [done|done|].
  intros i s' ls' Hi G Hf Hnl. unfold PAGE_SIZE_4K in Hi, Hb. cbn [pg_va] in Hnl.
  rewrite u64_small by (unfold PAGE_SIZE_4K; lia).
  apply stack_page_spec; [apply G|done|done|unfold PAGE_SIZE_4K; lia].
Qed.
End load.

(** The page is visible in the address space, with its permissions. *)
Definition visible (m : mem) (asp : Z) (pg : page) : Prop :=
  (forall i, 0 <= i < PAGE_SIZE_4K -> user_byte m asp (pg_va pg + i) = pg_byte pg i) /\
  let e := (lookup_va m asp (pg_va pg)).2 in
  has e X86_PTE_RW = has (pg_prot pg) VM_PROT_WRITE /\ has e X86_PTE_US = has (pg_prot pg) VM_PROT_USER /\
  has e X86_PTE_NX = negb (has (pg_prot pg) VM_PROT_EXEC).

Lemma shows_visible s ls asp pg :
  0 <= pg_va pg < 2 ^ 48 -> pg_va pg mod PAGE_SIZE_4K = 0 -> shows s ls asp pg -> visible (ram s) asp pg.
Proof.
  intros Hva Hal (f & Ho & Ht & Hp & Hb). split; [|done]. intros i Hi. unfold user_byte, user_addr.
  assert (Em : (pg_va pg + i) mod PAGE_SIZE_4K = i).
  { rewrite <- Zplus_mod_idemp_l, Hal. apply Z.mod_small. lia. }
  destruct (page_of_spec (pg_va pg + i)) as [E _]; [unfold PAGE_SIZE_4K in *; lia|].
  rewrite E, Em. replace (pg_va pg + i - i) with (pg_va pg) by lia. rewrite Ht. by apply Hb.
Qed.

Lemma image_end_spec segs len :
  Forall (seg_ok len) segs ->
  0 <= image_end segs < 2 ^ 47 + PAGE_SIZE_4K /\ image_end segs mod PAGE_SIZE_4K = 0 /\
  Forall (fun seg => seg_hi seg <= image_end segs) segs.
Proof.
  intros Hok. unfold image_end.
  cut (forall h, 0 <= h < 2 ^ 47 + PAGE_SIZE_4K -> h mod PAGE_SIZE_4K = 0 ->
    let e := foldl Z.max h (seg_hi <$> segs) in
    h <= e < 2 ^ 47 + PAGE_SIZE_4K /\ e mod PAGE_SIZE_4K = 0 /\ Forall (fun seg => seg_hi seg <= e) segs).
  { intros H. apply H; [unfold PAGE_SIZE_4K; lia|done]. }
  induction Hok as [|seg segs Hseg Hok IH]; intros h Hh Ha; cbn; [split; [lia|split; [done|constructor]]|].
  destruct (seg_bounds _ _ Hseg) as (B1 & B2 & B3 & B4 & B5).
  assert (Hm : seg_hi seg mod PAGE_SIZE_4K = 0).
  { rewrite B3, B1, Z_mod_plus_full. unfold PAGE_SIZE_4K. Z.div_mod_to_equations; lia. }
  destruct (IH (Z.max h (seg_hi seg))) as (E1 & E2 & E3); [lia|by destruct (Z.max_spec h (seg_hi seg)) as [[_ ->]|[_ ->]]|].
  split; [lia|]. split; [done|]. constructor; [lia|done].
Qed.

Lemma elem_image_pages b m segs pg :
  pg ∈ image_pages b m segs ->
  exists seg i, seg ∈ segs /\ 0 <= i < seg_npages seg /\ pg = seg_page b m seg i.
Proof.
  unfold image_pages. rewrite list_elem_of_In, in_concat. intros (P & HP & Hpg).
  apply list_elem_of_In, list_elem_of_fmap in HP as (seg & -> & Hseg).
  apply list_elem_of_In, list_elem_of_fmap in Hpg as (i & -> & Hi). apply elem_of_seqZ in Hi.
  exists seg, i. split; [done|]. split; [lia|done].
Qed.

(** Where the pages of an image and of its stack lie. *)
Lemma image_page_va b m segs len pg :
  Forall (seg_ok len) segs -> pg ∈ image_pages b m segs ->
  0 <= pg_va pg /\ pg_va pg + PAGE_SIZE_4K <= image_end segs /\ pg_va pg mod PAGE_SIZE_4K = 0.
Proof.
  intros Hok Hpg. destruct (elem_image_pages _ _ _ _ Hpg) as (seg & i & Hseg & Hi & ->).
  destruct (image_end_spec _ _ Hok) as (_ & _ & He). rewrite list.Forall_forall in Hok, He.
  specialize (He seg Hseg). destruct (seg_bounds _ _ (Hok seg Hseg)) as (B1 & B2 & B3 & B4 & B5).
  cbn [seg_page pg_va]. rewrite B1, Z_mod_plus_full. unfold PAGE_SIZE_4K in *. Z.div_mod_to_equations; lia.
Qed.

Lemma stack_page_va base pg :
  pg ∈ stack_pages base -> base mod PAGE_SIZE_4K = 0 ->
  base <= pg_va pg < base + APP_STACK_PAGES * PAGE_SIZE_4K /\ pg_va pg mod PAGE_SIZE_4K = 0.
Proof.
  unfold stack_pages. intros Hpg Hb. apply list_elem_of_fmap in Hpg as (i & -> & Hi). apply elem_of_seqZ in Hi.
  cbn [pg_va]. rewrite Z_mod_plus_full. unfold PAGE_SIZE_4K in *. lia.
Qed.

Lemma image_stack_ok b m segs len :
  Forall (seg_ok len) segs -> NoDup ((fun pg => pg_va pg / PAGE_SIZE_4K) <$> image_pages b m segs) ->
  pages_ok (image_pages b m segs ++ stack_pages (image_end segs + PAGE_SIZE_4K)).
Proof.
  intros Hok Hnd. destruct (image_end_spec _ _ Hok) as (He & Ha & _).
  assert (Hb : (image_end segs + PAGE_SIZE_4K) mod PAGE_SIZE_4K = 0) by (unfold PAGE_SIZE_4K in *; Z.div_mod_to_equations; lia).
  split.
  - apply list.Forall_forall. intros pg. rewrite elem_of_app. intros [Hpg|Hpg].
    + destruct (image_page_va _ _ _ _ _ Hok Hpg). unfold PAGE_SIZE_4K in *. Z.div_mod_to_equations; lia.
    + destruct (stack_page_va _ _ Hpg Hb). unfold PAGE_SIZE_4K in *. lia.
  - rewrite fmap_app. apply list.NoDup_app. split; [done|]. split.
    + intros x Hx Hy. apply list_elem_of_fmap in Hx as (p1 & -> & H1). apply list_elem_of_fmap in Hy as (p2 & E & H2).
      destruct (image_page_va _ _ _ _ _ Hok H1), (stack_page_va _ _ H2 Hb). unfold PAGE_SIZE_4K in *. Z.div_mod_to_equations; lia.
    + unfold stack_pages. rewrite <- list_fmap_compose. apply NoDup_fmap_2_strong; [|apply NoDup_seqZ].
      intros x y _ _. cbn. rewrite !Z_div_plus_full by done. lia.
Qed.

(** C11: Loading an image gives the new thread exactly what the file says.
    When the segments were accepted by the parser, lie in the lower half of
    the address space, share no page with each other and are not covered by a
    large page, and enough frames are free, [map_segments_and_stack] succeeds:
    every page of every segment shows the file's bytes at their addresses,
    zero elsewhere, with the segment's permissions; the eight pages of stack
    above them are zero and writable; the stack top is returned; all other
    addresses translate as before; and the address space and frame allocator
    stay well-formed. *)
Theorem load_image_correct s ls asp img b :
  let segs := img_segs img in
  let pages := image_pages b (ram s) segs ++ stack_pages (image_end segs + PAGE_SIZE_4K) in
  vm_inv s ls asp -> blob_stable s ls asp b -> blob_len b < 2 ^ 64 -> Forall (seg_ok (blob_len b)) segs ->
  NoDup ((fun pg => pg_va pg / PAGE_SIZE_4K) <$> image_pages b (ram s) segs) ->
  Forall (fun pg => not_large (ram s) asp (pg_va pg)) pages ->
  (4 * length pages <= length (all_free ls))%nat ->
  exists s' ls',
    map_segments_and_stack asp img b s = (image_end segs + (1 + APP_STACK_PAGES) * PAGE_SIZE_4K, s') /\
    vm_inv s' ls' asp /\ Forall (visible (ram s') asp) pages /\
    forall v, 0 <= v < 2 ^ 48 ->
      Forall (fun pg => v / PAGE_SIZE_4K <> pg_va pg / PAGE_SIZE_4K) pages ->
      lookup_va (ram s') asp v = lookup_va (ram s) asp v.
Proof.
  intros segs pages Hinv Hst Hlen Hok Hnd Hnl Hfree.
  pose proof (image_stack_ok _ _ _ _ Hok Hnd) as Hp. destruct (image_end_spec _ _ Hok) as (He & Ha & _).
  assert (R : ready asp b (ram s) s ls pages) by (by split).
  destruct (load_segments_spec asp b (ram s) Hlen segs s ls 0 (ready_prefix _ _ _ _ _ _ _ R) Hok) as (s1 & l1 & E1 & L1).
  pose proof (ready_app _ _ _ _ _ _ _ _ _ R L1) as R2. fold (image_end segs) in E1.
  assert (Hb : 0 <= image_end segs + PAGE_SIZE_4K /\
    image_end segs + PAGE_SIZE_4K + APP_STACK_PAGES * PAGE_SIZE_4K < 2 ^ 48)
    by (unfold PAGE_SIZE_4K in *; lia).
  destruct (stack_loop_spec asp b (ram s) s1 l1 (image_end segs + PAGE_SIZE_4K) (proj1 Hb) (proj2 Hb) R2)
    as (s2 & l2 & E2 & L2).
  pose proof (loaded_app _ _ _ _ _ _ _ _ _ L1 L2 Hp) as L. exists s2, l2. split.
  - unfold map_segments_and_stack. fold segs. rewrite E1.
    rewrite (u64_small (image_end segs + PAGE_SIZE_4K)), (u64_small (_ + APP_STACK_PAGES * _)) by (unfold PAGE_SIZE_4K in *; lia).
    cbv zeta in E2 |- *. rewrite E2. f_equal. lia.
  - split; [apply L|]. split; [|apply L]. pose proof (ld_shows _ _ _ _ _ _ L) as Hs. destruct Hp as [Hc _].
    rewrite list.Forall_forall in Hc, Hs |- *. intros pg Hpg. apply (shows_visible s2 l2); [by apply Hc| |by apply Hs].
    assert (Hb2 : (image_end segs + PAGE_SIZE_4K) mod PAGE_SIZE_4K = 0) by (by rewrite <- Zplus_mod_idemp_l, Ha).
    apply elem_of_app in Hpg as [Hpg|Hpg]; [|by eapply stack_page_va].
    by destruct (image_page_va b (ram s) segs (blob_len b) pg Hok Hpg) as (_ & _ & ?).
Qed.

(** The frames of a machine with 256 KiB of memory. *)
Lemma demo_load_inv :
  exists ls, vm_inv (demo_machine 0x40000) ls 0x2000 /\ length (all_free ls) = 60%nat /\
    forall va, lookup_va (ram (demo_machine 0x40000)) 0x2000 va = (false, 0).
Proof.
  destruct (demo_machine_inv 0x40000 ((fun i => i * 0x1000) <$> seqZ 4 60)) as (ls & H1 & H2 & H3);
    [lia|vm_compute; reflexivity|cbn; repeat (apply Forall_cons_2; [lia|]); by apply Forall_nil_2|].
  exists ls. by rewrite H2.
Qed.

Lemma load_image_correct_witness :
  exists s', map_segments_and_stack 0x2000 (mk_image 0 0x1000400000 [demo_segment] false) (InBuf demo_elf)
      (demo_machine 0x40000) = (0x100040b000, s') /\
    user_byte (ram s') 0x2000 0x1000400002 = 0xeb /\ user_byte (ram s') 0x2000 0x1000400004 = 0.
Proof.
  destruct demo_load_inv as (ls & Hi & Hl & Hv). revert Hi Hv.
  generalize (demo_machine 0x40000). intros s Hi Hv.
  destruct (load_image_correct s ls 0x2000 (mk_image 0 0x1000400000 [demo_segment] false)
    (InBuf demo_elf)) as (s' & ls' & E & _ & V & _).
  - done.
  - done.
  - done.
  - apply list.Forall_singleton. by split.
  - apply (bool_decide_unpack _). vm_compute. done.
  - apply list.Forall_forall. intros pg _. unfold not_large. by rewrite Hv.
  - rewrite Hl. vm_compute. lia.
  - exists s'. split; [exact E|]. rewrite list.Forall_forall in V.
    destruct (V (seg_page (InBuf demo_elf) (ram s) demo_segment 0)) as [H _]; [by left|].
    split; [apply (H 2)|apply (H 4)]; done.
Defined.
