(* ===== verification/Kstate.v ===== *)
(** * The kernel's state

    The static data of the files under [src/src/core/] that the system calls
    work on, as one record: each field is the state of the component named by
    its type.  [Config] holds what the linker and the boot code fix.  All
    handlers run under the kernel lock, so an operation is a function on this
    record; its [cpu] argument is [this_cpu()->cpu_id].

    Messages the code prints with [kprintf] and [kputs] while handling a call
    are left out of the handlers: they change nothing but the screen
    ([Console.v] models the printing itself). *)
From Stdlib Require Import ZArith Lia.
From stdpp Require Import base numbers sets list list_numbers functions.
From S2P Require Import Prelude Abi Memory Pmm PageTable Vm Pipe Socket Shm Tcb Sched Hwio Fbconsole Console Kinfo Elf.

(** Link-time and boot-time constants. *)
Class Config := {
  boot_pml4 : Z;
  boot_pdpt : Z;
  multiboot2_info_ptr : Z;
  fpu_default_state : list Z;
  sigtramp_code : list Z
}.

(** ** The capability table ([captable.h], [captable.c]) *)
Notation CAP_KIND_UNTYPED := (0)%Z (only parsing).
Notation CAP_KIND_FRAME := (1)%Z (only parsing).
Notation CAP_KIND_ADDRSPACE := (2)%Z (only parsing).
Notation CAP_KIND_TCB := (3)%Z (only parsing).
Notation CAP_KIND_NOTIFICATION := (4)%Z (only parsing).
Notation CAP_KIND_TIMER := (5)%Z (only parsing).
Notation CAP_KIND_INVALID := (6)%Z (only parsing).
Notation MAX_NOTIFICATIONS := (16)%Z (only parsing).
Notation MAX_TIMERS := (16)%Z (only parsing).

Record kcap_t := mk_kcap { c_kind : Z; c_owner : Z; c_addr : Z; c_size : Z; c_mapped_va : Z }.
#[export] Instance eta_kcap : Eta kcap_t := fun c =>
  mk_kcap (c_kind c) (c_owner c) (c_addr c) (c_size c) (c_mapped_va c).
Record notification_t := mk_notif { n_word : Z; n_waiter : Z; n_in_use : bool }.
#[export] Instance eta_notif : Eta notification_t := fun n => mk_notif (n_word n) (n_waiter n) (n_in_use n).
Record timer_obj_t := mk_timer {
  tm_in_use : bool;
  tm_armed : bool;
  tm_deadline_tick : Z;
  tm_notif_idx : Z;
  tm_signal_bits : Z;
  tm_period_ticks : Z
}.
#[export] Instance eta_timer : Eta timer_obj_t := fun t =>
  mk_timer (tm_in_use t) (tm_armed t) (tm_deadline_tick t) (tm_notif_idx t) (tm_signal_bits t) (tm_period_ticks t).
(** [kcap_table] is NULL while [kcap_capacity] is 0. *)
Record captab := mk_captab {
  kcap_count : Z;
  kcap_table : Z -> kcap_t;
  kcap_capacity : Z;
  notif_table : Z -> notification_t;
  notif_count : Z;
  timer_table : Z -> timer_obj_t;
  timer_count : Z
}.
#[export] Instance eta_captab : Eta captab := fun c =>
  mk_captab (kcap_count c) (kcap_table c) (kcap_capacity c) (notif_table c) (notif_count c)
    (timer_table c) (timer_count c).
Definition captab_zero : captab :=
  mk_captab 0 (fun _ => mk_kcap 0 0 0 0 0) 0 (fun _ => mk_notif 0 0 false) 0 (fun _ => mk_timer false false 0 0 0 0) 0.

(** ** Program requests ([execreq.h], [execreq.c]) *)

(** [argv] and [envp] are the strings [strbuf] holds at the recorded offsets;
    [fds] the raw [robu_spawn_fd_t] records. *)
Record execreq_params_t := mk_params {
  x_requester_tid : Z;
  x_is_spawn_create : bool;
  x_name : list Z;
  x_argv : list (list Z);
  x_envp : list (list Z);
  x_nfds : Z;
  x_fds : list Z;
  x_prio : Z;
  x_pager_tid : Z
}.
#[export] Instance eta_params : Eta execreq_params_t := fun p =>
  mk_params (x_requester_tid p) (x_is_spawn_create p) (x_name p) (x_argv p) (x_envp p) (x_nfds p) (x_fds p)
    (x_prio p) (x_pager_tid p).
Inductive execreq_state_t := EXECREQ_EMPTY | EXECREQ_QUEUED | EXECREQ_DELIVERED | EXECREQ_POLL_DONE.
#[export] Instance execreq_state_eq_dec : EqDecision execreq_state_t.
Proof. solve_decision. Defined.
Definition xs_eqb (a b : execreq_state_t) : bool := bool_decide (a = b).
Record execreq_slot_t := mk_slot {
  xs_state : execreq_state_t;
  xs_generation : Z;
  xs_params : execreq_params_t;
  xs_poll_child : option tptr
}.
#[export] Instance eta_slot : Eta execreq_slot_t := fun s =>
  mk_slot (xs_state s) (xs_generation s) (xs_params s) (xs_poll_child s).

(** ** IPC grants ([ipc.c]) *)
Notation CONSOLE_VT_COUNT := (6)%Z (only parsing).
Notation HW_DRIVER_SECONDARY_MAX := (4)%Z (only parsing).
Notation HW_PORT_IO_SECONDARY_MAX := (4)%Z (only parsing).
Record ipc_grants := mk_grants {
  console_writer_tid : Z;
  console_driver_tid : Z;
  console_fg_pgid : Z -> Z;
  console_read_waiter : Z -> Z;
  pager_owner_tid : Z;
  hw_driver_tid : Z;
  hw_driver_secondary_tids : Z -> Z;
  hw_port_io_secondary_tids : Z -> Z;
  pci_cfg_secondary_tid : Z
}.
#[export] Instance eta_grants : Eta ipc_grants := fun g =>
  mk_grants (console_writer_tid g) (console_driver_tid g) (console_fg_pgid g) (console_read_waiter g)
    (pager_owner_tid g) (hw_driver_tid g) (hw_driver_secondary_tids g) (hw_port_io_secondary_tids g)
    (pci_cfg_secondary_tid g).

(** ** Everything *)

(** Why a CPU stopped for good. *)
Inductive stop_t := StopReboot | StopHalt | StopShutdown | StopFault.

(** [k_fpu] and [k_fsbase] are the registers of each CPU, [k_stop] is set when
    the code enters a [cli; hlt] loop or leaves the machine. *)
Record kstate (D : Type) := mk_kstate {
  k_sched : sched;
  k_mem : kmem;
  k_faults : vm_fault_queue_t;
  k_frame_caps : frame_caps;
  k_caps : captab;
  k_pipes : pipe_pool;
  k_socks : sockets_t;
  k_kinfo : kinfo_page_t;
  k_slots : Z -> execreq_slot_t;
  k_elf : elf_cache_st;
  k_cons : console;
  k_dev : D;
  k_random : bool;
  k_grants : ipc_grants;
  k_fpu : Z -> list Z;
  k_fsbase : Z -> Z;
  k_stop : option stop_t
}.
Arguments mk_kstate {D}.
Arguments k_sched {D}.
Arguments k_mem {D}.
Arguments k_faults {D}.
Arguments k_frame_caps {D}.
Arguments k_caps {D}.
Arguments k_pipes {D}.
Arguments k_socks {D}.
Arguments k_kinfo {D}.
Arguments k_slots {D}.
Arguments k_elf {D}.
Arguments k_cons {D}.
Arguments k_dev {D}.
Arguments k_random {D}.
Arguments k_grants {D}.
Arguments k_fpu {D}.
Arguments k_fsbase {D}.
Arguments k_stop {D}.
#[export] Instance eta_kstate {D} : Eta (kstate D) := fun k =>
  mk_kstate (k_sched k) (k_mem k) (k_faults k) (k_frame_caps k) (k_caps k) (k_pipes k) (k_socks k) (k_kinfo k)
    (k_slots k) (k_elf k) (k_cons k) (k_dev k) (k_random k) (k_grants k) (k_fpu k) (k_fsbase k) (k_stop k).

(** ** Shorthands for the components *)
Section shorthands.
Context {D : Type}.
Implicit Types k : kstate D.

Definition kthr (t : tptr) k : tcb := thr (k_sched k) t.
Definition kupd (t : tptr) (g : tcb -> tcb) k : kstate D := k <| k_sched ::= upd t g |>.
(** [t->uctx.r = ...] *)
Definition kuctx (t : tptr) (g : arch_uctx_t -> arch_uctx_t) k : kstate D := kupd t (fun b => b <| t_uctx ::= g |>) k.
Definition kwake (cpu : Z) (t : tptr) k : kstate D := k <| k_sched ::= sched_wake cpu t |>.
Definition kcur (cpu : Z) k : tptr := current_thread cpu (k_sched k).
Definition kget (tid : Z) k : option tptr := sched_get_tcb tid (k_sched k).
Definition kmach k : mach := mc (k_mem k).
Definition kset_mach (m : mach) k : kstate D := k <| k_mem ::= fun s => s <| mc := m |> |>.
Definition kstop (why : stop_t) k : kstate D := k <| k_stop := Some why |>.
End shorthands.

(** ** The static data before anything is initialised *)
Definition grants_zero : ipc_grants := mk_grants 0 0 (fun _ => 0) (fun _ => 0) 0 0 (fun _ => 0) (fun _ => 0) 0.
Definition slot_zero : execreq_slot_t := mk_slot EXECREQ_EMPTY 0 (mk_params 0 false [] [] [] 0 [] 0 0) None.
Definition console_zero : console :=
  mk_console false (fun _ => mk_vt 0 (fun _ => 0) 0 0) 0 0
    (fun _ => mk_vga_vt (fun _ _ => 0) (fun _ _ => 0) 0 0 0 0 0 0 0) (fun _ => 0) (fun _ => 0) 0 0
    (mk_fbcon 0 (fun _ => 0) 0 0 0 0 0 0 0 0 0 (fun _ _ => 0)).
Definition kstate_zero {D : Type} (m : kmem) (d : D) : kstate D :=
  mk_kstate sched_zero m (mk_fault_queue (fun _ => mk_fault 0 0 0 0) 0 0)
    (mk_frame_caps (fun _ => mk_frame_cap 0 0 0 0) 0) captab_zero pipe_pool_init sockets_init kinfo_zero
    (fun _ => slot_zero) (mk_elf_cache (fun _ => mk_image 0 0 [] false) 0 (mk_elf_stats 0 0)) console_zero d
    false grants_zero (fun _ => []) (fun _ => 0) None.
