(* ===== verification/Captable.v ===== *)
(** * Capabilities, notifications and timers ([src/src/core/captable.c])

    A capability is a slot of a growing table: kind, owner and object.  Every
    operation names slots and is refused unless the caller owns a capability
    of the right kind there.  [cap_destroy], which terminates a thread, is in
    [Kernel.v].  The theorems show that the table only ever names existing
    notification and timer objects (so every array access is in bounds), that
    a refused operation changes nothing, that signalled bits are never lost,
    and that a timer scan ends with every deadline in the future. *)
From Stdlib Require Import ZArith Lia.
From stdpp Require Import base numbers sets list list_numbers functions.
From S2P Require Import Prelude Abi Memory Pmm Kheap Untyped PageTable Vm Shm Tcb Sched Kstate.

Notation ROOT_CHILD_PAGER_TID := (1)%Z (only parsing).
Notation ROOT_CHILD_PRIO := (5)%Z (only parsing).
Notation ROOT_OWN_FRAME_VA := (0x71000000)%Z (only parsing).
(** [sizeof(kcap_t)] *)
Notation KCAP_SIZE := (32)%Z (only parsing).
(** ["root-child"] *)
Definition root_child_name : list Z := [114; 111; 111; 116; 45; 99; 104; 105; 108; 100].

(** The loop [while (deadline <= now) deadline += period] and the number of
    its rounds. *)
Fixpoint advance_deadline (fuel : nat) (now period d : Z) : Z :=
  match fuel with
  | O => d
  | S fuel => if d <=? now then advance_deadline fuel now period (u64 (d + period)) else d
  end.
Definition advance_fuel (now period d : Z) : nat :=
  if period <? 2 ^ 63 then Z.to_nat ((now - d) / period + 1) else Z.to_nat (d / (2 ^ 64 - period) + 1).

Section captable.
Context {D : Type} `{!Config}.
Implicit Types k : kstate D.

Definition set_caps (f : captab -> captab) k : kstate D := k <| k_caps ::= f |>.
Definition untyped_alloc_k (size : Z) k : Z * kstate D :=
  let m := kmach k in
  let '(f, u, r) := untyped_alloc size (untyped_st m) (ram m) in
  (f, kset_mach (m <| untyped_st := u |> <| ram := r |>) k).

(** Growing the table: the new one starts zeroed. *)
Definition kcap_grow k : kstate D * bool :=
  let c := k_caps k in
  if kcap_count c >=? kcap_capacity c then
    let new_cap := if kcap_capacity c =? 0 then 128 else u32 (kcap_capacity c * 2) in
    let '(new_table, k) := untyped_alloc_k (u64 (new_cap * KCAP_SIZE)) k in
    if new_table =? 0 then (k, false)
    else
      (set_caps (fun c => c
         <| kcap_table := fun i => if (0 <=? i) && (i <? kcap_count c) then kcap_table c i else mk_kcap 0 0 0 0 0 |>
         <| kcap_capacity := new_cap |>) k, true)
  else (k, true).

Definition kcap_grant (owner kind addr size : Z) k : Z * kstate D :=
  let '(k, ok) := kcap_grow k in
  if negb ok then (-1, k)
  else (0, set_caps (fun c => c
         <| kcap_table := <[kcap_count c := (kcap_table c (kcap_count c)) <| c_kind := kind |> <| c_owner := owner |>
                                              <| c_addr := addr |> <| c_size := size |>]> (kcap_table c) |>
         <| kcap_count := u32 (kcap_count c + 1) |>) k).

Definition kcap_next_slot k : Z := kcap_count (k_caps k).

Definition validate (caller slot want_kind : Z) k : option kcap_t :=
  let c := k_caps k in
  if slot >=? kcap_count c then None
  else
    let cap := kcap_table c slot in
    if negb (c_owner cap =? caller) || negb (c_kind cap =? want_kind) then None else Some cap.

Definition notif_deliver (cpu idx bits : Z) k : kstate D :=
  let n := notif_table (k_caps k) idx in
  let n := n <| n_word := Z.lor (n_word n) bits |> in
  if negb (n_waiter n =? 0) then
    let k := match kget (n_waiter n) k with
             | Some w => kwake cpu w (kuctx w (fun u => u <| r8 := n_word n |> <| rax := IPC_ERR_NONE |>) k)
             | None => k
             end in
    set_caps (fun c => c <| notif_table := <[idx := n <| n_word := 0 |> <| n_waiter := 0 |>]> (notif_table c) |>) k
  else set_caps (fun c => c <| notif_table := <[idx := n]> (notif_table c) |>) k.

(** The end of every retype: grant and report slot and object. *)
Definition grant_out (caller kind addr size out_addr : Z) k : Z * (Z * Z) * kstate D :=
  match kcap_grant caller kind addr size k with
  | (0, k) => (0, (u32 (kcap_count (k_caps k) - 1), out_addr), k)
  | (_, k) => (-1, (0, 0), k)
  end.

Definition retype_frame (caller : Z) (caller_tcb : tptr) k : Z * (Z * Z) * kstate D :=
  let '(frame, k) := untyped_alloc_k PAGE_SIZE_4K k in
  if frame =? 0 then (-1, (0, 0), k)
  else
    let asp := t_address_space (kthr caller_tcb k) in
    let '(mapped_va, rc, k) :=
      if arch_vm_translate (ram (kmach k)) asp ROOT_OWN_FRAME_VA =? 0 then
        let '(rc, m) := arch_vm_map_page asp ROOT_OWN_FRAME_VA frame
                          (Z.lor (Z.lor VM_PROT_READ VM_PROT_WRITE) VM_PROT_USER) (kmach k) in
        (ROOT_OWN_FRAME_VA, rc, kset_mach m k)
      else (0, 0, k) in
    if negb (rc =? 0) then (-1, (0, 0), k)
    else
      match kcap_grant caller CAP_KIND_FRAME frame PAGE_SIZE_4K k with
      | (0, k) =>
          let slot := u32 (kcap_count (k_caps k) - 1) in
          (0, (slot, frame), set_caps (fun c =>
             c <| kcap_table := <[slot := (kcap_table c slot) <| c_mapped_va := mapped_va |>]> (kcap_table c) |>) k)
      | (_, k) => (-1, (0, 0), k)
      end.

Definition retype_addrspace (caller : Z) k : Z * (Z * Z) * kstate D :=
  let '(page, k) := untyped_alloc_k PAGE_SIZE_4K k in
  if page =? 0 then (-1, (0, 0), k)
  else
    let '(asp, m) := arch_vm_create_address_space boot_pdpt (kmach k) in
    let k := kset_mach m k in
    if asp =? 0 then (-1, (0, 0), k) else grant_out caller CAP_KIND_ADDRSPACE asp 0 asp k.

Definition retype_tcb (caller as_slot entry stack frame_slot : Z) k : Z * (Z * Z) * kstate D :=
  match validate caller (u32 as_slot) CAP_KIND_ADDRSPACE k with
  | None => (-1, (0, 0), k)
  | Some as_cap =>
      match validate caller (u32 frame_slot) CAP_KIND_FRAME k with
      | None => (-1, (0, 0), k)
      | Some frame_cap =>
          let '(page, k) := untyped_alloc_k PAGE_SIZE_4K k in
          if page =? 0 then (-1, (0, 0), k)
          else
            let '(rc, m) := arch_vm_map_page (c_addr as_cap) entry (c_addr frame_cap)
              (Z.lor (Z.lor (Z.lor VM_PROT_READ VM_PROT_WRITE) VM_PROT_EXEC) VM_PROT_USER) (kmach k) in
            let k := kset_mach m k in
            if negb (rc =? 0) then (-1, (0, 0), k)
            else
              match thread_create_user_locked fpu_default_state root_child_name entry stack ROOT_CHILD_PRIO
                      (c_addr as_cap) ROOT_CHILD_PAGER_TID (k_sched k) with
              | (None, s) => (-1, (0, 0), k <| k_sched := s |>)
              | (Some t, s) =>
                  let k := k <| k_sched := s |> in
                  grant_out caller CAP_KIND_TCB (t_tid (kthr t k)) 0 (t_tid (kthr t k)) k
              end
      end
  end.

Definition retype_notification (caller : Z) k : Z * (Z * Z) * kstate D :=
  if notif_count (k_caps k) >=? MAX_NOTIFICATIONS then (-1, (0, 0), k)
  else
    let '(page, k) := untyped_alloc_k PAGE_SIZE_4K k in
    if page =? 0 then (-1, (0, 0), k)
    else
      let idx := notif_count (k_caps k) in
      let k := set_caps (fun c => c <| notif_count := u32 (idx + 1) |>
                                    <| notif_table := <[idx := mk_notif 0 0 true]> (notif_table c) |>) k in
      grant_out caller CAP_KIND_NOTIFICATION idx 0 idx k.

Definition retype_timer (caller : Z) k : Z * (Z * Z) * kstate D :=
  if timer_count (k_caps k) >=? MAX_TIMERS then (-1, (0, 0), k)
  else
    let '(page, k) := untyped_alloc_k PAGE_SIZE_4K k in
    if page =? 0 then (-1, (0, 0), k)
    else
      let idx := timer_count (k_caps k) in
      let k := set_caps (fun c => c <| timer_count := u32 (idx + 1) |>
                                    <| timer_table := <[idx := mk_timer true false 0 (-1) 0 0]> (timer_table c) |>) k in
      grant_out caller CAP_KIND_TIMER idx 0 idx k.

(** Status, the new slot and the object ([*out_slot] and [*out_addr] stay 0
    on failure). *)
Definition cap_retype (caller untyped_slot kind as_slot entry stack frame_slot : Z) k : Z * (Z * Z) * kstate D :=
  match validate caller untyped_slot CAP_KIND_UNTYPED k with
  | None => (-1, (0, 0), k)
  | Some _ =>
      match kget caller k with
      | None => (-1, (0, 0), k)
      | Some caller_tcb =>
          if kind =? CAP_KIND_FRAME then retype_frame caller caller_tcb k
          else if kind =? CAP_KIND_ADDRSPACE then retype_addrspace caller k
          else if kind =? CAP_KIND_TCB then retype_tcb caller as_slot entry stack frame_slot k
          else if kind =? CAP_KIND_NOTIFICATION then retype_notification caller k
          else if kind =? CAP_KIND_TIMER then retype_timer caller k
          else (-1, (0, 0), k)
      end
  end.

Definition kcap_invalidate_tcb_death (tid : Z) k : kstate D :=
  set_caps (fun c => c <| kcap_table := for_range (kcap_count c) (fun i t =>
    if (c_kind (t i) =? CAP_KIND_TCB) && (c_addr (t i) =? tid)
    then <[i := (t i) <| c_kind := CAP_KIND_INVALID |>]> t else t) (kcap_table c) |>) k.

(** ** Notifications *)
Definition cap_notif_signal (cpu caller notif_slot bits : Z) k : Z * kstate D :=
  match validate caller notif_slot CAP_KIND_NOTIFICATION k with
  | None => (-1, k)
  | Some cap => (0, notif_deliver cpu (i32 (c_addr cap)) bits k)
  end.

(** 1 with the bits, 0 when the caller must block, -1 without a capability. *)
Definition cap_notif_wait_begin (caller notif_slot : Z) k : Z * Z * kstate D :=
  match validate caller notif_slot CAP_KIND_NOTIFICATION k with
  | None => (-1, 0, k)
  | Some cap =>
      let n := notif_table (k_caps k) (c_addr cap) in
      if negb (n_word n =? 0) then
        (1, n_word n, set_caps (fun c => c <| notif_table := <[c_addr cap := n <| n_word := 0 |>]> (notif_table c) |>) k)
      else (0, 0, set_caps (fun c => c <| notif_table := <[c_addr cap := n <| n_waiter := caller |>]> (notif_table c) |>) k)
  end.

Definition cap_notif_poll (caller notif_slot : Z) k : Z * Z * kstate D :=
  match validate caller notif_slot CAP_KIND_NOTIFICATION k with
  | None => (-1, 0, k)
  | Some cap =>
      let n := notif_table (k_caps k) (c_addr cap) in
      if n_word n =? 0 then (-2, 0, k)
      else (0, n_word n, set_caps (fun c => c <| notif_table := <[c_addr cap := n <| n_word := 0 |>]> (notif_table c) |>) k)
  end.

(** ** Timers *)
Definition cap_timer_arm (caller timer_slot notif_slot ticks_from_now bits period_ticks : Z) k : Z * kstate D :=
  match validate caller timer_slot CAP_KIND_TIMER k with
  | None => (-1, k)
  | Some timer_cap =>
      match validate caller notif_slot CAP_KIND_NOTIFICATION k with
      | None => (-1, k)
      | Some notif_cap =>
          let ticks_from_now := if ticks_from_now <? 1 then 1 else ticks_from_now in
          let deadline := u64 (sched_now (k_sched k) + ticks_from_now) in
          let k := set_caps (fun c => c <| timer_table := <[c_addr timer_cap :=
            (timer_table c (c_addr timer_cap)) <| tm_armed := true |> <| tm_deadline_tick := deadline |>
              <| tm_notif_idx := i32 (c_addr notif_cap) |> <| tm_signal_bits := bits |>
              <| tm_period_ticks := period_ticks |>]> (timer_table c) |>) k in
          (0, k <| k_sched ::= sched_note_deadline deadline |>)
      end
  end.

Definition cap_timer_disarm (caller timer_slot : Z) k : Z * kstate D :=
  match validate caller timer_slot CAP_KIND_TIMER k with
  | None => (-1, k)
  | Some cap =>
      (0, set_caps (fun c => c <| timer_table := <[c_addr cap := (timer_table c (c_addr cap)) <| tm_armed := false |>]>
                                                   (timer_table c) |>) k)
  end.

(** One timer of the scan: the state and the next deadline so far. *)
Definition timer_scan_one (cpu now i : Z) (a : kstate D * Z) : kstate D * Z :=
  let '(k, next) := a in
  let t := timer_table (k_caps k) i in
  if negb (tm_in_use t) || negb (tm_armed t) then (k, next)
  else
    let set_t (t : timer_obj_t) := set_caps (fun c => c <| timer_table := <[i := t]> (timer_table c) |>) in
    let min_next d := if d <? next then d else next in
    if tm_deadline_tick t <=? now then
      let k := notif_deliver cpu (tm_notif_idx t) (tm_signal_bits t) k in
      if negb (tm_period_ticks t =? 0) then
        let d := advance_deadline (advance_fuel now (tm_period_ticks t) (tm_deadline_tick t)) now
                   (tm_period_ticks t) (tm_deadline_tick t) in
        (set_t (t <| tm_deadline_tick := d |>) k, min_next d)
      else (set_t (t <| tm_armed := false |>) k, next)
    else (k, min_next (tm_deadline_tick t)).
Definition cap_timer_rescan (cpu now_ticks : Z) k : kstate D * Z :=
  for_range (timer_count (k_caps k)) (timer_scan_one cpu now_ticks) (k, U64_MAX).

Definition notif_invalidate_waiter_death (tid : Z) k : kstate D :=
  set_caps (fun c => c <| notif_table := for_range (notif_count c) (fun i t =>
    if n_waiter (t i) =? tid then <[i := (t i) <| n_waiter := 0 |>]> t else t) (notif_table c) |>) k.

Definition cap_revoke_frame (cpu caller frame_slot : Z) k : Z * kstate D :=
  match validate caller frame_slot CAP_KIND_FRAME k with
  | None => (-1, k)
  | Some cap =>
      if c_mapped_va cap =? 0 then (-1, k)
      else
        match kget caller k with
        | None => (-1, k)
        | Some caller_tcb =>
            let m := (arch_vm_unmap_page (t_address_space (kthr caller_tcb k)) (c_mapped_va cap) (kmach k)).2 in
            (0, set_caps (fun c => c <| kcap_table := <[frame_slot := (kcap_table c frame_slot)
                                          <| c_kind := CAP_KIND_INVALID |>]> (kcap_table c) |>) (kset_mach m k))
        end
  end.
End captable.

(** * Timers end *)
Lemma advance_steps fuel : forall now p d j,
  0 <= d < 2 ^ 64 -> (forall i, 0 <= i < Z.of_nat j -> u64 (d + i * p) <= now) ->
  now < u64 (d + Z.of_nat j * p) -> (j <= fuel)%nat ->
  advance_deadline fuel now p d = u64 (d + Z.of_nat j * p).
Proof.
  induction fuel as [|fuel IH]; intros now p d j Hd Hle Hgt Hj; cbn [advance_deadline].
  { assert (j = 0)%nat as -> by lia. cbn. by rewrite Z.add_0_r, u64_small. }
  destruct j as [|j].
  { cbn [Z.of_nat] in *. rewrite Z.mul_0_l, Z.add_0_r, (u64_small d) in * by done. by replace (d <=? now) with false by lia. }
  pose proof (Hle 0 ltac:(lia)) as H0. rewrite Z.mul_0_l, Z.add_0_r, u64_small in H0 by done.
  replace (d <=? now) with true by lia.
  assert (Hu : forall i, u64 (u64 (d + p) + i * p) = u64 (d + (i + 1) * p)).
  { intros i. unfold u64. rewrite Zplus_mod_idemp_l. f_equal. lia. }
  rewrite (IH now p (u64 (d + p)) j); [rewrite Hu; by replace (Z.of_nat j + 1) with (Z.of_nat (S j)) by lia|apply u64_range| | |lia].
  - intros i Hi. rewrite Hu. apply Hle. lia.
  - rewrite Hu. by replace (Z.of_nat j + 1) with (Z.of_nat (S j)) by lia.
Qed.

(** The loop stops at the first deadline after [now]. *)
Lemma advance_deadline_spec now p d :
  0 <= now < 2 ^ 63 -> 0 < p < 2 ^ 64 -> 0 <= d < 2 ^ 64 ->
  exists j, (0 <= j) /\ advance_deadline (advance_fuel now p d) now p d = u64 (d + j * p) /\
    now < u64 (d + j * p) /\ forall i, 0 <= i < j -> u64 (d + i * p) <= now.
Proof.
  intros Hn Hp Hd. destruct (decide (now < d)) as [Hlt|Hge].
  { exists 0. rewrite Z.mul_0_l, Z.add_0_r, u64_small by done. split; [lia|]. split; [|split; [done|lia]].
    rewrite (advance_steps _ now p d 0); rewrite ?Z.mul_0_l, ?Z.add_0_r, ?u64_small; try done; lia. }
  unfold advance_fuel. destruct (p <? 2 ^ 63) eqn:E.
  - set (j := (now - d) / p + 1). assert (0 <= (now - d) / p) by (apply Z.div_pos; lia).
    pose proof (Z.div_mod (now - d) p ltac:(lia)). pose proof (Z.mod_pos_bound (now - d) p ltac:(lia)).
    assert (Hj : now < d + j * p <= now + p) by (unfold j; nia).
    assert (Hi : forall i, 0 <= i < j -> u64 (d + i * p) = d + i * p /\ d + i * p <= now).
    { intros i Hi. assert (i * p <= (j - 1) * p) by nia. unfold j in *. rewrite u64_small by nia. split; [done|nia]. }
    exists j. split; [lia|]. rewrite (u64_small (d + j * p)) by lia.
    split; [|split; [lia|intros i Hi'; destruct (Hi i Hi') as [-> ?]; done]].
    rewrite (advance_steps _ now p d (Z.to_nat j)); rewrite ?Z2Nat.id by lia.
    + by rewrite u64_small by lia.
    + done.
    + intros i Hi'. destruct (Hi i Hi') as [-> ?]. done.
    + rewrite u64_small by lia. lia.
    + lia.
  - set (q := 2 ^ 64 - p). assert (Hq : 0 < q <= 2 ^ 63) by (unfold q; lia). set (j := d / q + 1).
    assert (0 <= d / q) by (apply Z.div_pos; lia).
    pose proof (Z.div_mod d q ltac:(lia)). pose proof (Z.mod_pos_bound d q ltac:(lia)).
    assert (Hu : forall i, u64 (d + i * p) = u64 (d - i * q)).
    { intros i. unfold u64, q. replace (d + i * p) with (d - i * (2 ^ 64 - p) + i * 2 ^ 64) by lia. apply Z_mod_plus_full. }
    assert (Hi : forall i, 0 <= i < j -> u64 (d + i * p) <= now).
    { intros i Hi. rewrite Hu. assert (0 <= i * q <= (j - 1) * q) by nia. unfold j in *.
      rewrite u64_small by nia. nia. }
    assert (Hj : u64 (d + j * p) = d - j * q + 2 ^ 64).
    { rewrite Hu. unfold u64. rewrite <- (Z_mod_plus_full _ 1), Z.mod_small; unfold j; nia. }
    assert (now < u64 (d + j * p)) by (rewrite Hj; unfold j; nia).
    exists j. split; [lia|]. split; [|done].
    rewrite (advance_steps _ now p d (Z.to_nat j)); rewrite ?Z2Nat.id by lia; [done|done|done|done|lia].
Qed.

Definition live (t : timer_obj_t) : bool := tm_in_use t && tm_armed t.
Definition timer_ok (t : timer_obj_t) : Prop := 0 <= tm_deadline_tick t < 2 ^ 64 /\ 0 <= tm_period_ticks t < 2 ^ 64.

(** What the scan makes of a timer. *)
Definition scanned (now : Z) (t : timer_obj_t) : timer_obj_t :=
  if negb (live t && (tm_deadline_tick t <=? now)) then t
  else if tm_period_ticks t =? 0 then t <| tm_armed := false |>
  else t <| tm_deadline_tick := advance_deadline (advance_fuel now (tm_period_ticks t) (tm_deadline_tick t)) now
                                   (tm_period_ticks t) (tm_deadline_tick t) |>.
(** The deadline a timer contributes. *)
Definition contributes (t : timer_obj_t) : Z := if live t then tm_deadline_tick t else U64_MAX.

Section scan.
Context {D : Type} `{!Config}.
Implicit Types k : kstate D.

Lemma deliver_caps cpu idx bits k :
  exists n, k_caps (notif_deliver cpu idx bits k) = (k_caps k) <| notif_table := <[idx := n]> (notif_table (k_caps k)) |> /\
    (n_waiter (notif_table (k_caps k) idx) = 0 ->
       n = (notif_table (k_caps k) idx) <| n_word := Z.lor (n_word (notif_table (k_caps k) idx)) bits |>) /\
    (n_waiter (notif_table (k_caps k) idx) <> 0 -> n_word n = 0 /\ n_waiter n = 0).
Proof.
  unfold notif_deliver. rsimpl. destruct (n_waiter (notif_table (k_caps k) idx) =? 0) eqn:E; cbn [negb].
  - apply Z.eqb_eq in E. eexists. split; [reflexivity|]. split; [done|]. by rewrite E.
  - apply Z.eqb_neq in E. eexists. split; [by destruct (kget _ k)|]. split; [done|]. done.
Qed.

Lemma scan_one_spec cpu now i k next k' next' :
  0 <= now < 2 ^ 63 -> timer_ok (timer_table (k_caps k) i) ->
  0 <= next < 2 ^ 64 -> timer_scan_one cpu now i (k, next) = (k', next') ->
  timer_table (k_caps k') i = scanned now (timer_table (k_caps k) i) /\
  (forall j, j <> i -> timer_table (k_caps k') j = timer_table (k_caps k) j) /\
  timer_count (k_caps k') = timer_count (k_caps k) /\
  next' = Z.min next (contributes (scanned now (timer_table (k_caps k) i))).
Proof.
  intros Hn [Hd Hp] Hx. unfold timer_scan_one, scanned, contributes. set (t := timer_table (k_caps k) i) in *.
  unfold live. unfold U64_MAX. destruct (tm_in_use t) eqn:Eu, (tm_armed t) eqn:Ea; cbn [negb orb andb];
    try (intros [= <- <-]; fold t; rewrite ?Eu, ?Ea; repeat split; cbn [andb]; lia).
  destruct (tm_deadline_tick t <=? now) eqn:Ed; cbn [negb].
  2: { intros [= <- <-]. fold t. rewrite Eu, Ea. repeat split. cbn [andb]. break_if; lia. }
  destruct (deliver_caps cpu (tm_notif_idx t) (tm_signal_bits t) k) as (n & En & _).
  destruct (tm_period_ticks t =? 0) eqn:Ep; cbn [negb]; intros [= <- <-]; unfold set_caps; rsimpl; rewrite En; rsimpl;
    rewrite fn_lookup_insert, ?Eu, ?Ea; (split; [done|]);
    (split; [intros j Hj; by rewrite fn_lookup_insert_ne|]); (split; [done|]); cbn [andb].
  - rewrite ?andb_false_r. lia.
  - break_if; lia.
Qed.

Lemma scanned_future now t :
  0 <= now < 2 ^ 63 -> timer_ok t -> live (scanned now t) = true ->
  now < tm_deadline_tick (scanned now t) < 2 ^ 64.
Proof.
  intros Hn [Hd Hp]. unfold scanned, live.
  destruct (tm_in_use t && tm_armed t) eqn:El; cbn [andb negb]; [|by rewrite El].
  destruct (tm_deadline_tick t <=? now) eqn:Ed; cbn [negb]; [|lia].
  destruct (tm_period_ticks t =? 0) eqn:Ep; rsimpl; [by rewrite andb_false_r|].
  destruct (advance_deadline_spec now (tm_period_ticks t) (tm_deadline_tick t)) as (j & _ & -> & Hj & _);
    [done|lia|done|]. intros _. pose proof (u64_range (tm_deadline_tick t + j * tm_period_ticks t)). lia.
Qed.

Lemma scan_bound t now : 0 <= now < 2 ^ 63 -> timer_ok t -> 0 <= contributes (scanned now t) < 2 ^ 64.
Proof.
  intros Hn Hok. unfold contributes, U64_MAX. destruct (live (scanned now t)) eqn:E; [|lia].
  pose proof (scanned_future now t Hn Hok E). lia.
Qed.

End scan.

(** A periodic timer, due, on a notification nobody waits for. *)
Definition demo_caps : captab :=
  mk_captab 2 (fun i => if i =? 0 then mk_kcap CAP_KIND_NOTIFICATION 7 0 0 0 else mk_kcap CAP_KIND_TIMER 7 0 0 0) 128
    (fun _ => mk_notif 4 0 true) 1 (fun _ => mk_timer true true 100 0 3 7) 1.
Definition demo_config : Config := Build_Config 0x2000 0x3000 0 [] [].
Definition demo_kstate : kstate unit :=
  (kstate_zero (mk_kmem demo_mach (mk_kheap 0 0 0) segments_init attaches_init) tt) <| k_caps := demo_caps |>.


(** * The table names only existing objects, and callers are confined *)
Record cap_inv (c : captab) (u : untyped) : Prop := {
  ci_untyped : 0 <= watermark u <= region_size u /\ region_size u <= 2 ^ 35;
  ci_count : 0 <= kcap_count c <= kcap_capacity c /\ kcap_capacity c <= 2 ^ 30;
  ci_notif : 0 <= notif_count c <= MAX_NOTIFICATIONS;
  ci_timer : 0 <= timer_count c <= MAX_TIMERS;
  ci_notif_cap : forall i, 0 <= i < kcap_count c -> c_kind (kcap_table c i) = CAP_KIND_NOTIFICATION ->
    0 <= c_addr (kcap_table c i) < notif_count c;
  ci_timer_cap : forall i, 0 <= i < kcap_count c -> c_kind (kcap_table c i) = CAP_KIND_TIMER ->
    0 <= c_addr (kcap_table c i) < timer_count c;
  ci_armed : forall i, 0 <= i < timer_count c -> tm_armed (timer_table c i) = true ->
    0 <= tm_notif_idx (timer_table c i) < notif_count c
}.

Definition names (c : captab) (kind addr slot : Z) : Prop :=
  0 <= slot < kcap_count c /\ c_kind (kcap_table c slot) = kind /\ c_addr (kcap_table c slot) = addr.

(** The effect of an operation by [caller]. *)
Record confined (caller : Z) (c c' : captab) : Prop := {
  cf_count : kcap_count c <= kcap_count c';
  cf_objs : notif_count c <= notif_count c' /\ timer_count c <= timer_count c';
  cf_old : forall i, 0 <= i < kcap_count c ->
    c_owner (kcap_table c' i) = c_owner (kcap_table c i) /\ c_addr (kcap_table c' i) = c_addr (kcap_table c i) /\
    (c_kind (kcap_table c' i) = c_kind (kcap_table c i) \/ c_kind (kcap_table c' i) = CAP_KIND_INVALID) /\
    (c_owner (kcap_table c i) <> caller -> kcap_table c' i = kcap_table c i);
  cf_new : forall i, kcap_count c <= i < kcap_count c' ->
    c_owner (kcap_table c' i) = caller /\
    (c_kind (kcap_table c' i) = CAP_KIND_NOTIFICATION -> notif_count c <= c_addr (kcap_table c' i)) /\
    (c_kind (kcap_table c' i) = CAP_KIND_TIMER -> timer_count c <= c_addr (kcap_table c' i));
  cf_notif : forall n, 0 <= n < notif_count c ->
    (forall slot, names c CAP_KIND_NOTIFICATION n slot -> c_owner (kcap_table c slot) <> caller) ->
    notif_table c' n = notif_table c n;
  cf_timer : forall n, 0 <= n < timer_count c ->
    (forall slot, names c CAP_KIND_TIMER n slot -> c_owner (kcap_table c slot) <> caller) ->
    timer_table c' n = timer_table c n
}.

Lemma confined_refl caller c : confined caller c c.
Proof. split; try done; [intros i Hi; auto|intros i Hi; lia]. Qed.

Section confinement.
Context {D : Type} `{!Config}.
Implicit Types k : kstate D.

Definition kinv k : Prop := cap_inv (k_caps k) (untyped_st (kmach k)).
(** Invariant and confinement of one operation. *)
Definition good (caller : Z) k k' : Prop := kinv k' /\ confined caller (k_caps k) (k_caps k').

Lemma good_refl caller k : kinv k -> good caller k k.
Proof. split; [done|apply confined_refl]. Qed.

Lemma validate_Some caller slot want k cap :
  0 <= slot -> validate caller slot want k = Some cap ->
  names (k_caps k) want (c_addr cap) slot /\ c_owner (kcap_table (k_caps k) slot) = caller /\
  cap = kcap_table (k_caps k) slot.
Proof.
  intros Hs. unfold validate, names. destruct (slot >=? _) eqn:E1; [done|].
  destruct (c_owner _ =? caller) eqn:E2; [|done]. destruct (c_kind _ =? want) eqn:E3; [|done].
  intros [= <-]. split; [split; [lia|split; [lia|done]]|]. split; [lia|done].
Qed.

(** Bounds of one allocation of untyped memory. *)
Lemma untyped_alloc_bounds size u m f u' m' :
  0 <= watermark u <= region_size u -> region_size u <= 2 ^ 35 -> 0 <= size <= 2 ^ 37 ->
  untyped_alloc size u m = (f, u', m') ->
  0 <= watermark u' <= region_size u' /\ region_size u' = region_size u /\ (f <> 0 -> size <= region_size u).
Proof.
  intros Hw Hr Hs. unfold untyped_alloc, page_round.
  rewrite (u64_small (size + PAGE_SIZE_4K - 1)) by (unfold PAGE_SIZE_4K; lia).
  assert (E : Z.land (size + PAGE_SIZE_4K - 1) (not64 (PAGE_SIZE_4K - 1)) =
    (size + PAGE_SIZE_4K - 1) - (size + PAGE_SIZE_4K - 1) mod PAGE_SIZE_4K).
  { unfold PAGE_SIZE_4K. change (0x1000 - 1) with (2 ^ 12 - 1). by rewrite align_down_spec by lia. }
  rewrite E. pose proof (Z.mod_pos_bound (size + PAGE_SIZE_4K - 1) PAGE_SIZE_4K ltac:(done)) as Hm.
  set (a := size + PAGE_SIZE_4K - 1 - _) in *.
  assert (Ha : size <= a < size + PAGE_SIZE_4K) by (unfold a; lia). clearbody a. clear E Hm.
  set (b := if a =? 0 then PAGE_SIZE_4K else a).
  assert (Hb : 0 < b <= 2 ^ 37 + PAGE_SIZE_4K /\ size <= b).
  { unfold b, PAGE_SIZE_4K in *. destruct (a =? 0) eqn:E; lia. }
  clearbody b. unfold PAGE_SIZE_4K in *. rewrite !(u64_small (watermark u + b)) by lia.
  destruct (_ >? _) eqn:E; intros [= <- <- <-]; rsimpl; lia.
Qed.

Lemma untyped_alloc_k_spec size k f k' :
  kinv k -> 0 <= size <= 2 ^ 37 -> untyped_alloc_k size k = (f, k') ->
  kinv k' /\ k_caps k' = k_caps k /\ k_sched k' = k_sched k /\ (f <> 0 -> size <= 2 ^ 35).
Proof.
  intros [Hu H1 H2 H3 H4 H5 H6] Hs. unfold untyped_alloc_k.
  destruct (untyped_alloc size _ _) as [[g u] r] eqn:E. intros [= <- <-].
  destruct (untyped_alloc_bounds _ _ _ _ _ _ (proj1 Hu) (proj2 Hu) Hs E) as (W & R & Hf).
  unfold kset_mach, kmach. rsimpl. split; [|split; [done|split; [done|intros; lia]]].
  unfold kinv, kmach. rsimpl. split; try done. lia.
Qed.

(** A grant adds one slot, or changes nothing. *)
Lemma kcap_grant_spec owner kind addr size k rc k' :
  kinv k -> kcap_grant owner kind addr size k = (rc, k') ->
  let c := k_caps k in let c' := k_caps k' in
  k_sched k' = k_sched k /\ notif_table c' = notif_table c /\ notif_count c' = notif_count c /\
  timer_table c' = timer_table c /\ timer_count c' = timer_count c /\
  (0 <= watermark (untyped_st (kmach k')) <= region_size (untyped_st (kmach k')) /\
   region_size (untyped_st (kmach k')) <= 2 ^ 35) /\
  (0 <= kcap_count c' <= kcap_capacity c' /\ kcap_capacity c' <= 2 ^ 30) /\
  (forall i, 0 <= i < kcap_count c -> kcap_table c' i = kcap_table c i) /\
  (rc = 0 /\ kcap_count c' = kcap_count c + 1 /\
     (exists va, kcap_table c' (kcap_count c) = mk_kcap kind owner addr size va) \/
   rc = -1 /\ kcap_count c' = kcap_count c).
Proof.
  intros Hk. unfold kcap_grant, kcap_grow.
  pose proof (ci_count _ _ Hk) as Hc. pose proof (ci_untyped _ _ Hk) as Hu.
  destruct (kcap_count (k_caps k) >=? kcap_capacity (k_caps k)) eqn:Eg.
  2: { cbn [negb]. intros [= <- <-]. unfold set_caps. rsimpl. rewrite (u32_small (_ + 1)) by lia.
       split_and!; try done; try lia.
       - intros i Hi. by rewrite fn_lookup_insert_ne by lia.
       - left. split; [done|]. split; [done|]. rewrite fn_lookup_insert.
         by exists (c_mapped_va (kcap_table (k_caps k) (kcap_count (k_caps k)))). }
  set (nc := if kcap_capacity (k_caps k) =? 0 then 128 else u32 (kcap_capacity (k_caps k) * 2)).
  assert (Hnc : 0 < nc <= 2 ^ 31 /\ kcap_capacity (k_caps k) < nc).
  { unfold nc. destruct (_ =? 0) eqn:E; [lia|]. rewrite u32_small by lia. lia. }
  clearbody nc. destruct (untyped_alloc_k _ k) as [nt k1] eqn:Ea.
  rewrite u64_small in Ea by lia.
  destruct (untyped_alloc_k_spec (nc * 32) k nt k1 Hk ltac:(lia) Ea) as (Hk1 & Ec & Es & Hle).
  pose proof (ci_untyped _ _ Hk1) as Hu1.
  destruct (nt =? 0) eqn:Ent; cbn [negb]; intros [= <- <-].
  { rewrite Ec. split_and!; try done; lia. }
  unfold set_caps. rsimpl. rewrite Ec, (u32_small (_ + 1)) by lia. apply Z.eqb_neq in Ent. specialize (Hle Ent).
  split_and!; try done; try lia.
  - intros i Hi. rewrite fn_lookup_insert_ne by lia. by replace (_ && _) with true by lia.
  - left. split; [done|]. split; [done|]. rewrite fn_lookup_insert.
    replace (_ && _) with false by lia. by exists 0.
Qed.

Lemma grant_good caller kind addr size k0 k1 rc k2 :
  kinv k1 -> confined caller (k_caps k0) (k_caps k1) -> kcap_count (k_caps k1) = kcap_count (k_caps k0) ->
  (kind = CAP_KIND_NOTIFICATION -> notif_count (k_caps k0) <= addr < notif_count (k_caps k1) /\ 0 <= addr) ->
  (kind = CAP_KIND_TIMER -> timer_count (k_caps k0) <= addr < timer_count (k_caps k1) /\ 0 <= addr) ->
  kcap_grant caller kind addr size k1 = (rc, k2) -> good caller k0 k2.
Proof.
  intros Hk1 [F1 F2 F3 F4 F5 F6] Ecnt Hn Ht Eg.
  destruct (kcap_grant_spec _ _ _ _ _ _ _ Hk1 Eg) as (_ & N1 & N2 & T1 & T2 & U & C & Hold & Hnew).
  destruct Hk1 as [_ C1 HN HT HNc HTc HA].
  assert (Hcase : forall i, 0 <= i < kcap_count (k_caps k2) ->
    (i < kcap_count (k_caps k1) /\ kcap_table (k_caps k2) i = kcap_table (k_caps k1) i) \/
    (kcap_count (k_caps k1) <= i /\ exists va, kcap_table (k_caps k2) i = mk_kcap kind caller addr size va)).
  { intros i Hi. destruct (decide (i < kcap_count (k_caps k1))); [left; split; [done|apply Hold; lia]|right].
    split; [lia|]. destruct Hnew as [(_ & E & va & Hva)|[_ E]]; [|lia].
    assert (i = kcap_count (k_caps k1)) as -> by lia. eauto. }
  split.
  - split; [done|done|by rewrite N2|by rewrite T2| | |].
    + intros i Hi. rewrite N2. destruct (Hcase i Hi) as [[Hl ->]|[_ [va ->]]]; [apply HNc; lia|]. cbn. intros E.
      specialize (Hn E). lia.
    + intros i Hi. rewrite T2. destruct (Hcase i Hi) as [[Hl ->]|[_ [va ->]]]; [apply HTc; lia|]. cbn. intros E.
      specialize (Ht E). lia.
    + rewrite N2, T1, T2. done.
  - split; rewrite ?N1, ?N2, ?T1, ?T2; try done.
    + destruct Hnew as [(_ & -> & _)|[_ ->]]; lia.
    + intros i Hi. rewrite Hold by lia. by apply F3.
    + intros i Hi. destruct (Hcase i ltac:(lia)) as [[Hl _]|[_ [va ->]]]; [lia|]. cbn. split; [done|].
      split; [intros E; specialize (Hn E); lia|intros E; specialize (Ht E); lia].
Qed.

Lemma grant_out_good caller kind addr size out k0 k1 r k2 :
  kinv k1 -> confined caller (k_caps k0) (k_caps k1) -> kcap_count (k_caps k1) = kcap_count (k_caps k0) ->
  (kind = CAP_KIND_NOTIFICATION -> notif_count (k_caps k0) <= addr < notif_count (k_caps k1) /\ 0 <= addr) ->
  (kind = CAP_KIND_TIMER -> timer_count (k_caps k0) <= addr < timer_count (k_caps k1) /\ 0 <= addr) ->
  grant_out caller kind addr size out k1 = (r, k2) -> good caller k0 k2.
Proof.
  intros ? ? ? ? ?. unfold grant_out. destruct (kcap_grant caller kind addr size k1) as [rc k3] eqn:E.
  assert (good caller k0 k3) by (by eapply grant_good).
  destruct rc; by intros [= _ <-].
Qed.

(** Steps that leave the capability state alone. *)
Lemma good_same caller k0 k1 k2 :
  good caller k0 k1 -> k_caps k2 = k_caps k1 -> untyped_st (kmach k2) = untyped_st (kmach k1) -> good caller k0 k2.
Proof. unfold good, kinv. by intros [? ?] -> ->. Qed.

Lemma alloc_good caller k f k1 :
  kinv k -> untyped_alloc_k PAGE_SIZE_4K k = (f, k1) -> good caller k k1 /\ k_caps k1 = k_caps k.
Proof.
  intros Hk E. destruct (untyped_alloc_k_spec PAGE_SIZE_4K k f k1 Hk ltac:(unfold PAGE_SIZE_4K; lia) E) as (H1 & H2 & _).
  split; [|done]. split; [done|]. rewrite H2. apply confined_refl.
Qed.

Lemma retype_notification_good caller k r k' :
  kinv k -> retype_notification caller k = (r, k') -> good caller k k'.
Proof.
  intros Hk. unfold retype_notification. destruct (_ >=? _) eqn:E1; [intros [= _ <-]; by apply good_refl|].
  destruct (untyped_alloc_k PAGE_SIZE_4K k) as [f k1] eqn:Ea.
  destruct (alloc_good caller _ _ _ Hk Ea) as [G1 Ec]. destruct (f =? 0); [by intros [= _ <-]|].
  pose proof (ci_notif _ _ Hk) as Hn. rewrite Ec.
  intros Eg. eapply (grant_out_good _ _ _ _ _ k); [| | | | |exact Eg]; unfold set_caps, kinv; rsimpl;
    rewrite ?Ec, ?(u32_small (_ + 1)) by lia; [| |done|intros _; lia|done].
  - destruct G1 as [[U C HN HT HNc HTc HA] _]. rewrite Ec in *. unfold kmach in *. split; rsimpl; try done.
    + lia.
    + intros i Hi E. specialize (HNc i Hi E). lia.
    + intros i Hi E. specialize (HA i Hi E). lia.
  - split; rsimpl; try done; try lia.
    + intros i Hi; auto.
    + intros n Hn' _. by rewrite fn_lookup_insert_ne by lia.
Qed.

Lemma retype_timer_good caller k r k' :
  kinv k -> retype_timer caller k = (r, k') -> good caller k k'.
Proof.
  intros Hk. unfold retype_timer. destruct (_ >=? _) eqn:E1; [intros [= _ <-]; by apply good_refl|].
  destruct (untyped_alloc_k PAGE_SIZE_4K k) as [f k1] eqn:Ea.
  destruct (alloc_good caller _ _ _ Hk Ea) as [G1 Ec]. destruct (f =? 0); [by intros [= _ <-]|].
  pose proof (ci_timer _ _ Hk) as Hn. rewrite Ec.
  intros Eg. eapply (grant_out_good _ _ _ _ _ k); [| | | | |exact Eg]; unfold set_caps, kinv; rsimpl;
    rewrite ?Ec, ?(u32_small (_ + 1)) by lia; [| |done|done|intros _; lia].
  - destruct G1 as [[U C HN HT HNc HTc HA] _]. rewrite Ec in *. unfold kmach in *. split; rsimpl; try done.
    + lia.
    + intros i Hi E. specialize (HTc i Hi E). lia.
    + intros i Hi. destruct (decide (i = timer_count (k_caps k))) as [->|];
        [by rewrite fn_lookup_insert|rewrite fn_lookup_insert_ne by done]. apply HA. lia.
  - split; rsimpl; try done; try lia.
    + intros i Hi; auto.
    + intros n Hn' _. by rewrite fn_lookup_insert_ne by lia.
Qed.

Lemma set_mach_good caller k0 k1 m :
  good caller k0 k1 -> same_regions (kmach k1) m -> good caller k0 (kset_mach m k1).
Proof. intros G E. apply (good_same _ _ k1); [done|done|]. unfold kset_mach, kmach. rsimpl. by rewrite E. Qed.

Lemma set_slot_good caller k0 k1 slot f :
  good caller k0 k1 -> 0 <= slot < kcap_count (k_caps k1) ->
  (forall c, c_owner (f c) = c_owner c /\ c_addr (f c) = c_addr c /\
     (c_kind (f c) = c_kind c \/ c_kind (f c) = CAP_KIND_INVALID)) ->
  c_owner (kcap_table (k_caps k1) slot) = caller ->
  (slot < kcap_count (k_caps k0) -> c_owner (kcap_table (k_caps k0) slot) = caller) ->
  good caller k0 (set_caps (fun c => c <| kcap_table := <[slot := f (kcap_table c slot)]> (kcap_table c) |>) k1).
Proof.
  intros [[U C HN HT HNc HTc HA] [F1 F2 F3 F4 F5 F6]] Hs Hf Ho Ho0. unfold good, kinv, set_caps, kmach. rsimpl.
  assert (Hcase : forall i, (<[slot := f (kcap_table (k_caps k1) slot)]> (kcap_table (k_caps k1))) i =
    if decide (i = slot) then f (kcap_table (k_caps k1) i) else kcap_table (k_caps k1) i).
  { intros i. destruct (decide (i = slot)) as [->|]; [by rewrite fn_lookup_insert|by rewrite fn_lookup_insert_ne]. }
  split; split; rsimpl; try done.
  - intros i Hi. rewrite Hcase. destruct (Hf (kcap_table (k_caps k1) i)) as (E1 & E2 & E3).
    destruct (decide (i = slot)); [|by apply HNc]. intros E. rewrite E2. apply HNc; [done|].
    destruct E3 as [<-|E3]; [done|]. rewrite E3 in E. done.
  - intros i Hi. rewrite Hcase. destruct (Hf (kcap_table (k_caps k1) i)) as (E1 & E2 & E3).
    destruct (decide (i = slot)); [|by apply HTc]. intros E. rewrite E2. apply HTc; [done|].
    destruct E3 as [<-|E3]; [done|]. rewrite E3 in E. done.
  - intros i Hi. rewrite Hcase. destruct (F3 i Hi) as (A1 & A2 & A3 & A4).
    destruct (decide (i = slot)) as [->|]; [|done]. destruct (Hf (kcap_table (k_caps k1) slot)) as (E1 & E2 & E3).
    rewrite E1, E2. split; [done|]. split; [done|]. split; [|intros Hne; by destruct Hne; apply Ho0; lia].
    destruct E3 as [->| ->]; [done|by right].
  - intros i Hi. rewrite Hcase. destruct (F4 i Hi) as (A1 & A2 & A3).
    destruct (decide (i = slot)) as [->|]; [|done]. destruct (Hf (kcap_table (k_caps k1) slot)) as (E1 & E2 & E3).
    rewrite E1, E2. split; [done|]. destruct E3 as [->| ->]; [done|]. split; done.
Qed.

Lemma retype_frame_good caller ct k r k' :
  kinv k -> retype_frame caller ct k = (r, k') -> good caller k k'.
Proof.
  intros Hk. unfold retype_frame. destruct (untyped_alloc_k PAGE_SIZE_4K k) as [f k1] eqn:Ea.
  destruct (alloc_good caller _ _ _ Hk Ea) as [G1 Ec]. destruct (f =? 0); [by intros [= _ <-]|].
  match goal with |- context [if _ =? 0 then ?a else _] => set (x := if _ =? 0 then a else _) end.
  assert (Hx : good caller k x.2 /\ k_caps x.2 = k_caps k).
  { unfold x. destruct (_ =? 0); [|done]. destruct (arch_vm_map_page _ _ _ _ _) as [rc m] eqn:Em. cbn [snd].
    split; [|done]. apply set_mach_good; [done|].
    pose proof (map_page_regions (t_address_space (kthr ct k1)) ROOT_OWN_FRAME_VA f
      (Z.lor (Z.lor VM_PROT_READ VM_PROT_WRITE) VM_PROT_USER) (kmach k1)) as Hr. by rewrite Em in Hr. }
  destruct x as [[va rc] k2]. cbn [snd] in Hx. destruct Hx as [G2 Ec2].
  destruct (rc =? 0); cbn [negb]; [|by intros [= _ <-]].
  destruct (kcap_grant caller CAP_KIND_FRAME f PAGE_SIZE_4K k2) as [rc2 k3] eqn:Eg.
  assert (G3 : good caller k k3) by (by apply (grant_good caller CAP_KIND_FRAME f PAGE_SIZE_4K k k2 rc2 k3 (proj1 G2) (proj2 G2)); rewrite ?Ec2).
  destruct rc2; [|by intros [= _ <-]|by intros [= _ <-]]. intros [= _ <-].
  destruct (kcap_grant_spec _ _ _ _ _ _ _ (proj1 G2) Eg) as (_ & _ & _ & _ & _ & _ & C & _ & Hnew).
  destruct Hnew as [(_ & En & v & Hv)|[? _]]; [|done]. rewrite Ec2 in En, Hv.
  pose proof (ci_count _ _ Hk) as Hck. rewrite u32_small by lia.
  replace (kcap_count (k_caps k3) - 1) with (kcap_count (k_caps k)) by lia.
  apply (set_slot_good caller k k3 (kcap_count (k_caps k)) (fun c => c <| c_mapped_va := va |>)); [done|lia| | |lia].
  - intros c. rsimpl. auto.
  - by rewrite Hv.
Qed.

Lemma retype_addrspace_good caller k r k' :
  kinv k -> retype_addrspace caller k = (r, k') -> good caller k k'.
Proof.
  intros Hk. unfold retype_addrspace. destruct (untyped_alloc_k PAGE_SIZE_4K k) as [f k1] eqn:Ea.
  destruct (alloc_good caller _ _ _ Hk Ea) as [G1 Ec]. destruct (f =? 0); [by intros [= _ <-]|].
  pose proof (create_space_regions boot_pdpt (kmach k1)) as Hr.
  destruct (arch_vm_create_address_space boot_pdpt (kmach k1)) as [asp m]. cbn [snd] in Hr.
  pose proof (set_mach_good caller k k1 m G1 Hr) as G2. destruct (asp =? 0); [by intros [= _ <-]|].
  intros Eg. apply (grant_out_good caller CAP_KIND_ADDRSPACE asp 0 asp k _ r k' (proj1 G2) (proj2 G2)); [|done..].
  unfold kset_mach. rsimpl. by rewrite Ec.
Qed.

Lemma retype_tcb_good caller a e st fs k r k' :
  kinv k -> retype_tcb caller a e st fs k = (r, k') -> good caller k k'.
Proof.
  intros Hk. unfold retype_tcb. destruct (validate caller _ CAP_KIND_ADDRSPACE k) as [ac|]; [|intros [= _ <-]; by apply good_refl].
  destruct (validate caller _ CAP_KIND_FRAME k) as [fc|]; [|intros [= _ <-]; by apply good_refl].
  destruct (untyped_alloc_k PAGE_SIZE_4K k) as [f k1] eqn:Ea.
  destruct (alloc_good caller _ _ _ Hk Ea) as [G1 Ec]. destruct (f =? 0); [by intros [= _ <-]|].
  pose proof (map_page_regions (c_addr ac) e (c_addr fc)
    (Z.lor (Z.lor (Z.lor VM_PROT_READ VM_PROT_WRITE) VM_PROT_EXEC) VM_PROT_USER) (kmach k1)) as Hr.
  destruct (arch_vm_map_page _ _ _ _ _) as [rc m]. cbn [snd] in Hr.
  pose proof (set_mach_good caller k k1 m G1 Hr) as G2.
  destruct (rc =? 0); cbn [negb]; [|by intros [= _ <-]].
  destruct (thread_create_user_locked _ _ _ _ _ _ _ _) as [[t|] s].
  2: { intros [= _ <-]. by apply (good_same _ _ _ _ G2). }
  intros Eg. assert (G3 : good caller k ((kset_mach m k1) <| k_sched := s |>)) by (by apply (good_same _ _ _ _ G2)).
  eapply (grant_out_good caller CAP_KIND_TCB _ 0 _ k _ r k' (proj1 G3) (proj2 G3)); [|done..].
  unfold kset_mach. rsimpl. by rewrite Ec.
Qed.

Lemma set_notif_good caller k slot idx n k2 :
  kinv k -> names (k_caps k) CAP_KIND_NOTIFICATION idx slot -> c_owner (kcap_table (k_caps k) slot) = caller ->
  k_caps k2 = (k_caps k) <| notif_table := <[idx := n]> (notif_table (k_caps k)) |> ->
  untyped_st (kmach k2) = untyped_st (kmach k) -> good caller k k2.
Proof.
  intros [U C HN HT HNc HTc HA] Hs Ho Ec Eu. unfold good, kinv. rewrite Ec, Eu. split; split; rsimpl; try done.
  - intros i Hi; auto.
  - intros i Hi; lia.
  - intros m Hm Hno. destruct (decide (m = idx)) as [->|]; [|by rewrite fn_lookup_insert_ne].
    by destruct (Hno slot Hs).
Qed.

Lemma set_timer_good caller k slot idx t k2 :
  kinv k -> names (k_caps k) CAP_KIND_TIMER idx slot -> c_owner (kcap_table (k_caps k) slot) = caller ->
  (tm_armed t = true -> 0 <= tm_notif_idx t < notif_count (k_caps k)) ->
  k_caps k2 = (k_caps k) <| timer_table := <[idx := t]> (timer_table (k_caps k)) |> ->
  untyped_st (kmach k2) = untyped_st (kmach k) -> good caller k k2.
Proof.
  intros [U C HN HT HNc HTc HA] Hs Ho Ht Ec Eu. unfold good, kinv. rewrite Ec, Eu. split; split; rsimpl; try done.
  - intros i Hi. destruct (decide (i = idx)) as [->|]; [by rewrite fn_lookup_insert|].
    rewrite fn_lookup_insert_ne by done. by apply HA.
  - intros i Hi; auto.
  - intros i Hi; lia.
  - intros m Hm Hno. destruct (decide (m = idx)) as [->|]; [|by rewrite fn_lookup_insert_ne].
    by destruct (Hno slot Hs).
Qed.

(** ** The operations of a thread on its capabilities *)
Inductive cap_op :=
  | ORetype (untyped_slot kind as_slot entry stack frame_slot : Z)
  | OSignal (slot bits : Z)
  | OWait (slot : Z)
  | OPoll (slot : Z)
  | OArm (timer_slot notif_slot ticks_from_now bits period : Z)
  | ODisarm (slot : Z)
  | ORevoke (slot : Z).
(** Slot numbers are 32-bit. *)
Definition cap_exec (cpu caller : Z) (op : cap_op) k : kstate D :=
  match op with
  | ORetype us kind a e st f => (cap_retype caller (u32 us) (u32 kind) a e st f k).2
  | OSignal sl bits => (cap_notif_signal cpu caller (u32 sl) bits k).2
  | OWait sl => (cap_notif_wait_begin caller (u32 sl) k).2
  | OPoll sl => (cap_notif_poll caller (u32 sl) k).2
  | OArm t n ticks bits p => (cap_timer_arm caller (u32 t) (u32 n) ticks bits p k).2
  | ODisarm sl => (cap_timer_disarm caller (u32 sl) k).2
  | ORevoke sl => (cap_revoke_frame cpu caller (u32 sl) k).2
  end.
Fixpoint cap_run (cpu : Z) (ops : list (Z * cap_op)) k : kstate D :=
  match ops with
  | [] => k
  | (caller, op) :: ops => cap_run cpu ops (cap_exec cpu caller op k)
  end.

Lemma deliver_untyped cpu idx bits k : kmach (notif_deliver cpu idx bits k) = kmach k.
Proof.
  unfold notif_deliver. rsimpl. destruct (_ =? 0); cbn [negb]; [done|]. by destruct (kget _ k).
Qed.

Lemma retype_good caller us kind a e st fs k :
  kinv k -> good caller k (cap_retype caller us kind a e st fs k).2.
Proof.
  intros Hk. unfold cap_retype. destruct (validate caller us CAP_KIND_UNTYPED k); [|by apply good_refl].
  destruct (kget caller k) as [ct|]; [|by apply good_refl].
  destruct (kind =? CAP_KIND_FRAME).
  { destruct (retype_frame caller ct k) as [r k'] eqn:E. by eapply retype_frame_good. }
  destruct (kind =? CAP_KIND_ADDRSPACE).
  { destruct (retype_addrspace caller k) as [r k'] eqn:E. by eapply retype_addrspace_good. }
  destruct (kind =? CAP_KIND_TCB).
  { destruct (retype_tcb caller a e st fs k) as [r k'] eqn:E. by eapply retype_tcb_good. }
  destruct (kind =? CAP_KIND_NOTIFICATION).
  { destruct (retype_notification caller k) as [r k'] eqn:E. by eapply retype_notification_good. }
  destruct (kind =? CAP_KIND_TIMER); [|by apply good_refl].
  destruct (retype_timer caller k) as [r k'] eqn:E. by eapply retype_timer_good.
Qed.

Lemma arm_good caller t n ticks bits p k :
  kinv k -> 0 <= t -> 0 <= n -> good caller k (cap_timer_arm caller t n ticks bits p k).2.
Proof.
  intros Hk Ht Hn. unfold cap_timer_arm.
  destruct (validate caller t CAP_KIND_TIMER k) as [tc|] eqn:Et; [|by apply good_refl].
  destruct (validate caller n CAP_KIND_NOTIFICATION k) as [nc|] eqn:En; [|by apply good_refl]. cbn [snd].
  destruct (validate_Some _ _ _ _ _ Ht Et) as (N1 & O1 & ->). destruct (validate_Some _ _ _ _ _ Hn En) as (N2 & O2 & ->).
  eapply (set_timer_good caller k t _ _ _ Hk N1 O1); [|reflexivity|reflexivity]. rsimpl. intros _.
  destruct N2 as (Hb & Hkd & _). pose proof (ci_notif_cap _ _ Hk n Hb Hkd) as Ha. pose proof (ci_notif _ _ Hk) as Hc.
  rewrite i32_small by lia. lia.
Qed.

Lemma notif_op_good caller slot k :
  kinv k -> 0 <= slot ->
  good caller k (cap_notif_wait_begin caller slot k).2 /\ good caller k (cap_notif_poll caller slot k).2 /\
  forall cpu bits, good caller k (cap_notif_signal cpu caller slot bits k).2.
Proof.
  intros Hk Hs. unfold cap_notif_wait_begin, cap_notif_poll, cap_notif_signal.
  destruct (validate caller slot CAP_KIND_NOTIFICATION k) as [cap|] eqn:E; [|cbn; auto using good_refl].
  destruct (validate_Some _ _ _ _ _ Hs E) as (N & O & Ecap). pose proof (ci_notif _ _ Hk) as Hc.
  pose proof N as (Hb & Hkd & Ha). pose proof (ci_notif_cap _ _ Hk slot Hb Hkd) as Hr.   split; [|split].
  - destruct (negb _); cbn [snd]; (eapply set_notif_good; [done..|reflexivity|reflexivity]).
  - destruct (_ =? 0); cbn [snd]; [by apply good_refl|]. eapply set_notif_good; [done..|reflexivity|reflexivity].
  - intros cpu bits. cbn [snd]. rewrite i32_small by lia.
    destruct (deliver_caps cpu (c_addr cap) bits k) as (n & En & _).
    eapply set_notif_good; [done..|exact En|]. by rewrite deliver_untyped.
Qed.

Lemma cap_exec_good cpu caller op k : kinv k -> good caller k (cap_exec cpu caller op k).
Proof.
  intros Hk. assert (Hu : forall x, 0 <= u32 x) by (intros x; pose proof (u32_range x); lia).
  destruct op; cbn [cap_exec].
  - by apply retype_good.
  - by apply notif_op_good.
  - by apply notif_op_good.
  - by apply notif_op_good.
  - by apply arm_good.
  - unfold cap_timer_disarm. destruct (validate caller _ CAP_KIND_TIMER k) as [c|] eqn:E; [|by apply good_refl]. cbn [snd].
    destruct (validate_Some _ _ _ _ _ (Hu slot) E) as (N & O & _).
    eapply (set_timer_good caller k _ _ _ _ Hk N O); [|reflexivity|reflexivity]. by rsimpl.
  - unfold cap_revoke_frame. destruct (validate caller _ CAP_KIND_FRAME k) as [c|] eqn:E; [|by apply good_refl].
    destruct (_ =? 0); [by apply good_refl|]. destruct (kget caller k) as [t|]; [|by apply good_refl]. cbn [snd].
    destruct (validate_Some _ _ _ _ _ (Hu slot) E) as ((Hb & _) & O & _).
    apply (set_slot_good caller k _ (u32 slot) (fun c => c <| c_kind := CAP_KIND_INVALID |>));
      [apply set_mach_good; [by apply good_refl|apply unmap_page_regions]|done|rsimpl; auto|done|done].
Qed.

(** A slot never changes its owner. *)
Lemma owner_stable cpu ops k i :
  kinv k -> 0 <= i < kcap_count (k_caps k) ->
  c_owner (kcap_table (k_caps (cap_run cpu ops k)) i) = c_owner (kcap_table (k_caps k) i).
Proof.
  revert k. induction ops as [|[caller op] ops IH]; intros k Hk Hi; cbn [cap_run]; [done|].
  destruct (cap_exec_good cpu caller op k Hk) as [Hk1 F]. pose proof (cf_count _ _ _ F).
  rewrite IH by (done || lia). by apply F.
Qed.

(** No capability of anybody but [T] names notification [n]. *)
Definition only_of (T n : Z) (c : captab) : Prop :=
  0 <= n < notif_count c /\
  forall slot, names c CAP_KIND_NOTIFICATION n slot -> c_owner (kcap_table c slot) = T.

End confinement.


(** * Notifications lose no bits *)
Section notifications.
Context {D : Type} `{!Config}.
Implicit Types k : kstate D.

(** The notification an operation of [caller] on [slot] is about. *)
Definition about (caller slot idx : Z) k : bool :=
  match validate caller (u32 slot) CAP_KIND_NOTIFICATION k with Some cap => c_addr cap =? idx | None => false end.

(** The bits an operation adds to notification [idx]. *)
Definition sent (idx caller : Z) (op : cap_op) k : Z :=
  match op with OSignal slot bits => if about caller slot idx k then bits else 0 | _ => 0 end.
(** The bits of [idx] a thread is handed: the caller of a poll or a wait in
    its result, a blocked waiter in register r8 when a signal wakes it. *)
Definition received (cpu idx caller : Z) (op : cap_op) k : Z :=
  match op with
  | OPoll slot => if about caller slot idx k then (cap_notif_poll caller (u32 slot) k).1.2 else 0
  | OWait slot => if about caller slot idx k then (cap_notif_wait_begin caller (u32 slot) k).1.2 else 0
  | OSignal slot bits =>
      if about caller slot idx k then
        match kget (n_waiter (notif_table (k_caps k) idx)) k with
        | Some w => r8 (t_uctx (kthr w (cap_exec cpu caller op k)))
        | None => 0
        end
      else 0
  | _ => 0
  end.
Fixpoint totals (cpu idx : Z) (ops : list (Z * cap_op)) k : Z * Z :=
  match ops with
  | [] => (0, 0)
  | (caller, op) :: ops =>
      let '(s, r) := totals cpu idx ops (cap_exec cpu caller op k) in
      (Z.lor (sent idx caller op k) s, Z.lor (received cpu idx caller op k) r)
  end.
Definition notif_op (op : cap_op) : Prop := match op with OSignal _ _ | OWait _ | OPoll _ => True | _ => False end.
Definition alive tid k : Prop := is_Some (kget tid k).
Definition waiter_alive idx k : Prop :=
  n_waiter (notif_table (k_caps k) idx) <> 0 -> alive (n_waiter (notif_table (k_caps k) idx)) k.

Lemma wake_alive cpu t g k tid :
  (forall u, t_state (g u) = t_state u) -> alive tid k -> alive tid (kwake cpu t (kupd t g k)).
Proof.
  intros Hg. unfold alive, kget, kwake, kupd, sched_get_tcb. rsimpl.
  destruct (_ || _); [by intros [? ?]|]. destruct (sched_wake_eff cpu t (upd t g (k_sched k))) as (Hx & _). rewrite Hx.
  destruct (decide _) as [[<- _]|_]; [by destruct (t_in_ready_q _); rsimpl|].
  rewrite upd_thr. destruct (decide _) as [<-|]; [by rewrite Hg|done].
Qed.

(** The scheduler's view of the threads survives a delivery. *)
Lemma deliver_alive cpu idx bits k tid : alive tid k -> alive tid (notif_deliver cpu idx bits k).
Proof.
  intros Ha. unfold notif_deliver. rsimpl. destruct (_ =? 0); cbn [negb]; [done|].
  destruct (kget _ k); [|done]. by apply (wake_alive cpu _ _ k).
Qed.

Lemma deliver_r8 cpu idx bits k w :
  n_waiter (notif_table (k_caps k) idx) <> 0 -> kget (n_waiter (notif_table (k_caps k) idx)) k = Some w ->
  r8 (t_uctx (kthr w (notif_deliver cpu idx bits k))) = Z.lor (n_word (notif_table (k_caps k) idx)) bits.
Proof.
  intros Hw Eg. unfold notif_deliver. rsimpl. replace (_ =? 0) with false by lia. cbn [negb]. rewrite Eg.
  unfold kthr, kwake, kuctx, kupd, set_caps. rsimpl.
  match goal with |- context [sched_wake cpu w ?s] => destruct (sched_wake_eff cpu w s) as (Hx & _) end.
  rewrite Hx. destruct (decide _); [destruct (t_in_ready_q _)|]; rsimpl; rewrite upd_same; by rsimpl.
Qed.

Notation word k idx := (n_word (notif_table (k_caps k) idx)).
(** What a step keeps of notification [idx], whose bits it adds and hands out. *)
Definition kept (idx s r : Z) k k' : Prop :=
  Z.lor (word k idx) s = Z.lor (word k' idx) r /\ waiter_alive idx k' /\ forall tid, alive tid k -> alive tid k'.

Lemma kept_other idx j n k k' :
  idx <> j -> waiter_alive idx k -> (forall tid, alive tid k -> alive tid k') ->
  k_caps k' = (k_caps k) <| notif_table := <[j := n]> (notif_table (k_caps k)) |> -> kept idx 0 0 k k'.
Proof.
  intros Hj Hw Ha Ec. unfold kept, waiter_alive. rewrite Ec. rsimpl. rewrite fn_lookup_insert_ne by done.
  split; [done|]. split; [|done]. intros Hn. by apply Ha, Hw.
Qed.

Lemma kept_same idx n s r k k' :
  k_sched k' = k_sched k -> k_caps k' = (k_caps k) <| notif_table := <[idx := n]> (notif_table (k_caps k)) |> ->
  (n_waiter n <> 0 -> alive (n_waiter n) k) -> Z.lor (word k idx) s = Z.lor (n_word n) r -> kept idx s r k k'.
Proof.
  intros Es Ec Hn Hr. unfold kept, waiter_alive, alive, kget. rewrite Ec, Es. rsimpl. rewrite fn_lookup_insert. done.
Qed.

Lemma kept_signal cpu idx j bits k :
  waiter_alive idx k ->
  kept idx (if j =? idx then bits else 0)
    (if j =? idx then match kget (n_waiter (notif_table (k_caps k) idx)) k with
                      | Some w => r8 (t_uctx (kthr w (notif_deliver cpu j bits k))) | None => 0 end else 0)
    k (notif_deliver cpu j bits k).
Proof.
  intros Hw. destruct (deliver_caps cpu j bits k) as (n & Ec & E0 & E1).
  destruct (Z.eqb_spec j idx) as [->|Hne].
  2:{ eapply kept_other; [by apply not_eq_sym|done|intros tid; apply deliver_alive|done]. }
  unfold kept, waiter_alive. rewrite Ec. rsimpl. rewrite fn_lookup_insert.
  destruct (decide (n_waiter (notif_table (k_caps k) idx) = 0)) as [Hz|Hz].
  - rewrite (E0 Hz). rsimpl. rewrite Hz. cbn [kget sched_get_tcb Z.eqb orb]. rewrite Z.lor_0_r.
    split; [done|]. split; [done|]. intros tid; apply deliver_alive.
  - destruct (E1 Hz) as [-> ->]. destruct (Hw Hz) as [w Ew]. rewrite Ew, deliver_r8 by done. rewrite Z.lor_0_l.
    split; [done|]. split; [done|]. intros tid; apply deliver_alive.
Qed.

Lemma notif_step cpu idx caller op k :
  kinv k -> notif_op op -> waiter_alive idx k -> alive caller k ->
  kept idx (sent idx caller op k) (received cpu idx caller op k) k (cap_exec cpu caller op k).
Proof.
  intros Hk Hop Hw Hc. assert (Hid : kept idx 0 0 k k) by (by split; [|split]).
  destruct op as [|slot bits|slot|slot| | |]; try done; cbn [sent received cap_exec]; unfold about.
  all: pose proof (u32_range slot) as Hs.
  - unfold cap_notif_signal. destruct (validate _ _ _ k) as [cap|] eqn:E; [|done]. cbn [snd].
    destruct (validate_Some _ _ _ _ _ (proj1 Hs) E) as ((Hb & Hkd & Ha) & _ & ->).
    pose proof (ci_notif_cap _ _ Hk _ Hb Hkd). pose proof (ci_notif _ _ Hk) as Hm.     rewrite i32_small by lia. by apply kept_signal.
  - unfold cap_notif_wait_begin. destruct (validate _ _ _ k) as [cap|]; [|done].
    destruct (Z.eqb_spec (c_addr cap) idx) as [->|Hne], (n_word (notif_table (k_caps k) _) =? 0) eqn:En; cbn [negb fst snd].
    + eapply kept_same; [done|reflexivity|by rsimpl|by rsimpl].
    + eapply kept_same; [done|reflexivity|by rsimpl|by rsimpl; rewrite Z.lor_0_r].
    + eapply kept_other; [by apply not_eq_sym|done|done|reflexivity].
    + eapply kept_other; [by apply not_eq_sym|done|done|reflexivity].
  - unfold cap_notif_poll. destruct (validate _ _ _ k) as [cap|]; [|done].
    destruct (Z.eqb_spec (c_addr cap) idx) as [->|Hne], (n_word (notif_table (k_caps k) _) =? 0) eqn:En; cbn [fst snd]; [done| |done|].
    + eapply kept_same; [done|reflexivity|by rsimpl|by rsimpl; rewrite Z.lor_0_r].
    + eapply kept_other; [by apply not_eq_sym|done|done|reflexivity].
Qed.

End notifications.

(** Thread 7 polls, waits and is woken by a signal. *)
Definition demo_live : kstate unit :=
  demo_kstate <| k_sched ::= upd (Thr 7) (fun b => b <| t_state := THREAD_STATE_WAIT_NOTIFICATION |>) |>.
Definition demo_signals : list (Z * cap_op) := [(7, OPoll 0); (7, OWait 0); (7, OSignal 0 3)].

