(* ===== verification/Exec.v ===== *)
(** * Starting programs ([src/src/core/elf.c], [src/src/core/execreq.c])

    Spawning a thread from an ELF image, replacing the image of a thread, and
    the table of requests for programs that a file server must deliver first.
    Strings are lists of bytes without the final NUL; a thread's name is kept
    by value. *)
From Stdlib Require Import ZArith Lia.
From stdpp Require Import base numbers sets list list_numbers functions.
From S2P Require Import Prelude Abi Memory Pmm PageTable Vm Pipe Shm Tcb Sched Kinfo Elf Kstate.

Notation VFS_OP_READ_BULK := (17)%Z (only parsing).
Notation EXECREQ_STAGING_SIZE := (16 * 1024 * 1024)%Z (only parsing).
(** [sizeof(robu_spawn_fd_t)] *)
Notation SPAWN_FD_SIZE := (24)%Z (only parsing).

(** A byte string as memory from address 0 on, zero beyond its end. *)
Definition as_mem (l : list Z) : mem := fun i => nth (Z.to_nat i) l 0.

Section exec.
Context {D : Type} `{!Config}.
Implicit Types k : kstate D.

Definition vm_address_space_create k : Z * kstate D :=
  let '(a, m) := arch_vm_create_address_space boot_pdpt (kmach k) in (a, kset_mach m k).
Definition vm_address_space_destroy (aspace : Z) k : kstate D :=
  kset_mach (arch_vm_destroy_address_space boot_pdpt aspace (kmach k)) k.
Definition vm_address_space_clone (src : Z) k : Z * kstate D :=
  let '(a, m) := arch_vm_clone_address_space boot_pdpt src (kmach k) in (a, kset_mach m k).

(** ** [elf.c] *)
Definition parse_image (use_cache : bool) (b : blob) k : option elf_image_t * kstate D :=
  if use_cache then let '(img, c) := elf_parse b (ram (kmach k)) (k_elf k) in (img, k <| k_elf := c |>)
  else (elf_parse_nocache b (ram (kmach k)), k).

(** The [robu_spawn_info_t] header and the descriptors behind it. *)
Definition put_spawn_info (at_ nfds : Z) (fds : list Z) (m : mem) : mem :=
  let m := st32 (st32 m at_ SPAWN_INFO_MAGIC) (at_ + 4) nfds in
  if nfds >? 0 then put_bytes m (at_ + 8) (take (Z.to_nat (nfds * SPAWN_FD_SIZE)) fds) else m.

(** The child becomes a holder of the pipes among its descriptors. *)
Definition inherit_pipes (child nfds : Z) (fds : list Z) (p : pipe_pool) : pipe_pool :=
  for_range nfds (fun i p =>
    let kind := ld32 (as_mem fds) (SPAWN_FD_SIZE * i + 4) in
    let handle := ld64 (as_mem fds) (SPAWN_FD_SIZE * i + 8) in
    if kind =? SPAWN_FD_KIND_PIPE_READ then (pipe_add_holder child handle 0 p).2
    else if kind =? SPAWN_FD_KIND_PIPE_WRITE then (pipe_add_holder child handle 1 p).2
    else p) p.

Definition elf_load_and_spawn_argv (name : list Z) (b : blob) (prio pager_tid : Z) (argv : list (list Z)) k
  : option tptr * kstate D :=
  let '(img, k) := parse_image true b k in
  match img with
  | None => (None, k)
  | Some img =>
      let '(asp, k) := vm_address_space_create k in
      if asp =? 0 then (None, k)
      else
        let '(stack_top, m) := map_segments_and_stack asp img b (kmach k) in
        let k := kset_mach m k in
        if stack_top =? 0 then (None, k)
        else
          let argv_base := u64 (stack_top + PAGE_SIZE_4K) in
          let heap_base := u64 (argv_base + 2 * PAGE_SIZE_4K) in
          let '(rc, argv_uva, m) := build_string_array_page asp argv_base argv (kmach k) in
          let k := kset_mach m k in
          if negb (rc =? 0) then (None, k)
          else
            let '(t, s) := thread_create_user_argv_locked fpu_default_state name (img_entry img) stack_top prio asp
                             pager_tid (Z.of_nat (length argv)) argv_uva 0 heap_base 0 (k_sched k) in
            (t, k <| k_sched := s |>)
  end.

(** The environment and the descriptors share one page: the strings from its
    start, the descriptors in its last 128 bytes. *)
Definition envp_info_page (asp envp_base : Z) (envp : list (list Z)) (nfds : Z) (fds : list Z) (s : mach)
  : option Z * mach :=
  let '(frame, s) := pmm_alloc_m PMM_COLOR_ANY s in
  if frame =? 0 then (None, s)
  else
    let s := (arch_vm_map_page asp envp_base frame PROT_RWU s).2 in
    let '(m, ok) := match envp with
                    | [] => (ram s, true)
                    | _ => put_strings frame envp_base (PAGE_SIZE_4K - SPAWN_INFO_RESERVED_TAIL) envp (ram s)
                    end in
    if negb ok then (None, s <| ram := m |>)
    else (Some (match envp with [] => 0 | _ => envp_base end),
          s <| ram := put_spawn_info (frame + (PAGE_SIZE_4K - SPAWN_INFO_RESERVED_TAIL)) nfds fds m |>).

Definition elf_load_and_spawn_req (name : list Z) (b : blob) (prio pager_tid : Z) (argv envp : list (list Z))
    (nfds : Z) (fds : list Z) (use_cache : bool) k : option tptr * kstate D :=
  let '(img, k) := parse_image use_cache b k in
  match img with
  | None => (None, k)
  | Some img =>
      let '(asp, k) := vm_address_space_create k in
      if asp =? 0 then (None, k)
      else
        let '(stack_top, m) := map_segments_and_stack asp img b (kmach k) in
        let k := kset_mach m k in
        if stack_top =? 0 then (None, k)
        else
          let argv_base := u64 (stack_top + PAGE_SIZE_4K) in
          let envp_base := u64 (argv_base + PAGE_SIZE_4K) in
          let info_top := u64 (envp_base + PAGE_SIZE_4K) in
          let heap_base := u64 (info_top + PAGE_SIZE_4K) in
          let '(rc, argv_uva, m) := build_string_array_page asp argv_base argv (kmach k) in
          let k := kset_mach m k in
          if negb (rc =? 0) then (None, k)
          else
            let '(envp_uva, m) := envp_info_page asp envp_base envp nfds fds (kmach k) in
            let k := kset_mach m k in
            match envp_uva with
            | None => (None, k)
            | Some envp_uva =>
                let spawn_info_va := u64 (envp_base + (PAGE_SIZE_4K - SPAWN_INFO_RESERVED_TAIL)) in
                let '(child, s) := thread_create_user_argv_locked fpu_default_state name (img_entry img) stack_top prio
                                     asp pager_tid (Z.of_nat (length argv)) argv_uva envp_uva heap_base spawn_info_va
                                     (k_sched k) in
                let k := k <| k_sched := s |> in
                match child with
                | Some c => (child, k <| k_pipes ::= inherit_pipes (t_tid (kthr c k)) nfds fds |>)
                | None => (None, k)
                end
            end
  end.

(** Default actions for every signal. *)
Definition reset_actions (b : tcb) : tcb :=
  b <| t_sig_actions := for_range ROBU_NSIG (fun i a => <[i := mk_sigaction ROBU_SIG_DFL 0 0]> a) (t_sig_actions b) |>
    <| t_in_sig_handler := false |>.

(** Replace the image of [cur]; on an error everything built is destroyed. *)
Definition elf_exec_current (cpu : Z) (cur : tptr) (b : blob) (argv envp : list (list Z)) (nfds : Z) (fds : list Z)
    (use_cache : bool) k : Z * kstate D :=
  let '(img, k) := parse_image use_cache b k in
  match img with
  | None => (-1, k)
  | Some img =>
      let '(new_as, k) := vm_address_space_create k in
      if new_as =? 0 then (-1, k)
      else
        let '(stack_top, m) := map_segments_and_stack new_as img b (kmach k) in
        let k := kset_mach m k in
        if stack_top =? 0 then (-1, vm_address_space_destroy new_as k)
        else
          let argv_base := u64 (stack_top + PAGE_SIZE_4K) in
          let envp_base := u64 (argv_base + PAGE_SIZE_4K) in
          let info_base := u64 (envp_base + PAGE_SIZE_4K) in
          let heap_base := u64 (info_base + PAGE_SIZE_4K) in
          let '(rc, argv_uva, m) := build_string_array_page new_as argv_base argv (kmach k) in
          let k := kset_mach m k in
          if negb (rc =? 0) then (-1, vm_address_space_destroy new_as k)
          else
            let '(rc, envp_uva, m) := build_string_array_page new_as envp_base envp (kmach k) in
            let k := kset_mach m k in
            if negb (rc =? 0) then (-1, vm_address_space_destroy new_as k)
            else
              let '(info_frame, m) := pmm_alloc_m PMM_COLOR_ANY (kmach k) in
              let k := kset_mach m k in
              if info_frame =? 0 then (-1, vm_address_space_destroy new_as k)
              else
                let m := (arch_vm_map_page new_as info_base info_frame PROT_RWU (kmach k)).2 in
                let m := m <| ram := put_spawn_info info_frame nfds fds (ram m) |> in
                let k := kset_mach m k in
                let old_as := t_address_space (kthr cur k) in
                let k := kupd cur (fun t => (reset_actions t) <| t_address_space := new_as |>
                           <| t_uctx := arch_uctx_init_user_argv (img_entry img) stack_top (Z.of_nat (length argv))
                                          argv_uva envp_uva heap_base info_base |>) k in
                let k := kset_mach (arch_vm_activate boot_pml4 cpu new_as (kmach k)) k in
                (0, vm_address_space_destroy old_as k)
  end.

(** ** [execreq.c] *)
Definition set_slot (i : Z) (g : execreq_slot_t -> execreq_slot_t) k : kstate D :=
  k <| k_slots := <[i := g (k_slots k i)]> (k_slots k) |>.

Definition alloc_slot k : option Z :=
  find_first EXECREQ_MAX_SLOTS (fun i => xs_eqb (xs_state (k_slots k i)) EXECREQ_EMPTY).
Definition free_slot (i : Z) k : kstate D :=
  set_slot i (fun s => s <| xs_state := EXECREQ_EMPTY |> <| xs_generation := u16 (xs_generation s + 1) |>) k.

(** The request as the message the server receives: operation, slot,
    generation and the first 24 bytes of the name. *)
Definition inject_request (ext2fs : tptr) (i : Z) (p : execreq_params_t) k : kstate D :=
  let w j := ld64 (as_mem (take 24 (x_name p))) (8 * j) in
  kuctx ext2fs (fun u => u <| r8 := VFS_OP_READ_BULK |> <| r9 := i |> <| r10 := xs_generation (k_slots k i) |>
                           <| r12 := w 0 |> <| r13 := w 1 |> <| r14 := w 2 |> <| rsi := 0 |> <| rax := IPC_ERR_NONE |>) k.

(** The file server, when it is running. *)
Definition file_server k : option tptr :=
  if ext2fs_tid (k_kinfo k) =? 0 then None else kget (ext2fs_tid (k_kinfo k)) k.
Definition waits_for_any (t : tptr) k : bool :=
  st_eqb (t_state (kthr t k)) THREAD_STATE_WAIT_RECV &&
  ((t_ipc_partner (kthr t k) =? IPC_TID_ANY) || (t_ipc_partner (kthr t k) =? 0)).

Definition execreq_submit (cpu : Z) (cur : tptr) (p : execreq_params_t) k : option Z * kstate D :=
  match file_server k with
  | None => (None, k)
  | Some ext2fs =>
      match alloc_slot k with
      | None => (None, k)
      | Some i =>
          let k := set_slot i (fun s => s <| xs_params := p |> <| xs_state := EXECREQ_QUEUED |>) k in
          let k := kupd cur (fun b => b <| t_execreq_slot := i |>) k in
          let k := k <| k_sched ::= sched_block cpu THREAD_STATE_WAIT_EXECREQ |> in
          if waits_for_any ext2fs k then
            let k := set_slot i (fun s => s <| xs_state := EXECREQ_DELIVERED |>) k in
            let k := inject_request ext2fs i p k in
            (Some i, k <| k_sched ::= sched_direct_switch cpu ext2fs |>)
          else (Some i, k)
      end
  end.

(** Slot and generation. *)
Definition execreq_submit_poll (cpu : Z) (p : execreq_params_t) k : option (Z * Z) * kstate D :=
  match file_server k with
  | None => (None, k)
  | Some ext2fs =>
      match alloc_slot k with
      | None => (None, k)
      | Some i =>
          let p := p <| x_requester_tid := 0 |> in
          let k := set_slot i (fun s => s <| xs_params := p |> <| xs_poll_child := None |>
                                          <| xs_state := EXECREQ_QUEUED |>) k in
          let k := if waits_for_any ext2fs k then
                     let k := set_slot i (fun s => s <| xs_state := EXECREQ_DELIVERED |>) k in
                     kwake cpu ext2fs (inject_request ext2fs i p k)
                   else k in
          (Some (i, xs_generation (k_slots k i)), k)
      end
  end.

Definition execreq_poll_ready (slot generation : Z) k : Z :=
  if (slot >=? EXECREQ_MAX_SLOTS) || xs_eqb (xs_state (k_slots k slot)) EXECREQ_EMPTY ||
     negb (xs_generation (k_slots k slot) =? generation) then -1
  else if xs_eqb (xs_state (k_slots k slot)) EXECREQ_POLL_DONE then 1 else 0.

Definition execreq_finish_poll_spawn (slot generation : Z) k : option tptr * kstate D :=
  if (slot >=? EXECREQ_MAX_SLOTS) || negb (xs_generation (k_slots k slot) =? generation) ||
     negb (xs_eqb (xs_state (k_slots k slot)) EXECREQ_POLL_DONE) then (None, k)
  else (xs_poll_child (k_slots k slot), free_slot slot k).

(** Slot, generation and name of the first queued request. *)
Definition execreq_try_deliver_queued (out_name_max : Z) k : option (Z * Z * list Z) * kstate D :=
  match find_first EXECREQ_MAX_SLOTS (fun i => xs_eqb (xs_state (k_slots k i)) EXECREQ_QUEUED) with
  | None => (None, k)
  | Some i =>
      (Some (i, xs_generation (k_slots k i), take (Z.to_nat (out_name_max - 1)) (x_name (xs_params (k_slots k i)))),
       set_slot i (fun s => s <| xs_state := EXECREQ_DELIVERED |>) k)
  end.

Definition fail_requester (cpu : Z) (t : tptr) k : kstate D :=
  kwake cpu t (kuctx t (fun u => u <| rax := u64 IPC_ERR_NOT_FOUND |> <| r8 := 0 |>) k).

(** The image the server left in shared memory; [None] unless it is [size]
    bytes, and not empty. *)
Definition staged_image (shmid size : Z) k : option blob :=
  let '(rc, bytes) := shm_copy_out shmid EXECREQ_STAGING_SIZE (k_mem k) in
  let copied := Z.of_nat (length bytes) in
  if negb (rc =? IPC_ERR_NONE) || negb (copied =? size) || (copied =? 0) then None else Some (InBuf bytes).

Definition spawn_request (p : execreq_params_t) (b : blob) k : option tptr * kstate D :=
  elf_load_and_spawn_req (x_name p) b (x_prio p) (x_pager_tid p) (x_argv p) (x_envp p) (x_nfds p) (x_fds p) false k.

Definition execreq_complete (cpu slot generation status shmid size : Z) k : kstate D :=
  if (slot >=? EXECREQ_MAX_SLOTS) || negb (xs_eqb (xs_state (k_slots k slot)) EXECREQ_DELIVERED) ||
     negb (xs_generation (k_slots k slot) =? generation) then k
  else
    let p := xs_params (k_slots k slot) in
    if x_requester_tid p =? 0 then
      let '(child, k) := if negb (status =? IPC_ERR_NONE) then (None, k)
                         else match staged_image shmid size k with
                              | None => (None, k)
                              | Some b => spawn_request p b k
                              end in
      set_slot slot (fun s => s <| xs_poll_child := child |> <| xs_state := EXECREQ_POLL_DONE |>) k
    else
      match kget (x_requester_tid p) k with
      | None => free_slot slot k
      | Some requester =>
          if negb (st_eqb (t_state (kthr requester k)) THREAD_STATE_WAIT_EXECREQ) ||
             negb (t_execreq_slot (kthr requester k) =? slot) then free_slot slot k
          else if negb (status =? IPC_ERR_NONE) then free_slot slot (fail_requester cpu requester k)
          else
            match staged_image shmid size k with
            | None => free_slot slot (fail_requester cpu requester k)
            | Some b =>
                let k :=
                  if x_is_spawn_create p then
                    match spawn_request p b k with
                    | (None, k) => kuctx requester (fun u => u <| rax := u64 IPC_ERR_NO_MEM |> <| r8 := 0 |>) k
                    | (Some child, k) =>
                        let k := kupd child (fun c => c <| t_parent_tid := t_tid (kthr requester k) |>) k in
                        kuctx requester (fun u => u <| rax := IPC_ERR_NONE |> <| r8 := t_tid (kthr child k) |>) k
                    end
                  else
                    let '(rc, k) := elf_exec_current cpu requester b (x_argv p) (x_envp p) (x_nfds p) (x_fds p) false k in
                    if negb (rc =? 0) then kuctx requester (fun u => u <| rax := u64 IPC_ERR_NO_MEM |>) k else k in
                free_slot slot (kwake cpu requester k)
            end
      end.

Definition execreq_cancel_requester (tid : Z) k : kstate D :=
  for_range EXECREQ_MAX_SLOTS (fun i k =>
    if negb (xs_eqb (xs_state (k_slots k i)) EXECREQ_EMPTY) && (x_requester_tid (xs_params (k_slots k i)) =? tid)
    then free_slot i k else k) k.

Definition execreq_fail_all (cpu : Z) k : kstate D :=
  for_range EXECREQ_MAX_SLOTS (fun i k =>
    if xs_eqb (xs_state (k_slots k i)) EXECREQ_EMPTY then k
    else
      let k := match kget (x_requester_tid (xs_params (k_slots k i))) k with
               | Some r => if st_eqb (t_state (kthr r k)) THREAD_STATE_WAIT_EXECREQ && (t_execreq_slot (kthr r k) =? i)
                           then fail_requester cpu r k else k
               | None => k
               end in
      free_slot i k) k.
End exec.
