(* ===== verification/Kernel.v ===== *)
(** * Threads across components ([sched.c], [spawn.c], [signal.c], [vm.c])

    The operations of the scheduler that reach into other components: the end
    of a thread, exit and wait, signals, page faults, the timer tick and the
    return to user mode. *)
From Stdlib Require Import ZArith Lia.
From stdpp Require Import base numbers sets list list_numbers functions.
From S2P Require Import Prelude Abi Memory Pmm PageTable Vm Pipe Socket Shm Tcb Sched Console Kinfo Elf Kstate Captable Exec.

(** The signals whose default action does not end the thread. *)
Definition sig_default_terminates (signum : Z) : bool :=
  negb (bool_decide (signum ∈ [SIGCHLD; SIGURG; SIGWINCH; SIGCONT; SIGSTOP; SIGTSTP; SIGTTIN; SIGTTOU])).

(** The least signal in a nonempty set of deliverable ones. *)
Definition first_signal (deliverable : Z) : option Z :=
  match find_first 64 (fun i => Z.testbit deliverable i) with Some i => Some (i + 1) | None => None end.

(** The physical address of a virtual one under the page tables at [pml4]:
    the kernel's own stores are checked for presence only (CR0.WP is clear). *)
Definition hw_paddr (m : mem) (pml4 va : Z) : option Z :=
  match walk_to_pte m pml4 va with
  | None => None
  | Some pte =>
      let e := ld64 m pte in
      if negb (has e X86_PTE_P) then None
      else Some (Z.land (pte_frame e) (not64 X86_PTE_NX) +
                 Z.land va (if has e X86_PTE_PS then PAGE_SIZE_2M - 1 else PAGE_SIZE_4K - 1))
  end.

Section kernel.
Context {D : Type} `{!Config}.
Implicit Types k : kstate D.

(** ** The end of a thread *)

(** Senders queued on a dead thread fail; [fuel] bounds the queue's length,
    at most one entry per thread. *)
Fixpoint fail_senders (fuel : nat) (cpu : Z) (s : option tptr) k : kstate D :=
  match fuel, s with
  | S fuel, Some s =>
      let next := t_sq_next (kthr s k) in
      let k := kupd s (fun b => b <| t_sq_next := None |> <| t_uctx ::= fun u => u <| rax := u64 IPC_ERR_NOT_FOUND |> |>) k in
      fail_senders fuel cpu next (kwake cpu s k)
  | _, _ => k
  end.

(** One thread of the table while [t] dies: receivers waiting for [t] fail,
    its children lose their parent; the flag says whether a live thread shares
    the address space. *)
Definition orphan_one (cpu : Z) (t : tptr) (i : Z) (a : kstate D * bool) : kstate D * bool :=
  let '(k, sibling_found) := a in
  let w := Thr (i + 1) in
  let tid := t_tid (kthr t k) in
  let k := if st_eqb (t_state (kthr w k)) THREAD_STATE_WAIT_RECV && (t_ipc_partner (kthr w k) =? tid)
           then kwake cpu w (kuctx w (fun u => u <| rax := u64 IPC_ERR_NOT_FOUND |>) k) else k in
  let st := t_state (kthr w k) in
  let sibling_found :=
    if negb (tptr_eqb w t) && negb (st_eqb st THREAD_STATE_DEAD) && negb (st_eqb st THREAD_STATE_ZOMBIE) &&
       (t_address_space (kthr w k) =? t_address_space (kthr t k)) then true else sibling_found in
  let k := if t_parent_tid (kthr w k) =? tid then
             let k := kupd w (fun b => b <| t_parent_tid := 0 |>) k in
             if st_eqb (t_state (kthr w k)) THREAD_STATE_ZOMBIE
             then kupd w (fun b => b <| t_state := THREAD_STATE_DEAD |>) k else k
           else k in
  (k, sibling_found).

(** The address space goes with its last thread. *)
Definition release_space (cpu : Z) (t : tptr) (sibling_found : bool) k : kstate D :=
  if tru (t_address_space (kthr t k)) && negb sibling_found then
    let asp := t_address_space (kthr t k) in
    let k := if tptr_eqb t (kcur cpu k) then kset_mach (arch_vm_activate boot_pml4 cpu 0 (kmach k)) k else k in
    let k := k <| k_mem ::= shm_detach_all_for_process asp |> in
    let k := vm_address_space_destroy asp k in
    kupd t (fun b => b <| t_address_space := 0 |>) k
  else k.
(** What other tables hold for thread [tid]. *)
Definition release_objects (cpu tid : Z) k : kstate D :=
  let k := kcap_invalidate_tcb_death tid k in
  let k := notif_invalidate_waiter_death tid k in
  let k := k <| k_pipes ::= pipe_invalidate_tcb_death tid |> in
  let k := k <| k_socks ::= sock_cleanup_for_process tid |> in
  let k := execreq_cancel_requester tid k in
  let k := if tid =? ext2fs_tid (k_kinfo k) then execreq_fail_all cpu k else k in
  if arch_console_get_fb_owner (k_cons k) =? tid then k <| k_cons ::= arch_console_set_fb_owner 0 |> else k.

Definition terminate_tcb (cpu : Z) (t : tptr) (final_state : thread_state_t) k : kstate D :=
  let k := kupd t (fun b => b <| t_state := final_state |>) k in
  let s := t_send_q_head (kthr t k) in
  let k := kupd t (fun b => b <| t_send_q_head := None |> <| t_send_q_tail := None |>) k in
  let k := fail_senders (Z.to_nat SCHED_MAX_THREADS) cpu s k in
  let '(k, sibling_found) := for_range (SCHED_MAX_THREADS - 1) (orphan_one cpu t) (k, false) in
  let k := release_space cpu t sibling_found k in
  release_objects cpu (t_tid (kthr t k)) k.

Definition sched_terminate_to (cpu : Z) (final_state : thread_state_t) k : kstate D :=
  let k := terminate_tcb cpu (kcur cpu k) final_state k in
  k <| k_sched ::= fun s => s <| need_resched := <[cpu := true]> (need_resched s) |> |>.
Definition sched_terminate_current (cpu : Z) k : kstate D := sched_terminate_to cpu THREAD_STATE_DEAD k.
Definition sched_terminate (cpu victim_tid : Z) k : Z * kstate D :=
  match kget victim_tid k with
  | None => (-1, k)
  | Some t =>
      if tptr_eqb t (kcur cpu k) || st_eqb (t_state (kthr t k)) THREAD_STATE_RUNNING then (-1, k)
      else (0, terminate_tcb cpu t THREAD_STATE_DEAD k)
  end.
Definition cap_destroy (cpu caller slot : Z) k : Z * kstate D :=
  match validate caller slot CAP_KIND_TCB k with
  | None => (-1, k)
  | Some cap => sched_terminate cpu (u32 (c_addr cap)) k
  end.

(** ** Exit and wait *)
Definition spawn_exit_current (cpu status : Z) k : kstate D :=
  let cur := kcur cpu k in
  let k := kupd cur (fun b => b <| t_exit_status := status |>) k in
  let c := kthr cur k in
  let parent := if tru (t_parent_tid c) then kget (t_parent_tid c) k else None in
  match parent with
  | Some p =>
      let b := kthr p k in
      if st_eqb (t_state b) THREAD_STATE_WAIT_CHILD && ((t_wait_filter b =? 0) || (t_wait_filter b =? t_tid c)) then
        let k := kuctx p (fun u => u <| rax := IPC_ERR_NONE |> <| r8 := t_tid c |> <| r9 := u64 status |>) k in
        sched_terminate_to cpu THREAD_STATE_DEAD (kwake cpu p k)
      else sched_terminate_to cpu THREAD_STATE_ZOMBIE k
  | None => sched_terminate_to cpu THREAD_STATE_DEAD k
  end.

(** 1 with the child and its status, 0 when the caller must wait, -1 without
    children. *)
Definition spawn_wait_begin (caller : tptr) (filter : Z) k : Z * (Z * Z) * kstate D :=
  match sched_find_zombie_child (t_tid (kthr caller k)) filter (k_sched k) with
  | (Some z, _) =>
      (1, (t_tid (kthr z k), t_exit_status (kthr z k)), k <| k_sched ::= sched_reap_zombie z |>)
  | (None, has_live) => ((if (has_live : bool) then 0 else -1), (0, 0), k)
  end.

(** ** Signals *)
Definition sig_trampoline_init k : kstate D :=
  let '(frame, m) := pmm_alloc_m PMM_COLOR_ANY (kmach k) in
  let m := m <| ram := put_bytes (ram m) frame sigtramp_code |> in
  kset_mach (arch_vm_map_page boot_pml4 SIGTRAMPOLINE_VA frame (Z.lor (Z.lor VM_PROT_READ VM_PROT_USER) VM_PROT_EXEC) m).2 k.

Definition sig_send (cpu target signum : Z) k : Z * kstate D :=
  if (signum <? 1) || (signum >=? ROBU_NSIG) then (-1, k)
  else
    match kget target k with
    | None => (-1, k)
    | Some t =>
        if st_eqb (t_state (kthr t k)) THREAD_STATE_DEAD || st_eqb (t_state (kthr t k)) THREAD_STATE_ZOMBIE then (-1, k)
        else (0, kwake cpu t (kupd t (fun b => b <| t_sig_pending ::= fun p => Z.lor p (bit (signum - 1)) |>) k))
    end.

Definition sched_signal_pgid (cpu pgid signum : Z) k : Z * kstate D :=
  if pgid =? 0 then (-1, k)
  else
    for_range (SCHED_MAX_THREADS - 1) (fun i '(sent, k) =>
      match kget (i + 1) k with
      | None => (sent, k)
      | Some t =>
          if negb (t_pgid (kthr t k) =? pgid) then (sent, k)
          else
            match sig_send cpu (i + 1) signum k with
            | (0, k) => (sent + 1, k)
            | (_, k) => (sent, k)
            end
      end) (0, k).

(** The context a handler starts with; the return address is stored below. *)
Definition handler_rsp (u : arch_uctx_t) : Z := u64 (Z.land (u64 (rsp u - 256)) (not64 0xF) - 8).
Definition enter_handler (signum : Z) (b : tcb) : tcb :=
  let sa := t_sig_actions b signum in
  let b' := b <| t_saved_uctx_before_sig := t_uctx b |> <| t_saved_sig_mask := t_sig_mask b |>
              <| t_sig_mask := Z.lor (t_sig_mask b) (sa_mask sa) |> in
  let b' := if negb (has (sa_flags sa) SA_NODEFER)
            then b' <| t_sig_mask := Z.lor (t_sig_mask b') (bit (signum - 1)) |> else b' in
  let b' := b' <| t_in_sig_handler := true |> in
  let b' := if has (sa_flags sa) SA_RESETHAND
            then b' <| t_sig_actions := <[signum := sa <| sa_handler := ROBU_SIG_DFL |>]> (t_sig_actions b') |> else b' in
  b' <| t_uctx ::= fun u => u <| rsp := handler_rsp (t_uctx b) |> <| rip := sa_handler sa |> <| rdi := signum |> |>.

(** The store to the user's stack goes through the page tables the CPU has
    loaded; on an unmapped stack it faults inside the kernel, which then waits
    for the lock it holds. *)
Definition push_return (cpu va : Z) k : kstate D :=
  match hw_paddr (ram (kmach k)) (loaded_cr3 (kmach k) cpu) va with
  | None => kstop StopFault k
  | Some pa => kset_mach ((kmach k) <| ram := st64 (ram (kmach k)) pa SIGTRAMPOLINE_VA |>) k
  end.

Definition sig_try_deliver (cpu : Z) (t : tptr) k : kstate D :=
  let b := kthr t k in
  if t_in_sig_handler b then k
  else
    match first_signal (Z.land (t_sig_pending b) (not64 (t_sig_mask b))) with
    | None => k
    | Some signum =>
        let k := kupd t (fun b => b <| t_sig_pending ::= fun p => Z.land p (not64 (bit (signum - 1))) |>) k in
        let h := sa_handler (t_sig_actions b signum) in
        if h =? ROBU_SIG_IGN then k
        else if h =? ROBU_SIG_DFL then
          if sig_default_terminates signum then spawn_exit_current cpu (i32 (Z.lor 0x80000000 signum)) k else k
        else
          kupd t (enter_handler signum) (push_return cpu (handler_rsp (t_uctx b)) k)
    end.

(** ** Page faults *)
Definition vm_handle_page_fault (cpu fault_addr error_code : Z) k : kstate D :=
  let cur := kcur cpu k in
  let c := kthr cur k in
  let die k := if tru (t_address_space c) then sched_terminate_current cpu k else kstop StopFault k in
  if t_pager_tid c =? 0 then die k
  else
    match kget (t_pager_tid c) k with
    | None => die k
    | Some pager =>
        let k := k <| k_sched ::= sched_block cpu THREAD_STATE_WAIT_PAGEFAULT |> in
        let p := kthr pager k in
        if st_eqb (t_state p) THREAD_STATE_WAIT_RECV && ((t_ipc_partner p =? 0) || (t_ipc_partner p =? t_tid c)) then
          let k := kupd pager (fun b => b <| t_uctx ::= fun u =>
                     u <| r8 := fault_addr |> <| r9 := error_code |> <| r10 := t_tid c |> <| rsi := t_tid c |>
                       <| rax := 0 |> |> <| t_timeslice_left := t_timeslice_left c |>) k in
          k <| k_sched ::= sched_direct_switch cpu pager |>
        else
          let '(rc, q) := fault_queue_push (k_faults k) (mk_fault fault_addr error_code (t_tid c) 0) in
          if negb (rc =? 0) then kstop StopFault (k <| k_faults := q |>) else k <| k_faults := q |>
    end.

Definition vm_take_queued_fault (rcv : tptr) k : option vm_fault_msg_t * kstate D :=
  let q := k_faults k in
  if fault_queue_empty q then (None, k)
  else
    match kget (faulting_thread (fq_entries q (fq_tail q))) k with
    | None => (None, k)
    | Some faulter =>
        if negb (t_pager_tid (kthr faulter k) =? t_tid (kthr rcv k)) then (None, k)
        else let '(_, msg, q) := fault_queue_pop q in (msg, k <| k_faults := q |>)
    end.

(** ** Ticks *)
Definition sched_tick (cpu : Z) k : kstate D :=
  let n := armed_ticks (k_sched k) cpu in
  let n := if n <? 1 then 1 else n in
  let k := k <| k_sched ::= bump (fun st => st <| timer_traps := u64 (timer_traps st + 1) |>) |> in
  let k :=
    if cpu =? 0 then
      let k := k <| k_sched ::= fun s => bump (fun st => st <| ticks := u64 (ticks st + n) |>)
                                           (s <| now_ticks := u64 (now_ticks s + n) |>) |> in
      let k := k <| k_kinfo ::= kinfo_tick n |> in
      if now_ticks (k_sched k) >=? next_deadline (k_sched k) then
        let k := k <| k_sched ::= wake_sleepers cpu |> in
        let '(k, next_timer) := cap_timer_rescan cpu (now_ticks (k_sched k)) k in
        if next_timer <? next_deadline (k_sched k)
        then k <| k_sched ::= fun s => s <| next_deadline := next_timer |> |> else k
      else k
    else k in
  k <| k_sched ::= fun s => sched_arm_next_deadline cpu (sched_tick_local cpu n s) |>.

(** ** Return to user mode *)
Definition sched_switch_to (cpu : Z) (from to : tptr) k : kstate D :=
  let k :=
    if negb (tptr_eqb to from) then
      let k := kupd from (fun b => b <| t_fpu_state := k_fpu k cpu |>) k in
      let k := k <| k_fpu := <[cpu := t_fpu_state (kthr to k)]> (k_fpu k) |> in
      if negb (t_fs_base (kthr to k) =? t_fs_base (kthr from k))
      then k <| k_fsbase := <[cpu := t_fs_base (kthr to k)]> (k_fsbase k) |> else k
    else k in
  kset_mach (arch_vm_activate boot_pml4 cpu (t_address_space (kthr to k)) (kmach k)) k.

Definition has_signal (b : tcb) : bool :=
  tru (t_address_space b) && negb (t_in_sig_handler b) && tru (Z.land (t_sig_pending b) (not64 (t_sig_mask b))).
Definition reschedule (cpu : Z) k : kstate D :=
  k <| k_sched ::= fun s => sched_arm_next_deadline cpu (schedule cpu s) |>.

(** Deliver signals until the thread to run keeps running; a stopped CPU does
    not go on.  Every further round follows the end of a thread. *)
Fixpoint signal_loop (fuel : nat) (cpu : Z) (next : tptr) k : option (kstate D) :=
  match fuel with
  | O => None
  | S fuel =>
      if negb (has_signal (kthr next k)) then Some k
      else
        let k := sig_try_deliver cpu next k in
        match k_stop k with
        | Some _ => Some k
        | None =>
            if st_eqb (t_state (kthr next k)) THREAD_STATE_RUNNING then Some k
            else
              let k := reschedule cpu k in
              let resched_next := kcur cpu k in
              signal_loop fuel cpu resched_next (sched_switch_to cpu next resched_next k)
        end
  end.
(** [None] only if the loop did not end within 65 rounds. *)
Definition sched_resume (cpu : Z) k : option (kstate D) :=
  let prev := kcur cpu k in
  let k := if need_resched (k_sched k) cpu || negb (st_eqb (t_state (kthr prev k)) THREAD_STATE_RUNNING)
           then reschedule cpu k else k in
  let next := kcur cpu k in
  signal_loop 65 cpu next (sched_switch_to cpu prev next k).

Definition enter_first (cpu : Z) k : kstate D :=
  let next := kcur cpu k in
  let k := k <| k_fpu := <[cpu := t_fpu_state (kthr next k)]> (k_fpu k) |>
             <| k_fsbase := <[cpu := t_fs_base (kthr next k)]> (k_fsbase k) |> in
  let k := k <| k_sched ::= sched_arm_next_deadline cpu |> in
  kset_mach (arch_vm_activate boot_pml4 cpu (t_address_space (kthr next k)) (kmach k)) k.
Definition sched_start (cpu : Z) k : kstate D :=
  let k := k <| k_sched ::= schedule cpu |> in
  enter_first cpu (k <| k_sched ::= bump (fun st => st <| full_scheds := 0 |>) |>).
Definition sched_join_ap (cpu : Z) k : kstate D := enter_first cpu (k <| k_sched ::= schedule cpu |>).
End kernel.
