(* ===== verification/Spawn.v ===== *)
(** * The spawn, exec and fork calls ([src/src/core/spawn.c])

    Requests are records in the caller's memory that name a program, its
    arguments, its environment and its descriptors by offset; everything is
    copied in and checked before it is used.  [spawn_scratch] and the string
    buffer are rewritten by every call, so they are values here: a string is
    the bytes copied, up to a NUL if they contain one. *)
From Stdlib Require Import ZArith Lia.
From stdpp Require Import base numbers sets list list_numbers functions.
From S2P Require Import Prelude Abi Memory Pmm PageTable Vm Pipe Tcb Sched Bootinfo Elf Kstate Exec.

Notation SPAWN_NAME_MAX := (64)%Z (only parsing).
(** [sizeof(robu_spawn_req_t)] and [sizeof(robu_spawn_str_t)] *)
Notation SPAWN_REQ_SIZE := (40)%Z (only parsing).
Notation SPAWN_STR_SIZE := (8)%Z (only parsing).

Record robu_spawn_req_t := mk_req {
  q_magic : Z; q_total_len : Z; q_name_off : Z; q_name_len : Z; q_argc : Z; q_argv_off : Z;
  q_envc : Z; q_envp_off : Z; q_nfds : Z; q_fds_off : Z
}.
Definition read_req (scratch : list Z) : robu_spawn_req_t :=
  let w i := ld32 (as_mem scratch) (4 * i) in
  mk_req (w 0) (w 1) (w 2) (w 3) (w 4) (w 5) (w 6) (w 7) (w 8) (w 9).

(** The bytes before the first NUL. *)
Fixpoint c_string (l : list Z) : list Z :=
  match l with
  | [] => []
  | c :: l => if c =? 0 then [] else c :: c_string l
  end.
Definition slice (scratch : list Z) (off len : Z) : list Z := take (Z.to_nat len) (drop (Z.to_nat off) scratch).

Definition validate_range (off len total_len : Z) : bool :=
  negb ((off >? total_len) || (len >? total_len - off)).

(** What follows the last slash. *)
Fixpoint basename (base s : list Z) : list Z :=
  match s with
  | [] => base
  | c :: s => if c =? 47 then basename s s else basename base s
  end.

Definition copy_name (scratch : list Z) (r : robu_spawn_req_t) (total_len out_cap : Z) : option (list Z) :=
  if negb (validate_range (q_name_off r) (q_name_len r) total_len) then None
  else if (q_name_len r =? 0) || (u32 (q_name_len r + 1) >? out_cap) then None
  else
    let out := c_string (slice scratch (q_name_off r) (q_name_len r)) in
    Some (basename out out).

(** The strings and the string-buffer bytes used so far. *)
Definition copy_str_array (scratch : list Z) (table_off count total_len strbuf_cap used : Z)
  : option (list (list Z) * Z) :=
  if count =? 0 then Some ([], used)
  else if negb (validate_range table_off (u32 (count * SPAWN_STR_SIZE)) total_len) then None
  else
    let '((strs, used), ok) := for_try count (fun i '(strs, used) =>
      let off := ld32 (as_mem scratch) (table_off + SPAWN_STR_SIZE * i) in
      let len := ld32 (as_mem scratch) (table_off + SPAWN_STR_SIZE * i + 4) in
      if negb (validate_range off len total_len) then ((strs, used), false)
      else if used + len + 1 >? strbuf_cap then ((strs, used), false)
      else ((strs ++ [c_string (slice scratch off len)], u32 (used + len + 1)), true)) ([], used) in
    if (ok : bool) then Some (strs, used) else None.

(** A request that passed every check. *)
Record spawn_args := mk_args {
  a_name : list Z; a_argv : list (list Z); a_envp : list (list Z); a_nfds : Z; a_fds : list Z
}.

Section spawn.
Context {D : Type} `{!Config}.
Implicit Types k : kstate D.

(** The checks [spawn_create] and [spawn_exec] share. *)
Definition read_spawn_args (caller : tptr) (req_va req_len : Z) k : option spawn_args :=
  let asp := t_address_space (kthr caller k) in
  if asp =? 0 then None
  else if (req_len =? 0) || (req_len >? SPAWN_REQ_MAX_LEN) then None
  else
    let '(rc, scratch) := vm_copy_from_user (ram (kmach k)) asp req_va req_len in
    if negb (rc =? 0) then None
    else if req_len <? SPAWN_REQ_SIZE then None
    else
      let r := read_req scratch in
      let total_len := q_total_len r in
      if negb (q_magic r =? SPAWN_REQ_MAGIC) || (total_len <? SPAWN_REQ_SIZE) || (total_len >? req_len) then None
      else if (q_argc r >? SPAWN_MAX_ARGS) || (q_envc r >? SPAWN_MAX_ARGS) then None
      else if q_nfds r >? SPAWN_FD_INFO_MAX then None
      else if negb (validate_range (q_fds_off r) (u32 (q_nfds r * SPAWN_FD_SIZE)) total_len) then None
      else
        match copy_name scratch r total_len SPAWN_NAME_MAX with
        | None => None
        | Some name =>
            match copy_str_array scratch (q_argv_off r) (q_argc r) total_len SPAWN_REQ_MAX_LEN 0 with
            | None => None
            | Some (argv, used) =>
                match copy_str_array scratch (q_envp_off r) (q_envc r) total_len SPAWN_REQ_MAX_LEN used with
                | None => None
                | Some (envp, _) =>
                    Some (mk_args name argv envp (q_nfds r) (slice scratch (q_fds_off r) (q_nfds r * SPAWN_FD_SIZE)))
                end
            end
        end.

Definition submit_execreq (cpu : Z) (caller : tptr) (a : spawn_args) (is_spawn_create : bool) k : Z * kstate D :=
  let c := kthr caller k in
  let p := mk_params (t_tid c) is_spawn_create (take 63 (a_name a)) (a_argv a) (a_envp a) (a_nfds a) (a_fds a)
             (t_prio c) (t_pager_tid c) in
  match execreq_submit cpu caller p k with
  | (None, k) => (IPC_ERR_NOT_FOUND, k)
  | (Some _, k) => (IPC_ERR_BLOCKED, k)
  end.

(** Status and the child's thread id. *)
Definition spawn_create (cpu : Z) (caller : tptr) (req_va req_len : Z) k : Z * Z * kstate D :=
  match read_spawn_args caller req_va req_len k with
  | None => (IPC_ERR_NO_CAP, 0, k)
  | Some a =>
      match rootfs_lookup multiboot2_info_ptr (a_name a) (ram (kmach k)) with
      | None => let '(rc, k) := submit_execreq cpu caller a true k in (rc, 0, k)
      | Some (start, end_) =>
          let c := kthr caller k in
          match elf_load_and_spawn_req (a_name a) (InRam start (end_ - start)) (t_prio c) (t_pager_tid c)
                  (a_argv a) (a_envp a) (a_nfds a) (a_fds a) true k with
          | (None, k) => (IPC_ERR_NO_MEM, 0, k)
          | (Some child, k) =>
              let k := kupd child (fun b => b <| t_parent_tid := t_tid (kthr caller k) |>) k in
              (IPC_ERR_NONE, t_tid (kthr child k), k)
          end
      end
  end.

Definition spawn_exec (cpu : Z) (caller : tptr) (req_va req_len : Z) k : Z * kstate D :=
  match read_spawn_args caller req_va req_len k with
  | None => (IPC_ERR_NO_CAP, k)
  | Some a =>
      match rootfs_lookup multiboot2_info_ptr (a_name a) (ram (kmach k)) with
      | None => submit_execreq cpu caller a false k
      | Some (start, end_) =>
          let '(rc, k) := elf_exec_current cpu caller (InRam start (end_ - start)) (a_argv a) (a_envp a)
                            (a_nfds a) (a_fds a) true k in
          ((if negb (rc =? 0) then IPC_ERR_NO_MEM else IPC_ERR_NONE), k)
      end
  end.

Definition spawn_fork_create (caller : tptr) k : Z * Z * kstate D :=
  let c := kthr caller k in
  if t_address_space c =? 0 then (IPC_ERR_NO_CAP, 0, k)
  else
    let '(child_as, k) := vm_address_space_clone (t_address_space c) k in
    if child_as =? 0 then (IPC_ERR_NO_MEM, 0, k)
    else
      let '(child, s) := thread_create_forked_locked fpu_default_state (t_name c) child_as (t_pager_tid c) (t_prio c)
                           caller (k_sched k) in
      let k := k <| k_sched := s |> in
      match child with
      | None => (IPC_ERR_NO_MEM, 0, vm_address_space_destroy child_as k)
      | Some child =>
          let k := kupd child (fun b => b <| t_parent_tid := t_tid c |> <| t_pgid := t_pgid c |> <| t_sid := t_sid c |>) k in
          let ctid := t_tid (kthr child k) in
          let k := k <| k_pipes ::= pipe_inherit_fork (t_tid c) ctid |> in
          let k := kuctx child (fun u => u <| rax := IPC_ERR_NONE |> <| r8 := 0 |>) k in
          (IPC_ERR_NONE, ctid, k)
      end.
End spawn.
