(* ===== verification/Ipc.v ===== *)
(** * Inter-process communication: messages ([src/src/core/ipc.c])

    Grants, the queues of blocked senders, the transfer of a message and the
    console's readers.  [sys_ipc] itself is in [Syscall.v]. *)
From Stdlib Require Import ZArith Lia.
From stdpp Require Import base numbers sets list list_numbers functions.
From S2P Require Import Prelude Abi Memory Pmm PageTable Vm Pipe Socket Shm Tcb Sched Console Kinfo Elf Kstate Captable Exec Kernel.

(** [(tid_t)~0u] *)
Notation TID_NONE := (2 ^ 32 - 1)%Z (only parsing).

(** The bytes of 64-bit words in memory order, and the words of bytes. *)
Definition word_bytes (w : Z) : list Z := (fun i => u8 (Z.shiftr w (8 * i))) <$> seqZ 0 8.
Definition words_bytes (ws : list Z) : list Z := mjoin (word_bytes <$> ws).
Definition byte_word (l : list Z) (j : Z) : Z := ld64 (as_mem l) (8 * j).

Definition payload_from_frame (f : arch_uctx_t) : msg_regs_t := mk_msg (r8 f) (r9 f) (r10 f) (r12 f) (r13 f) (r14 f).
Definition payload_to_frame (m : msg_regs_t) (f : arch_uctx_t) : arch_uctx_t :=
  f <| r8 := word0 m |> <| r9 := word1 m |> <| r10 := word2 m |> <| r12 := word3 m |> <| r13 := word4 m |>
    <| r14 := word5 m |>.

(** A message read as [vm_map_msg_t] or [vm_xfer_msg_t]. *)
Definition as_map_msg (m : msg_regs_t) : vm_map_msg_t :=
  mk_map_msg (word0 m) (word1 m) (u32 (word2 m)) (Z.shiftr (word2 m) 32).
Definition as_xfer_msg (m : msg_regs_t) : vm_xfer_msg_t :=
  mk_xfer_msg (word0 m) (word1 m) (u32 (word2 m)) (Z.shiftr (word2 m) 32).

(** ** Blocked senders *)
Definition sendq_append (rcv s : tptr) (st : sched) : sched :=
  let st := upd s (fun b => b <| t_sq_next := None |>) st in
  let st := match t_send_q_tail (thr st rcv) with
            | Some tl => upd tl (fun b => b <| t_sq_next := Some s |>) st
            | None => upd rcv (fun b => b <| t_send_q_head := Some s |>) st
            end in
  upd rcv (fun b => b <| t_send_q_tail := Some s |>) st.

Definition sendq_unlink (rcv : tptr) (prev : option tptr) (x : tptr) (st : sched) : sched :=
  let nx := t_sq_next (thr st x) in
  let st := match prev with
            | Some p => upd p (fun b => b <| t_sq_next := nx |>) st
            | None => upd rcv (fun b => b <| t_send_q_head := nx |>) st
            end in
  let st := if bool_decide (t_send_q_tail (thr st rcv) = Some x)
            then upd rcv (fun b => b <| t_send_q_tail := prev |>) st else st in
  upd x (fun b => b <| t_sq_next := None |>) st.
(** The walk of [sendq_take]; [fuel] bounds the queue's length. *)
Fixpoint sendq_walk (fuel : nat) (rcv : tptr) (filter : Z) (prev s : option tptr) (st : sched)
  : option tptr * sched :=
  match fuel, s with
  | S fuel, Some x =>
      if negb (filter =? IPC_TID_ANY) && negb (t_tid (thr st x) =? filter)
      then sendq_walk fuel rcv filter (Some x) (t_sq_next (thr st x)) st
      else (Some x, sendq_unlink rcv prev x st)
  | _, _ => (None, st)
  end.
Definition sendq_take (rcv : tptr) (filter : Z) (st : sched) : option tptr * sched :=
  sendq_walk (Z.to_nat SCHED_MAX_THREADS) rcv filter None (t_send_q_head (thr st rcv)) st.

Section ipc.
Context {D : Type} `{!Config}.
Implicit Types k : kstate D.

Definition set_grants (g : ipc_grants -> ipc_grants) k : kstate D := k <| k_grants ::= g |>.

(** ** Grants *)
Definition ipc_grant_console_writer (tid : Z) k : kstate D := set_grants (fun g => g <| console_writer_tid := tid |>) k.
Definition ipc_grant_console_driver (tid : Z) k : kstate D := set_grants (fun g => g <| console_driver_tid := tid |>) k.
Definition ipc_grant_pager_owner (tid : Z) k : kstate D := set_grants (fun g => g <| pager_owner_tid := tid |>) k.
Definition ipc_grant_hw_driver (tid : Z) k : kstate D := set_grants (fun g => g <| hw_driver_tid := tid |>) k.
Definition ipc_grant_hw_driver_secondary (tid : Z) k : kstate D :=
  match find_first HW_DRIVER_SECONDARY_MAX (fun i => hw_driver_secondary_tids (k_grants k) i =? 0) with
  | Some i => set_grants (fun g => g <| hw_driver_secondary_tids := <[i := tid]> (hw_driver_secondary_tids g) |>) k
  | None => k
  end.
Definition hw_driver_allows (tid : Z) k : bool :=
  (tid =? hw_driver_tid (k_grants k)) ||
  bool_decide (is_Some (find_first HW_DRIVER_SECONDARY_MAX (fun i => hw_driver_secondary_tids (k_grants k) i =? tid))).
Definition ipc_grant_hw_port_io_secondary (tid : Z) k : kstate D :=
  match find_first HW_PORT_IO_SECONDARY_MAX (fun i => hw_port_io_secondary_tids (k_grants k) i =? 0) with
  | Some i => set_grants (fun g => g <| hw_port_io_secondary_tids := <[i := tid]> (hw_port_io_secondary_tids g) |>) k
  | None => k
  end.
Definition hw_port_io_secondary_allows (tid : Z) k : bool :=
  bool_decide (is_Some (find_first HW_PORT_IO_SECONDARY_MAX (fun i => hw_port_io_secondary_tids (k_grants k) i =? tid))).
Definition ipc_grant_pci_cfg_secondary (tid : Z) k : kstate D := set_grants (fun g => g <| pci_cfg_secondary_tid := tid |>) k.

(** ** Console readers *)
Definition set_read_waiter (vt tid : Z) k : kstate D :=
  set_grants (fun g => g <| console_read_waiter := <[vt := tid]> (console_read_waiter g) |>) k.

(** The count and the bytes of a console read in the registers. *)
Definition console_regs (l : list Z) (f : arch_uctx_t) : arch_uctx_t :=
  f <| r8 := Z.of_nat (length l) |> <| r9 := byte_word l 0 |> <| r10 := byte_word l 1 |> <| r12 := byte_word l 2 |>
    <| r13 := byte_word l 3 |> <| r14 := byte_word l 4 |> <| rax := IPC_ERR_NONE |>.

(** The read returns a count, so the branch for a negative one is not taken. *)
Definition complete_console_read (t : tptr) (vt : Z) k : kstate D :=
  let '(l, c) := arch_console_read_line_bytes vt 40 (k_cons k) in
  set_read_waiter vt 0 (kuctx t (console_regs l) (k <| k_cons := c |>)).

Definition ipc_console_input_available (cpu vt : Z) k : kstate D :=
  if (vt <? 0) || (vt >=? CONSOLE_VT_COUNT) then k
  else
    let tid := console_read_waiter (k_grants k) vt in
    if tid =? 0 then k
    else
      match kget tid k with
      | Some t =>
          if st_eqb (t_state (kthr t k)) THREAD_STATE_WAIT_CONSOLE then
            let k := complete_console_read t vt k in
            if console_read_waiter (k_grants k) vt =? 0 then kwake cpu t k else k
          else set_read_waiter vt 0 k
      | None => set_read_waiter vt 0 k
      end.

Definition ipc_console_interrupt (cpu vt signum : Z) k : kstate D :=
  if (vt <? 0) || (vt >=? CONSOLE_VT_COUNT) then k
  else
    let waiter := console_read_waiter (k_grants k) vt in
    let k :=
      if waiter =? 0 then k
      else
        match kget waiter k with
        | Some t =>
            if st_eqb (t_state (kthr t k)) THREAD_STATE_WAIT_CONSOLE
            then kwake cpu t (set_read_waiter vt 0 (kuctx t (fun u => u <| rax := u64 IPC_ERR_CANCELED |>) k))
            else set_read_waiter vt 0 k
        | None => set_read_waiter vt 0 k
        end in
    (sched_signal_pgid cpu (console_fg_pgid (k_grants k) vt) signum k).2.

(** ** Messages *)

(** The page operation a message asks for. *)
Definition transfer (flags sender src_as dst_as : Z) (m : msg_regs_t) k : Z * kstate D :=
  let run '((rc, s) : Z * mach) := (rc, kset_mach s k) in
  if has flags IPC_FLAG_MAP then run (vm_batch_map boot_pml4 dst_as sender (Some (as_map_msg m)) (k_frame_caps k) (kmach k))
  else if has flags IPC_FLAG_XFER then run (vm_xfer_pages boot_pml4 src_as dst_as (Some (as_xfer_msg m)) (kmach k))
  else if has flags IPC_FLAG_SHARE then run (vm_share_pages boot_pml4 src_as dst_as (Some (as_xfer_msg m)) (kmach k))
  else (0, k).
Definition transfer_status (rc : Z) : Z := u64 (if rc =? 0 then IPC_ERR_NONE else IPC_ERR_NO_CAP).
Definition count_msg k : kstate D := k <| k_sched ::= bump (fun st => st <| ipc_msgs := u64 (ipc_msgs st + 1) |>) |>.

Definition deliver_to_frame (rcv : tptr) (from : Z) (m : msg_regs_t) k : kstate D :=
  kuctx rcv (fun f => (payload_to_frame m f) <| rsi := from |> <| rax := IPC_ERR_NONE |>) k.

Definition complete_parked_sender (cpu : Z) (cur s : tptr) k : kstate D :=
  let b := kthr s k in
  let '(xfer_rc, k) := transfer (t_ipc_flags b) (t_tid b) (t_address_space b) (t_address_space (kthr cur k))
                         (t_ipc_buffer b) k in
  let k := deliver_to_frame cur (t_tid b) (t_ipc_buffer b) k in
  let k := count_msg (kuctx s (fun u => u <| rax := transfer_status xfer_rc |>) k) in
  if negb (t_ipc_recv_after b =? TID_NONE) then
    kupd s (fun b => b <| t_ipc_partner := t_ipc_recv_after b |> <| t_ipc_recv_after := TID_NONE |>
                       <| t_state := THREAD_STATE_WAIT_RECV |>) k
  else kwake cpu s k.
End ipc.
