(* ===== verification/Syscall.v ===== *)
(** * The system call ([sys_ipc], [src/src/core/ipc.c])

    One trap serves every call: the registers of the caller select the branch
    and carry arguments and results.  Each branch is a definition; [f] is the
    caller's saved context.  [Ports] gives the devices behind the I/O ports. *)
From Stdlib Require Import ZArith Lia.
From stdpp Require Import base numbers sets list list_numbers functions.
From S2P Require Import Prelude Abi Memory Pmm Untyped PageTable Vm Pipe Socket Shm Tcb Sched Bootinfo Hwio Console Kinfo Elf Kstate Captable Exec Kernel Spawn Ipc.

Section syscall.
Context {D : Type} `{!Config} `{!Ports D}.
Implicit Types k : kstate D.

(** [f->rax = (uint64_t)rc] *)
Definition ret (t : tptr) (rc : Z) k : kstate D := kuctx t (fun u => u <| rax := u64 rc |>) k.
Definition cap_status (rc : Z) : Z := if rc =? 0 then IPC_ERR_NONE else IPC_ERR_NO_CAP.
(** [f->r8] and [f->rax] on success. *)
Definition ret8 (t : tptr) (v : Z) k : kstate D := ret t IPC_ERR_NONE (kuctx t (fun u => u <| r8 := v |>) k).

(** ** Capabilities, notifications and timers *)
Definition sys_retype (cur : tptr) (f : arch_uctx_t) k : kstate D :=
  let '(rc, (slot, addr), k) := cap_retype (t_tid (kthr cur k)) (u32 (r8 f)) (u32 (r9 f)) (r10 f) (r12 f) (r13 f) (r14 f) k in
  kuctx cur (fun u => u <| rax := u64 (cap_status rc) |> <| r8 := slot |> <| r9 := addr |>) k.
Definition sys_destroy (cpu : Z) (cur : tptr) (f : arch_uctx_t) k : kstate D :=
  let '(rc, k) := cap_destroy cpu (t_tid (kthr cur k)) (u32 (r8 f)) k in ret cur (cap_status rc) k.
Definition sys_notify_signal (cpu : Z) (cur : tptr) (f : arch_uctx_t) k : kstate D :=
  let '(rc, k) := cap_notif_signal cpu (t_tid (kthr cur k)) (u32 (r8 f)) (r9 f) k in ret cur (cap_status rc) k.
Definition sys_notify_wait (cpu : Z) (cur : tptr) (f : arch_uctx_t) k : kstate D :=
  let '(rc, bits, k) := cap_notif_wait_begin (t_tid (kthr cur k)) (u32 (r8 f)) k in
  if rc <? 0 then ret cur IPC_ERR_NO_CAP k
  else if rc =? 1 then ret8 cur bits k
  else k <| k_sched ::= sched_block cpu THREAD_STATE_WAIT_NOTIFICATION |>.
Definition sys_notify_poll (cur : tptr) (f : arch_uctx_t) k : kstate D :=
  let '(rc, bits, k) := cap_notif_poll (t_tid (kthr cur k)) (u32 (r8 f)) k in
  if rc =? -1 then ret cur IPC_ERR_NO_CAP k
  else if rc =? -2 then ret cur IPC_ERR_WOULDBLOCK k
  else ret8 cur bits k.
Definition sys_timer_arm (cur : tptr) (f : arch_uctx_t) k : kstate D :=
  let '(rc, k) := cap_timer_arm (t_tid (kthr cur k)) (u32 (r8 f)) (u32 (r9 f)) (r10 f) (r12 f) (r13 f) k in
  ret cur (cap_status rc) k.
Definition sys_timer_disarm (cur : tptr) (f : arch_uctx_t) k : kstate D :=
  let '(rc, k) := cap_timer_disarm (t_tid (kthr cur k)) (u32 (r8 f)) k in ret cur (cap_status rc) k.
Definition sys_revoke_frame (cpu : Z) (cur : tptr) (f : arch_uctx_t) k : kstate D :=
  let '(rc, k) := cap_revoke_frame cpu (t_tid (kthr cur k)) (u32 (r8 f)) k in ret cur (cap_status rc) k.

(** ** The console *)
Definition sys_console_write (cur : tptr) (f : arch_uctx_t) k : kstate D :=
  let tid := t_tid (kthr cur k) in
  if negb (tid =? console_writer_tid (k_grants k)) && negb (tid =? console_driver_tid (k_grants k))
  then ret cur IPC_ERR_NO_CAP k
  else
    let len := Z.land (r8 f) 0xFF in
    let len := if len >? 40 then 40 else len in
    let vt := Z.land (Z.shiftr (r8 f) 8) 0xFF in
    let bytes := words_bytes [r9 f; r10 f; r12 f; r13 f; r14 f] in
    let '(c, d) := kwrite vt (take (Z.to_nat len) bytes) (k_cons k) (k_dev k) in
    ret cur IPC_ERR_NONE (k <| k_cons := c |> <| k_dev := d |>).

(** The read never gives a negative count, so its blocking branch is dead. *)
Definition sys_console_read (cpu : Z) (cur : tptr) (f : arch_uctx_t) k : kstate D :=
  if negb (t_tid (kthr cur k) =? console_writer_tid (k_grants k)) then ret cur IPC_ERR_NO_CAP k
  else
    let vt := i32 (r8 f) in
    if (vt <? 0) || (vt >=? CONSOLE_VT_COUNT) then ret cur IPC_ERR_NOT_FOUND k
    else
      let '(l, c) := arch_console_read_line_bytes vt 40 (k_cons k) in
      let k := k <| k_cons := c |> in
      if Z.of_nat (length l) <? 0 then
        if negb (console_read_waiter (k_grants k) vt =? 0) then ret cur IPC_ERR_WOULDBLOCK k
        else (set_read_waiter vt (t_tid (kthr cur k)) k) <| k_sched ::= sched_block cpu THREAD_STATE_WAIT_CONSOLE |>
      else kuctx cur (console_regs l) k.

(** ** Processes *)
Definition sys_exit (cpu : Z) (cur : tptr) (f : arch_uctx_t) k : kstate D :=
  if t_address_space (kthr cur k) =? 0 then ret cur IPC_ERR_NO_CAP k
  else spawn_exit_current cpu (Z.land (r8 f) 0xFF) k.
Definition sys_spawn (cpu : Z) (cur : tptr) (f : arch_uctx_t) k : kstate D :=
  let '(rc, child, k) := spawn_create cpu cur (r8 f) (r9 f) k in
  if negb (rc =? IPC_ERR_BLOCKED) then kuctx cur (fun u => u <| rax := u64 rc |> <| r8 := child |>) k else k.
Definition sys_wait (cpu flags : Z) (cur : tptr) (f : arch_uctx_t) k : kstate D :=
  let filter := u32 (r8 f) in
  let '(rc, (tid, status), k) := spawn_wait_begin cur filter k in
  if rc =? 1 then kuctx cur (fun u => u <| rax := IPC_ERR_NONE |> <| r8 := tid |> <| r9 := u64 status |>) k
  else if rc =? -1 then ret cur IPC_ERR_NOT_FOUND k
  else if has flags IPC_FLAG_NOBLOCK then ret cur IPC_ERR_WOULDBLOCK k
  else (kupd cur (fun b => b <| t_wait_filter := filter |>) k) <| k_sched ::= sched_block cpu THREAD_STATE_WAIT_CHILD |>.
Definition sys_fork (cur : tptr) k : kstate D :=
  let '(rc, child, k) := spawn_fork_create cur k in
  kuctx cur (fun u => u <| rax := u64 rc |> <| r8 := child |>) k.
Definition sys_exec (cpu : Z) (cur : tptr) (f : arch_uctx_t) k : kstate D :=
  let '(rc, k) := spawn_exec cpu cur (r8 f) (r9 f) k in
  if negb (rc =? IPC_ERR_NONE) && negb (rc =? IPC_ERR_BLOCKED) then ret cur rc k else k.
Definition sys_thread_info (cur : tptr) (f : arch_uctx_t) k : kstate D :=
  match sched_thread_info (u32 (r8 f)) (k_sched k) with
  | None => ret cur IPC_ERR_NOT_FOUND k
  | Some (st, prio, exit_status, parent, name) =>
      kuctx cur (fun u => u <| rax := IPC_ERR_NONE |> <| r8 := state_code st |> <| r9 := prio |>
        <| r10 := u64 exit_status |> <| r12 := parent |> <| r13 := byte_word name 0 |> <| r14 := byte_word name 1 |>) k
  end.

(** ** Pipes *)
Definition sys_pipe_create (cur : tptr) k : kstate D :=
  let '(rc, handle, p) := pipe_create (t_tid (kthr cur k)) (k_pipes k) in
  kuctx cur (fun u => u <| rax := u64 rc |> <| r8 := default 0 handle |>) (k <| k_pipes := p |>).
Definition sys_pipe_read (cur : tptr) (f : arch_uctx_t) k : kstate D :=
  let '(rc, l, p) := pipe_read (r8 f) (r9 f) (k_pipes k) in
  kuctx cur (fun u => u <| rax := u64 rc |> <| r8 := Z.of_nat (length l) |> <| r10 := byte_word l 0 |>
    <| r12 := byte_word l 1 |> <| r13 := byte_word l 2 |> <| r14 := byte_word l 3 |>) (k <| k_pipes := p |>).
Definition sys_pipe_write (cur : tptr) (f : arch_uctx_t) k : kstate D :=
  let len := if r9 f >? PIPE_CHUNK_MAX then PIPE_CHUNK_MAX else r9 f in
  let '(rc, n, p) := pipe_write (r8 f) (words_bytes [r10 f; r12 f; r13 f; r14 f]) len (k_pipes k) in
  kuctx cur (fun u => u <| rax := u64 rc |> <| r8 := n |>) (k <| k_pipes := p |>).
Definition sys_pipe_close (cur : tptr) (f : arch_uctx_t) k : kstate D :=
  let '(rc, p) := pipe_close (t_tid (kthr cur k)) (r8 f) (i32 (r9 f)) (k_pipes k) in ret cur rc (k <| k_pipes := p |>).

(** ** Mounts, boot files and faults *)
Definition sys_mount (cur : tptr) (f : arch_uctx_t) k : kstate D :=
  if negb (t_parent_tid (kthr cur k) =? 0) then ret cur IPC_ERR_NO_CAP k
  else
    let len := if r8 f >=? MOUNT_PREFIX_MAX then MOUNT_PREFIX_MAX - 1 else r8 f in
    let prefix := take (Z.to_nat len) (words_bytes [r9 f; r10 f; r12 f; r13 f; r14 f]) in
    let '(rc, i) := kinfo_mount_add (as_mem prefix) (t_tid (kthr cur k)) (k_kinfo k) in
    ret cur (if rc =? 0 then IPC_ERR_NONE else IPC_ERR_NO_MEM) (k <| k_kinfo := i |>).
Definition sys_bootfs (cur : tptr) (f : arch_uctx_t) k : kstate D :=
  let m := ram (kmach k) in
  let name := c_string (words_bytes [r9 f; r10 f; r12 f]) in
  if r8 f =? 0 then
    match rootfs_lookup multiboot2_info_ptr name m with
    | None => ret cur IPC_ERR_NOT_FOUND k
    | Some (start, end_) => ret8 cur (u64 (end_ - start)) k
    end
  else if r8 f =? 1 then
    match rootfs_readdir (r9 f) with
    | None => ret cur IPC_ERR_NOT_FOUND k
    | Some (nm, size) =>
        kuctx cur (fun u => u <| rax := IPC_ERR_NONE |> <| r8 := size |> <| r9 := byte_word nm 0 |>
          <| r10 := byte_word nm 1 |> <| r12 := byte_word nm 2 |>) k
    end
  else if r8 f =? 2 then
    match rootfs_lookup multiboot2_info_ptr name m with
    | None => ret cur IPC_ERR_NOT_FOUND k
    | Some (start, end_) =>
        let len := if r14 f >? 40 then 40 else r14 f in
        let size := u64 (end_ - start) in
        let avail := if size >? r13 f then size - r13 f else 0 in
        let n := if len <? avail then len else avail in
        let l := (fun i => m (start + r13 f + i)) <$> seqZ 0 n in
        kuctx cur (fun u => u <| rax := n |> <| r8 := byte_word l 0 |> <| r9 := byte_word l 1 |>
          <| r10 := byte_word l 2 |> <| r12 := byte_word l 3 |> <| r13 := byte_word l 4 |>) k
    end
  else ret cur IPC_ERR_NOT_FOUND k.
Definition sys_resolve_fault (cur : tptr) (f : arch_uctx_t) k : kstate D :=
  let owner := pager_owner_tid (k_grants k) in
  if negb (t_tid (kthr cur k) =? owner) || (owner =? 0) then ret cur IPC_ERR_NO_CAP k
  else
    match kget (u32 (r8 f)) k with
    | None => ret cur IPC_ERR_NOT_FOUND k
    | Some target =>
        let '(frame, m) := pmm_alloc_m (i32 (r10 f)) (kmach k) in
        if frame =? 0 then ret cur IPC_ERR_NO_MEM (kset_mach m k)
        else
          let m := (arch_vm_map_page (t_address_space (kthr target k)) (r9 f) frame (u32 (r12 f)) m).2 in
          ret cur IPC_ERR_NONE (kset_mach m k)
    end.
Definition sys_set_fsbase (cpu : Z) (cur : tptr) (f : arch_uctx_t) k : kstate D :=
  let k := kupd cur (fun b => b <| t_fs_base := r8 f |>) k in
  ret cur IPC_ERR_NONE (k <| k_fsbase := <[cpu := r8 f]> (k_fsbase k) |>).

(** ** Signals *)
Definition info_sigaction (cur : tptr) (f : arch_uctx_t) k : kstate D :=
  let signum := i32 (r9 f) in
  if (signum <? 1) || (signum >=? ROBU_NSIG) then ret cur IPC_ERR_NOT_FOUND k
  else
    let sa := t_sig_actions (kthr cur k) signum in
    let k := kuctx cur (fun u => u <| r8 := sa_handler sa |> <| r9 := sa_flags sa |> <| r10 := sa_mask sa |>) k in
    let k := if tru (i32 (r13 f))
             then kupd cur (fun b => b <| t_sig_actions := <[signum := mk_sigaction (r10 f) (r12 f) (r14 f)]>
                                                              (t_sig_actions b) |>) k
             else k in
    ret cur IPC_ERR_NONE k.
Definition info_kill (cpu : Z) (cur : tptr) (f : arch_uctx_t) k : kstate D :=
  let '(rc, k) := sig_send cpu (u32 (r9 f)) (i32 (r10 f)) k in
  ret cur (if rc =? 0 then IPC_ERR_NONE else IPC_ERR_NOT_FOUND) k.
Definition info_sigprocmask (cur : tptr) (f : arch_uctx_t) k : kstate D :=
  let k := kuctx cur (fun u => u <| r8 := t_sig_mask (kthr cur k) |>) k in
  let k := if tru (i32 (r12 f)) then
             kupd cur (fun b => b <| t_sig_mask ::= fun old =>
               if r9 f =? SIG_BLOCK then Z.lor old (r10 f)
               else if r9 f =? SIG_UNBLOCK then Z.land old (not64 (r10 f)) else r10 f |>) k
           else k in
  ret cur IPC_ERR_NONE k.
Definition info_sigreturn (cur : tptr) k : kstate D :=
  kupd cur (fun b => b <| t_uctx := t_saved_uctx_before_sig b |> <| t_sig_mask := t_saved_sig_mask b |>
                       <| t_in_sig_handler := false |>) k.

(** ** Groups and sessions *)
Definition info_setpgid (cur : tptr) (f : arch_uctx_t) k : kstate D :=
  let target := if u32 (r9 f) =? 0 then t_tid (kthr cur k) else u32 (r9 f) in
  let new_pgid := if u32 (r10 f) =? 0 then target else u32 (r10 f) in
  match kget target k with
  | None => ret cur IPC_ERR_NOT_FOUND k
  | Some t => ret cur IPC_ERR_NONE (kupd t (fun b => b <| t_pgid := new_pgid |>) k)
  end.
Definition info_getpgid (cur : tptr) (f : arch_uctx_t) k : kstate D :=
  let target := if u32 (r9 f) =? 0 then t_tid (kthr cur k) else u32 (r9 f) in
  match kget target k with
  | None => ret cur IPC_ERR_NOT_FOUND k
  | Some t => ret8 cur (t_pgid (kthr t k)) k
  end.
Definition info_setsid (cur : tptr) k : kstate D :=
  let tid := t_tid (kthr cur k) in
  ret8 cur tid (kupd cur (fun b => b <| t_sid := tid |> <| t_pgid := tid |>) k).
Definition info_tcpgrp (set_ : bool) (cur : tptr) (f : arch_uctx_t) k : kstate D :=
  let vt := i32 (r9 f) in
  if (vt <? 0) || (vt >=? CONSOLE_VT_COUNT) then ret cur IPC_ERR_NOT_FOUND k
  else if set_ then
    ret cur IPC_ERR_NONE
      (set_grants (fun g => g <| console_fg_pgid := <[vt := u32 (r10 f)]> (console_fg_pgid g) |>) k)
  else ret8 cur (console_fg_pgid (k_grants k) vt) k.

(** ** The console driver *)

(** A branch only the console driver may take. *)
Definition driver_only (cur : tptr) k (run : kstate D -> kstate D) : kstate D :=
  if negb (t_tid (kthr cur k) =? console_driver_tid (k_grants k)) then ret cur IPC_ERR_NO_CAP k else run k.
Definition with_console (g : console -> D -> console * D) k : kstate D :=
  let '(c, d) := g (k_cons k) (k_dev k) in k <| k_cons := c |> <| k_dev := d |>.
(** A device access: a negative result is refused. *)
Definition ret_access (cur : tptr) (a : Z * D) k : kstate D :=
  let '(rc, d) := a in
  let k := k <| k_dev := d |> in
  if rc <? 0 then ret cur IPC_ERR_NO_CAP k else ret8 cur rc k.

Definition info_console_mode (cur : tptr) (f : arch_uctx_t) k : kstate D :=
  let vt := i32 (r10 f) in
  ret cur IPC_ERR_NONE
    (if r9 f =? 2 then kuctx cur (fun u => u <| r8 := u64 (arch_console_get_raw_mode vt (k_cons k)) |>) k
     else k <| k_cons ::= arch_console_set_raw_mode vt (i32 (r9 f)) |>).
Definition info_port_io (cur : tptr) (f : arch_uctx_t) k : kstate D :=
  driver_only cur k (fun k =>
    ret_access cur (arch_console_port_io (u16 (r9 f)) (i32 (r10 f)) (tru (i32 (r12 f))) (r13 f) (k_dev k)) k).
Definition info_console_feed (cur : tptr) (f : arch_uctx_t) k : kstate D :=
  driver_only cur k (fun k =>
    let vt := i32 (Z.shiftr (r9 f) 8) in
    let len := Z.land (r9 f) 0xFF in
    let len := if len >? 32 then 32 else len in
    let bytes := take (Z.to_nat len) (words_bytes [r10 f; r12 f; r13 f; r14 f]) in
    ret cur IPC_ERR_NONE (with_console (arch_console_feed_bytes vt bytes) k)).
Definition info_console_signal (cpu : Z) (cur : tptr) (f : arch_uctx_t) k : kstate D :=
  driver_only cur k (fun k => ret cur IPC_ERR_NONE (ipc_console_interrupt cpu (i32 (r9 f)) (i32 (r10 f)) k)).
Definition info_set_active_vt (cur : tptr) (f : arch_uctx_t) k : kstate D :=
  driver_only cur k (fun k => ret cur IPC_ERR_NONE (with_console (arch_console_switch_vt (i32 (r9 f))) k)).
Definition info_console_scroll (cur : tptr) (f : arch_uctx_t) k : kstate D :=
  driver_only cur k (fun k => ret cur IPC_ERR_NONE (with_console (arch_console_scroll (i32 (r9 f))) k)).
Definition info_mouse_feed (cur : tptr) (f : arch_uctx_t) k : kstate D :=
  driver_only cur k (fun k => ret cur IPC_ERR_NONE (k <| k_cons ::= arch_console_mouse_feed (r9 f) |>)).
Definition info_mouse_read (cur : tptr) k : kstate D :=
  if negb (t_tid (kthr cur k) =? console_writer_tid (k_grants k)) then ret cur IPC_ERR_NO_CAP k
  else
    let '(l, c) := arch_console_mouse_read 4 (k_cons k) in
    let ev i := nth i l 0 in
    kuctx cur (fun u => u <| r8 := Z.of_nat (length l) |> <| r9 := ev 0%nat |> <| r10 := ev 1%nat |>
      <| r12 := ev 2%nat |> <| r13 := ev 3%nat |> <| rax := IPC_ERR_NONE |>) (k <| k_cons := c |>).

(** ** Mappings of devices *)
(** [for (i = 0; i < count; i++) map(va + i * 4096, pa + i * 4096)] *)
Definition map_run (map : Z -> Z -> mach -> Z * mach) (va pa count : Z) (s : mach) : mach :=
  for_range count (fun i s => (map (u64 (va + i * PAGE_SIZE_4K)) (u64 (pa + i * PAGE_SIZE_4K)) s).2) s.
Definition info_fb_map (cur : tptr) k : kstate D :=
  let asp := t_address_space (kthr cur k) in
  if negb (g_boot_fb_present (kmach k)) then ret cur IPC_ERR_NOT_FOUND k
  else if asp =? 0 then ret cur IPC_ERR_NO_CAP k
  else
    let b := g_boot_fb (kmach k) in
    let page_count := u64 (u64 (pitch b * height b) + PAGE_SIZE_4K - 1) / PAGE_SIZE_4K in
    let k := kset_mach (map_run (arch_vm_map_framebuffer_page asp) FRAMEBUFFER_USER_VA (phys_addr b) page_count (kmach k)) k in
    let fmt := foldl Z.lor (bpp b)
      [Z.shiftl (red_pos b) 8; Z.shiftl (red_size b) 16; Z.shiftl (green_pos b) 24; Z.shiftl (green_size b) 32;
       Z.shiftl (blue_pos b) 40; Z.shiftl (blue_size b) 48] in
    let k := kuctx cur (fun u => u <| r8 := width b |> <| r9 := height b |> <| r10 := pitch b |> <| r12 := fmt |>
                                   <| r13 := fb_type b |>) k in
    ret cur IPC_ERR_NONE (k <| k_cons ::= arch_console_set_fb_owner (t_tid (kthr cur k)) |>).
Definition info_dma_alloc (cur : tptr) (f : arch_uctx_t) k : kstate D :=
  let asp := t_address_space (kthr cur k) in
  if negb (hw_driver_allows (t_tid (kthr cur k)) k) || (asp =? 0) then ret cur IPC_ERR_NO_CAP k
  else
    let bytes := Z.land (u64 (r9 f + PAGE_SIZE_4K - 1)) (not64 (PAGE_SIZE_4K - 1)) in
    let '(phys, dm) := dma_region_alloc bytes (dma_st (kmach k)) in
    let k := kset_mach ((kmach k) <| dma_st := dm |>) k in
    if phys =? 0 then ret cur IPC_ERR_NO_MEM k
    else
      let m := (kmach k) <| ram := memset (ram (kmach k)) phys 0 bytes |> in
      let va_base := u64 (DMA_USER_VA_BASE + (phys - (dma_range (dma_st m)).1)) in
      let m := map_run (fun va pa => arch_vm_map_page asp va pa PROT_RWU) va_base phys (bytes / PAGE_SIZE_4K) m in
      kuctx cur (fun u => u <| r8 := va_base |> <| r9 := phys |> <| rax := IPC_ERR_NONE |>) (kset_mach m k).
Definition info_mmio_map (cur : tptr) (f : arch_uctx_t) k : kstate D :=
  let asp := t_address_space (kthr cur k) in
  if negb (hw_driver_allows (t_tid (kthr cur k)) k) || (asp =? 0) then ret cur IPC_ERR_NO_CAP k
  else
    let offset := Z.land (r9 f) (PAGE_SIZE_4K - 1) in
    let base := Z.land (r9 f) (not64 (PAGE_SIZE_4K - 1)) in
    let bytes := Z.land (u64 (r10 f + offset + PAGE_SIZE_4K - 1)) (not64 (PAGE_SIZE_4K - 1)) in
    if (bytes =? 0) || (bytes >? HW_MMIO_MAP_MAX) then ret cur IPC_ERR_INVALID k
    else
      let m := map_run (arch_vm_map_device_page asp) HW_MMIO_USER_VA_BASE base (bytes / PAGE_SIZE_4K) (kmach k) in
      ret8 cur (HW_MMIO_USER_VA_BASE + offset) (kset_mach m k).

(** ** Shared memory *)
(** [rc != IPC_ERR_NONE]: only [rax]; otherwise [r8] and [rax]. *)
Definition ret_value (cur : tptr) (rc : Z) (v : option Z) k : kstate D :=
  if negb (rc =? IPC_ERR_NONE) then ret cur rc k else ret8 cur (u64 (default 0 v)) k.
Definition info_shm_get (cur : tptr) (f : arch_uctx_t) k : kstate D :=
  let '(rc, id, m) := shm_get (sched_now (k_sched k)) (t_tid (kthr cur k)) (i32 (r9 f)) (r10 f) (u32 (r12 f)) (k_mem k) in
  ret_value cur rc id (k <| k_mem := m |>).
Definition info_shm_at (cur : tptr) (f : arch_uctx_t) k : kstate D :=
  let asp := t_address_space (kthr cur k) in
  if asp =? 0 then ret cur IPC_ERR_NO_CAP k
  else if negb (r10 f =? 0) then ret cur IPC_ERR_INVALID k
  else
    let '(rc, va, m) := shm_at (sched_now (k_sched k)) (t_tid (kthr cur k)) asp (i32 (r9 f)) (u32 (r12 f)) (k_mem k) in
    ret_value cur rc va (k <| k_mem := m |>).
Definition info_shm_dt (cur : tptr) (f : arch_uctx_t) k : kstate D :=
  let asp := t_address_space (kthr cur k) in
  if asp =? 0 then ret cur IPC_ERR_NO_CAP k
  else let '(rc, m) := shm_dt (sched_now (k_sched k)) asp (r9 f) (k_mem k) in ret cur rc (k <| k_mem := m |>).
Definition info_shm_ctl (cur : tptr) (f : arch_uctx_t) k : kstate D :=
  let '(rc, w, m) := shm_ctl (i32 (r9 f)) (i32 (r10 f)) (k_mem k) in
  let k := k <| k_mem := m |> in
  if negb (rc =? IPC_ERR_NONE) then ret cur rc k
  else
    let o i := nth i w 0 in
    kuctx cur (fun u => u <| r8 := o 0%nat |> <| r9 := o 1%nat |> <| r10 := o 2%nat |> <| r12 := o 3%nat |>
      <| r13 := o 4%nat |> <| r14 := o 5%nat |> <| rax := IPC_ERR_NONE |>) k.

(** ** Sockets *)
(** A path in four registers; its last byte is cleared. *)
Definition path_of (f : arch_uctx_t) : mem :=
  as_mem (take (Z.to_nat (SOCK_PATH_MAX - 1)) (words_bytes [r10 f; r12 f; r13 f; r14 f])).
Definition with_socks (cur : tptr) (a : Z * sockets_t) k : kstate D :=
  let '(rc, t) := a in ret cur rc (k <| k_socks := t |>).
Definition info_sock_create (cur : tptr) k : kstate D :=
  let '(rc, id, t) := sock_create (t_tid (kthr cur k)) (k_socks k) in ret_value cur rc id (k <| k_socks := t |>).
Definition info_sock_bind (cur : tptr) (f : arch_uctx_t) k : kstate D :=
  with_socks cur (sock_bind (t_tid (kthr cur k)) (i32 (r9 f)) (path_of f) (k_socks k)) k.
Definition info_sock_listen (cur : tptr) (f : arch_uctx_t) k : kstate D :=
  with_socks cur (sock_listen (t_tid (kthr cur k)) (i32 (r9 f)) (k_socks k)) k.
Definition info_sock_connect (cur : tptr) (f : arch_uctx_t) k : kstate D :=
  with_socks cur (sock_connect (t_tid (kthr cur k)) (i32 (r9 f)) (path_of f) (k_socks k)) k.
Definition info_sock_accept (cur : tptr) (f : arch_uctx_t) k : kstate D :=
  let '(rc, id, t) := sock_accept (t_tid (kthr cur k)) (i32 (r9 f)) (k_socks k) in
  ret_value cur rc id (k <| k_socks := t |>).
Definition info_sock_read (cur : tptr) (f : arch_uctx_t) k : kstate D :=
  let max := if i32 (r10 f) >? 40 then 40 else i32 (r10 f) in
  let '(rc, l, t) := sock_read (i32 (r9 f)) max (k_socks k) in
  let k := k <| k_socks := t |> in
  if negb (rc =? IPC_ERR_NONE) then ret cur rc k else kuctx cur (console_regs (default [] l)) k.
Definition info_sock_write (cur : tptr) (f : arch_uctx_t) k : kstate D :=
  let len := if i32 (r10 f) >? 24 then 24 else i32 (r10 f) in
  let buf := take (Z.to_nat len) (words_bytes [r12 f; r13 f; r14 f]) in
  let '(rc, n, t) := sock_write (i32 (r9 f)) buf len (k_socks k) in
  ret_value cur rc n (k <| k_socks := t |>).
Definition info_sock_close (cur : tptr) (f : arch_uctx_t) k : kstate D :=
  with_socks cur (sock_close (t_tid (kthr cur k)) (i32 (r9 f)) (k_socks k)) k.

(** ** Hardware *)
Definition port_io_allows (tid : Z) k : bool := hw_driver_allows tid k || hw_port_io_secondary_allows tid k.
Definition info_pci_cfg (cur : tptr) (f : arch_uctx_t) k : kstate D :=
  let tid := t_tid (kthr cur k) in
  if negb (hw_driver_allows tid k) && negb (tid =? pci_cfg_secondary_tid (k_grants k)) then ret cur IPC_ERR_NO_CAP k
  else
    let width := Z.land (i32 (Z.shiftr (r10 f) 8)) 0xFF in
    let is_write := Z.land (i32 (Z.shiftr (r10 f) 16)) 0xFF in
    ret_access cur (arch_pci_cfg_access (u8 (Z.shiftr (r9 f) 16)) (u8 (Z.shiftr (r9 f) 8)) (u8 (r9 f)) (u8 (r10 f))
                      width (tru is_write) (r12 f) (k_dev k)) k.
Definition info_hw_port_io (cur : tptr) (f : arch_uctx_t) k : kstate D :=
  if negb (port_io_allows (t_tid (kthr cur k)) k) then ret cur IPC_ERR_NO_CAP k
  else ret_access cur (arch_hw_port_io (u16 (r9 f)) (i32 (r10 f)) (tru (i32 (r12 f))) (r13 f) (k_dev k)) k.
Definition info_bulk_read (cur : tptr) (f : arch_uctx_t) k : kstate D :=
  if negb (port_io_allows (t_tid (kthr cur k)) k) then ret cur IPC_ERR_NO_CAP k
  else
    let count := if i32 (r10 f) >? HW_PORT_IO_BULK_READ_MAX then HW_PORT_IO_BULK_READ_MAX else i32 (r10 f) in
    let '(rc, l, d) := arch_hw_port_io_bulk_read (u16 (r9 f)) count (k_dev k) in
    let k := k <| k_dev := d |> in
    if rc <? 0 then ret cur IPC_ERR_NO_CAP k
    else kuctx cur (fun u => (console_regs l u) <| r8 := u64 rc |>) k.
Definition info_bulk_write (cur : tptr) (f : arch_uctx_t) k : kstate D :=
  if negb (port_io_allows (t_tid (kthr cur k)) k) then ret cur IPC_ERR_NO_CAP k
  else
    let count := if i32 (r10 f) >? HW_PORT_IO_BULK_WRITE_MAX then HW_PORT_IO_BULK_WRITE_MAX else i32 (r10 f) in
    let buf := take (Z.to_nat count) (words_bytes [r12 f; r13 f; r14 f]) in
    ret_access cur (arch_hw_port_io_bulk_write (u16 (r9 f)) buf count (k_dev k)) k.

(** ** The rest *)
Definition info_execreq_reply (cpu : Z) (cur : tptr) (f : arch_uctx_t) k : kstate D :=
  if negb (t_tid (kthr cur k) =? ext2fs_tid (k_kinfo k)) then ret cur IPC_ERR_NO_CAP k
  else ret cur IPC_ERR_NONE
         (execreq_complete cpu (u32 (r9 f)) (u16 (r10 f)) (i32 (r12 f)) (i32 (r13 f)) (r14 f) k).
Definition info_getentropy (cur : tptr) (f : arch_uctx_t) k : kstate D :=
  let asp := t_address_space (kthr cur k) in
  if asp =? 0 then ret cur IPC_ERR_NO_CAP k
  else if (r10 f >? ROBU_RANDOM_MAX_REQUEST) || (negb (r10 f =? 0) && (r9 f =? 0)) then ret cur IPC_ERR_INVALID k
  else
    let '(rc, l, d) := random_fill (k_random k) (r10 f) (k_dev k) in
    let k := k <| k_dev := d |> in
    if negb (rc =? 0) then ret cur IPC_ERR_NOT_SUPPORTED k
    else
      let '(rc, m) := vm_copy_to_user (ram (kmach k)) asp (r9 f) l (r10 f) in
      let k := kset_mach ((kmach k) <| ram := m |>) k in
      if negb (rc =? 0) then ret cur IPC_ERR_INVALID k else ret8 cur (r10 f) k.
Definition info_block (cur : tptr) (f : arch_uctx_t) k : kstate D :=
  let tid := t_tid (kthr cur k) in
  if r9 f =? BLOCK_INFO_OP_PUBLISH then
    let device := u32 (r10 f) in
    if ((tid =? ext2fs_tid (k_kinfo k)) && (device =? BLOCK_DEVICE_ROOT)) ||
       ((tid =? blockdrv_tid (k_kinfo k)) && (device =? BLOCK_DEVICE_DATA)) then
      let '(rc, i) := kinfo_block_info_publish device (u32 (Z.shiftr (r12 f) 32)) (u32 (r12 f)) (u32 (r14 f)) (r13 f)
                        (k_kinfo k) in
      ret cur (if rc =? 0 then IPC_ERR_NONE else IPC_ERR_INVALID) (k <| k_kinfo := i |>)
    else ret cur IPC_ERR_NO_CAP k
  else if r9 f =? BLOCK_INFO_OP_QUERY then
    match kinfo_block_info_query (u32 (r10 f)) (k_kinfo k) with
    | (_, None) => ret cur IPC_ERR_NOT_FOUND k
    | (_, Some i) =>
        kuctx cur (fun u => u <| r8 := b_device i |> <| r9 := Z.lor (Z.shiftl (b_transport i) 32) (b_filesystem i) |>
          <| r10 := b_sectors i |> <| r12 := b_sector_size i |> <| rax := IPC_ERR_NONE |>) k
    end
  else ret cur IPC_ERR_INVALID k.
Definition info_stats (cur : tptr) (f : arch_uctx_t) k : kstate D :=
  if r8 f =? 0 then
    let p := pmm_stats (frames (kmach k)) in
    kuctx cur (fun u => u <| rax := IPC_ERR_NONE |> <| r8 := total_frames p |> <| r9 := free_frames p |>
      <| r10 := alloc_calls p |> <| r12 := free_calls p |>) k
  else
    let s := sched_stats (k_sched k) in
    kuctx cur (fun u => u <| rax := IPC_ERR_NONE |> <| r8 := full_scheds s |> <| r9 := preempts s |>
      <| r10 := ipc_msgs s |> <| r12 := ticks s |> <| r13 := timer_traps s |> <| r14 := kicks_sent s |>) k.

(** [IPC_FLAG_SYS_INFO]: the category is in [r8].  Reboot, halt and shutdown
    do not return. *)
Definition sys_info (cpu : Z) (cur : tptr) (f : arch_uctx_t) k : kstate D :=
  let c := r8 f in
  if (c =? 0) || (c =? 1) then info_stats cur f k
  else if c =? 2 then kstop StopReboot k
  else if c =? 3 then kstop StopHalt k
  else if c =? 4 then kstop StopShutdown k
  else if c =? SYS_INFO_CAT_SIGACTION then info_sigaction cur f k
  else if c =? SYS_INFO_CAT_KILL then info_kill cpu cur f k
  else if c =? SYS_INFO_CAT_SIGPROCMASK then info_sigprocmask cur f k
  else if c =? SYS_INFO_CAT_SIGRETURN then info_sigreturn cur k
  else if c =? SYS_INFO_CAT_SIGPENDING then ret8 cur (t_sig_pending (kthr cur k)) k
  else if c =? SYS_INFO_CAT_ACTIVE_VT then ret8 cur (u64 (arch_console_get_active_vt (k_cons k))) k
  else if c =? SYS_INFO_CAT_CONSOLE_MODE then info_console_mode cur f k
  else if c =? SYS_INFO_CAT_SETPGID then info_setpgid cur f k
  else if c =? SYS_INFO_CAT_GETPGID then info_getpgid cur f k
  else if c =? SYS_INFO_CAT_SETSID then info_setsid cur k
  else if c =? SYS_INFO_CAT_TCGETPGRP then info_tcpgrp false cur f k
  else if c =? SYS_INFO_CAT_TCSETPGRP then info_tcpgrp true cur f k
  else if c =? SYS_INFO_CAT_PORT_IO then info_port_io cur f k
  else if c =? SYS_INFO_CAT_CONSOLE_FEED then info_console_feed cur f k
  else if c =? SYS_INFO_CAT_CONSOLE_SIGNAL_FG then info_console_signal cpu cur f k
  else if c =? SYS_INFO_CAT_SET_ACTIVE_VT then info_set_active_vt cur f k
  else if c =? SYS_INFO_CAT_CONSOLE_SCROLL then info_console_scroll cur f k
  else if c =? SYS_INFO_CAT_MOUSE_FEED then info_mouse_feed cur f k
  else if c =? SYS_INFO_CAT_MOUSE_READ then info_mouse_read cur k
  else if c =? SYS_INFO_CAT_FB_MAP then info_fb_map cur k
  else if c =? SYS_INFO_CAT_SHM_GET then info_shm_get cur f k
  else if c =? SYS_INFO_CAT_SHM_AT then info_shm_at cur f k
  else if c =? SYS_INFO_CAT_SHM_DT then info_shm_dt cur f k
  else if c =? SYS_INFO_CAT_SHM_CTL then info_shm_ctl cur f k
  else if c =? SYS_INFO_CAT_SOCK_CREATE then info_sock_create cur k
  else if c =? SYS_INFO_CAT_SOCK_BIND then info_sock_bind cur f k
  else if c =? SYS_INFO_CAT_SOCK_LISTEN then info_sock_listen cur f k
  else if c =? SYS_INFO_CAT_SOCK_CONNECT then info_sock_connect cur f k
  else if c =? SYS_INFO_CAT_SOCK_ACCEPT then info_sock_accept cur f k
  else if c =? SYS_INFO_CAT_SOCK_READ then info_sock_read cur f k
  else if c =? SYS_INFO_CAT_SOCK_WRITE then info_sock_write cur f k
  else if c =? SYS_INFO_CAT_SOCK_CLOSE then info_sock_close cur f k
  else if c =? SYS_INFO_CAT_PCI_CFG then info_pci_cfg cur f k
  else if c =? SYS_INFO_CAT_HW_PORT_IO then info_hw_port_io cur f k
  else if c =? SYS_INFO_CAT_HW_PORT_IO_BULK_READ then info_bulk_read cur f k
  else if c =? SYS_INFO_CAT_HW_PORT_IO_BULK_WRITE then info_bulk_write cur f k
  else if c =? SYS_INFO_CAT_DMA_ALLOC then info_dma_alloc cur f k
  else if c =? SYS_INFO_CAT_HW_MMIO_MAP then info_mmio_map cur f k
  else if c =? SYS_INFO_CAT_EXECREQ_REPLY then info_execreq_reply cpu cur f k
  else if c =? SYS_INFO_CAT_GETENTROPY then info_getentropy cur f k
  else if c =? SYS_INFO_CAT_BLOCK_INFO then info_block cur f k
  else ret cur IPC_ERR_NOT_FOUND k.

(** ** Calls that are not messages ([dest_tid == 0] and no receive) *)
Definition sys_call (cpu flags src_filter : Z) (cur : tptr) (f : arch_uctx_t) k : kstate D :=
  if has flags IPC_FLAG_RETYPE then sys_retype cur f k
  else if has flags IPC_FLAG_DESTROY then sys_destroy cpu cur f k
  else if has flags IPC_FLAG_CONSOLE_WRITE then sys_console_write cur f k
  else if has flags IPC_FLAG_CONSOLE_READ then sys_console_read cpu cur f k
  else if has flags IPC_FLAG_NOTIFY_SIGNAL then sys_notify_signal cpu cur f k
  else if has flags IPC_FLAG_NOTIFY_WAIT then sys_notify_wait cpu cur f k
  else if has flags IPC_FLAG_NOTIFY_POLL then sys_notify_poll cur f k
  else if has flags IPC_FLAG_TIMER_ARM then sys_timer_arm cur f k
  else if has flags IPC_FLAG_TIMER_DISARM then sys_timer_disarm cur f k
  else if has flags IPC_FLAG_REVOKE_FRAME then sys_revoke_frame cpu cur f k
  else if has flags IPC_FLAG_EXIT then sys_exit cpu cur f k
  else if has flags IPC_FLAG_SPAWN then sys_spawn cpu cur f k
  else if has flags IPC_FLAG_WAIT then sys_wait cpu flags cur f k
  else if has flags IPC_FLAG_PIPE_CREATE then sys_pipe_create cur k
  else if has flags IPC_FLAG_PIPE_READ then sys_pipe_read cur f k
  else if has flags IPC_FLAG_PIPE_WRITE then sys_pipe_write cur f k
  else if has flags IPC_FLAG_PIPE_CLOSE then sys_pipe_close cur f k
  else if has flags IPC_FLAG_FORK then sys_fork cur k
  else if has flags IPC_FLAG_SELF_TID then ret8 cur (t_tid (kthr cur k)) k
  else if has flags IPC_FLAG_EXEC then sys_exec cpu cur f k
  else if has flags IPC_FLAG_MOUNT then sys_mount cur f k
  else if has flags IPC_FLAG_BOOTFS then sys_bootfs cur f k
  else if has flags IPC_FLAG_RESOLVE_FAULT then sys_resolve_fault cur f k
  else if has flags IPC_FLAG_SET_FSBASE then sys_set_fsbase cpu cur f k
  else if has flags IPC_FLAG_THREAD_INFO then sys_thread_info cur f k
  else if has flags IPC_FLAG_SYS_INFO then sys_info cpu cur f k
  else (ret cur IPC_ERR_NONE k) <| k_sched ::= if src_filter =? 0 then sched_yield cpu else sched_sleep cpu src_filter |>.

(** ** Receiving *)
Definition sys_recv (cpu flags src_filter : Z) (cur : tptr) k : kstate D :=
  let '(s, st) := sendq_take cur src_filter (k_sched k) in
  let k := k <| k_sched := st |> in
  match s with
  | Some s => complete_parked_sender cpu cur s k
  | None =>
      match vm_take_queued_fault cur k with
      | (Some fault, k) =>
          kuctx cur (fun u => u <| r8 := fault_address fault |> <| r9 := error_code fault |>
            <| r10 := faulting_thread fault |> <| rsi := faulting_thread fault |> <| rax := IPC_ERR_NONE |>) k
      | (None, k) =>
          let '(req, k) := if t_tid (kthr cur k) =? ext2fs_tid (k_kinfo k)
                           then execreq_try_deliver_queued 25 k else (None, k) in
          match req with
          | Some (slot, generation, name) =>
              kuctx cur (fun u => u <| r8 := VFS_OP_READ_BULK |> <| r9 := slot |> <| r10 := generation |>
                <| r12 := byte_word name 0 |> <| r13 := byte_word name 1 |> <| r14 := byte_word name 2 |>
                <| rsi := 0 |> <| rax := IPC_ERR_NONE |>) k
          | None =>
              if has flags IPC_FLAG_NOBLOCK then ret cur IPC_ERR_WOULDBLOCK k
              else (kupd cur (fun b => b <| t_ipc_partner := src_filter |>) k)
                     <| k_sched ::= sched_block cpu THREAD_STATE_WAIT_RECV |>
          end
      end
  end.

(** ** Sending *)
(** The receiver waits: the message goes straight to its registers. *)
Definition send_direct (cpu flags src_filter : Z) (want_recv : bool) (cur dest : tptr) (f : arch_uctx_t) k : kstate D :=
  let m := payload_from_frame f in
  let c := kthr cur k in
  let '(xfer_rc, k) := transfer flags (t_tid c) (t_address_space c) (t_address_space (kthr dest k)) m k in
  let k := count_msg (deliver_to_frame dest (t_tid c) m k) in
  let k := kuctx cur (fun u => u <| rax := transfer_status xfer_rc |>) k in
  let donate k := kupd dest (fun b => b <| t_timeslice_left := t_timeslice_left (kthr cur k) |>) k in
  if want_recv then
    let '(waiting, st) := sendq_take cur src_filter (k_sched k) in
    let k := k <| k_sched := st |> in
    match waiting with
    | Some w => complete_parked_sender cpu cur w (kwake cpu dest k)
    | None =>
        let k := kupd cur (fun b => b <| t_ipc_partner := src_filter |>) k in
        let k := donate (k <| k_sched ::= sched_block cpu THREAD_STATE_WAIT_RECV |>) in
        k <| k_sched ::= sched_direct_switch cpu dest |>
    end
  else if t_prio (kthr dest k) >=? t_prio (kthr cur k) then
    let k := donate (k <| k_sched ::= sched_ready_now cur |>) in
    k <| k_sched ::= sched_direct_switch cpu dest |>
  else kwake cpu dest k.
(** The receiver is busy: the sender queues up with its message. *)
Definition send_parked (cpu flags src_filter dest_tid : Z) (want_recv : bool) (cur dest : tptr) (f : arch_uctx_t) k
  : kstate D :=
  let k := kupd cur (fun b => b <| t_ipc_buffer := payload_from_frame f |> <| t_ipc_flags := flags |>
             <| t_ipc_partner := dest_tid |> <| t_ipc_recv_after := if want_recv then src_filter else TID_NONE |>) k in
  let k := k <| k_sched ::= sendq_append dest cur |> in
  k <| k_sched ::= sched_block cpu THREAD_STATE_WAIT_SEND |>.

Definition sys_ipc (cpu : Z) k : kstate D :=
  let cur := kcur cpu k in
  let f := t_uctx (kthr cur k) in
  let dest_tid := u32 (rdi f) in
  let src_filter := u32 (rsi f) in
  let flags := u32 (rdx f) in
  let want_recv := has flags IPC_FLAG_RECV in
  if (dest_tid =? 0) && negb want_recv then sys_call cpu flags src_filter cur f k
  else if negb (dest_tid =? 0) then
    match kget dest_tid k with
    | None => ret cur IPC_ERR_NOT_FOUND k
    | Some dest =>
        let d := kthr dest k in
        let tid := t_tid (kthr cur k) in
        if tptr_eqb dest cur then ret cur IPC_ERR_NOT_FOUND k
        else if st_eqb (t_state d) THREAD_STATE_WAIT_PAGEFAULT && (tid =? t_pager_tid d) then
          let k := ret cur IPC_ERR_NONE (kwake cpu dest k) in
          if negb want_recv then k else sys_recv cpu flags src_filter cur k
        else if st_eqb (t_state d) THREAD_STATE_WAIT_RECV &&
                ((t_ipc_partner d =? IPC_TID_ANY) || (t_ipc_partner d =? tid))
        then send_direct cpu flags src_filter want_recv cur dest f k
        else send_parked cpu flags src_filter dest_tid want_recv cur dest f k
    end
  else sys_recv cpu flags src_filter cur k.

(** ** Traps ([trap.c], [intr.c]) *)
Notation TRAP_VEC_PAGEFAULT := 14 (only parsing).
Notation TRAP_VEC_TIMER := 32 (only parsing).
Notation TRAP_VEC_IPC := 0x30 (only parsing).
Notation TRAP_VEC_IPI_KICK := 0x31 (only parsing).
Notation TRAP_VEC_IPI_PANIC := 0x32 (only parsing).
Notation TRAP_VEC_IPI_SHOOTDOWN := 0x33 (only parsing).

(** The handlers drivers registered for the legacy interrupt lines. *)
Context (irq_handlers : Z -> option (kstate D -> kstate D)).

Definition arch_irq_dispatch (vector : Z) k : bool * kstate D :=
  if (vector <? 32) || (vector >=? 48) then (false, k)
  else
    match irq_handlers (vector - 32) with
    | None => (false, k)
    | Some handler =>
        let k := handler k in
        let k := k <| k_dev ::= outb 0x20 0x20 |> in
        (true, if vector - 32 >=? 8 then k <| k_dev ::= outb 0xA0 0x20 |> else k)
    end.

(** [None] only if [sched_resume] did not end; a stopped CPU returns no
    further.  The acknowledgement of the local APIC is not modelled. *)
Definition trap_dispatch (cpu : Z) (frame : arch_uctx_t) (cr2 : Z) k : option (kstate D) :=
  let k := kuctx (kcur cpu k) (fun _ => frame) k in
  let v := u_vector frame in
  if v =? TRAP_VEC_IPI_PANIC then Some (kstop StopFault k)
  else if v =? TRAP_VEC_IPI_SHOOTDOWN then Some k
  else
    let '(handled, k) := arch_irq_dispatch (u32 v) k in
    if handled then sched_resume cpu k
    else
      let k :=
        if v =? TRAP_VEC_TIMER then sched_tick cpu k
        else if v =? TRAP_VEC_IPI_KICK then k <| k_sched ::= sched_request_resched cpu |>
        else if v =? TRAP_VEC_IPC then sys_ipc cpu k
        else if v =? TRAP_VEC_PAGEFAULT then vm_handle_page_fault cpu cr2 (u32 (u_error frame)) k
        else if tru (t_address_space (kthr (kcur cpu k) k)) then sched_terminate_current cpu k
        else kstop StopFault k in
      match k_stop k with Some _ => Some k | None => sched_resume cpu k end.
End syscall.
