(* ===== verification/Resume.v ===== *)
(** * The return to user mode ends

    [sched_resume] delivers signals in a loop.  Each further round follows the
    end of a thread, and nothing brings a dead thread back, so the loop ends.
    The argument needs that the queues hold pointers into the thread table,
    which every operation keeps. *)
From Stdlib Require Import ZArith Lia.
From stdpp Require Import base numbers sets list list_numbers functions.
From S2P Require Import Prelude Abi Memory Pmm PageTable Vm Pipe Socket Shm Tcb Sched Console Kinfo Elf Kstate Captable Exec Kernel.

(** ** Dead threads stay dead *)
Definition gone (b : tcb) : bool := st_eqb (t_state b) THREAD_STATE_DEAD || st_eqb (t_state b) THREAD_STATE_ZOMBIE.
Definition no_revival (s s' : sched) : Prop := forall i, gone (thr s (Thr i)) = true -> gone (thr s' (Thr i)) = true.
Definition num_live (s : sched) : nat := length (filter (fun i => gone (thr s (Thr i)) = false) (seqZ 1 63)).

Definition inr (t : tptr) : Prop := match t with Thr i => 1 <= i < SCHED_MAX_THREADS | Idle _ => True end.
Definition okp (o : option tptr) : Prop := forall t, o = Some t -> inr t.

(** The pointers and the parent of a thread. *)
Record tcb_ok (b : tcb) : Prop := {
  tk_rq : okp (t_rq_next b);
  tk_inbox : okp (t_inbox_next b);
  tk_sq : okp (t_sq_next b);
  tk_head : okp (t_send_q_head b);
  tk_parent : 0 <= t_parent_tid b
}.
Record ptrs_ok (s : sched) : Prop := {
  pk_tcb x : tcb_ok (thr s x);
  pk_head p : okp (ready_head s p);
  pk_tail p : okp (ready_tail s p);
  pk_inbox : okp (wake_inbox s);
  pk_current c : okp (current s c);
  pk_idle c : t_address_space (thr s (Idle c)) = 0
}.
Definition fine (s s' : sched) : Prop := ptrs_ok s -> ptrs_ok s' /\ no_revival s s'.

Lemma fine_refl s : fine s s.
Proof. intros H. split; [done|by intros i]. Qed.
Lemma fine_trans a b c : fine a b -> fine b c -> fine a c.
Proof.
  intros H1 H2 Ha. destruct (H1 Ha) as [Hb R1], (H2 Hb) as [Hc R2]. split; [done|]. intros i Hi. auto.
Qed.
Lemma okp_None : okp None.
Proof. by intros t. Qed.
Lemma okp_Some t : inr t -> okp (Some t).
Proof. by intros H ? [= <-]. Qed.
#[export] Hint Resolve fine_refl okp_None okp_Some : robu.

(** An update of one thread. *)
Definition mild (t : tptr) (b b' : tcb) : Prop :=
  (tcb_ok b -> tcb_ok b') /\ (gone b = true -> gone b' = true) /\
  (match t with Idle _ => t_address_space b = 0 -> t_address_space b' = 0 | _ => True end).
Lemma upd_fine t g s : mild t (thr s t) (g (thr s t)) -> fine s (upd t g s).
Proof.
  intros (Hk & Hg & Ha) [Ht Hh Hl Hi Hc Hz]. split; [split; try done|].
  - intros x. rewrite upd_thr. destruct (decide _) as [->|]; auto.
  - intros c. rewrite upd_thr. destruct (decide _) as [<-|]; auto.
  - intros i Hgi. rewrite upd_thr. destruct (decide _) as [<-|]; auto.
Qed.
(** The other fields do not matter. *)
Lemma same_fine s s' :
  thr s' = thr s -> ready_head s' = ready_head s -> ready_tail s' = ready_tail s -> wake_inbox s' = wake_inbox s ->
  current s' = current s -> fine s s'.
Proof.
  intros E1 E2 E3 E4 E5 [Ht Hh Hl Hi Hc Hz]. split; [split; rewrite ?E1, ?E2, ?E3, ?E4, ?E5; done|].
  intros i. by rewrite E1.
Qed.

Lemma wake_current cpu t s : current (sched_wake cpu t s) = current s.
Proof. apply sched_wake_eff. Qed.

Lemma wake_fine cpu t s : inr t -> fine s (sched_wake cpu t s).
Proof.
  intros Ht Hs. destruct (sched_wake_eff cpu t s) as (Hx & Hw & Hh & Hl & _ & Hc & _).
  assert (Hok : forall x, tcb_ok (thr (sched_wake cpu t s) x) /\
    t_address_space (thr (sched_wake cpu t s) x) = t_address_space (thr s x)).
  { intros x. rewrite Hx. destruct (pk_tcb _ Hs x) as [? ? ? ? ?]. pose proof (pk_inbox _ Hs).
    destruct (decide _) as [[-> _]|]; [destruct (t_in_ready_q _)|]; by split; [split; rsimpl|rsimpl]. }
  split; [split|].
  - intros x. apply Hok.
  - intros p. rewrite Hh. apply Hs.
  - intros p. rewrite Hl. apply Hs.
  - rewrite Hw. destruct (_ && _); [by apply okp_Some|apply Hs].
  - intros c. rewrite Hc. apply Hs.
  - intros c. rewrite (proj2 (Hok _)). apply Hs.
  - intros i Hg. rewrite Hx. destruct (decide _) as [[<- Hwk]|]; [|done]. exfalso. revert Hwk Hg. unfold wakeable, gone.
    destruct (t_state (thr s (Thr i))); by vm_compute.
Qed.

(** ** The scheduler *)
Lemma push_fine t s : inr t -> fine s (rq_push t s).
Proof.
  intros Ht. unfold rq_push. destruct (t_in_ready_q (thr s t)); [apply fine_refl|]. cbv zeta.
  set (s1 := upd t _ s). assert (H1 : fine s s1).
  { apply upd_fine. split; [|by split; [|destruct t]]. intros [? ? ? ? ?]. split; rsimpl; auto with robu. }
  clearbody s1. set (p := t_prio (thr s1 t)). clearbody p. eapply fine_trans; [exact H1|].
  destruct (ready_tail s1 p) as [y|].
  - eapply fine_trans with (upd y (fun b => b <| t_rq_next := Some t |>) s1).
    { apply upd_fine. split; [|by split; [|destruct y]]. intros [? ? ? ? ?]. split; rsimpl; auto with robu. }
    intros [? ? Hl ? ? ?]. split; [split; rsimpl; try done|by intros i].
    intros q. rsimpl. destruct (decide (q = p)) as [->|]; [rewrite fn_lookup_insert; auto with robu|].
    by rewrite fn_lookup_insert_ne.
  - intros [? Hh Hl ? ? ?]. split; [split; rsimpl; try done|by intros i].
    + intros q. destruct (decide (q = p)) as [->|]; [rewrite fn_lookup_insert; auto with robu|by rewrite fn_lookup_insert_ne].
    + intros q. destruct (decide (q = p)) as [->|]; [rewrite fn_lookup_insert; auto with robu|by rewrite fn_lookup_insert_ne].
Qed.

Lemma drain_fine fuel : forall l s, okp l -> fine s (drain_loop fuel l s).
Proof.
  induction fuel as [|fuel IH]; intros [t|] s Hl; cbn [drain_loop]; try apply fine_refl.
  pose proof (Hl t eq_refl) as Ht. set (s1 := upd t _ s). intros Hs. pose proof (tk_inbox _ (pk_tcb _ Hs t)) as Hn. revert Hs.
  assert (H1 : fine s s1).
  { apply upd_fine. split; [|by split; [|destruct t]]. intros [? ? ? ? ?]. split; rsimpl; auto with robu. }
  eapply fine_trans; [exact H1|]. eapply fine_trans; [|by apply IH].
  destruct (st_eqb _ _); [by apply push_fine|apply fine_refl].
Qed.

Lemma drain_inbox_fine s : fine s (drain_inbox s).
Proof.
  intros Hs. pose proof Hs as Hs0. revert Hs. unfold drain_inbox.
  eapply fine_trans; [|apply drain_fine; apply Hs0].
  intros [? ? ? ? ? ?]. split; [split; rsimpl; auto with robu|by intros i].
Qed.

Lemma requeue_fine cpu s : fine s (requeue_prev cpu s).
Proof.
  intros Hs0. assert (Hi : inr (current_thread cpu s)).
  { unfold current_thread. destruct (current s cpu) as [t|] eqn:E; [by apply (pk_current _ Hs0 cpu)|done]. }
  revert Hs0. unfold requeue_prev. set (prev := current_thread cpu s) in *.
  assert (Hready : forall s, st_eqb (t_state (thr s prev)) THREAD_STATE_RUNNING = true \/ prev = Idle cpu ->
    fine s (upd prev (fun b => b <| t_state := THREAD_STATE_READY |>) s)).
  { intros s' [E|E].
    - apply upd_fine. split; [by intros [? ? ? ? ?]; split|split; [|by destruct prev]].
      unfold gone. intros Hg. exfalso. revert E Hg. destruct (t_state (thr s' prev)); by vm_compute.
    - intros [Ht Hh Hl Hb Hc Hz]. rewrite E. split; [split; try done|].
      + intros x. rewrite upd_thr. destruct (decide _) as [->|]; [|done]. by destruct (Ht (Idle cpu)); split.
      + intros c. rewrite upd_thr. destruct (decide _) as [[= ->]|]; [by rsimpl|done].
      + intros i. by rewrite upd_ne. }
  destruct (tptr_eqb prev (Idle cpu)) eqn:Ei.
  { apply Hready. right. by apply bool_decide_eq_true in Ei. }
  cbv zeta. set (s1 := if st_eqb _ THREAD_STATE_RUNNING then _ else _). assert (H1 : fine s s1).
  { unfold s1. destruct (st_eqb (t_state (thr s prev)) THREAD_STATE_RUNNING) eqn:Er; [|apply fine_refl]. apply Hready. by left. }
  eapply fine_trans; [exact H1|]. destruct (st_eqb (t_state (thr s1 prev)) _); [by apply push_fine|apply fine_refl].
Qed.

Lemma unlink_fine p t s : fine s (rq_unlink p None t s).
Proof.
  unfold rq_unlink. intros Hs. pose proof Hs as Hs0. revert Hs.
  set (s1 := s <| ready_head := _ |>). assert (H1 : fine s s1).
  { intros [? Hh ? ? ? ?]. split; [split; rsimpl; try done|by intros i]. intros q. unfold s1. rsimpl.
    destruct (decide (q = p)) as [->|]; [rewrite fn_lookup_insert; apply Hs0|by rewrite fn_lookup_insert_ne]. }
  set (s2 := if bool_decide _ then _ else _). assert (H2 : fine s1 s2).
  { unfold s2. destruct (bool_decide _); [|apply fine_refl]. intros [? ? Hl ? ? ?].
    split; [split; rsimpl; try done|by intros i]. intros q. 
    destruct (decide (q = p)) as [->|]; [rewrite fn_lookup_insert; auto with robu|by rewrite fn_lookup_insert_ne]. }
  set (s3 := match ready_head s2 p with Some _ => _ | None => _ end). assert (H3 : fine s2 s3).
  { unfold s3. destruct (ready_head s2 p); [apply fine_refl|by apply same_fine]. }
  eapply fine_trans; [exact H1|]. eapply fine_trans; [exact H2|]. eapply fine_trans; [exact H3|].
  apply upd_fine. split; [|by split; [|destruct t]]. intros [? ? ? ? ?]. split; rsimpl; auto with robu.
Qed.

(** The thread popped is ready, and in the table or idle. *)
Lemma pop_fine fuel cpu : forall s r s', rq_pop_loop fuel cpu s = (r, s') -> ptrs_ok s ->
  ptrs_ok s' /\ no_revival s s' /\ forall t, r = Some t -> inr t /\ t_state (thr s' t) = THREAD_STATE_READY.
Proof.
  induction fuel as [|fuel IH]; intros s r s' E Hs; cbn [rq_pop_loop] in E.
  { injection E as <- <-. by split; [|split; [intros i|]]. }
  destruct (negb _); [injection E as <- <-; by split; [|split; [intros i|]]|].
  set (p := highest_bit _) in *. destruct (ready_head s p) as [t|] eqn:Eh; [|injection E as <- <-; by split; [|split; [intros i|]]].
  destruct (unlink_fine p t s Hs) as [H1 R1]. set (s1 := rq_unlink p None t s) in *.
  destruct (st_eqb (t_state (thr s1 t)) THREAD_STATE_READY) eqn:Er.
  - injection E as <- <-. apply bool_decide_eq_true in Er.
    set (s2 := if t_last_cpu _ =? cpu then _ else _). assert (H2 : fine s1 s2 /\ thr s2 = thr s1).
    { unfold s2, bump. destruct (_ =? cpu); [by split; [apply same_fine|]|].
      destruct (negb _); by split; [apply same_fine|]. }
    destruct H2 as [H2 E2]. destruct (H2 H1) as [H3 R3]. split; [done|]. split; [intros i Hi; auto|].
    intros ? [= <-]. rewrite E2. split; [by apply (pk_head _ Hs p)|done].
  - destruct (IH _ _ _ E H1) as (H2 & R2 & H3). split; [done|]. split; [intros i Hi; auto|done].
Qed.

Lemma schedule_fine cpu s :
  ptrs_ok s -> ptrs_ok (schedule cpu s) /\ no_revival s (schedule cpu s) /\
  t_state (thr (schedule cpu s) (current_thread cpu (schedule cpu s))) = THREAD_STATE_RUNNING /\
  inr (current_thread cpu (schedule cpu s)).
Proof.
  intros Hs. unfold schedule. set (s1 := requeue_prev cpu (drain_inbox s)).
  destruct (fine_trans _ _ _ (drain_inbox_fine s) (requeue_fine cpu _) Hs) as [H1 R1]. fold s1 in H1, R1.
  unfold rq_pop_highest. destruct (rq_pop_loop rq_fuel cpu s1) as [r s2] eqn:E.
  destruct (pop_fine _ _ _ _ _ E H1) as (H2 & R2 & Hr).
  set (n := default (Idle cpu) r). assert (Hn : inr n) by (destruct r; [by apply Hr|done]).
  set (s3 := upd n _ s2). assert (H3 : ptrs_ok s3 /\ no_revival s2 s3).
  { destruct r as [t|]; cbn in n.
    - apply upd_fine; [|done]. destruct (Hr t eq_refl) as [_ Er]. split; [by intros [? ? ? ? ?]; split|].
      split; [|by destruct n]. unfold gone, n. rewrite Er. by vm_compute.
    - destruct H2 as [Ht ? ? ? ? Hz]. unfold s3, n. split; [split; try done|].
      + intros x. rewrite upd_thr. destruct (decide _) as [->|]; [|done]. by destruct (Ht (Idle cpu)); split.
      + intros c. rewrite upd_thr. destruct (decide _) as [[= ->]|]; [by rsimpl|done].
      + intros i. by rewrite upd_ne. }
  destruct H3 as [H3 R3]. assert (Er : t_state (thr s3 n) = THREAD_STATE_RUNNING) by (unfold s3; by rewrite upd_same).
  clearbody s3. set (s4 := if t_timeslice_left _ <=? 0 then _ else _).
  assert (H4 : fine s3 s4 /\ t_state (thr s4 n) = THREAD_STATE_RUNNING).
  { unfold s4. destruct (_ <=? 0); [|by split; [apply fine_refl|]]. rewrite upd_same. split; [|by rsimpl].
    apply upd_fine. split; [by intros [? ? ? ? ?]; split|by split; [|destruct n]]. }
  destruct H4 as [H4 E4]. destruct (H4 H3) as [H5 R5]. clearbody s4. unfold bump, current_thread. rsimpl.
  rewrite fn_lookup_insert. cbn [default]. split; [|split; [intros i Hi; rsimpl; auto|by split]].
  destruct H5 as [? ? ? ? Hc ?]. split; rsimpl; try done. intros c.
  destruct (decide (c = cpu)) as [->|]; [rewrite fn_lookup_insert; auto with robu|by rewrite fn_lookup_insert_ne].
Qed.

(** ** The kernel *)
Section kernel.
Context {D : Type} `{!Config}.
Implicit Types k : kstate D.

Definition kok k : Prop := ptrs_ok (k_sched k) /\ forall i, 0 <= x_requester_tid (xs_params (k_slots k i)).
Definition kfine k k' : Prop := kok k -> kok k' /\ no_revival (k_sched k) (k_sched k').

Lemma kfine_refl k : kfine k k.
Proof. intros Hx. split; [done|by intros i]. Qed.
Lemma kfine_trans a b c : kfine a b -> kfine b c -> kfine a c.
Proof.
  intros H1 H2 Ha. destruct (H1 Ha) as [Hb R1], (H2 Hb) as [Hc R2]. split; [done|]. intros i Hi. auto.
Qed.
Lemma kfine_sched k k' : fine (k_sched k) (k_sched k') -> k_slots k' = k_slots k -> kfine k k'.
Proof. intros Hf E [Hp Hs]. destruct (Hf Hp) as [Hp' R]. split; [|done]. split; [done|]. intros i. by rewrite E. Qed.
Lemma kfine_same k k' : k_sched k' = k_sched k -> k_slots k' = k_slots k -> kfine k k'.
Proof. intros E. apply kfine_sched. rewrite E. apply fine_refl. Qed.
Lemma kupd_fine t g k : mild t (kthr t k) (g (kthr t k)) -> kfine k (kupd t g k).
Proof. intros Hx. apply kfine_sched; [by apply upd_fine|done]. Qed.
Lemma kwake_fine cpu t k : inr t -> kfine k (kwake cpu t k).
Proof. intros Hx. apply kfine_sched; [by apply wake_fine|done]. Qed.
Lemma kget_inr tid k t : 0 <= tid -> kget tid k = Some t -> inr t.
Proof.
  unfold kget, sched_get_tcb. intros H0. destruct ((tid =? 0) || _) eqn:E; [done|]. cbv zeta.
  destruct (st_eqb _ _ || _); [done|]. intros Et. injection Et as <-. cbn. bools. lia.
Qed.
Lemma uctx_mild t (g : arch_uctx_t -> arch_uctx_t) (b : tcb) : mild t b (b <| t_uctx ::= g |>).
Proof. split; [by intros [? ? ? ? ?]; split|by split; [|destruct t]]. Qed.
Lemma kuctx_fine t g k : kfine k (kuctx t g k).
Proof. apply kupd_fine, uctx_mild. Qed.
Lemma for_range_fine n (f : Z -> kstate D -> kstate D) k :
  0 <= n -> (forall i k, 0 <= i < n -> kfine k (f i k)) -> kfine k (for_range n f k).
Proof.
  intros Hn Hf. apply (for_range_ind (fun _ k' => kfine k k')); [done|apply kfine_refl|].
  intros i k' Hi Hk. eapply kfine_trans; [exact Hk|by apply Hf].
Qed.

Lemma free_slot_fine i k : kfine k (free_slot i k).
Proof.
  intros [Hp Hs]. split; [split; [done|]|by intros j]. intros j. unfold free_slot, set_slot. rsimpl.
  destruct (decide (j = i)) as [->|]; [by rewrite fn_lookup_insert; rsimpl|by rewrite fn_lookup_insert_ne].
Qed.
Lemma fail_requester_fine cpu t k : inr t -> kfine k (fail_requester cpu t k).
Proof. intros Ht. eapply kfine_trans; [apply kuctx_fine|by apply kwake_fine]. Qed.

Lemma cancel_fine tid k : kfine k (execreq_cancel_requester tid k).
Proof.
  apply for_range_fine; [lia|]. intros i k' _. destruct (_ && _); [apply free_slot_fine|apply kfine_refl].
Qed.
Lemma fail_all_fine cpu k : kfine k (execreq_fail_all cpu k).
Proof.
  apply for_range_fine; [lia|]. intros i k' _. destruct (xs_eqb _ _); [apply kfine_refl|]. intros Hk. pose proof Hk as Hk0. revert Hk. eapply kfine_trans; [|apply free_slot_fine].
  destruct (kget _ k') as [r|] eqn:E; [|apply kfine_refl]. apply kget_inr in E; [|apply Hk0].
  destruct (_ && _); [by apply fail_requester_fine|apply kfine_refl].
Qed.

Lemma fail_senders_fine fuel cpu : forall s k, okp s -> kfine k (fail_senders fuel cpu s k).
Proof.
  induction fuel as [|fuel IH]; intros [t|] k Hs; cbn [fail_senders]; try apply kfine_refl.
  intros Hk. pose proof Hk as Hk0. revert Hk. pose proof (Hs t eq_refl) as Ht.
  eapply kfine_trans; [|apply IH; apply (tk_sq _ (pk_tcb _ (proj1 Hk0) t))].
  eapply kfine_trans; [|by apply kwake_fine]. apply kupd_fine.
  split; [|by split; [|destruct t]]. intros [? ? ? ? ?]. split; rsimpl; auto with robu.
Qed.

Lemma orphan_fine cpu t i k fl : 0 <= i < 63 -> kfine k (orphan_one cpu t i (k, fl)).1.
Proof.
  intros Hi. unfold orphan_one. cbn [fst]. set (w := Thr (i + 1)). set (tid := t_tid (kthr t k)).
  assert (Hw : inr w) by (cbn; unfold SCHED_MAX_THREADS; lia).
  set (k1 := if st_eqb _ THREAD_STATE_WAIT_RECV && _ then _ else _). assert (H1 : kfine k k1).
  { unfold k1. destruct (_ && _); [|apply kfine_refl]. eapply kfine_trans; [apply kuctx_fine|by apply kwake_fine]. }
  clearbody k1. eapply kfine_trans; [exact H1|]. destruct (t_parent_tid _ =? tid); [|apply kfine_refl].
  set (k2 := kupd w _ k1). assert (H2 : kfine k1 k2).
  { apply kupd_fine. split; [|by split]. intros [? ? ? ? ?]. split; rsimpl; try done. }
  eapply kfine_trans; [exact H2|]. destruct (st_eqb _ _); [|apply kfine_refl].
  apply kupd_fine. split; [by intros [? ? ? ? ?]; split|by split].
Qed.

Lemma orphans_fine cpu t k : kfine k (for_range (SCHED_MAX_THREADS - 1) (orphan_one cpu t) (k, false)).1.
Proof.
  apply (for_range_ind (fun _ (a : kstate D * bool) => kfine k a.1)); [by vm_compute|apply kfine_refl|].
  intros i [k' fl] Hi Hk. eapply kfine_trans; [exact Hk|]. apply orphan_fine. exact Hi.
Qed.

Lemma state_mild t st (b : tcb) :
  st = THREAD_STATE_DEAD \/ st = THREAD_STATE_ZOMBIE -> mild t b (b <| t_state := st |>).
Proof.
  intros Hst. split; [by intros [? ? ? ? ?]; split|split; [|by destruct t]].
  intros _. unfold gone. rsimpl. by destruct Hst as [->| ->].
Qed.

Lemma release_space_fine cpu i sib k : kfine k (release_space cpu (Thr i) sib k).
Proof.
  unfold release_space. destruct (tru _ && _); [|apply kfine_refl]. cbv zeta.
  set (k1 := if tptr_eqb _ _ then _ else _). assert (F1 : kfine k k1).
  { unfold k1. destruct (tptr_eqb _ _); [by apply kfine_same|apply kfine_refl]. }
  clearbody k1. eapply kfine_trans; [exact F1|]. set (k2 := k1 <| k_mem ::= _ |>).
  assert (F2 : kfine k1 k2) by (by apply kfine_same). clearbody k2. eapply kfine_trans; [exact F2|].
  set (k3 := vm_address_space_destroy _ k2). assert (F3 : kfine k2 k3) by (by apply kfine_same). clearbody k3.
  eapply kfine_trans; [exact F3|]. apply kupd_fine. split; [by intros [? ? ? ? ?]; split|by split].
Qed.

Lemma release_objects_fine cpu tid k : kfine k (release_objects cpu tid k).
Proof.
  unfold release_objects. cbv zeta. set (k1 := (notif_invalidate_waiter_death _ _) <| k_pipes ::= _ |> <| k_socks ::= _ |>).
  assert (F1 : kfine k k1) by (apply kfine_same; reflexivity). clearbody k1. eapply kfine_trans; [exact F1|].
  eapply kfine_trans; [apply (cancel_fine tid)|]. generalize (execreq_cancel_requester tid k1). intros k2.
  set (k3 := if tid =? _ then _ else _). assert (F3 : kfine k2 k3).
  { unfold k3. destruct (tid =? _); [apply fail_all_fine|apply kfine_refl]. }
  clearbody k3. eapply kfine_trans; [exact F3|]. destruct (_ =? tid); [by apply kfine_same|apply kfine_refl].
Qed.

(** A terminated thread is dead, whatever else its end causes. *)
Lemma terminate_fine cpu i st k :
  st = THREAD_STATE_DEAD \/ st = THREAD_STATE_ZOMBIE -> kok k ->
  kok (terminate_tcb cpu (Thr i) st k) /\ no_revival (k_sched k) (k_sched (terminate_tcb cpu (Thr i) st k)) /\
  gone (kthr (Thr i) (terminate_tcb cpu (Thr i) st k)) = true.
Proof.
  intros Hst Hk. unfold terminate_tcb. cbv zeta. set (t := Thr i).
  set (k1 := kupd t (fun b => b <| t_state := st |>) k).
  destruct (kupd_fine t (fun b => b <| t_state := st |>) k (state_mild _ _ _ Hst) Hk) as [H1 R1]. fold k1 in H1, R1.
  assert (G1 : gone (kthr t k1) = true).
  { unfold k1, kthr, kupd. rsimpl. rewrite upd_same. unfold gone. rsimpl. by destruct Hst as [->| ->]. }
  clearbody k1. pose proof (tk_head _ (pk_tcb _ (proj1 H1) t)) as Hq. set (k2 := kupd t _ k1).
  assert (F2 : kfine k1 k2).
  { apply kupd_fine. split; [|by split]. intros [? ? ? ? ?]. split; rsimpl; auto with robu. }
  pose proof (fail_senders_fine (Z.to_nat SCHED_MAX_THREADS) cpu _ k2 Hq) as F3. clearbody k2.
  change (t_send_q_head (kthr t k1)) with (t_send_q_head (thr (k_sched k1) t)).
  generalize dependent (fail_senders (Z.to_nat SCHED_MAX_THREADS) cpu (t_send_q_head (thr (k_sched k1) t)) k2).
  intros k3 F3. pose proof (orphans_fine cpu t k3) as F4. destruct (for_range _ _ (k3, false)) as [k4 sib]. cbn [fst] in F4.
  pose proof (release_space_fine cpu i sib k4) as F5. fold t in F5. generalize dependent (release_space cpu t sib k4).
  intros k5 F5. pose proof (release_objects_fine cpu (t_tid (kthr t k5)) k5) as F6.
  generalize dependent (release_objects cpu (t_tid (kthr t k5)) k5). intros k6 F6.
  assert (F : kfine k1 k6) by (repeat (eapply kfine_trans; [eassumption|]); apply kfine_refl).
  destruct (F H1) as [H2 R2]. split; [done|]. split; [intros j Hj; apply R2, R1, Hj|by apply R2].
Qed.

Lemma terminate_to_fine cpu i st k :
  st = THREAD_STATE_DEAD \/ st = THREAD_STATE_ZOMBIE -> kcur cpu k = Thr i -> kok k ->
  let k' := sched_terminate_to cpu st k in
  kok k' /\ no_revival (k_sched k) (k_sched k') /\ gone (kthr (Thr i) k') = true.
Proof.
  intros Hst Hc Hk. cbv zeta. unfold sched_terminate_to. rewrite Hc.
  generalize (terminate_fine cpu i st k Hst Hk). generalize (terminate_tcb cpu (Thr i) st k). intros k1 (H1 & R1 & G1).
  assert (F : kfine k1 (k1 <| k_sched ::= fun s => s <| need_resched := <[cpu := true]> (need_resched s) |> |>)).
  { apply kfine_sched; [by apply same_fine|done]. }
  destruct (F H1) as [H2 R2]. split; [done|]. split; [intros j Hj; apply R2, R1, Hj|exact G1].
Qed.

Lemma kcur_fine cpu k k' : current (k_sched k') = current (k_sched k) -> kcur cpu k' = kcur cpu k.
Proof. unfold kcur, current_thread. by intros ->. Qed.

Lemma exit_fine cpu i status k :
  kcur cpu k = Thr i -> kok k ->
  let k' := spawn_exit_current cpu status k in
  kok k' /\ no_revival (k_sched k) (k_sched k') /\ gone (kthr (Thr i) k') = true.
Proof.
  intros Hc Hk. unfold spawn_exit_current. rewrite Hc. set (k1 := kupd (Thr i) _ k).
  assert (F1 : kfine k k1) by (apply kupd_fine; split; [by intros [? ? ? ? ?]; split|by split]).
  assert (C1 : kcur cpu k1 = Thr i) by (rewrite <- Hc; by apply kcur_fine).
  destruct (F1 Hk) as [H1 R1]. clearbody k1.
  assert (Hend : forall st k2, st = THREAD_STATE_DEAD \/ st = THREAD_STATE_ZOMBIE -> kfine k1 k2 -> kcur cpu k2 = Thr i ->
    let k' := sched_terminate_to cpu st k2 in
    kok k' /\ no_revival (k_sched k) (k_sched k') /\ gone (kthr (Thr i) k') = true).
  { intros st k2 Hst F2 C2. destruct (F2 H1) as [H2 R2]. destruct (terminate_to_fine cpu i st k2 Hst C2 H2) as (H3 & R3 & G).
    split; [done|]. split; [intros j Hj; apply R3, R2, R1, Hj|done]. }
  destruct (tru _) eqn:Ep; [|apply Hend; auto using kfine_refl].
  destruct (kget _ k1) as [p|] eqn:Eg; [|apply Hend; auto using kfine_refl].
  apply kget_inr in Eg; [|apply (pk_tcb _ (proj1 H1))].
  destruct (_ && _); [|apply Hend; auto using kfine_refl]. apply Hend; [by left| |].
  - eapply kfine_trans; [apply kuctx_fine|by apply kwake_fine].
  - rewrite <- C1. apply kcur_fine. unfold kwake, kuctx, kupd. rsimpl. by rewrite wake_current.
Qed.

(** ** The loop *)
Lemma live_le s s' (l : list Z) :
  no_revival s s' ->
  (length (filter (fun i => gone (thr s' (Thr i)) = false) l) <= length (filter (fun i => gone (thr s (Thr i)) = false) l))%nat.
Proof.
  intros R. induction l as [|j l IH]; [done|]. rewrite !filter_cons. specialize (R j).
  destruct (decide (gone (thr s' (Thr j)) = false)) as [E|], (decide (gone (thr s (Thr j)) = false)) as [E'|E']; cbn; try lia.
  apply not_false_is_true in E'. rewrite R in E by done. done.
Qed.
Lemma num_live_lt s s' i :
  no_revival s s' -> 1 <= i < SCHED_MAX_THREADS -> gone (thr s (Thr i)) = false -> gone (thr s' (Thr i)) = true ->
  (num_live s' < num_live s)%nat.
Proof.
  intros R Hi E E'. unfold num_live.
  assert (Hin : i ∈ seqZ 1 63) by (apply elem_of_seqZ; unfold SCHED_MAX_THREADS in Hi; lia). revert Hin.
  generalize (seqZ 1 63). intros l. induction l as [|j l IH]; intros Hin; [by apply not_elem_of_nil in Hin|].
  rewrite !filter_cons. destruct (decide (j = i)) as [->|Hne].
  - rewrite (decide_False (P := gone (thr s' (Thr i)) = false)) by congruence. rewrite decide_True by done. cbn. pose proof (live_le s s' l R). lia.
  - apply elem_of_cons in Hin as [->|Hin]; [done|]. specialize (IH Hin). specialize (R j).
    destruct (decide (gone (thr s' (Thr j)) = false)) as [E1|], (decide (gone (thr s (Thr j)) = false)) as [E2|E2]; cbn; try lia.
    apply not_false_is_true in E2. rewrite R in E1 by done. done.
Qed.

(** Delivering a signal to the running thread leaves it running or dead. *)
Lemma deliver_fine cpu i k :
  kcur cpu k = Thr i -> t_state (kthr (Thr i) k) = THREAD_STATE_RUNNING -> kok k ->
  let k' := sig_try_deliver cpu (Thr i) k in
  kok k' /\ no_revival (k_sched k) (k_sched k') /\
  (t_state (kthr (Thr i) k') = THREAD_STATE_RUNNING \/ gone (kthr (Thr i) k') = true).
Proof.
  intros Hc Hr Hk. unfold sig_try_deliver.
  assert (Hid : kok k /\ no_revival (k_sched k) (k_sched k) /\
    (t_state (kthr (Thr i) k) = THREAD_STATE_RUNNING \/ gone (kthr (Thr i) k) = true)) by (split; [done|]; split; [by intros j|by left]).
  destruct (t_in_sig_handler _); [done|]. destruct (first_signal _) as [signum|]; [|done]. cbv zeta.
  set (k1 := kupd (Thr i) _ k).
  assert (F1 : kfine k k1) by (apply kupd_fine; split; [by intros [? ? ? ? ?]; split|by split]).
  assert (C1 : kcur cpu k1 = Thr i) by (rewrite <- Hc; by apply kcur_fine).
  assert (E1 : t_state (kthr (Thr i) k1) = THREAD_STATE_RUNNING).
  { unfold k1, kthr, kupd. rsimpl. rewrite upd_same. by rsimpl. }
  destruct (F1 Hk) as [H1 R1]. clearbody k1. destruct (_ =? ROBU_SIG_IGN); [by split; [|split; [|left]]|].
  destruct (_ =? ROBU_SIG_DFL).
  { destruct (sig_default_terminates signum); [|by split; [|split; [|left]]].
    destruct (exit_fine cpu i (i32 (Z.lor 0x80000000 signum)) k1 C1 H1) as (H2 & R2 & G2).
    split; [done|]. split; [intros j Hj; apply R2, R1, Hj|by right]. }
  set (k2 := push_return _ _ k1). assert (F2 : kfine k1 k2 /\ k_sched k2 = k_sched k1).
  { unfold k2, push_return. destruct (hw_paddr _ _ _); by split; [apply kfine_same|]. }
  destruct F2 as [F2 E2]. clearbody k2. destruct (F2 H1) as [H2 R2].
  set (k3 := kupd (Thr i) (enter_handler signum) k2).
  assert (Hst : forall b, t_state (enter_handler signum b) = t_state b /\ (tcb_ok b -> tcb_ok (enter_handler signum b))).
  { intros b. unfold enter_handler. destruct (negb _), (has _ SA_RESETHAND); rsimpl; by split; [|intros [? ? ? ? ?]; split]. }
  assert (F3 : kfine k2 k3).
  { apply kupd_fine. split; [apply Hst|split; [|done]]. unfold gone. by rewrite (proj1 (Hst _)). }
  destruct (F3 H2) as [H3 R3]. split; [done|]. split; [intros j Hj; apply R3, R2, R1, Hj|left].
  unfold k3, kthr, kupd. rsimpl. rewrite upd_same, (proj1 (Hst _)). by rewrite E2.
Qed.

Lemma switch_fine cpu from to k : kfine k (sched_switch_to cpu from to k).
Proof.
  unfold sched_switch_to. set (k1 := if negb _ then _ else _). assert (F1 : kfine k k1).
  { unfold k1. clear k1. destruct (negb _); [|apply kfine_refl]. cbv zeta. set (k2 := kupd from _ k).
    assert (F2 : kfine k k2) by (apply kupd_fine; split; [by intros [? ? ? ? ?]; split|by split; [|destruct from]]).
    clearbody k2. eapply kfine_trans; [exact F2|]. destruct (negb _); apply kfine_same; reflexivity. }
  clearbody k1. eapply kfine_trans; [exact F1|]. by apply kfine_same.
Qed.
Lemma switch_keeps cpu from to k x :
  t_state (kthr x (sched_switch_to cpu from to k)) = t_state (kthr x k) /\
  current (k_sched (sched_switch_to cpu from to k)) = current (k_sched k).
Proof.
  unfold sched_switch_to. destruct (negb (tptr_eqb to from)); [|done]. cbv zeta. set (k2 := kupd from _ k).
  assert (E : t_state (kthr x k2) = t_state (kthr x k) /\ current (k_sched k2) = current (k_sched k)).
  { unfold k2, kthr, kupd. rsimpl. rewrite upd_thr. by destruct (decide _) as [->|]. }
  clearbody k2. by destruct (negb _).
Qed.

Lemma reschedule_fine cpu k :
  kok k -> kok (reschedule cpu k) /\ no_revival (k_sched k) (k_sched (reschedule cpu k)) /\
  t_state (kthr (kcur cpu (reschedule cpu k)) (reschedule cpu k)) = THREAD_STATE_RUNNING /\ inr (kcur cpu (reschedule cpu k)).
Proof.
  intros [Hp Hs]. destruct (schedule_fine cpu (k_sched k) Hp) as (H1 & R1 & E1 & I1).
  change (k_sched (reschedule cpu k)) with (sched_arm_next_deadline cpu (schedule cpu (k_sched k))).
  unfold kok, kthr, kcur. change (k_slots (reschedule cpu k)) with (k_slots k).
  change (k_sched (reschedule cpu k)) with (sched_arm_next_deadline cpu (schedule cpu (k_sched k))).
  generalize dependent (schedule cpu (k_sched k)). intros s1 H1 R1 E1 I1.
  assert (F : fine s1 (sched_arm_next_deadline cpu s1)) by (by apply same_fine).
  destruct (F H1) as [H2 R2]. split; [by split|]. split; [intros i Hi; apply R2, R1, Hi|]. by split.
Qed.

Lemma signal_loop_ends cpu fuel : forall next k,
  kok k -> kcur cpu k = next -> t_state (kthr next k) = THREAD_STATE_RUNNING -> inr next ->
  (num_live (k_sched k) < fuel)%nat -> exists k', signal_loop fuel cpu next k = Some k'.
Proof.
  induction fuel as [|fuel IH]; intros next k Hk Hc Hr Hi Hf; [lia|]. cbn [signal_loop].
  destruct (has_signal (kthr next k)) eqn:Es; cbn [negb]; [|by eexists].
  destruct next as [i|c].
  2:{ exfalso. unfold has_signal in Es. assert (Ha : t_address_space (kthr (Idle c) k) = 0) by apply Hk. rewrite Ha in Es. done. }
  destruct (deliver_fine cpu i k Hc Hr Hk) as (H1 & R1 & G1). generalize dependent (sig_try_deliver cpu (Thr i) k).
  intros k1 H1 R1 G1. destruct (k_stop k1); [by eexists|].
  destruct (st_eqb _ THREAD_STATE_RUNNING) eqn:Er; [by eexists|]. destruct G1 as [G1|G1]; [by rewrite G1 in Er|].
  destruct (reschedule_fine cpu k1 H1) as (H2 & R2 & E2 & I2). generalize dependent (reschedule cpu k1).
  intros k2 H2 R2 E2 I2. destruct (switch_fine cpu (Thr i) (kcur cpu k2) k2 H2) as [H3 R3].
  destruct (switch_keeps cpu (Thr i) (kcur cpu k2) k2 (kcur cpu k2)) as [E3 C3].
  apply IH; [done| |by rewrite E3|done|].
  - by apply kcur_fine.
  - assert (R : no_revival (k_sched k) (k_sched (sched_switch_to cpu (Thr i) (kcur cpu k2) k2)))
      by (intros j Hj; apply R3, R2, R1, Hj).
    assert (Hl : gone (kthr (Thr i) k) = false) by (unfold gone; by rewrite Hr).
    pose proof (num_live_lt _ _ i R Hi Hl ltac:(apply R3, R2, G1)). lia.
Qed.

End kernel.

(** Thread 7 runs with a pending signal that ends it. *)
Definition demo_signalled : kstate unit :=
  demo_kstate <| k_sched ::= fun s =>
    (upd (Thr 7) (fun b => b <| t_tid := 7 |> <| t_address_space := 0x9000 |> <| t_sig_pending := bit 14 |>) s)
      <| current := <[0 := Some (Thr 7)]> (current s) |> |>.

Lemma demo_signalled_ok : kok demo_signalled.
Proof.
  split; [|by intros i]. assert (Hz : tcb_ok tcb_zero) by (split; try apply okp_None; done).
  split; try (intros; apply okp_None).
  - intros x. change (thr (k_sched demo_signalled)) with (thr (upd (Thr 7) (fun b => b <| t_tid := 7 |>
      <| t_address_space := 0x9000 |> <| t_sig_pending := bit 14 |>) sched_zero)).
    rewrite upd_thr. destruct (decide _); [|exact Hz]. destruct Hz as [? ? ? ? ?]. by split.
  - intros c. change (current (k_sched demo_signalled)) with (<[0 := Some (Thr 7)]> (current sched_zero)).
    destruct (decide (c = 0)) as [->|]; [rewrite fn_lookup_insert; apply okp_Some; cbn; unfold SCHED_MAX_THREADS; lia|].
    rewrite fn_lookup_insert_ne by done. apply okp_None.
  - intros c. change (thr (k_sched demo_signalled)) with (thr (upd (Thr 7) (fun b => b <| t_tid := 7 |>
      <| t_address_space := 0x9000 |> <| t_sig_pending := bit 14 |>) sched_zero)). by rewrite upd_ne.
Qed.

