(* ===== verification/Lifecycle.v ===== *)
(** * The end of a thread leaves nothing behind

    After [terminate_tcb] no table of the kernel names the thread: no child,
    no receiver, no queued sender, no capability, notification, pipe end,
    socket, program request or screen. *)
From Stdlib Require Import ZArith Lia.
From stdpp Require Import base numbers sets list list_numbers functions.
From S2P Require Import Prelude Abi Memory Pmm PageTable Vm Pipe Socket Shm Tcb Sched Console Kinfo Elf Kstate Captable Exec Kernel Resume.

(** ** What wake-ups keep of the threads *)
Definition calm_tcb (b b' : tcb) : Prop :=
  t_tid b' = t_tid b /\ t_parent_tid b' = t_parent_tid b /\ t_ipc_partner b' = t_ipc_partner b /\
  t_send_q_head b' = t_send_q_head b /\ (t_state b' = t_state b \/ t_state b' = THREAD_STATE_READY).
Definition calm (s s' : sched) : Prop := forall x, calm_tcb (thr s x) (thr s' x).

Lemma calm_refl s : calm s s.
Proof. intros x. unfold calm_tcb. auto 6. Qed.
Lemma calm_trans a b c : calm a b -> calm b c -> calm a c.
Proof.
  intros H1 H2 x. destruct (H1 x) as (A1 & A2 & A3 & A4 & A5), (H2 x) as (B1 & B2 & B3 & B4 & B5).
  unfold calm_tcb. rewrite B1, B2, B3, B4. repeat (split; [done|]). destruct B5 as [->| ->]; auto.
Qed.
Lemma upd_calm t g s : calm_tcb (thr s t) (g (thr s t)) -> calm s (upd t g s).
Proof. intros Hg x. rewrite upd_thr. destruct (decide _) as [->|]; [done|apply calm_refl]. Qed.
Lemma wake_calm cpu t s : calm s (sched_wake cpu t s).
Proof.
  intros x. destruct (sched_wake_eff cpu t s) as (Hx & _). rewrite Hx.
  destruct (decide _) as [[-> _]|]; [|apply calm_refl]. destruct (t_in_ready_q _); unfold calm_tcb; rsimpl; auto 6.
Qed.

Section lifecycle.
Context {D : Type} `{!Config}.
Implicit Types k : kstate D.

(** Only threads and request slots change. *)
Record aside k k' : Prop := {
  as_calm : calm (k_sched k) (k_sched k');
  as_caps : k_caps k' = k_caps k;
  as_pipes : k_pipes k' = k_pipes k;
  as_socks : k_socks k' = k_socks k;
  as_cons : k_cons k' = k_cons k
}.
Lemma aside_refl k : aside k k.
Proof. split; [apply calm_refl|done..]. Qed.
Lemma aside_trans a b c : aside a b -> aside b c -> aside a c.
Proof. intros [A1 A2 A3 A4 A5] [B1 B2 B3 B4 B5]. split; [by eapply calm_trans|congruence..]. Qed.
Lemma kuctx_aside t g k : aside k (kuctx t g k).
Proof. split; try done. apply upd_calm. unfold calm_tcb. rsimpl. auto 6. Qed.
Lemma kwake_aside cpu t k : aside k (kwake cpu t k).
Proof. split; try done. apply wake_calm. Qed.
Lemma free_slot_aside i k : aside k (free_slot i k).
Proof. split; try done. apply calm_refl. Qed.

Lemma fail_senders_aside fuel cpu : forall s k, aside k (fail_senders fuel cpu s k).
Proof.
  induction fuel as [|fuel IH]; intros [t|] k; cbn [fail_senders]; try apply aside_refl.
  eapply aside_trans; [|apply IH]. eapply aside_trans; [|apply kwake_aside].
  split; try done. apply upd_calm. unfold calm_tcb. rsimpl. auto 6.
Qed.

(** ** Requests *)
Definition requests_of (tid : Z) (slots : Z -> execreq_slot_t) (n : Z) : Prop :=
  forall j, 0 <= j < n -> xs_state (slots j) <> EXECREQ_EMPTY -> x_requester_tid (xs_params (slots j)) <> tid.

Lemma free_slot_at i k j :
  k_slots (free_slot i k) j = if decide (j = i) then (k_slots k i) <| xs_state := EXECREQ_EMPTY |>
                                <| xs_generation := u16 (xs_generation (k_slots k i) + 1) |> else k_slots k j.
Proof.
  unfold free_slot, set_slot. rsimpl. destruct (decide _) as [->|]; [by rewrite fn_lookup_insert|by rewrite fn_lookup_insert_ne].
Qed.
Lemma free_slot_none tid i k n : requests_of tid (k_slots k) n -> requests_of tid (k_slots (free_slot i k)) n.
Proof.
  intros Hr j Hj. rewrite free_slot_at. destruct (decide _); [by rsimpl|by apply Hr].
Qed.

Lemma cancel_spec tid k :
  aside k (execreq_cancel_requester tid k) /\ requests_of tid (k_slots (execreq_cancel_requester tid k)) EXECREQ_MAX_SLOTS.
Proof.
  apply (for_range_ind (fun n k' => aside k k' /\ requests_of tid (k_slots k') n)); [lia|split; [apply aside_refl|intros j; lia]|].
  intros i k' Hi [Ha Hr]. destruct (negb _ && _) eqn:E.
  - split; [eapply aside_trans; [exact Ha|apply free_slot_aside]|]. intros j Hj. rewrite free_slot_at.
    destruct (decide _) as [->|]; [by rsimpl|]. apply Hr. lia.
  - split; [done|]. intros j Hj Hs. destruct (decide (j = i)) as [->|]; [|apply Hr; [lia|done]]. intros Et.
    apply andb_false_iff in E as [E|E]; [|lia]. apply negb_false_iff, bool_decide_eq_true in E. done.
Qed.

Lemma fail_all_spec tid cpu k :
  requests_of tid (k_slots k) EXECREQ_MAX_SLOTS ->
  aside k (execreq_fail_all cpu k) /\ requests_of tid (k_slots (execreq_fail_all cpu k)) EXECREQ_MAX_SLOTS.
Proof.
  intros Hr0. apply (for_range_ind (fun _ k' => aside k k' /\ requests_of tid (k_slots k') EXECREQ_MAX_SLOTS));
    [lia|by split; [apply aside_refl|]|].
  intros i k' Hi [Ha Hr]. destruct (xs_eqb _ _); [done|]. set (k1 := match kget _ k' with Some _ => _ | None => _ end).
  assert (F : aside k' k1 /\ k_slots k1 = k_slots k').
  { unfold k1. destruct (kget _ k') as [r|]; [|by split; [apply aside_refl|]].
    destruct (_ && _); [|by split; [apply aside_refl|]]. split; [|done].
    eapply aside_trans; [apply kuctx_aside|apply kwake_aside]. }
  destruct F as [F E]. clearbody k1. split; [eapply aside_trans; [exact Ha|]; eapply aside_trans; [exact F|apply free_slot_aside]|].
  apply free_slot_none. by rewrite E.
Qed.

(** ** Sockets, capabilities, notifications *)
Lemma close_slot_owner i t j :
  owner_tid (close_slot i t j) = owner_tid (t j) /\
  in_use (close_slot i t j) = (if decide (j = i) then false else in_use (t j)).
Proof.
  unfold close_slot. cbv zeta. set (t1 := match live_peer _ _ with Some _ => _ | None => _ end).
  assert (H1 : forall j, owner_tid (t1 j) = owner_tid (t j) /\ in_use (t1 j) = in_use (t j)).
  { intros x. unfold t1. destruct (live_peer _ _) as [p|]; [|done]. destruct (state_eqb _ _); [|done].
    destruct (decide (x = p)) as [->|]; [by rewrite fn_lookup_insert|by rewrite fn_lookup_insert_ne]. }
  clearbody t1. destruct (decide (j = i)) as [->|]; [rewrite fn_lookup_insert; rsimpl; by split; [apply H1|]|].
  by rewrite fn_lookup_insert_ne.
Qed.
Lemma cleanup_spec tid t :
  forall j, 0 <= j < MAX_SOCKETS -> in_use (sock_cleanup_for_process tid t j) = true ->
    owner_tid (sock_cleanup_for_process tid t j) <> tid.
Proof.
  apply (for_range_ind (fun n t' => forall j, 0 <= j < n -> in_use (t' j) = true -> owner_tid (t' j) <> tid));
    [by vm_compute|intros j; lia|].
  intros i t' Hi IH j Hj Hu. destruct (negb _ || _) eqn:E.
  - destruct (decide (j = i)) as [->|]; [|apply IH; [lia|done]]. rewrite Hu in E. cbn in E. lia.
  - destruct (close_slot_owner i t' j) as [E1 E2]. rewrite E1. rewrite E2 in Hu. destruct (decide _); [done|].
    apply IH; [lia|done].
Qed.

Lemma caps_none tid k :
  let c := k_caps (kcap_invalidate_tcb_death tid k) in
  forall j, 0 <= j < kcap_count c -> ~ (c_kind (kcap_table c j) = CAP_KIND_TCB /\ c_addr (kcap_table c j) = tid).
Proof.
  unfold kcap_invalidate_tcb_death, set_caps. rsimpl. set (c := k_caps k).
  destruct (decide (0 <= kcap_count c)) as [Hc|Hc]; [|intros j; lia].
  apply (for_range_ind (fun n t => forall j, 0 <= j < n -> ~ (c_kind (t j) = CAP_KIND_TCB /\ c_addr (t j) = tid)));
    [done|intros j; lia|].
  intros i t Hi IH j Hj. destruct (_ && _) eqn:E.
  - destruct (decide (j = i)) as [->|]; [rewrite fn_lookup_insert; rsimpl; by intros [? _]|].
    rewrite fn_lookup_insert_ne by done. apply IH. lia.
  - destruct (decide (j = i)) as [->|]; [|apply IH; lia]. intros [E1 E2]. rewrite E1, E2 in E. cbn in E. lia.
Qed.
Lemma notif_none tid k :
  tid <> 0 -> let c := k_caps (notif_invalidate_waiter_death tid k) in
  forall j, 0 <= j < notif_count c -> n_waiter (notif_table c j) <> tid.
Proof.
  intros Ht. unfold notif_invalidate_waiter_death, set_caps. rsimpl. set (c := k_caps k).
  destruct (decide (0 <= notif_count c)) as [Hc|Hc]; [|intros j; lia].
  apply (for_range_ind (fun n t => forall j, 0 <= j < n -> n_waiter (t j) <> tid)); [done|intros j; lia|].
  intros i t Hi IH j Hj. destruct (_ =? tid) eqn:E.
  - destruct (decide (j = i)) as [->|]; [rewrite fn_lookup_insert; by rsimpl|].
    rewrite fn_lookup_insert_ne by done. apply IH. lia.
  - destruct (decide (j = i)) as [->|]; [lia|]. apply IH. lia.
Qed.

(** No object names [tid]. *)
Record unnamed (tid : Z) k : Prop := {
  un_caps j : 0 <= j < kcap_count (k_caps k) ->
    ~ (c_kind (kcap_table (k_caps k) j) = CAP_KIND_TCB /\ c_addr (kcap_table (k_caps k) j) = tid);
  un_notifs j : 0 <= j < notif_count (k_caps k) -> n_waiter (notif_table (k_caps k) j) <> tid;
  un_pipes j : 0 <= j < PIPE_POOL_SIZE ->
    Z.testbit (readers_mask (k_pipes k j)) tid = false /\ Z.testbit (writers_mask (k_pipes k j)) tid = false;
  un_socks j : 0 <= j < MAX_SOCKETS -> in_use (k_socks k j) = true -> owner_tid (k_socks k j) <> tid;
  un_requests : requests_of tid (k_slots k) EXECREQ_MAX_SLOTS;
  un_screen : fb_owner_tid (k_cons k) <> tid
}.

Lemma release_objects_spec cpu tid k :
  1 <= tid < 64 -> unnamed tid (release_objects cpu tid k) /\ calm (k_sched k) (k_sched (release_objects cpu tid k)).
Proof.
  intros Ht. unfold release_objects. cbv zeta. set (k1 := kcap_invalidate_tcb_death tid k).
  set (k2 := notif_invalidate_waiter_death tid k1).
  set (k3 := k2 <| k_pipes ::= pipe_invalidate_tcb_death tid |> <| k_socks ::= sock_cleanup_for_process tid |>).
  assert (Hcaps : forall j, 0 <= j < kcap_count (k_caps k3) ->
    ~ (c_kind (kcap_table (k_caps k3) j) = CAP_KIND_TCB /\ c_addr (kcap_table (k_caps k3) j) = tid)).
  { exact (caps_none tid k). }
  assert (Hnot : forall j, 0 <= j < notif_count (k_caps k3) -> n_waiter (notif_table (k_caps k3) j) <> tid).
  { apply (notif_none tid k1). lia. }
  assert (Hpipe : forall j, 0 <= j < PIPE_POOL_SIZE ->
    Z.testbit (readers_mask (k_pipes k3 j)) tid = false /\ Z.testbit (writers_mask (k_pipes k3 j)) tid = false).
  { intros j Hj. change (k_pipes k3) with (pipe_invalidate_tcb_death tid (k_pipes k2)). unfold pipe_invalidate_tcb_death.
    rewrite (for_range_pointwise (fun _ => pipe_invalidate_one (bit tid))).
    replace ((0 <=? j) && (j <? PIPE_POOL_SIZE)) with true by lia.
    destruct (pipe_invalidate_one_bits tid tid (k_pipes k2 j)) as [-> ->]; [lia..|]. rewrite Z.eqb_refl. by rewrite !andb_false_r. }
  assert (Hsock : forall j, 0 <= j < MAX_SOCKETS -> in_use (k_socks k3 j) = true -> owner_tid (k_socks k3 j) <> tid).
  { exact (cleanup_spec tid (k_socks k2)). }
  assert (Hs : k_sched k3 = k_sched k) by reflexivity. clearbody k3. clear k1 k2.
  destruct (cancel_spec tid k3) as [A4 R4]. generalize dependent (execreq_cancel_requester tid k3). intros k4 A4 R4.
  set (k5 := if tid =? _ then _ else _). assert (H5 : aside k4 k5 /\ requests_of tid (k_slots k5) EXECREQ_MAX_SLOTS).
  { unfold k5. destruct (tid =? _); [by apply fail_all_spec|by split; [apply aside_refl|]]. }
  clearbody k5. destruct H5 as [A5 R5]. destruct (aside_trans _ _ _ A4 A5) as [C1 C2 C3 C4 C5].
  rewrite <- Hs. unfold arch_console_get_fb_owner. destruct (fb_owner_tid (k_cons k5) =? tid) eqn:E.
  - split; [|done]. split; rsimpl; rewrite ?C2, ?C3, ?C4; try done. unfold arch_console_set_fb_owner. rsimpl. lia.
  - split; [|done]. split; rewrite ?C2, ?C3, ?C4; try done. lia.
Qed.

(** ** Children and receivers *)
Definition stranger (tid : Z) (b : tcb) : Prop :=
  t_parent_tid b <> tid /\ ~ (t_state b = THREAD_STATE_WAIT_RECV /\ t_ipc_partner b = tid).
Lemma calm_stranger tid b b' : calm_tcb b b' -> stranger tid b -> stranger tid b'.
Proof.
  intros (_ & E2 & E3 & _ & E5) [H1 H2]. split; [by rewrite E2|]. rewrite E3. intros [Es Ep]. apply H2.
  split; [|done]. destruct E5 as [<-|E5]; [done|]. rewrite Es in E5. done.
Qed.

Lemma orphan_one_spec cpu t i k fl :
  t_tid (kthr t k) <> 0 -> let k' := (orphan_one cpu t i (k, fl)).1 in
  stranger (t_tid (kthr t k)) (kthr (Thr (i + 1)) k') /\
  (forall x, x <> Thr (i + 1) -> kthr x k' = kthr x k) /\
  (forall x, t_tid (kthr x k') = t_tid (kthr x k) /\ t_send_q_head (kthr x k') = t_send_q_head (kthr x k)).
Proof.
  intros Ht. unfold orphan_one. cbn [fst]. set (w := Thr (i + 1)). set (tid := t_tid (kthr t k)) in *.
  set (k1 := if st_eqb _ THREAD_STATE_WAIT_RECV && _ then _ else _).
  assert (H1 : ~ (t_state (kthr w k1) = THREAD_STATE_WAIT_RECV /\ t_ipc_partner (kthr w k1) = tid) /\
    (forall x, x <> w -> kthr x k1 = kthr x k) /\
    forall x, t_tid (kthr x k1) = t_tid (kthr x k) /\ t_send_q_head (kthr x k1) = t_send_q_head (kthr x k)).
  { unfold k1. destruct (_ && _) eqn:E.
    - apply andb_true_iff in E as [E1 E2]. apply bool_decide_eq_true in E1.
      unfold kwake, kuctx, kupd, kthr. rsimpl. set (s1 := upd w _ (k_sched k)).
      assert (Es : t_state (thr s1 w) = THREAD_STATE_WAIT_RECV) by (unfold s1; by rewrite upd_same).
      destruct (sched_wake_eff cpu w s1) as (Hx & _).
      assert (Ew : wakeable (thr s1 w) = true) by (unfold wakeable; by rewrite Es).
      split; [|split].
      + rewrite Hx, decide_True by done. destruct (t_in_ready_q _); rsimpl; by intros [? _].
      + intros x Hne. rewrite Hx, decide_False by (by intros [? _]). unfold s1. by rewrite upd_ne.
      + intros x. rewrite Hx. unfold s1. destruct (decide _) as [[-> _]|].
        * destruct (t_in_ready_q _); rsimpl; by rewrite upd_same.
        * rewrite upd_thr. by destruct (decide _) as [->|].
    - split; [|done]. intros [Es Ep]. rewrite Es, Ep in E. rewrite Z.eqb_refl in E. done. }
  clearbody k1. destruct H1 as (G1 & G2 & G3). destruct (t_parent_tid (kthr w k1) =? tid) eqn:Ep.
  - set (k2 := kupd w _ k1). assert (Hw : forall x, kthr x k2 = if decide (x = w) then (kthr w k1) <| t_parent_tid := 0 |> else kthr x k1).
    { intros x. unfold k2, kthr, kupd. rsimpl. apply upd_thr. }
    clearbody k2. destruct (st_eqb _ _).
    + assert (Hw2 : forall x, kthr x (kupd w (fun b => b <| t_state := THREAD_STATE_DEAD |>) k2) =
        if decide (x = w) then (kthr w k2) <| t_state := THREAD_STATE_DEAD |> else kthr x k2).
      { intros x. unfold kthr, kupd. rsimpl. apply upd_thr. }
      split; [|split].
      * rewrite Hw2, decide_True, Hw, decide_True by done. unfold stranger. rsimpl. split; [done|by intros [? _]].
      * intros x Hne. rewrite Hw2, decide_False, Hw, decide_False by done. by apply G2.
      * intros x. rewrite Hw2, !Hw. destruct (decide (x = w)) as [->|]; [rewrite (decide_True (P := w = w)) by done; rsimpl|]; apply G3.
    + split; [|split].
      * rewrite Hw, decide_True by done. unfold stranger. rsimpl. by split.
      * intros x Hne. rewrite Hw, decide_False by done. by apply G2.
      * intros x. rewrite Hw. destruct (decide (x = w)) as [->|]; rsimpl; apply G3.
  - split; [|by split]. split; [lia|done].
Qed.

Lemma orphans_spec cpu t k :
  t_tid (kthr t k) <> 0 -> let k' := (for_range (SCHED_MAX_THREADS - 1) (orphan_one cpu t) (k, false)).1 in
  (forall j, 1 <= j < SCHED_MAX_THREADS -> stranger (t_tid (kthr t k)) (kthr (Thr j) k')) /\
  (forall x, t_tid (kthr x k') = t_tid (kthr x k) /\ t_send_q_head (kthr x k') = t_send_q_head (kthr x k)).
Proof.
  intros Ht. cbv zeta. set (tid := t_tid (kthr t k)).
  destruct (for_range_ind (fun n (a : kstate D * bool) =>
    (forall j, 1 <= j < n + 1 -> stranger tid (kthr (Thr j) a.1)) /\
    (forall x, t_tid (kthr x a.1) = t_tid (kthr x k) /\ t_send_q_head (kthr x a.1) = t_send_q_head (kthr x k)))
    (orphan_one cpu t) (SCHED_MAX_THREADS - 1) (k, false)) as [H1 H2]; [by vm_compute|split; [intros j; lia|done]| |].
  2:{ split; [|done]. intros j Hj. apply H1. lia. }
  intros i [k' fl] Hi [IH1 IH2]. cbn [fst] in *. pose proof (proj1 (IH2 t)) as Et.
  destruct (orphan_one_spec cpu t i k' fl) as (S1 & S2 & S3); [by rewrite Et|]. rewrite Et in S1. fold tid in S1. split.
  - intros j Hj. destruct (decide (j = i + 1)) as [->|]; [done|]. rewrite S2 by congruence. apply IH1. lia.
  - intros x. destruct (S3 x) as [-> ->]. apply IH2.
Qed.

Lemma release_space_keeps cpu t sib k x :
  calm_tcb (kthr x k) (kthr x (release_space cpu t sib k)).
Proof.
  unfold release_space. destruct (tru _ && _); [|apply calm_refl]. cbv zeta.
  set (k1 := if tptr_eqb _ _ then _ else _). assert (E1 : k_sched k1 = k_sched k) by (unfold k1; by destruct (tptr_eqb _ _)).
  clearbody k1. unfold kthr, kupd. rsimpl. rewrite <- E1. apply upd_calm. unfold calm_tcb. rsimpl. auto 6.
Qed.

End lifecycle.

