(* ===== verification/Process.v ===== *)
(** * Exit, wait and signal handlers

    The two ends of a process meet whichever comes first, and a signal handler
    returns to exactly the context it interrupted. *)
From Stdlib Require Import ZArith Lia.
From stdpp Require Import base numbers sets list list_numbers functions.
From S2P Require Import Prelude Abi Memory Pmm PageTable Vm Pipe Socket Shm Tcb Sched Hwio Console Kinfo Elf Kstate Captable Exec Kernel Ipc Syscall Resume Lifecycle.

(** What a parent and a zombie child need to keep. *)
Definition core (b : tcb) : thread_state_t * arch_uctx_t * Z * Z * Z :=
  (t_state b, t_uctx b, t_exit_status b, t_parent_tid b, t_tid b).
(** Neither waits for a message nor for a program. *)
Definition settled (b : tcb) : Prop :=
  t_state b <> THREAD_STATE_WAIT_RECV /\ t_state b <> THREAD_STATE_WAIT_EXECREQ.

Section process.
Context {D : Type} `{!Config}.
Implicit Types k : kstate D.

Lemma wake_other cpu t x k : x <> t -> kthr x (kwake cpu t k) = kthr x k.
Proof.
  intros Hne. unfold kthr, kwake. rsimpl. destruct (sched_wake_eff cpu t (k_sched k)) as (Hx & _).
  rewrite Hx, decide_False; [done|]. by intros [? _].
Qed.
Lemma kupd_other t g x k : x <> t -> kthr x (kupd t g k) = kthr x k.
Proof. intros Hne. unfold kthr, kupd. rsimpl. by rewrite upd_ne. Qed.
Lemma kupd_same t g k : kthr t (kupd t g k) = g (kthr t k).
Proof. unfold kthr, kupd. rsimpl. by rewrite upd_same. Qed.

Lemma core_settled b b' : core b' = core b -> settled b -> settled b'.
Proof. unfold core, settled. intros [= -> _ _ _ _]. done. Qed.

Lemma orphan_core cpu t i k fl x :
  settled (kthr x k) -> t_parent_tid (kthr x k) <> t_tid (kthr t k) ->
  core (kthr x (orphan_one cpu t i (k, fl)).1) = core (kthr x k).
Proof.
  intros [S1 S2] Hp. unfold orphan_one. cbn [fst]. set (w := Thr (i + 1)). set (tid := t_tid (kthr t k)) in *.
  set (k1 := if st_eqb _ THREAD_STATE_WAIT_RECV && _ then _ else _). assert (E1 : kthr x k1 = kthr x k).
  { unfold k1. destruct (_ && _) eqn:E; [|done]. apply andb_true_iff in E as [E _]. apply bool_decide_eq_true in E.
    assert (x <> w) by (intros ->; done). rewrite wake_other by done. by apply kupd_other. }
  clearbody k1. destruct (t_parent_tid (kthr w k1) =? tid) eqn:Ep; [|by rewrite E1].
  assert (x <> w) by (intros ->; rewrite E1 in Ep; lia).
  destruct (st_eqb _ _); rewrite !kupd_other by done; by rewrite E1.
Qed.

Lemma orphans_core cpu t k x :
  t_tid (kthr t k) <> 0 -> settled (kthr x k) -> t_parent_tid (kthr x k) <> t_tid (kthr t k) ->
  core (kthr x (for_range (SCHED_MAX_THREADS - 1) (orphan_one cpu t) (k, false)).1) = core (kthr x k).
Proof.
  intros Ht Hs Hp.
  apply (for_range_ind (fun n (a : kstate D * bool) => core (kthr x a.1) = core (kthr x k) /\ t_tid (kthr t a.1) = t_tid (kthr t k)));
    [by vm_compute|done|].
  intros i [k' fl] Hi [E1 E2]. cbn [fst] in *. destruct (orphan_one_spec cpu t i k' fl) as (_ & _ & S3); [by rewrite E2|].
  split; [|by rewrite (proj1 (S3 t))]. rewrite orphan_core; [done|by eapply core_settled|]. rewrite E2.
  unfold core in E1. injection E1 as _ _ _ -> _. done.
Qed.

Lemma free_slot_thr i x k : kthr x (free_slot i k) = kthr x k.
Proof. done. Qed.
Lemma fail_all_core cpu k x : settled (kthr x k) -> core (kthr x (execreq_fail_all cpu k)) = core (kthr x k).
Proof.
  intros Hs. apply (for_range_ind (fun _ k' => core (kthr x k') = core (kthr x k))); [lia|done|].
  intros i k' Hi IH. destruct (xs_eqb _ _); [done|]. set (k1 := match kget _ k' with Some _ => _ | None => _ end).
  rewrite free_slot_thr. unfold k1. destruct (kget _ k') as [r|]; [|done].
  destruct (_ && _) eqn:E; [|done]. apply andb_true_iff in E as [E _]. apply bool_decide_eq_true in E.
  pose proof (core_settled _ _ IH Hs) as [_ Hs']. assert (x <> r) by (intros ->; done).
  unfold fail_requester. rewrite wake_other by done. unfold kuctx. by rewrite kupd_other.
Qed.

Lemma cancel_sched tid k : k_sched (execreq_cancel_requester tid k) = k_sched k.
Proof.
  apply (for_range_ind (fun _ k' => k_sched k' = k_sched k)); [lia|done|]. intros i k' _ IH. by destruct (_ && _).
Qed.

Lemma release_core cpu t sib k x :
  settled (kthr x k) ->
  core (kthr x (release_objects cpu (t_tid (kthr t (release_space cpu t sib k))) (release_space cpu t sib k))) = core (kthr x k).
Proof.
  intros Hs. set (k1 := release_space cpu t sib k). assert (E1 : core (kthr x k1) = core (kthr x k)).
  { unfold k1, release_space. destruct (tru _ && _); [|done]. cbv zeta. set (k2 := if tptr_eqb _ _ then _ else _).
    assert (E2 : k_sched k2 = k_sched k) by (unfold k2; by destruct (tptr_eqb _ _)). clearbody k2.
    unfold kthr, kupd. rsimpl. rewrite upd_thr. rewrite <- E2. by destruct (decide _) as [->|]. }
  clearbody k1. set (tid := t_tid (kthr t k1)). clearbody tid. unfold release_objects. cbv zeta.
  set (k2 := execreq_cancel_requester tid _). assert (E2 : k_sched k2 = k_sched k1) by (unfold k2; by rewrite cancel_sched).
  clearbody k2. set (k3 := if tid =? _ then _ else _). assert (E3 : core (kthr x k3) = core (kthr x k2)).
  { unfold k3. destruct (tid =? _); [|done]. apply fail_all_core. unfold kthr. rewrite E2. by eapply core_settled. }
  clearbody k3. assert (E4 : core (kthr x k2) = core (kthr x k1)) by (unfold kthr; by rewrite E2).
  rewrite <- E1, <- E4, <- E3. generalize (arch_console_get_fb_owner (k_cons k3) =? tid). intros [|]; reflexivity.
Qed.

Lemma fail_senders_None fuel cpu k : fail_senders fuel cpu None k = k.
Proof. by destruct fuel. Qed.

(** A settled thread outlives the end of another unchanged; the dying thread
    itself keeps its final state. *)
Lemma terminate_core cpu t st k x :
  t_send_q_head (kthr t k) = None -> t_tid (kthr t k) <> 0 ->
  let k1 := kupd t (fun b => b <| t_state := st |>) k in
  settled (kthr x k1) -> t_parent_tid (kthr x k) <> t_tid (kthr t k) ->
  core (kthr x (terminate_tcb cpu t st k)) = core (kthr x k1).
Proof.
  intros Hq Ht k1 Hs Hp. unfold terminate_tcb. cbv zeta. fold k1.
  assert (Hq1 : t_send_q_head (kthr t k1) = None) by (unfold k1; by rewrite kupd_same).
  rewrite Hq1. set (k2 := kupd t _ k1). rewrite fail_senders_None.
  assert (E2 : core (kthr x k2) = core (kthr x k1) /\ t_tid (kthr t k2) = t_tid (kthr t k) /\ t_parent_tid (kthr x k2) = t_parent_tid (kthr x k)).
  { unfold k2, k1. destruct (decide (x = t)) as [->|Hne]; [by rewrite !kupd_same|]. rewrite !(kupd_other t _ x) by done.
    by rewrite !kupd_same. }
  clearbody k2 k1. destruct E2 as (E2 & T2 & P2).
  pose proof (orphans_core cpu t k2 x ltac:(by rewrite T2) (core_settled _ _ E2 Hs) ltac:(by rewrite P2, T2)) as E3.
  destruct (for_range _ _ (k2, false)) as [k3 sib]. cbn [fst] in E3.
  rewrite release_core; [congruence|]. eapply core_settled; [exact E3|]. by eapply core_settled.
Qed.

Lemma terminate_tids cpu i st k x :
  1 <= i < SCHED_MAX_THREADS -> t_tid (kthr (Thr i) k) = i -> t_tid (kthr x (terminate_tcb cpu (Thr i) st k)) = t_tid (kthr x k).
Proof.
  intros Hi Ht. unfold terminate_tcb. cbv zeta. set (t := Thr i). set (k1 := kupd t (fun b => b <| t_state := st |>) k).
  set (k2 := kupd t _ k1). assert (E2 : forall x, t_tid (kthr x k2) = t_tid (kthr x k)).
  { intros y. unfold k2, k1. destruct (decide (y = t)) as [->|]; [by rewrite !kupd_same|by rewrite !kupd_other]. }
  clearbody k2. pose proof (fail_senders_aside (Z.to_nat SCHED_MAX_THREADS) cpu (t_send_q_head (kthr t k1)) k2) as A3.
  generalize dependent (fail_senders (Z.to_nat SCHED_MAX_THREADS) cpu (t_send_q_head (kthr t k1)) k2). intros k3 A3.
  assert (E3 : forall x, t_tid (kthr x k3) = t_tid (kthr x k)).
  { intros y. rewrite <- E2. destruct (as_calm _ _ A3 y) as (E & _). exact E. }
  destruct (orphans_spec cpu t k3) as [_ K4]; [rewrite E3; unfold t; lia|].
  destruct (for_range _ _ (k3, false)) as [k4 sib]. cbn [fst] in *.
  pose proof (release_space_keeps cpu t sib k4) as C5. generalize dependent (release_space cpu t sib k4). intros k5 C5.
  assert (E5 : forall x, t_tid (kthr x k5) = t_tid (kthr x k)).
  { intros y. rewrite <- E3, <- (proj1 (K4 y)). apply C5. }
  rewrite (E5 t). unfold t. rewrite Ht. destruct (release_objects_spec cpu i k5) as [_ C6]; [unfold SCHED_MAX_THREADS in Hi; lia|].
  rewrite <- E5. apply C6.
Qed.

Lemma resched_thr cpu k x :
  kthr x (k <| k_sched ::= fun s => s <| need_resched := <[cpu := true]> (need_resched s) |> |>) = kthr x k.
Proof. reflexivity. Qed.

Lemma terminate_to_thr cpu st k x : kthr x (sched_terminate_to cpu st k) = kthr x (terminate_tcb cpu (kcur cpu k) st k).
Proof. exact (resched_thr cpu (terminate_tcb cpu (kcur cpu k) st k) x). Qed.

(** The child with number [i] is found when it is a zombie of [parent]. *)
Lemma find_zombie parent i (s : sched) :
  1 <= i < SCHED_MAX_THREADS -> (forall x, 1 <= x < SCHED_MAX_THREADS -> t_tid (thr s (Thr x)) = x) ->
  t_state (thr s (Thr i)) = THREAD_STATE_ZOMBIE -> t_parent_tid (thr s (Thr i)) = parent ->
  sched_find_zombie_child parent i s = (Some (Thr i), false).
Proof.
  intros Hi Ht Hz Hp. unfold sched_find_zombie_child.
  assert (HI : forall n, 0 <= n -> n <= SCHED_MAX_THREADS - 1 -> for_range n (fun i0 '(found, live) =>
    let w := thr s (Thr (i0 + 1)) in
    if negb (t_parent_tid w =? parent) then (found, live)
    else if tru i && negb (t_tid w =? i) then (found, live)
    else if st_eqb (t_state w) THREAD_STATE_ZOMBIE then
      (match found with None => Some (Thr (i0 + 1)) | Some _ => found end, live)
    else if negb (st_eqb (t_state w) THREAD_STATE_DEAD) then (found, true)
    else (found, live)) (None, false) = if i <=? n then (Some (Thr i), false) else (None, false)).
  { intros n Hn Hle. apply (for_range_ind (fun m a => a = if i <=? m then (Some (Thr i), false) else (None, false))); [done|by replace (i <=? 0) with false by lia|].
    intros m a Hm ->. cbv zeta. rewrite (Ht (m + 1)) by lia. destruct (decide (i = m + 1)) as [->|Hne].
    - replace (m + 1 <=? m) with false by lia. rewrite Hp, Hz, !Z.eqb_refl, andb_false_r.
      by replace (m + 1 <=? m + 1) with true by lia.
    - replace (m + 1 =? i) with false by lia. unfold tru. replace (i =? 0) with false by lia. cbn [negb andb].
      replace (i <=? m + 1) with (i <=? m) by lia. destruct (i <=? m), (negb _); done. }
  rewrite HI by (unfold SCHED_MAX_THREADS; lia). by replace (i <=? SCHED_MAX_THREADS - 1) with true by lia.
Qed.

(** The hypotheses: thread [i] runs on [cpu] and is a child of the live thread
    [j]; nobody is queued to send to it. *)
Record family (cpu i j : Z) k : Prop := {
  fa_cur : kcur cpu k = Thr i;
  fa_range : 1 <= i < SCHED_MAX_THREADS /\ 1 <= j < SCHED_MAX_THREADS /\ i <> j;
  fa_tids : forall x, 1 <= x < SCHED_MAX_THREADS -> t_tid (kthr (Thr x) k) = x;
  fa_parent : t_parent_tid (kthr (Thr i) k) = j;
  fa_not_child : t_parent_tid (kthr (Thr j) k) <> i;
  fa_alive : gone (kthr (Thr j) k) = false;
  fa_queue : t_send_q_head (kthr (Thr i) k) = None
}.
Definition waits_for (i : Z) (b : tcb) : bool :=
  st_eqb (t_state b) THREAD_STATE_WAIT_CHILD && ((t_wait_filter b =? 0) || (t_wait_filter b =? i)).

Lemma exit_eq cpu i j status k :
  family cpu i j k ->
  let k1 := kupd (Thr i) (fun b => b <| t_exit_status := status |>) k in
  spawn_exit_current cpu status k =
  if waits_for i (kthr (Thr j) k) then
    sched_terminate_to cpu THREAD_STATE_DEAD (kwake cpu (Thr j) (kuctx (Thr j)
      (fun u => u <| rax := IPC_ERR_NONE |> <| r8 := i |> <| r9 := u64 status |>) k1))
  else sched_terminate_to cpu THREAD_STATE_ZOMBIE k1.
Proof.
  intros [Hc (Hi & Hj & Hne) Ht Hp Hnc Ha Hq] k1. unfold spawn_exit_current. rewrite Hc. cbv zeta. fold k1.
  assert (E1 : t_parent_tid (kthr (Thr i) k1) = j /\ t_tid (kthr (Thr i) k1) = i).
  { unfold k1. rewrite kupd_same. rsimpl. split; [done|by apply Ht]. }
  assert (E2 : kthr (Thr j) k1 = kthr (Thr j) k) by (apply kupd_other; congruence).
  destruct E1 as [-> ->]. unfold tru. replace (j =? 0) with false by lia. cbn [negb].
  assert (Eg : kget j k1 = Some (Thr j)).
  { unfold kget, sched_get_tcb. replace ((j =? 0) || (j >=? SCHED_MAX_THREADS)) with false by lia. cbv zeta.
    fold (kthr (Thr j) k1). rewrite E2. unfold gone in Ha. by rewrite Ha. }
  rewrite Eg, E2. unfold waits_for. reflexivity.
Qed.

Lemma woken_parent cpu j g k :
  t_state (kthr (Thr j) k) = THREAD_STATE_WAIT_CHILD ->
  let k' := kwake cpu (Thr j) (kuctx (Thr j) g k) in
  t_state (kthr (Thr j) k') = THREAD_STATE_READY /\ t_uctx (kthr (Thr j) k') = g (t_uctx (kthr (Thr j) k)) /\
  t_parent_tid (kthr (Thr j) k') = t_parent_tid (kthr (Thr j) k).
Proof.
  intros Es. unfold kthr, kwake, kuctx, kupd. rsimpl. set (s1 := upd (Thr j) _ (k_sched k)).
  assert (E1 : thr s1 (Thr j) = (thr (k_sched k) (Thr j)) <| t_uctx ::= g |>) by (unfold s1; by rewrite upd_same).
  destruct (sched_wake_eff cpu (Thr j) s1) as (Hx & _).
  assert (Ew : wakeable (thr s1 (Thr j)) = true) by (rewrite E1; unfold wakeable; rsimpl; unfold kthr in Es; by rewrite Es).
  rewrite Hx, decide_True by done. by destruct (t_in_ready_q _); rsimpl; rewrite E1.
Qed.

(** C6: Exit meets wait, whichever comes first.  Let [i] exit with [status].
    If its parent is blocked waiting for it, the parent becomes ready with
    the child's number and status in its registers, every other register as
    before, and the child is dead at once.  Otherwise the child stays as a
    zombie, and when the parent asks for it the call returns the number and
    the status and buries the child: the status is reported exactly once. *)
Theorem exit_meets_wait cpu i j status k :
  family cpu i j k ->
  let k' := spawn_exit_current cpu status k in
  if waits_for i (kthr (Thr j) k) then
    t_state (kthr (Thr j) k') = THREAD_STATE_READY /\
    t_uctx (kthr (Thr j) k') = (t_uctx (kthr (Thr j) k)) <| rax := IPC_ERR_NONE |> <| r8 := i |> <| r9 := u64 status |> /\
    t_state (kthr (Thr i) k') = THREAD_STATE_DEAD
  else
    t_state (kthr (Thr i) k') = THREAD_STATE_ZOMBIE /\
    exists k'', spawn_wait_begin (Thr j) i k' = (1, (i, status), k'') /\ t_state (kthr (Thr i) k'') = THREAD_STATE_DEAD.
Proof.
  intros Hf. cbv zeta. rewrite (exit_eq cpu i j status k Hf). destruct Hf as [Hc (Hi & Hj & Hne) Ht Hp Hnc Ha Hq].
  set (k1 := kupd (Thr i) (fun b => b <| t_exit_status := status |>) k).
  assert (Ei : t_parent_tid (kthr (Thr i) k1) = j /\ t_tid (kthr (Thr i) k1) = i /\ t_send_q_head (kthr (Thr i) k1) = None /\
    t_exit_status (kthr (Thr i) k1) = status).
  { unfold k1. rewrite kupd_same. rsimpl. rewrite (Ht i) by done. done. }
  assert (Ej : kthr (Thr j) k1 = kthr (Thr j) k) by (apply kupd_other; congruence).
  assert (C1 : kcur cpu k1 = Thr i) by done.
  assert (T1 : forall x, 1 <= x < SCHED_MAX_THREADS -> t_tid (kthr (Thr x) k1) = x).
  { intros x Hx. unfold k1. destruct (decide (x = i)) as [->|]; [rewrite kupd_same; rsimpl; by apply Ht|].
    rewrite kupd_other by congruence. by apply Ht. }
  clearbody k1. destruct Ei as (Ei1 & Ei2 & Ei3 & Ei4). destruct (waits_for i (kthr (Thr j) k)) eqn:Ew.
  - apply andb_true_iff in Ew as [Ew _]. apply bool_decide_eq_true in Ew. rewrite <- Ej in Ew.
    destruct (woken_parent cpu j (fun u => u <| rax := IPC_ERR_NONE |> <| r8 := i |> <| r9 := u64 status |>) k1 Ew) as (W1 & W2 & W3).
    set (k2 := kwake _ _ _) in *.
    assert (E2 : kthr (Thr i) k2 = kthr (Thr i) k1) by (unfold k2, kuctx; rewrite wake_other, kupd_other by congruence; done).
    assert (C2 : kcur cpu k2 = Thr i).
    { rewrite <- C1. apply kcur_fine. unfold k2, kwake, kuctx, kupd. rsimpl. by rewrite wake_current. }
    clearbody k2. rewrite !terminate_to_thr, C2.
    pose proof (terminate_core cpu (Thr i) THREAD_STATE_DEAD k2) as HT. rewrite E2, Ei2, Ei3 in HT.
    pose proof (HT (Thr j) eq_refl ltac:(lia)) as HTj. pose proof (HT (Thr i) eq_refl ltac:(lia)) as HTi. clear HT.
    cbv zeta in HTi, HTj. rewrite kupd_same in HTi. rewrite (kupd_other (Thr i) _ (Thr j)) in HTj by congruence.
    generalize dependent (terminate_tcb cpu (Thr i) THREAD_STATE_DEAD k2). intros k3 HTj HTi.
    specialize (HTj ltac:(by unfold settled; rewrite W1) ltac:(by rewrite W3, Ej)). rewrite E2 in HTi.
    specialize (HTi ltac:(by split; rsimpl) ltac:(by rewrite Ei1)). unfold core in HTi, HTj. rsimpl.
    injection HTj as J1 J2 _ _ _. injection HTi as I1 _ _ _ _. rewrite J1, J2, W1, W2, Ej, I1. done.
  - rewrite !terminate_to_thr, C1.
    pose proof (terminate_core cpu (Thr i) THREAD_STATE_ZOMBIE k1) as HT. rewrite Ei2, Ei3 in HT.
    specialize (HT (Thr i) eq_refl ltac:(lia)). cbv zeta in HT. rewrite kupd_same in HT.
    assert (T3 : forall x, 1 <= x < SCHED_MAX_THREADS -> t_tid (kthr (Thr x) (sched_terminate_to cpu THREAD_STATE_ZOMBIE k1)) = x).
    { intros x Hx. rewrite terminate_to_thr, C1, terminate_tids by done. by apply T1. }
    assert (Hth : forall x, kthr x (sched_terminate_to cpu THREAD_STATE_ZOMBIE k1) = kthr x (terminate_tcb cpu (Thr i) THREAD_STATE_ZOMBIE k1)).
    { intros x. by rewrite terminate_to_thr, C1. }
    rewrite <- (Hth (Thr i)) in HT |- *. generalize dependent (sched_terminate_to cpu THREAD_STATE_ZOMBIE k1). intros k3 HT T3 _.
    specialize (HT ltac:(by split; rsimpl) ltac:(rewrite Ei1; lia)). unfold core in HT. rsimpl. injection HT as I1 _ I2 I3 _.
    split; [done|]. unfold spawn_wait_begin. rewrite (T3 j) by done.
    rewrite (find_zombie j i (k_sched k3)); [|done|exact T3|exact I1|by rewrite <- Ei1, <- I3].
    eexists. split; [rewrite (T3 i), I2, Ei4 by done; reflexivity|].
    unfold kthr, sched_reap_zombie. rsimpl. by rewrite upd_same.
Qed.

(** ** Signal handlers *)

(** Signal [n] is the lowest one that is pending and not blocked. *)
Definition next_signal (n : Z) (b : tcb) : Prop :=
  1 <= n <= 64 /\ Z.testbit (t_sig_pending b) (n - 1) = true /\ Z.testbit (t_sig_mask b) (n - 1) = false /\
  forall m, 1 <= m < n -> Z.testbit (t_sig_pending b) (m - 1) = true -> Z.testbit (t_sig_mask b) (m - 1) = true.

Lemma first_signal_next n b :
  next_signal n b -> first_signal (Z.land (t_sig_pending b) (not64 (t_sig_mask b))) = Some n.
Proof.
  intros (Hn & Hp & Hm & Hl). unfold first_signal.
  replace (find_first 64 _) with (Some (n - 1)); [by rewrite Z.sub_add|]. symmetry. apply find_first_Some.
  split; [lia|]. split; [by rewrite Z.land_spec, testbit_not64, Hp, Hm by lia|].
  intros j Hj. rewrite Z.land_spec, testbit_not64 by lia. specialize (Hl (j + 1) ltac:(lia)).
  rewrite Z.add_simpl_r in Hl. destruct (Z.testbit (t_sig_pending b) j); [by rewrite Hl|done].
Qed.

(** The handler's stack pointer lies below the red zone, aligned as after a call. *)
Lemma handler_rsp_spec u : 512 <= rsp u < 2 ^ 64 -> handler_rsp u mod 16 = 8 /\ handler_rsp u <= rsp u - 264 /\ 0 <= handler_rsp u.
Proof.
  intros Hr. unfold handler_rsp. rewrite (u64_small (rsp u - 256)) by lia. change 0xF with (2 ^ 4 - 1).
  rewrite align_down_spec by lia. change (2 ^ 4) with 16. pose proof (Z.mod_pos_bound (rsp u - 256) 16 eq_refl).
  rewrite u64_small by lia. split; [|lia]. symmetry. apply (Z.mod_unique _ _ ((rsp u - 256) / 16 - 1)); [lia|].
  pose proof (Z.div_mod (rsp u - 256) 16). lia.
Qed.

Lemma enter_handler_spec n b :
  1 <= n -> let b' := enter_handler n b in
  t_uctx b' = (t_uctx b) <| rsp := handler_rsp (t_uctx b) |> <| rip := sa_handler (t_sig_actions b n) |> <| rdi := n |> /\
  t_saved_uctx_before_sig b' = t_uctx b /\ t_saved_sig_mask b' = t_sig_mask b /\ t_in_sig_handler b' = true /\
  t_sig_pending b' = t_sig_pending b /\
  forall m, 1 <= m <= 64 -> Z.testbit (t_sig_mask b') (m - 1) =
    Z.testbit (t_sig_mask b) (m - 1) || Z.testbit (sa_mask (t_sig_actions b n)) (m - 1) ||
    ((m =? n) && negb (has (sa_flags (t_sig_actions b n)) SA_NODEFER)).
Proof.
  intros Hn. unfold enter_handler. cbv zeta. split; [|split; [|split; [|split; [|split]]]];
    try (destruct (negb _), (has _ SA_RESETHAND); by rsimpl).
  intros m Hm. set (nd := negb _). assert (forall g b0, t_sig_mask (if has (sa_flags (t_sig_actions b n)) SA_RESETHAND
    then b0 <| t_sig_actions := g |> else b0) = t_sig_mask b0) as Hr by (intros; by destruct (has _ SA_RESETHAND)).
  rsimpl. rewrite Hr. rsimpl. destruct nd; rsimpl; rewrite !Z.lor_spec; [|by rewrite andb_false_r, orb_false_r].
  rewrite andb_true_r, bit_testbit by lia. f_equal. lia.
Qed.

Lemma push_return_spec cpu va pa k :
  hw_paddr (ram (kmach k)) (loaded_cr3 (kmach k) cpu) va = Some pa ->
  k_sched (push_return cpu va k) = k_sched k /\ ld64 (ram (kmach (push_return cpu va k))) pa = SIGTRAMPOLINE_VA.
Proof. intros E. unfold push_return. rewrite E. split; [done|]. by apply ld64_st64. Qed.

(** C7: A signal handler is entered and left as promised.  When [n] is the
    lowest pending signal not blocked and has a handler, delivery starts that
    handler with the signal number as its argument, on the interrupted stack
    below the red zone and aligned as after a call, with the trampoline as
    the return address; [n] is no longer pending, it and the signals of its
    action are blocked, no other thread changes, and no second signal is
    delivered before the handler returns.  Whatever the handler does to its
    registers and its mask, the return restores every register and the mask
    of the interrupted code. *)
Theorem signal_roundtrip cpu t n pa k :
  let b := kthr t k in let sa := t_sig_actions b n in
  t_in_sig_handler b = false -> next_signal n b -> sa_handler sa <> ROBU_SIG_IGN -> sa_handler sa <> ROBU_SIG_DFL ->
  512 <= rsp (t_uctx b) < 2 ^ 64 ->
  hw_paddr (ram (kmach k)) (loaded_cr3 (kmach k) cpu) (handler_rsp (t_uctx b)) = Some pa ->
  let k1 := sig_try_deliver cpu t k in let u1 := t_uctx (kthr t k1) in
  rip u1 = sa_handler sa /\ rdi u1 = n /\ rsp u1 mod 16 = 8 /\ rsp u1 <= rsp (t_uctx b) - 264 /\
  ld64 (ram (kmach k1)) pa = SIGTRAMPOLINE_VA /\
  Z.testbit (t_sig_pending (kthr t k1)) (n - 1) = false /\
  (forall m, 1 <= m <= 64 -> Z.testbit (t_sig_mask (kthr t k1)) (m - 1) =
    Z.testbit (t_sig_mask b) (m - 1) || Z.testbit (sa_mask sa) (m - 1) || ((m =? n) && negb (has (sa_flags sa) SA_NODEFER))) /\
  (forall x, x <> t -> kthr x k1 = kthr x k) /\
  sig_try_deliver cpu t k1 = k1 /\
  forall u mask, let k2 := info_sigreturn t (kupd t (fun b => b <| t_uctx := u |> <| t_sig_mask := mask |>) k1) in
    t_uctx (kthr t k2) = t_uctx b /\ t_sig_mask (kthr t k2) = t_sig_mask b /\ t_in_sig_handler (kthr t k2) = false.
Proof.
  intros b sa Hin Hn Hign Hdfl Hrsp Hpa.
  set (k0 := kupd t (fun b => b <| t_sig_pending ::= fun p => Z.land p (not64 (bit (n - 1))) |>) k).
  assert (Ed : sig_try_deliver cpu t k = kupd t (enter_handler n) (push_return cpu (handler_rsp (t_uctx b)) k0)).
  { unfold sig_try_deliver. fold b. rewrite Hin, (first_signal_next n b Hn). cbv zeta. fold k0 sa.
    by replace (sa_handler sa =? ROBU_SIG_IGN) with false by lia; replace (sa_handler sa =? ROBU_SIG_DFL) with false by lia. }
  destruct (push_return_spec cpu (handler_rsp (t_uctx b)) pa k0 Hpa) as [Hs Hm]. cbv zeta.
  generalize dependent (push_return cpu (handler_rsp (t_uctx b)) k0). intros kp Ed Hs Hm.
  assert (Ep : kthr t kp = b <| t_sig_pending ::= fun p => Z.land p (not64 (bit (n - 1))) |>)
    by (unfold kthr; rewrite Hs; unfold k0; apply kupd_same).
  assert (Eo : forall x, x <> t -> kthr x kp = kthr x k) by (intros x Hx; unfold kthr; rewrite Hs; by apply kupd_other).
  assert (E1 : kthr t (sig_try_deliver cpu t k) = enter_handler n (kthr t kp)) by (rewrite Ed; apply kupd_same).
  destruct (enter_handler_spec n (kthr t kp) ltac:(apply Hn)) as (Hu & Hsu & Hsm & Hi & Hp & Hmask).
  rewrite <- E1 in Hu, Hsu, Hsm, Hi, Hp, Hmask. rewrite Ep in Hu, Hsu, Hsm, Hp, Hmask. rsimpl.
  destruct (handler_rsp_spec (t_uctx b) Hrsp) as (R1 & R2 & _).
  rewrite Hu. rsimpl. split; [done|]. split; [done|]. split; [done|]. split; [done|]. split; [by rewrite Ed|].
  split.
  { rewrite Hp, Z.land_spec, testbit_not64, bit_testbit, Z.eqb_refl by (destruct Hn; lia). apply andb_false_r. }
  split; [exact Hmask|]. split; [intros x Hx; rewrite Ed, kupd_other by done; by apply Eo|].
  split; [unfold sig_try_deliver at 1; by rewrite Hi|].
  intros u mask. unfold info_sigreturn. rewrite !kupd_same. rsimpl. done.
Qed.
End process.

(** Thread 7 runs on CPU 0; its parent, thread 5, waits for it or not. *)
Definition demo_family (waiting : bool) : kstate unit :=
  demo_kstate <| k_sched ::= fun s =>
    (s <| thr := fun t => match t with
       | Thr x => tcb_zero <| t_tid := x |> <| t_parent_tid := if x =? 7 then 5 else 0 |>
                    <| t_state := if (x =? 5) && waiting then THREAD_STATE_WAIT_CHILD else THREAD_STATE_RUNNING |>
       | Idle _ => tcb_zero end |>) <| current := <[0 := Some (Thr 7)]> (current s) |> |>.

Lemma exit_meets_wait_witness :
  t_state (kthr (Thr 5) (@spawn_exit_current unit demo_config 0 3 (demo_family true))) = THREAD_STATE_READY /\
  t_state (kthr (Thr 7) (@spawn_exit_current unit demo_config 0 3 (demo_family false))) = THREAD_STATE_ZOMBIE.
Proof.
  assert (Hf : forall w, family 0 7 5 (demo_family w)) by (intros w; split;
    first [reflexivity | unfold SCHED_MAX_THREADS; lia | (destruct w; reflexivity) | discriminate]).
  pose proof (@exit_meets_wait unit demo_config 0 7 5 3 (demo_family true) (Hf true)) as H1.
  pose proof (@exit_meets_wait unit demo_config 0 7 5 3 (demo_family false) (Hf false)) as H2.
  cbv zeta in H1, H2.
  replace (waits_for 7 (kthr (Thr 5) (demo_family true))) with true in H1 by reflexivity.
  replace (waits_for 7 (kthr (Thr 5) (demo_family false))) with false in H2 by reflexivity.
  split; [apply H1|apply H2].
Defined.

(** Thread 7 has a handler for signal 10; its stack is the page at 0, mapped to
    the frame 0x6000 by the tables at 0x2000. *)
Definition demo_tables : mem :=
  st64 (st64 (st64 (st64 (fun _ => 0) 0x2000 0x3007) 0x3000 0x4007) 0x4000 0x5007) 0x5000 0x6007.
Definition demo_handler : kstate unit :=
  kset_mach (demo_mach <| ram := demo_tables |> <| loaded_cr3 := fun _ => 0x2000 |>)
    (kupd (Thr 7) (fun b => b <| t_sig_pending := bit 9 |> <| t_uctx ::= fun u => u <| rsp := 0x1000 |> |>
       <| t_sig_actions := fun _ => mk_sigaction 0x400000 0 0 |>) demo_kstate).

Lemma signal_roundtrip_witness :
  rip (t_uctx (kthr (Thr 7) (@sig_try_deliver unit demo_config 0 (Thr 7) demo_handler))) = 0x400000.
Proof.
  refine (proj1 (@signal_roundtrip unit demo_config 0 (Thr 7) 10 0x6EF8 demo_handler _ _ _ _ _ _));
    [reflexivity| |discriminate|discriminate|vm_compute; split; congruence|vm_compute; reflexivity].
  split; [lia|]. split; [reflexivity|]. split; [reflexivity|]. intros m Hm.
  assert (Em : Z.testbit (bit 9) (m - 1) = false) by (rewrite bit_testbit; lia).
  change (t_sig_pending (kthr (Thr 7) demo_handler)) with (bit 9). by rewrite Em.
Defined.
