(* ===== verification/Rendezvous.v ===== *)
(** * Message passing: the queues of senders and the rendezvous

    [sendq_append] and [sendq_take] work on lists threaded through the blocked
    senders; here they are refined to operations on lists, and a message sent
    is shown to arrive, whether the receiver waits already or comes later. *)
From Stdlib Require Import ZArith Lia.
From stdpp Require Import base numbers sets list list_numbers functions.
From S2P Require Import Prelude Abi Memory Pmm PageTable Vm Pipe Socket Shm Tcb Sched Hwio Console Kinfo Elf Kstate Captable Exec Kernel Ipc Syscall Resume Lifecycle Process.

(** The queue of each receiver as a list, [qs]; no thread queues twice. *)
Record sendqs (st : sched) (qs : tptr -> list tptr) : Prop := {
  sq_queue r : queue (fun x => t_sq_next (thr st x)) (t_send_q_head (thr st r)) (t_send_q_tail (thr st r)) (qs r);
  sq_disj r r' x : x ∈ qs r -> x ∈ qs r' -> r = r';
  sq_range r x : x ∈ qs r -> exists i, x = Thr i /\ 1 <= i < SCHED_MAX_THREADS
}.
(** The receiver's filter admits the thread. *)
Definition admits (filter : Z) (b : tcb) : bool := (filter =? IPC_TID_ANY) || (t_tid b =? filter).
(** All but the fields of the queues. *)
Definition bare (b : tcb) : tcb := b <| t_sq_next := None |> <| t_send_q_head := None |> <| t_send_q_tail := None |>.

Lemma bare_tid b b' : bare b' = bare b -> t_tid b' = t_tid b.
Proof. intros E. exact (f_equal t_tid E). Qed.

(** An update is invisible through what it does not write. *)
Lemma upd_field {A} (F : tcb -> A) t g st x : (forall b, F (g b) = F b) -> F (thr (upd t g st) x) = F (thr st x).
Proof. intros Hg. rewrite upd_thr. by destruct (decide (x = t)) as [->|]. Qed.

Lemma append_bare rcv s st x : bare (thr (sendq_append rcv s st) x) = bare (thr st x).
Proof. unfold sendq_append. cbv zeta. destruct (t_send_q_tail _); by rewrite !(upd_field bare). Qed.

Lemma walk_bare fuel rcv f prev s st x : bare (thr (sendq_walk fuel rcv f prev s st).2 x) = bare (thr st x).
Proof.
  revert prev s. induction fuel as [|fuel IH]; intros prev [y|]; try done. cbn [sendq_walk].
  destruct (_ && _); [apply IH|]. cbn [snd]. unfold sendq_unlink. cbv zeta. rewrite (upd_field bare) by done.
  destruct (bool_decide _), prev; by rewrite !(upd_field bare).
Qed.

(** The entries behind the first ones are linked from the last of these. *)
Lemma links_mid nx h l1 l2 :
  links nx h (l1 ++ l2) -> links nx (match list.last l1 with None => h | Some p => nx p end) l2.
Proof.
  revert h. induction l1 as [|x [|y l1] IH]; intros h; [done|by intros [_ ?]|].
  rewrite last_cons_cons. intros [_ Hl]. apply IH in Hl. destruct (list.last (y :: l1)) eqn:E; [done|].
  by apply last_None in E.
Qed.

Lemma queue_ext nx nx' h tl l : (forall p, p ∈ l -> nx' p = nx p) -> queue nx h tl l -> queue nx' h tl l.
Proof. intros Hx (Hl & ?). split; [by apply (links_ext nx)|done]. Qed.

(** What the two operations write. *)
Lemma append_fields rcv s st :
  t_send_q_tail (thr st rcv) <> Some s -> let st' := sendq_append rcv s st in
  (forall x, t_sq_next (thr st' x) =
    if decide (t_send_q_tail (thr st rcv) = Some x) then Some s else if decide (x = s) then None else t_sq_next (thr st x)) /\
  (forall r, t_send_q_head (thr st' r) = if decide (r = rcv) then match t_send_q_tail (thr st rcv) with None => Some s
    | Some _ => t_send_q_head (thr st r) end else t_send_q_head (thr st r)) /\
  (forall r, t_send_q_tail (thr st' r) = if decide (r = rcv) then Some s else t_send_q_tail (thr st r)).
Proof.
  intros Hs. cbv zeta. unfold sendq_append. cbv zeta. rewrite (upd_field t_send_q_tail s) by done.
  destruct (t_send_q_tail (thr st rcv)) as [tl|] eqn:E; split; [| split | | split]; intros x.
  - rewrite (upd_field t_sq_next rcv) by done. rewrite !upd_thr.
    destruct (decide (Some tl = Some x)) as [[= ->]|]; [destruct (decide (x = x)); [done|congruence]|].
    rewrite (decide_False (P := x = tl)) by congruence. by destruct (decide (x = s)) as [->|].
  - rewrite !(upd_field t_send_q_head) by done. by destruct (decide _).
  - rewrite upd_thr. destruct (decide (x = rcv)) as [->|]; [done|]. by rewrite !(upd_field t_send_q_tail).
  - rewrite !(upd_field t_sq_next rcv) by done. rewrite decide_False, upd_thr by done. by destruct (decide (x = s)) as [->|].
  - rewrite (upd_field t_send_q_head rcv) by done. rewrite upd_thr. destruct (decide (x = rcv)) as [->|]; [done|].
    by rewrite (upd_field t_send_q_head).
  - rewrite upd_thr. destruct (decide (x = rcv)) as [->|]; [done|]. by rewrite !(upd_field t_send_q_tail).
Qed.

(** Appending a thread that is in no queue. *)
Lemma append_sendqs rcv i st qs :
  sendqs st qs -> 1 <= i < SCHED_MAX_THREADS -> (forall r, Thr i ∉ qs r) ->
  sendqs (sendq_append rcv (Thr i) st) (<[rcv := qs rcv ++ [Thr i]]> qs).
Proof.
  intros Hq Hi Hn. assert (Htl : forall r x, t_send_q_tail (thr st r) = Some x -> x ∈ qs r).
  { intros r x E. destruct (sq_queue _ _ Hq r) as (_ & El & _). rewrite E in El. by apply last_elem. }
  destruct (append_fields rcv (Thr i) st) as (Hx & Hh & Ht); [intros E; apply (Hn rcv), Htl, E|].
  split.
  - intros r. rewrite Hh, Ht. destruct (decide (r = rcv)) as [->|Hr].
    + rewrite fn_lookup_insert. apply (queue_snoc _ _ _ _ _ _ (sq_queue _ _ Hq rcv)); [apply Hn|..].
      * rewrite Hx, decide_False, decide_True by (try done; intros E; by apply (Hn rcv), Htl). done.
      * intros x Ex. by rewrite Hx, decide_True.
      * intros p Hp Ep. rewrite Hx, decide_False, decide_False by (congruence || intros ->; by apply (Hn rcv)). done.
    + rewrite fn_lookup_insert_ne by congruence. apply (queue_ext (fun x => t_sq_next (thr st x))); [|apply Hq].
      intros p Hp. rewrite Hx, decide_False, decide_False; [done|intros ->; by apply (Hn r)|].
      intros E. apply Hr. by apply (sq_disj _ _ Hq r rcv p); [|apply Htl].
  - intros r r' x. assert (HI : forall r0, x ∈ (<[rcv:=qs rcv ++ [Thr i]]> qs) r0 -> x ∈ qs r0 \/ (r0 = rcv /\ x = Thr i)).
    { intros r0. destruct (decide (r0 = rcv)) as [->|]; [|rewrite fn_lookup_insert_ne by congruence; by left].
      rewrite fn_lookup_insert. intros [?|E%list_elem_of_singleton]%elem_of_app; [by left|by right]. }
    intros [H1|[-> ->]]%HI [H2|[-> E2]]%HI; try done; [by eapply (sq_disj _ _ Hq)|subst; by apply Hn in H1|by apply Hn in H2].
  - intros r x. destruct (decide (r = rcv)) as [->|]; [|rewrite fn_lookup_insert_ne by congruence; apply (sq_range _ _ Hq)].
    rewrite fn_lookup_insert. intros [?|E%list_elem_of_singleton]%elem_of_app; [by eapply (sq_range _ _ Hq)|subst; by eexists].
Qed.

Lemma unlink_fields rcv prev x st :
  prev <> Some x -> let st' := sendq_unlink rcv prev x st in
  (forall y, t_sq_next (thr st' y) =
    if decide (y = x) then None else if decide (prev = Some y) then t_sq_next (thr st x) else t_sq_next (thr st y)) /\
  (forall r, t_send_q_head (thr st' r) = if decide (r = rcv) then match prev with None => t_sq_next (thr st x)
    | Some _ => t_send_q_head (thr st r) end else t_send_q_head (thr st r)) /\
  (forall r, t_send_q_tail (thr st' r) = if decide (r = rcv /\ t_send_q_tail (thr st rcv) = Some x) then prev
    else t_send_q_tail (thr st r)).
Proof.
  intros Hp. cbv zeta. unfold sendq_unlink. cbv zeta. set (nx := t_sq_next (thr st x)).
  set (st1 := match prev with Some p => upd p (fun b => b <| t_sq_next := nx |>) st | None => _ end).
  assert (E1 : (forall y, t_sq_next (thr st1 y) = if decide (prev = Some y) then nx else t_sq_next (thr st y)) /\
    (forall r, t_send_q_head (thr st1 r) = if decide (r = rcv) then match prev with None => nx
      | Some _ => t_send_q_head (thr st r) end else t_send_q_head (thr st r)) /\
    (forall r, t_send_q_tail (thr st1 r) = t_send_q_tail (thr st r))).
  { unfold st1. destruct prev as [p|]; split; [|split| |split]; intros y.
    - rewrite upd_thr. destruct (decide (Some p = Some y)) as [[= ->]|]; [by rewrite decide_True|].
      by rewrite decide_False by congruence.
    - rewrite (upd_field t_send_q_head) by done. by destruct (decide _).
    - by rewrite (upd_field t_send_q_tail).
    - rewrite (upd_field t_sq_next) by done. by rewrite decide_False.
    - rewrite upd_thr. by destruct (decide _) as [->|].
    - by rewrite (upd_field t_send_q_tail). }
  clearbody st1 nx. destruct E1 as (N1 & H1 & T1). rewrite T1. split; [|split]; intros y.
  - rewrite upd_thr. destruct (decide (y = x)) as [->|]; [done|]. rewrite <- N1.
    destruct (bool_decide _); [|done]. by rewrite (upd_field t_sq_next).
  - rewrite (upd_field t_send_q_head) by done. rewrite <- H1.
    destruct (bool_decide _); [|done]. by rewrite (upd_field t_send_q_head).
  - rewrite (upd_field t_send_q_tail) by done. destruct (bool_decide _) eqn:E.
    + apply bool_decide_eq_true in E. rewrite upd_thr. destruct (decide (y = rcv)) as [->|]; [by rewrite decide_True|].
      rewrite decide_False by (by intros [? _]). apply T1.
    + apply bool_decide_eq_false in E. rewrite decide_False by (by intros [_ ?]). apply T1.
Qed.

(** Removing an entry from its queue. *)
Lemma unlink_sendqs rcv x l1 l2 st qs :
  sendqs st qs -> qs rcv = l1 ++ x :: l2 ->
  sendqs (sendq_unlink rcv (list.last l1) x st) (<[rcv := l1 ++ l2]> qs).
Proof.
  intros Hq El. pose proof (sq_queue _ _ Hq rcv) as Qr. rewrite El in Qr. pose proof Qr as (_ & Et & Hnd).
  assert (Hx : x ∉ l1 /\ x ∉ l2).
  { apply list.NoDup_app in Hnd as (_ & H1 & H2). apply list.NoDup_cons in H2 as [H2 _]. split; [|done].
    intros Hx. apply (H1 x Hx). by left. }
  destruct Hx as [Hx1 Hx2]. assert (Hin : forall y, y ∈ l1 ++ l2 -> y ∈ qs rcv) by (intros y; rewrite El; set_solver).
  destruct (unlink_fields rcv (list.last l1) x st) as (N & Hh & Ht); [by intros E%last_elem|].
  split.
  - intros r. rewrite Hh, Ht. destruct (decide (r = rcv)) as [->|Hr].
    + rewrite fn_lookup_insert. pose proof (queue_remove _ (fun y => t_sq_next (thr (sendq_unlink rcv (list.last l1) x st) y)) _ _ l1 x l2 Qr) as HR.
      assert (Eh : match list.last l1 with Some _ => t_send_q_head (thr st rcv) | None => t_sq_next (thr st x) end =
        match l1 with [] => t_sq_next (thr st x) | _ => t_send_q_head (thr st rcv) end).
      { destruct l1 as [|y l1]; [done|]. by destruct (list.last (y :: l1)) eqn:E; [|apply last_None in E]. }
      assert (Etl : (if decide (rcv = rcv /\ t_send_q_tail (thr st rcv) = Some x) then list.last l1 else t_send_q_tail (thr st rcv)) =
        match l2 with [] => list.last l1 | _ => t_send_q_tail (thr st rcv) end).
      { rewrite Et, last_app. destruct l2 as [|y l2]; [destruct (decide _) as [|Hn]; [done|by destruct Hn]|]. rewrite decide_False; [done|].
        rewrite last_cons_cons. destruct (list.last (y :: l2)) eqn:E; [|by apply last_None in E].
        apply last_elem in E. intros [_ [= ->]]. done. }
      rewrite Eh, Etl. apply HR.
      * intros y Ey. rewrite N, decide_False, decide_True by (done || intros ->; by apply Hx1, last_elem). done.
      * intros p Hp Ep. rewrite N, decide_False, decide_False by (congruence || intros ->; set_solver). done.
    + rewrite fn_lookup_insert_ne by congruence. rewrite decide_False by (by intros [? _]).
      apply (queue_ext (fun x => t_sq_next (thr st x))); [|apply Hq].
      intros p Hp. rewrite N, decide_False, decide_False; [done| |].
      * intros E%last_elem. apply Hr, (sq_disj _ _ Hq r rcv p Hp), Hin. set_solver.
      * intros ->. apply Hr, (sq_disj _ _ Hq r rcv x Hp). rewrite El. set_solver.
  - assert (HI : forall r y, y ∈ (<[rcv:=l1 ++ l2]> qs) r -> y ∈ qs r).
    { intros r y. destruct (decide (r = rcv)) as [->|]; [rewrite fn_lookup_insert; apply Hin|by rewrite fn_lookup_insert_ne by congruence]. }
    intros r r' y H1 H2. apply (sq_disj _ _ Hq r r' y); by apply HI.
  - intros r y. destruct (decide (r = rcv)) as [->|]; [rewrite fn_lookup_insert; intros Hy|rewrite fn_lookup_insert_ne by congruence];
      eapply (sq_range _ _ Hq); eauto.
Qed.

(** A queue holds fewer entries than there are threads, so the walk's bound is
    never reached. *)
Lemma sendq_length st qs r : sendqs st qs -> (length (qs r) < Z.to_nat SCHED_MAX_THREADS)%nat.
Proof.
  intros Hq. destruct (sq_queue _ _ Hq r) as (_ & _ & Hnd).
  assert (Hs : qs r ⊆+ (Thr <$> seqZ 1 63)).
  { apply NoDup_submseteq; [done|]. intros x Hx. destruct (sq_range _ _ Hq r x Hx) as (i & -> & Hi).
    apply list_elem_of_fmap. exists i. split; [done|]. apply elem_of_seqZ. unfold SCHED_MAX_THREADS in Hi. lia. }
  apply submseteq_length in Hs. rewrite length_fmap, length_seqZ in Hs. unfold SCHED_MAX_THREADS. lia.
Qed.

Lemma walk_spec fuel rcv f l1 l2 st qs :
  sendqs st qs -> qs rcv = l1 ++ l2 -> (length l2 < fuel)%nat -> Forall (fun x => admits f (thr st x) = false) l1 ->
  let r := sendq_walk fuel rcv f (list.last l1)
    (match list.last l1 with None => t_send_q_head (thr st rcv) | Some p => t_sq_next (thr st p) end) st in
  (r = (None, st) /\ Forall (fun x => admits f (thr st x) = false) (qs rcv)) \/
  (exists x a b, qs rcv = a ++ x :: b /\ Forall (fun x => admits f (thr st x) = false) a /\ admits f (thr st x) = true /\
    r = (Some x, sendq_unlink rcv (list.last a) x st)).
Proof.
  intros Hq. revert l1 l2. induction fuel as [|fuel IH]; intros l1 l2 El Hlen Ha; [lia|]. cbv zeta.
  destruct (sq_queue _ _ Hq rcv) as (Hl & _). rewrite El in Hl. apply links_mid in Hl. destruct l2 as [|x l2]; cbn [links] in Hl.
  - rewrite Hl. left. by rewrite El, app_nil_r.
  - destruct Hl as [-> Hl]. cbn [sendq_walk]. rewrite <- negb_orb. fold (admits f (thr st x)).
    destruct (admits f (thr st x)) eqn:E; cbn [negb]; [right; by exists x, l1, l2|].
    specialize (IH (l1 ++ [x]) l2). rewrite last_snoc in IH. apply IH; [by rewrite <- app_assoc|cbn in Hlen; lia|].
    apply Forall_app. split; [done|]. by apply Forall_singleton.
Qed.

Lemma take_spec rcv f st qs :
  sendqs st qs ->
  (sendq_take rcv f st = (None, st) /\ Forall (fun x => admits f (thr st x) = false) (qs rcv)) \/
  (exists x a b, qs rcv = a ++ x :: b /\ Forall (fun x => admits f (thr st x) = false) a /\ admits f (thr st x) = true /\
    sendq_take rcv f st = (Some x, sendq_unlink rcv (list.last a) x st)).
Proof.
  intros Hq. apply (walk_spec (Z.to_nat SCHED_MAX_THREADS) rcv f [] (qs rcv) st qs); [done|done| |done].
  by eapply sendq_length.
Qed.

(** C16: The queues of blocked senders are lists.  When the linked queues stand
    for the lists [qs], appending a thread that is in none puts it at the end
    of its receiver's list; taking with a filter removes the first thread the
    filter admits, keeping the order of the others, and finds nothing only
    when no entry is admitted.  The other receivers' queues stay, and no field
    of a thread changes except the links. *)
Theorem sendq_refines st qs rcv :
  sendqs st qs ->
  (forall i, 1 <= i < SCHED_MAX_THREADS -> (forall r, Thr i ∉ qs r) ->
    sendqs (sendq_append rcv (Thr i) st) (<[rcv := qs rcv ++ [Thr i]]> qs) /\
    forall x, bare (thr (sendq_append rcv (Thr i) st) x) = bare (thr st x)) /\
  forall f, let '(r, st') := sendq_take rcv f st in
    (forall x, bare (thr st' x) = bare (thr st x)) /\
    match r with
    | None => st' = st /\ forall x, x ∈ qs rcv -> admits f (thr st x) = false
    | Some x => admits f (thr st x) = true /\ exists l1 l2, qs rcv = l1 ++ x :: l2 /\
        (forall y, y ∈ l1 -> admits f (thr st y) = false) /\ sendqs st' (<[rcv := l1 ++ l2]> qs)
    end.
Proof.
  intros Hq. split; [intros i Hi Hn; split; [by apply append_sendqs|intros x; apply append_bare]|].
  intros f. pose proof (walk_bare (Z.to_nat SCHED_MAX_THREADS) rcv f None (t_send_q_head (thr st rcv)) st) as Hb.
  fold (sendq_take rcv f st) in Hb. destruct (take_spec rcv f st qs Hq) as [[E Hn]|(x & a & b & El & Ha & Hx & E)];
    rewrite E in Hb |- *; (split; [exact Hb|]).
  - split; [done|]. by apply list.Forall_forall.
  - split; [done|]. exists a, b. split; [done|]. split; [by apply list.Forall_forall|by apply unlink_sendqs].
Qed.

(** Two ways to split a list at its first admitted element agree. *)
Lemma first_split (p : tptr -> bool) l1 a s x l2 b :
  l1 ++ s :: l2 = a ++ x :: b -> (forall y, y ∈ l1 -> p y = false) -> (forall y, y ∈ a -> p y = false) ->
  p s = true -> p x = true -> l1 = a /\ s = x /\ l2 = b.
Proof.
  revert a. induction l1 as [|y l1 IH]; intros [|z a]; cbn [app]; intros [= E1 E2] H1 H2 Hs Hx; subst; [done|..].
  - by rewrite H2 in Hs by (by left).
  - by rewrite H1 in Hx by (by left).
  - destruct (IH a) as (-> & -> & ->); try done; intros y Hy; [apply H1|apply H2]; by right.
Qed.

Section rendezvous.
Context {D : Type} `{!Config} `{!Ports D}.
Implicit Types k : kstate D.

Lemma kupd_field {A} (F : tcb -> A) t g k x : (forall b, F (g b) = F b) -> F (kthr x (kupd t g k)) = F (kthr x k).
Proof. apply (upd_field F). Qed.

Lemma kwake_field {A} (F : tcb -> A) cpu t k x :
  (forall b v, F (b <| t_state := v |>) = F b) -> (forall b v, F (b <| t_inbox_next := v |>) = F b) ->
  F (kthr x (kwake cpu t k)) = F (kthr x k).
Proof.
  intros H1 H2. unfold kthr, kwake. rsimpl. destruct (sched_wake_eff cpu t (k_sched k)) as (Hx & _). rewrite Hx.
  destruct (decide _) as [[-> _]|]; [|done]. destruct (t_in_ready_q _); by rewrite ?H2, ?H1.
Qed.

(** The fields of the queues. *)
Definition links_of (b : tcb) := (t_sq_next b, t_send_q_head b, t_send_q_tail b).

Lemma sendqs_ext st st' qs : (forall x, links_of (thr st' x) = links_of (thr st x)) -> sendqs st qs -> sendqs st' qs.
Proof.
  intros He Hq. split; [|apply (sq_disj _ _ Hq)|apply (sq_range _ _ Hq)]. intros r.
  pose proof (He r) as [= _ -> ->]. apply (queue_ext (fun x => t_sq_next (thr st x))); [|apply Hq].
  intros p _. by pose proof (He p) as [= -> _ _].
Qed.

Lemma sendqs_lists st qs qs' : (forall r, qs r = qs' r) -> sendqs st qs' -> sendqs st qs.
Proof.
  intros He [Q1 Q2 Q3]. split; [intros r; rewrite He; apply Q1|intros r r' x; rewrite !He; apply Q2|intros r x; rewrite He; apply Q3].
Qed.

(** The page operation changes the machine's memory only, and what it returns
    depends on that and the frame capabilities alone. *)
Lemma transfer_sched flags sender src_as dst_as m k :
  k_sched (transfer flags sender src_as dst_as m k).2 = k_sched k.
Proof. unfold transfer. repeat break_if; try done; by destruct (_ boot_pml4 _ _ _ _) as [? ?] || destruct (vm_batch_map _ _ _ _ _ _). Qed.
Lemma transfer_rc flags sender src_as dst_as m k k' :
  kmach k' = kmach k -> k_frame_caps k' = k_frame_caps k ->
  (transfer flags sender src_as dst_as m k').1 = (transfer flags sender src_as dst_as m k).1.
Proof.
  intros E1 E2. unfold transfer. rewrite E1, E2.
  repeat break_if; try done; by destruct (_ boot_pml4 _ _ _ _) as [? ?] || destruct (vm_batch_map _ _ _ _ _ _).
Qed.

Lemma count_thr k x : kthr x (count_msg k) = kthr x k.
Proof. done. Qed.

(** The message [m] from [from] put in the registers [u]. *)
Definition delivered (m : msg_regs_t) (from : Z) (u : arch_uctx_t) : arch_uctx_t :=
  (payload_to_frame m u) <| rsi := from |> <| rax := IPC_ERR_NONE |>.

Lemma complete_spec cpu cur s k :
  s <> cur -> let b := kthr s k in let k' := complete_parked_sender cpu cur s k in
  t_uctx (kthr cur k') = delivered (t_ipc_buffer b) (t_tid b) (t_uctx (kthr cur k)) /\
  rax (t_uctx (kthr s k')) = transfer_status
    (transfer (t_ipc_flags b) (t_tid b) (t_address_space b) (t_address_space (kthr cur k)) (t_ipc_buffer b) k).1 /\
  (t_state b = THREAD_STATE_WAIT_SEND -> t_state (kthr s k') =
    if t_ipc_recv_after b =? TID_NONE then THREAD_STATE_READY else THREAD_STATE_WAIT_RECV) /\
  (t_ipc_recv_after b <> TID_NONE -> t_ipc_partner (kthr s k') = t_ipc_recv_after b) /\
  (forall x, links_of (kthr x k') = links_of (kthr x k)) /\
  (forall x, x <> cur -> x <> s -> t_uctx (kthr x k') = t_uctx (kthr x k) /\ t_state (kthr x k') = t_state (kthr x k)).
Proof.
  intros Hne b. cbv zeta. unfold complete_parked_sender. fold b. cbv zeta.
  destruct (transfer _ _ _ _ _ k) as [rc k1] eqn:Et. pose proof (transfer_sched (t_ipc_flags b) (t_tid b) (t_address_space b)
    (t_address_space (kthr cur k)) (t_ipc_buffer b) k) as Es. rewrite Et in Es. cbn [snd] in Es.
  assert (E1 : forall x, kthr x k1 = kthr x k) by (intros x; unfold kthr; by rewrite Es). clear Et Es.
  set (k2 := count_msg _). assert (E2 : kthr s k2 = b <| t_uctx ::= fun u => u <| rax := transfer_status rc |> |> /\
    kthr cur k2 = (kthr cur k) <| t_uctx ::= delivered (t_ipc_buffer b) (t_tid b) |> /\
    (forall x, x <> cur -> x <> s -> kthr x k2 = kthr x k) /\ (forall x, links_of (kthr x k2) = links_of (kthr x k))).
  { unfold k2, deliver_to_frame, kuctx. split; [|split; [|split]]; intros; rewrite count_thr.
    - rewrite kupd_same, kupd_other, E1 by done. done.
    - rewrite kupd_other, kupd_same, E1 by done. done.
    - by rewrite !kupd_other, E1 by done.
    - by rewrite !(kupd_field links_of), E1. }
  clearbody k2. destruct E2 as (Es & Ec & Eo & El). cbn [fst].
  destruct (t_ipc_recv_after b =? TID_NONE) eqn:Er; cbn [negb].
  - rewrite !(kwake_field t_uctx) by done. split; [by rewrite Ec|]. split; [by rewrite Es|]. split; [|split; [lia|split]].
    + intros Hst. unfold kthr, kwake. rsimpl. destruct (sched_wake_eff cpu s (k_sched k2)) as (Hx & _).
      rewrite Hx, decide_True; [by destruct (t_in_ready_q _)|]. split; [done|]. fold (kthr s k2). rewrite Es. unfold wakeable. rsimpl. by rewrite Hst.
    + intros x. by rewrite (kwake_field links_of).
    + intros x Hx Hxs. by rewrite wake_other, Eo.
  - rewrite (kupd_other s _ cur), Ec by done. split; [done|]. rewrite kupd_same, Es. split; [done|]. split; [done|]. split; [done|]. split.
    + intros x. by rewrite (kupd_field links_of).
    + intros x Hx Hxs. by rewrite kupd_other, Eo.
Qed.

(** A receive whose first admitted sender is [s]. *)
Lemma recv_spec cpu flags f cur s l1 l2 qs k :
  sendqs (k_sched k) qs -> qs cur = l1 ++ s :: l2 -> s <> cur ->
  (forall x, x ∈ l1 -> admits f (kthr x k) = false) -> admits f (kthr s k) = true ->
  let b := kthr s k in let k' := sys_recv cpu flags f cur k in
  t_uctx (kthr cur k') = delivered (t_ipc_buffer b) (t_tid b) (t_uctx (kthr cur k)) /\
  rax (t_uctx (kthr s k')) = transfer_status
    (transfer (t_ipc_flags b) (t_tid b) (t_address_space b) (t_address_space (kthr cur k)) (t_ipc_buffer b) k).1 /\
  (t_state b = THREAD_STATE_WAIT_SEND -> t_state (kthr s k') =
    if t_ipc_recv_after b =? TID_NONE then THREAD_STATE_READY else THREAD_STATE_WAIT_RECV) /\
  (t_ipc_recv_after b <> TID_NONE -> t_ipc_partner (kthr s k') = t_ipc_recv_after b) /\
  sendqs (k_sched k') (<[cur := l1 ++ l2]> qs).
Proof.
  intros Hq El Hne Hl1 Ha. cbv zeta. unfold sys_recv.
  pose proof (walk_bare (Z.to_nat SCHED_MAX_THREADS) cur f None (t_send_q_head (thr (k_sched k) cur)) (k_sched k)) as Hb.
  fold (sendq_take cur f (k_sched k)) in Hb.
  assert (E : sendq_take cur f (k_sched k) = (Some s, sendq_unlink cur (list.last l1) s (k_sched k))).
  { destruct (take_spec cur f (k_sched k) qs Hq) as [[_ Hn]|(x & a & b & El' & Ha' & Hx & E)].
    - rewrite El in Hn. apply Forall_app in Hn as [_ Hn]. apply list.Forall_cons in Hn as [Hn _].
      unfold kthr in Ha. congruence.
    - destruct (first_split (fun x => admits f (kthr x k)) l1 a s x l2 b) as (<- & <- & _); [congruence|done|by apply list.Forall_forall|done|done|done]. }
  rewrite E in Hb |- *. cbn [snd] in Hb. pose proof (unlink_sendqs cur s l1 l2 (k_sched k) qs Hq El) as Hq'.
  set (k1 := k <| k_sched := sendq_unlink cur (list.last l1) s (k_sched k) |>).
  assert (B1 : forall x, bare (kthr x k1) = bare (kthr x k)) by exact Hb.
  assert (T1 : forall fl sd sa da m, (transfer fl sd sa da m k1).1 = (transfer fl sd sa da m k).1) by (intros; by apply transfer_rc).
  assert (Hq1 : sendqs (k_sched k1) (<[cur := l1 ++ l2]> qs)) by exact Hq'. clearbody k1.
  assert (F : forall A (F : tcb -> A) x, (forall b, F (bare b) = F b) -> F (kthr x k1) = F (kthr x k)).
  { intros A F x HF. by rewrite <- (HF (kthr x k1)), B1, HF. }
  destruct (complete_spec cpu cur s k1 Hne) as (C1 & C2 & C3 & C4 & C5 & _).
  rewrite (F _ t_ipc_buffer s), (F _ t_tid s), (F _ t_uctx cur) in C1 by done.
  rewrite T1, (F _ t_ipc_buffer s), (F _ t_tid s), (F _ t_ipc_flags s), (F _ t_address_space s), (F _ t_address_space cur) in C2 by done.
  rewrite (F _ t_state s), (F _ t_ipc_recv_after s) in C3 by done. rewrite (F _ t_ipc_recv_after s) in C4 by done.
  split; [exact C1|]. split; [exact C2|]. split; [exact C3|]. split; [exact C4|]. by apply (sendqs_ext (k_sched k1)).
Qed.

(** [u] with the six message registers of [f], the sender's number and success. *)
Definition received (f : arch_uctx_t) (from : Z) (u : arch_uctx_t) : arch_uctx_t :=
  u <| r8 := r8 f |> <| r9 := r9 f |> <| r10 := r10 f |> <| r12 := r12 f |> <| r13 := r13 f |> <| r14 := r14 f |>
    <| rsi := from |> <| rax := IPC_ERR_NONE |>.

(** Thread [i], running on [cpu], sends to the live thread [j], which is not
    waiting for [i] to resolve a page fault; the queues stand for [qs] and hold
    blocked senders only. *)
Record sending (cpu i j : Z) (qs : tptr -> list tptr) k : Prop := {
  sn_cur : kcur cpu k = Thr i;
  sn_range : 1 <= i < SCHED_MAX_THREADS /\ 1 <= j < SCHED_MAX_THREADS /\ i <> j;
  sn_tids : t_tid (kthr (Thr i) k) = i /\ t_tid (kthr (Thr j) k) = j;
  sn_running : t_state (kthr (Thr i) k) = THREAD_STATE_RUNNING;
  sn_dest : u32 (rdi (t_uctx (kthr (Thr i) k))) = j;
  sn_live : gone (kthr (Thr j) k) = false;
  sn_nofault : t_state (kthr (Thr j) k) = THREAD_STATE_WAIT_PAGEFAULT -> t_pager_tid (kthr (Thr j) k) <> i;
  sn_queues : sendqs (k_sched k) qs;
  sn_blocked r x : x ∈ qs r -> t_state (kthr x k) = THREAD_STATE_WAIT_SEND
}.
Definition receives_from (i : Z) (b : tcb) : bool :=
  st_eqb (t_state b) THREAD_STATE_WAIT_RECV && ((t_ipc_partner b =? IPC_TID_ANY) || (t_ipc_partner b =? i)).

Lemma send_eq cpu i j qs k :
  sending cpu i j qs k ->
  let f := t_uctx (kthr (Thr i) k) in let flags := u32 (rdx f) in
  sys_ipc cpu k =
  if receives_from i (kthr (Thr j) k) then send_direct cpu flags (u32 (rsi f)) (has flags IPC_FLAG_RECV) (Thr i) (Thr j) f k
  else send_parked cpu flags (u32 (rsi f)) j (has flags IPC_FLAG_RECV) (Thr i) (Thr j) f k.
Proof.
  intros [Hc (Hi & Hj & Hne) [Ti Tj] Hr Hd Hl Hf _ _]. cbv zeta. unfold sys_ipc. rewrite Hc. cbv zeta. rewrite Hd.
  replace (j =? 0) with false by lia. cbn [andb negb].
  assert (Eg : kget j k = Some (Thr j)).
  { unfold kget, sched_get_tcb. replace ((j =? 0) || (j >=? SCHED_MAX_THREADS)) with false by lia. cbv zeta.
    unfold gone, kthr in Hl. by rewrite Hl. }
  rewrite Eg, Ti. unfold tptr_eqb. rewrite bool_decide_eq_false_2 by congruence.
  destruct (st_eqb (t_state (kthr (Thr j) k)) THREAD_STATE_WAIT_PAGEFAULT) eqn:Ep; [|reflexivity].
  apply bool_decide_eq_true in Ep. specialize (Hf Ep). replace (i =? t_pager_tid (kthr (Thr j) k)) with false by lia. reflexivity.
Qed.

Lemma append_current rcv s st : current (sendq_append rcv s st) = current st.
Proof. unfold sendq_append. cbv zeta. by destruct (t_send_q_tail _). Qed.

(** The sender that has to wait. *)
Definition parked (flags src_filter dest_tid : Z) (want_recv : bool) (b : tcb) : tcb :=
  b <| t_ipc_buffer := payload_from_frame (t_uctx b) |> <| t_ipc_flags := flags |> <| t_ipc_partner := dest_tid |>
    <| t_ipc_recv_after := if want_recv then src_filter else TID_NONE |> <| t_state := THREAD_STATE_WAIT_SEND |>.

Lemma send_parked_spec cpu i j flags f want qs k :
  kcur cpu k = Thr i -> 1 <= i < SCHED_MAX_THREADS -> sendqs (k_sched k) qs -> (forall r, Thr i ∉ qs r) ->
  let k1 := send_parked cpu flags f j want (Thr i) (Thr j) (t_uctx (kthr (Thr i) k)) k in
  (forall x, bare (kthr x k1) = bare (if decide (x = Thr i) then parked flags f j want (kthr x k) else kthr x k)) /\
  sendqs (k_sched k1) (<[Thr j := qs (Thr j) ++ [Thr i]]> qs) /\ kmach k1 = kmach k /\ k_frame_caps k1 = k_frame_caps k.
Proof.
  intros Hc Hi Hq Hn k1. split; [|split; [|done]].
  - intros x. unfold k1, send_parked, sched_block. cbv zeta. unfold kupd, kthr. rsimpl.
    match goal with |- context [current_thread cpu ?s] => replace (current_thread cpu s) with (Thr i) end;
      [|unfold current_thread; rewrite append_current; by rewrite <- Hc].
    rewrite upd_thr. set (st0 := upd (Thr i) _ (k_sched k)). pose proof (append_bare (Thr j) (Thr i) st0) as Hb.
    destruct (decide (x = Thr i)) as [->|Hx]; [|rewrite Hb; unfold st0; by rewrite upd_ne].
    transitivity ((bare (thr (sendq_append (Thr j) (Thr i) st0) (Thr i))) <| t_state := THREAD_STATE_WAIT_SEND |>); [done|].
    rewrite Hb. unfold st0. by rewrite upd_same.
  - unfold k1, send_parked, sched_block. cbv zeta. unfold kupd. rsimpl.
    match goal with |- sendqs (upd _ _ ?s) _ => apply (sendqs_ext s); [intros x; by apply (upd_field links_of)|] end.
    apply append_sendqs; [|done|done]. apply (sendqs_ext (k_sched k)); [|done]. intros x. by apply (upd_field links_of).
Qed.

Lemma ready_uctx t k x : t_uctx (kthr x (k <| k_sched ::= sched_ready_now t |>)) = t_uctx (kthr x k).
Proof.
  unfold kthr, sched_ready_now. rsimpl. destruct (rq_push_keeps t (upd t (fun b => b <| t_state := THREAD_STATE_READY |>) (k_sched k)) x)
    as [(q & n & i & ->) _]. rsimpl. by apply (upd_field t_uctx).
Qed.

(** Switching to [dest] runs it with the registers it has. *)
Lemma switch_spec cpu dest v k :
  let k' := (kupd dest (fun b => b <| t_timeslice_left := v |>) k) <| k_sched ::= sched_direct_switch cpu dest |> in
  t_state (kthr dest k') = THREAD_STATE_RUNNING /\ forall x, t_uctx (kthr x k') = t_uctx (kthr x k).
Proof.
  cbv zeta. unfold kthr, kupd, sched_direct_switch, bump. rsimpl. split; [by rewrite upd_same|].
  intros x. by rewrite !(upd_field t_uctx).
Qed.

Lemma wake_ready cpu t k : t_state (kthr t k) = THREAD_STATE_WAIT_RECV -> t_state (kthr t (kwake cpu t k)) = THREAD_STATE_READY.
Proof.
  intros Es. unfold kthr, kwake in *. rsimpl. destruct (sched_wake_eff cpu t (k_sched k)) as (Hx & _).
  rewrite Hx, decide_True; [by destruct (t_in_ready_q _)|]. split; [done|]. unfold wakeable. by rewrite Es.
Qed.

(** Direct delivery. *)
Lemma send_direct_spec cpu flags filter want cur dest f qs k :
  cur <> dest -> sendqs (k_sched k) qs -> dest ∉ qs cur -> cur ∉ qs cur -> t_state (kthr dest k) = THREAD_STATE_WAIT_RECV ->
  let c := kthr cur k in let k1 := send_direct cpu flags filter want cur dest f k in
  t_uctx (kthr dest k1) = delivered (payload_from_frame f) (t_tid c) (t_uctx (kthr dest k)) /\
  t_state (kthr dest k1) ∈ [THREAD_STATE_READY; THREAD_STATE_RUNNING] /\
  (want = false -> rax (t_uctx (kthr cur k1)) = transfer_status
    (transfer flags (t_tid c) (t_address_space c) (t_address_space (kthr dest k)) (payload_from_frame f) k).1).
Proof.
  intros Hne Hq Hd Hcq Hs c. cbv zeta. unfold send_direct. fold c. cbv beta zeta.
  destruct (transfer _ _ _ _ _ k) as [rc k1] eqn:Et. pose proof (transfer_sched flags (t_tid c) (t_address_space c)
    (t_address_space (kthr dest k)) (payload_from_frame f) k) as Es. rewrite Et in Es. cbn [snd fst] in *. clear Et.
  set (k2 := kuctx cur _ _). assert (E2 : kthr dest k2 = (kthr dest k) <| t_uctx ::= delivered (payload_from_frame f) (t_tid c) |> /\
    rax (t_uctx (kthr cur k2)) = transfer_status rc /\ (forall x, links_of (kthr x k2) = links_of (kthr x k))).
  { unfold k2, deliver_to_frame, kuctx. split; [|split; [by rewrite kupd_same|]].
    - rewrite kupd_other, count_thr, kupd_same by congruence. unfold kthr. by rewrite Es.
    - intros x. rewrite (kupd_field links_of), count_thr, (kupd_field links_of) by done. unfold kthr. by rewrite Es. }
  clearbody k2. destruct E2 as (E2 & R2 & L2). pose proof (sendqs_ext _ _ _ L2 Hq) as Hq2.
  destruct want.
  - destruct (take_spec cur filter (k_sched k2) qs Hq2) as [[E _]|(w & l1 & l2 & El & _ & _ & E)]; rewrite E.
    + set (k3 := (kupd cur _ _) <| k_sched ::= sched_block cpu THREAD_STATE_WAIT_RECV |>).
      set (k4 := (kupd dest _ k3) <| k_sched ::= _ |>).
      assert (S : t_state (kthr dest k4) = THREAD_STATE_RUNNING /\ forall x, t_uctx (kthr x k4) = t_uctx (kthr x k3))
        by exact (switch_spec cpu dest (t_timeslice_left (kthr cur k3)) k3).
      clearbody k4. destruct S as [S1 S2].
      rewrite S1, S2. split; [|split; [set_solver|done]]. transitivity (t_uctx (kthr dest k2)); [|by rewrite E2].
      unfold k3, kthr, sched_block, kupd. rsimpl. by rewrite !(upd_field t_uctx).
    + set (k3 := k2 <| k_sched := sendq_unlink cur (list.last l1) w (k_sched k2) |>).
      assert (B3 : bare (kthr dest k3) = bare (kthr dest k2)).
      { pose proof (walk_bare (Z.to_nat SCHED_MAX_THREADS) cur filter None (t_send_q_head (thr (k_sched k2) cur)) (k_sched k2) dest) as Hb.
        fold (sendq_take cur filter (k_sched k2)) in Hb. by rewrite E in Hb. }
      clearbody k3. assert (Hw : w <> cur /\ dest <> w) by (split; intros ->; rewrite El in *; set_solver).
      destruct (complete_spec cpu cur w (kwake cpu dest k3) (proj1 Hw)) as (_ & _ & _ & _ & _ & Co).
      destruct (Co dest) as [-> ->]; [congruence|apply Hw|]. rewrite (kwake_field t_uctx), wake_ready; [| |done|done].
      * split; [|split; [set_solver|done]]. assert (U3 : t_uctx (kthr dest k3) = t_uctx (kthr dest k2)) by exact (f_equal t_uctx B3). by rewrite U3, E2.
      * assert (U3 : t_state (kthr dest k3) = t_state (kthr dest k2)) by exact (f_equal t_state B3). by rewrite U3, E2.
  - destruct (_ >=? _).
    + set (k3 := k2 <| k_sched ::= sched_ready_now cur |>).
      set (k4 := (kupd dest _ k3) <| k_sched ::= _ |>).
      assert (S : t_state (kthr dest k4) = THREAD_STATE_RUNNING /\ forall x, t_uctx (kthr x k4) = t_uctx (kthr x k3))
        by exact (switch_spec cpu dest (t_timeslice_left (kthr cur k3)) k3).
      clearbody k4. destruct S as [S1 S2].
      rewrite S1, !S2. unfold k3. rewrite !ready_uctx, E2. split; [done|]. split; [set_solver|done].
    + rewrite !(kwake_field t_uctx), wake_ready, E2 by (done || by rewrite E2). split; [done|]. split; [set_solver|done].
Qed.

(** C2: A message sent is received, unchanged and once.  If the receiver is
    waiting for this sender, the send puts the six words and the sender's
    number in its registers, leaves its other registers alone and makes it
    runnable.  Otherwise the sender blocks; when the receiver asks with a
    filter that admits it and nobody queued before it, the receiver gets
    exactly those registers, the sender the outcome of the page operation,
    the queues are as before the send, and the sender is ready again or, if
    it asked for an answer, waits for it from the thread it named. *)
Theorem message_delivered cpu i j qs k :
  sending cpu i j qs k ->
  let s := kthr (Thr i) k in let r := kthr (Thr j) k in let f := t_uctx s in
  let flags := u32 (rdx f) in let m := payload_from_frame f in
  let status := transfer_status (transfer flags i (t_address_space s) (t_address_space r) m k).1 in
  let answer := has flags IPC_FLAG_RECV && negb (u32 (rsi f) =? TID_NONE) in
  let k1 := sys_ipc cpu k in
  if receives_from i r then
    t_uctx (kthr (Thr j) k1) = received f i (t_uctx r) /\
    t_state (kthr (Thr j) k1) ∈ [THREAD_STATE_READY; THREAD_STATE_RUNNING] /\
    (has flags IPC_FLAG_RECV = false -> rax (t_uctx (kthr (Thr i) k1)) = status)
  else
    t_state (kthr (Thr i) k1) = THREAD_STATE_WAIT_SEND /\
    forall cpu2 flags2 filter, admits filter s = true -> (forall x, x ∈ qs (Thr j) -> admits filter (kthr x k) = false) ->
    let k2 := sys_recv cpu2 flags2 filter (Thr j) k1 in
    t_uctx (kthr (Thr j) k2) = received f i (t_uctx r) /\ rax (t_uctx (kthr (Thr i) k2)) = status /\
    t_state (kthr (Thr i) k2) = (if answer then THREAD_STATE_WAIT_RECV else THREAD_STATE_READY) /\
    (answer = true -> t_ipc_partner (kthr (Thr i) k2) = u32 (rsi f)) /\ sendqs (k_sched k2) qs.
Proof.
  intros Hs s r f flags m status answer. cbv zeta. rewrite (send_eq cpu i j qs k Hs). fold s r f flags.
  destruct Hs as [Hc (Hi & Hj & Hne) [Ti Tj] Hr Hd Hl Hf Hq Hb]. fold s r in Ti, Tj, Hr, Hl.
  assert (Hn : forall q, Thr i ∉ qs q) by (intros q Hin; apply Hb in Hin; fold s in Hin; congruence).
  assert (Hij : Thr i <> Thr j) by congruence. destruct (receives_from i r) eqn:Er.
  - apply andb_true_iff in Er as [Es _]. apply bool_decide_eq_true in Es.
    pose proof (send_direct_spec cpu flags (u32 (rsi f)) (has flags IPC_FLAG_RECV) (Thr i) (Thr j) f qs k Hij Hq) as HS.
    cbv zeta in HS. fold s r in HS. rewrite Ti in HS. apply HS; [|apply Hn|exact Es].
    intros Hin. apply Hb in Hin. fold r in Hin. congruence.
  - destruct (send_parked_spec cpu i j flags (u32 (rsi f)) (has flags IPC_FLAG_RECV) qs k Hc Hi Hq Hn) as (B1 & Q1 & M1 & F1).
    fold s f in B1, Q1, M1, F1. set (k1 := send_parked _ _ _ _ _ _ _ _ _) in *. clearbody k1.
    assert (Fi : forall A (F : tcb -> A), (forall b, F (bare b) = F b) ->
      F (kthr (Thr i) k1) = F (parked flags (u32 (rsi f)) j (has flags IPC_FLAG_RECV) s)).
    { intros A F HF. rewrite <- (HF (kthr (Thr i) k1)), B1, decide_True by done. apply HF. }
    assert (Fo : forall A (F : tcb -> A) x, (forall b, F (bare b) = F b) -> x <> Thr i -> F (kthr x k1) = F (kthr x k)).
    { intros A F x HF Hx. rewrite <- (HF (kthr x k1)), B1, decide_False by done. apply HF. }
    split; [exact (Fi _ t_state (fun _ => eq_refl))|]. intros cpu2 flags2 filter Ha Hqa.
    destruct (recv_spec cpu2 flags2 filter (Thr j) (Thr i) (qs (Thr j)) [] _ k1 Q1) as (R1 & R2 & R3 & R4 & R5);
      [by rewrite fn_lookup_insert|done| | |].
    + intros x Hx. rewrite <- (Hqa x Hx). unfold admits. rewrite (Fo _ t_tid x); [done|done|]. intros ->. by apply Hn in Hx.
    + rewrite <- Ha. unfold admits. by rewrite (Fi _ t_tid).
    + rewrite (Fi _ t_ipc_buffer), (Fi _ t_tid), (Fo _ t_uctx) in R1 by (done || congruence).
      rewrite (transfer_rc _ _ _ _ _ k k1 M1 F1), (Fi _ t_ipc_buffer), (Fi _ t_tid), (Fi _ t_ipc_flags), (Fi _ t_address_space),
        (Fo _ t_address_space) in R2 by (done || congruence).
      rewrite (Fi _ t_state), (Fi _ t_ipc_recv_after) in R3 by done. rewrite (Fi _ t_ipc_recv_after) in R4 by done.
      unfold parked in R1, R2, R3, R4. rsimpl. specialize (R3 eq_refl). rewrite Ti in R1, R2.
      split; [exact R1|]. split; [exact R2|]. rewrite R3. unfold answer.
      split; [by destruct (has flags IPC_FLAG_RECV), (u32 (rsi f) =? TID_NONE)|].
      split; [destruct (has flags IPC_FLAG_RECV); [|done]; intros E; apply R4; cbn in E; lia|].
      eapply sendqs_lists; [|exact R5]. intros q. rewrite app_nil_r. destruct (decide (q = Thr j)) as [->|];
        [by rewrite fn_lookup_insert|by rewrite !fn_lookup_insert_ne by congruence].
Qed.
End rendezvous.

(** Ports without devices. *)
Definition demo_silent : Ports unit := Build_Ports unit (fun _ _ d => (0, d)) (fun _ _ _ d => d) (fun d => (0, false, d)).
(** Thread 5 sends to thread 7, which waits for a message or still runs. *)
Definition demo_sending (waiting : bool) : kstate unit :=
  demo_kstate <| k_sched ::= fun s =>
    (s <| thr := fun t => match t with
       | Thr x => tcb_zero <| t_tid := x |> <| t_uctx := if x =? 5 then uctx_zero <| rdi := 7 |> <| r8 := 42 |> else uctx_zero |>
                    <| t_state := if (x =? 7) && waiting then THREAD_STATE_WAIT_RECV else THREAD_STATE_RUNNING |>
       | Idle _ => tcb_zero end |>) <| current := <[0 := Some (Thr 5)]> (current s) |> |>.

Lemma demo_sending_ok w : sending 0 5 7 (fun _ => []) (demo_sending w).
Proof.
  assert (Hn : forall x : tptr, x ∉ ([] : list tptr)) by (intros x; apply not_elem_of_nil).
  split; [reflexivity|unfold SCHED_MAX_THREADS; lia|split; reflexivity|reflexivity|reflexivity|by destruct w|by destruct w| |].
  - split; [|intros r r' x Hx; by apply Hn in Hx|intros r x Hx; by apply Hn in Hx].
    intros [x|c]; (split; [reflexivity|split; [reflexivity|apply NoDup_nil_2]]).
  - intros r x Hx. by apply Hn in Hx.
Qed.

Lemma sendq_refines_witness :
  sendqs (sendq_append (Thr 7) (Thr 5) (k_sched (demo_sending false))) (<[Thr 7 := [Thr 5]]> (fun _ => [])).
Proof.
  destruct (sendq_refines (k_sched (demo_sending false)) (fun _ => []) (Thr 7)) as [Ha _]; [apply (demo_sending_ok false)|].
  apply Ha; [unfold SCHED_MAX_THREADS; lia|]. intros r. apply not_elem_of_nil.
Defined.

Lemma message_delivered_witness :
  r8 (t_uctx (kthr (Thr 7) (@sys_ipc unit demo_config demo_silent 0 (demo_sending true)))) = 42.
Proof.
  destruct (@message_delivered unit demo_config demo_silent 0 5 7 (fun _ => []) (demo_sending true) (demo_sending_ok true)) as (E & _).
  rewrite E. reflexivity.
Defined.
