(* ===== verification/Privilege.v ===== *)
(** * Devices belong to their drivers

    Device registers are reached through the ports ([k_dev]); which thread may
    do so is recorded in the grants.  Every operation a system call can reach
    is shown to leave both alone unless the caller holds a grant. *)
From Stdlib Require Import ZArith Lia.
From stdpp Require Import base numbers sets list list_numbers functions.
From S2P Require Import Prelude Abi Memory Pmm PageTable Vm Pipe Socket Shm Tcb Sched Bootinfo Hwio Console Kinfo Elf Kstate Captable Exec Kernel Spawn Ipc Syscall.

(** The grants that give access to hardware. *)
Definition privs (g : ipc_grants) :=
  (console_writer_tid g, console_driver_tid g, pager_owner_tid g, hw_driver_tid g, hw_driver_secondary_tids g,
   hw_port_io_secondary_tids g, pci_cfg_secondary_tid g).

Section privilege.
Context {D : Type} `{!Config} `{!Ports D}.
Implicit Types k : kstate D.

(** The devices, who may use them, and whether the machine still runs. *)
Definition dv k := (k_dev k, privs (k_grants k), k_stop k).

Lemma dv_sched g k : dv (set k_sched g k) = dv k. Proof. done. Qed.
Lemma dv_mem g k : dv (set k_mem g k) = dv k. Proof. done. Qed.
Lemma dv_faults g k : dv (set k_faults g k) = dv k. Proof. done. Qed.
Lemma dv_caps g k : dv (set_caps g k) = dv k. Proof. done. Qed.
Lemma dv_pipes g k : dv (set k_pipes g k) = dv k. Proof. done. Qed.
Lemma dv_socks g k : dv (set k_socks g k) = dv k. Proof. done. Qed.
Lemma dv_kinfo g k : dv (set k_kinfo g k) = dv k. Proof. done. Qed.
Lemma dv_slots g k : dv (set k_slots g k) = dv k. Proof. done. Qed.
Lemma dv_elf g k : dv (set k_elf g k) = dv k. Proof. done. Qed.
Lemma dv_cons g k : dv (set k_cons g k) = dv k. Proof. done. Qed.
Lemma dv_fsbase g k : dv (set k_fsbase g k) = dv k. Proof. done. Qed.
Lemma dv_kupd t g k : dv (kupd t g k) = dv k. Proof. done. Qed.
Lemma dv_kuctx t g k : dv (kuctx t g k) = dv k. Proof. done. Qed.
Lemma dv_kwake cpu t k : dv (kwake cpu t k) = dv k. Proof. done. Qed.
Lemma dv_mach m k : dv (kset_mach m k) = dv k. Proof. done. Qed.
Lemma dv_ret t rc k : dv (ret t rc k) = dv k. Proof. done. Qed.
Lemma dv_ret8 t v k : dv (ret8 t v k) = dv k. Proof. done. Qed.
Lemma dv_waiter vt tid k : dv (set_read_waiter vt tid k) = dv k. Proof. done. Qed.
Lemma dv_slot i g k : dv (set_slot i g k) = dv k. Proof. done. Qed.
Lemma dv_free i k : dv (Exec.free_slot i k) = dv k. Proof. done. Qed.
Lemma dv_ret_value t rc v k : dv (ret_value t rc v k) = dv k.
Proof. unfold ret_value. by destruct (negb _). Qed.
Lemma dv_with_socks t a k : dv (with_socks t a k) = dv k.
Proof. by destruct a. Qed.

Lemma dv_for n f k : (forall i k', dv (f i k') = dv k') -> dv (for_range n f k) = dv k.
Proof.
  intros Hf. unfold for_range. generalize (seqZ 0 n). intros l. revert k.
  induction l as [|i l IH]; intros k; [done|]. cbn. by rewrite IH, Hf.
Qed.
Lemma dv_for_fst {A} n (f : Z -> kstate D * A -> kstate D * A) a :
  (forall i a', dv (f i a').1 = dv a'.1) -> dv (for_range n f a).1 = dv a.1.
Proof.
  intros Hf. unfold for_range. generalize (seqZ 0 n). intros l. revert a.
  induction l as [|i l IH]; intros a; [done|]. cbn. by rewrite IH, Hf.
Qed.
Lemma dv_for_snd {A} n (f : Z -> A * kstate D -> A * kstate D) a :
  (forall i a', dv (f i a').2 = dv a'.2) -> dv (for_range n f a).2 = dv a.2.
Proof.
  intros Hf. unfold for_range. generalize (seqZ 0 n). intros l. revert a.
  induction l as [|i l IH]; intros a; [done|]. cbn. by rewrite IH, Hf.
Qed.
End privilege.

Create Rewrite HintDb dv.
#[export] Hint Rewrite @dv_sched @dv_mem @dv_faults @dv_caps @dv_pipes @dv_socks @dv_kinfo @dv_slots @dv_elf @dv_cons @dv_fsbase @dv_kupd
  @dv_kuctx @dv_kwake @dv_mach @dv_ret @dv_ret8 @dv_waiter @dv_slot @dv_free @dv_ret_value @dv_with_socks : dv.

(** Follow every path: a call that returns a state gives the equation of its
    lemma. *)
Ltac dv_eqn E :=
  try (apply (f_equal snd) in E; cbn [snd] in E; apply (f_equal dv) in E; autorewrite with dv in E).
Ltac dv_dest p :=
  lazymatch p with
  | match ?q with pair _ _ => _ end => dv_dest q
  | match ?o with Some _ => _ | None => _ end => destruct o eqn:?
  | if ?b then _ else _ => destruct b
  | _ => let E := fresh "E" in destruct p as [? ?] eqn:E; dv_eqn E
  end.
Ltac dv_path :=
  repeat (cbv beta zeta; cbn [fst snd]; autorewrite with dv;
    match goal with
    | |- context [match ?p with pair _ _ => _ end] => dv_dest p
    | |- context [match ?o with Some _ => _ | None => _ end] => destruct o eqn:?
    | |- context [match ?z with Z0 => _ | Zpos _ => _ | Zneg _ => _ end] => destruct z
    | |- context [if ?b then _ else _] => destruct b
    end); cbv beta zeta; cbn [fst snd]; autorewrite with dv; try congruence.

Section privilege.
Context {D : Type} `{!Config} `{!Ports D}.
Implicit Types k : kstate D.

(** ** Capabilities *)
Lemma dv_untyped size k : dv (untyped_alloc_k size k).2 = dv k.
Proof. unfold untyped_alloc_k. dv_path. Qed.
Hint Rewrite dv_untyped : dv.
Lemma dv_grow k : dv (kcap_grow k).1 = dv k.
Proof. unfold kcap_grow. dv_path. Qed.
Lemma dv_grant o kd a s k : dv (kcap_grant o kd a s k).2 = dv k.
Proof. unfold kcap_grant. pose proof (dv_grow k) as E. destruct (kcap_grow k) as [k1 ok]. cbn [fst] in E. dv_path. Qed.
Hint Rewrite dv_grant : dv.
Lemma dv_grant_out c kd a s o k : dv (grant_out c kd a s o k).2 = dv k.
Proof. unfold grant_out. dv_path. Qed.
Hint Rewrite dv_grant_out : dv.
Lemma dv_retype_frame c t k : dv (retype_frame c t k).2 = dv k.
Proof. unfold retype_frame. dv_path. Qed.
Hint Rewrite dv_retype_frame : dv.
Lemma dv_retype_addrspace c k : dv (retype_addrspace c k).2 = dv k.
Proof. unfold retype_addrspace. dv_path. Qed.
Hint Rewrite dv_retype_addrspace : dv.
Lemma dv_retype_tcb c a e s fs k : dv (retype_tcb c a e s fs k).2 = dv k.
Proof. unfold retype_tcb. dv_path. Qed.
Hint Rewrite dv_retype_tcb : dv.
Lemma dv_retype_notification c k : dv (retype_notification c k).2 = dv k.
Proof. unfold retype_notification. dv_path. Qed.
Hint Rewrite dv_retype_notification : dv.
Lemma dv_retype_timer c k : dv (retype_timer c k).2 = dv k.
Proof. unfold retype_timer. dv_path. Qed.
Hint Rewrite dv_retype_timer : dv.
Lemma dv_cap_retype c u kd a e s fs k : dv (cap_retype c u kd a e s fs k).2 = dv k.
Proof. unfold cap_retype. dv_path. Qed.
Hint Rewrite dv_cap_retype : dv.
Lemma dv_notif_deliver cpu i b k : dv (notif_deliver cpu i b k) = dv k.
Proof. unfold notif_deliver. dv_path. Qed.
Hint Rewrite dv_notif_deliver : dv.
Lemma dv_notif_signal cpu c s b k : dv (cap_notif_signal cpu c s b k).2 = dv k.
Proof. unfold cap_notif_signal. dv_path. Qed.
Hint Rewrite dv_notif_signal : dv.
Lemma dv_notif_wait c s k : dv (cap_notif_wait_begin c s k).2 = dv k.
Proof. unfold cap_notif_wait_begin. dv_path. Qed.
Hint Rewrite dv_notif_wait : dv.
Lemma dv_notif_poll c s k : dv (cap_notif_poll c s k).2 = dv k.
Proof. unfold cap_notif_poll. dv_path. Qed.
Hint Rewrite dv_notif_poll : dv.
Lemma dv_timer_arm c s n t b p k : dv (cap_timer_arm c s n t b p k).2 = dv k.
Proof. unfold cap_timer_arm. dv_path. Qed.
Hint Rewrite dv_timer_arm : dv.
Lemma dv_timer_disarm c s k : dv (cap_timer_disarm c s k).2 = dv k.
Proof. unfold cap_timer_disarm. dv_path. Qed.
Hint Rewrite dv_timer_disarm : dv.
Lemma dv_revoke cpu c s k : dv (cap_revoke_frame cpu c s k).2 = dv k.
Proof. unfold cap_revoke_frame. dv_path. Qed.
Hint Rewrite dv_revoke : dv.

(** ** The end of a thread *)
Lemma dv_fail_requester cpu t k : dv (fail_requester cpu t k) = dv k.
Proof. done. Qed.
Hint Rewrite dv_fail_requester : dv.
Lemma dv_cancel tid k : dv (execreq_cancel_requester tid k) = dv k.
Proof. apply dv_for. intros i k'. dv_path. Qed.
Hint Rewrite dv_cancel : dv.
Lemma dv_fail_all cpu k : dv (execreq_fail_all cpu k) = dv k.
Proof. apply dv_for. intros i k'. dv_path. Qed.
Hint Rewrite dv_fail_all : dv.
Lemma dv_fail_senders fuel cpu s k : dv (fail_senders fuel cpu s k) = dv k.
Proof. revert s k. induction fuel as [|fuel IH]; intros [s|] k; try done. cbn [fail_senders]. rewrite IH. by autorewrite with dv. Qed.
Hint Rewrite dv_fail_senders : dv.
Lemma dv_orphans cpu t n a k : dv (for_range n (orphan_one cpu t) (k, a)).1 = dv k.
Proof. rewrite (dv_for_fst n (orphan_one cpu t)); [done|]. intros i [k' b]. unfold orphan_one. dv_path. Qed.
Lemma dv_destroy_as a k : dv (vm_address_space_destroy a k) = dv k.
Proof. done. Qed.
Hint Rewrite dv_destroy_as : dv.
Lemma dv_release_space cpu t b k : dv (release_space cpu t b k) = dv k.
Proof. unfold release_space. dv_path. Qed.
Hint Rewrite dv_release_space : dv.
Lemma dv_invalidate tid k : dv (kcap_invalidate_tcb_death tid k) = dv k.
Proof. done. Qed.
Hint Rewrite dv_invalidate : dv.
Lemma dv_notif_death tid k : dv (notif_invalidate_waiter_death tid k) = dv k.
Proof. done. Qed.
Hint Rewrite dv_notif_death : dv.
Lemma dv_release_objects cpu tid k : dv (release_objects cpu tid k) = dv k.
Proof. unfold release_objects. dv_path. Qed.
Hint Rewrite dv_release_objects : dv.
Lemma dv_terminate cpu t st k : dv (terminate_tcb cpu t st k) = dv k.
Proof. unfold terminate_tcb. cbv zeta. set (k1 := fail_senders _ _ _ _).
  pose proof (dv_orphans cpu t (SCHED_MAX_THREADS - 1) false k1) as E. destruct (for_range _ _ (k1, false)) as [k2 b].
  cbn [fst] in E. rewrite dv_release_objects, dv_release_space, E. unfold k1. by autorewrite with dv. Qed.
Hint Rewrite dv_terminate : dv.
Lemma dv_terminate_to cpu st k : dv (sched_terminate_to cpu st k) = dv k.
Proof. unfold sched_terminate_to. dv_path. Qed.
Hint Rewrite dv_terminate_to : dv.
Lemma dv_terminate_any cpu v k : dv (sched_terminate cpu v k).2 = dv k.
Proof. unfold sched_terminate. dv_path. Qed.
Hint Rewrite dv_terminate_any : dv.
Lemma dv_cap_destroy cpu c s k : dv (cap_destroy cpu c s k).2 = dv k.
Proof. unfold cap_destroy. dv_path. Qed.
Hint Rewrite dv_cap_destroy : dv.
Lemma dv_exit cpu st k : dv (spawn_exit_current cpu st k) = dv k.
Proof. unfold spawn_exit_current. dv_path. Qed.
Hint Rewrite dv_exit : dv.
Lemma dv_wait c fl k : dv (spawn_wait_begin c fl k).2 = dv k.
Proof. unfold spawn_wait_begin. dv_path. Qed.
Hint Rewrite dv_wait : dv.
Lemma dv_sig_send cpu t s k : dv (sig_send cpu t s k).2 = dv k.
Proof. unfold sig_send. dv_path. Qed.
Hint Rewrite dv_sig_send : dv.

(** ** Programs *)
Lemma dv_parse c b k : dv (parse_image c b k).2 = dv k.
Proof. unfold parse_image. dv_path. Qed.
Hint Rewrite dv_parse : dv.
Lemma dv_create_as k : dv (vm_address_space_create k).2 = dv k.
Proof. unfold vm_address_space_create. dv_path. Qed.
Hint Rewrite dv_create_as : dv.
Lemma dv_clone_as a k : dv (vm_address_space_clone a k).2 = dv k.
Proof. unfold vm_address_space_clone. dv_path. Qed.
Hint Rewrite dv_clone_as : dv.
Lemma dv_load_req nm b p pg av ev n fd c k : dv (elf_load_and_spawn_req nm b p pg av ev n fd c k).2 = dv k.
Proof. unfold elf_load_and_spawn_req. dv_path. Qed.
Hint Rewrite dv_load_req : dv.
Lemma dv_exec_current cpu t b av ev n fd c k : dv (elf_exec_current cpu t b av ev n fd c k).2 = dv k.
Proof. unfold elf_exec_current. dv_path. Qed.
Hint Rewrite dv_exec_current : dv.
Lemma dv_spawn_request p b k : dv (spawn_request p b k).2 = dv k.
Proof. unfold spawn_request. dv_path. Qed.
Hint Rewrite dv_spawn_request : dv.
Lemma dv_inject t i p k : dv (inject_request t i p k) = dv k.
Proof. done. Qed.
Hint Rewrite dv_inject : dv.
Lemma dv_submit cpu t p k : dv (execreq_submit cpu t p k).2 = dv k.
Proof. unfold execreq_submit. dv_path. Qed.
Hint Rewrite dv_submit : dv.
Lemma dv_deliver_queued n k : dv (execreq_try_deliver_queued n k).2 = dv k.
Proof. unfold execreq_try_deliver_queued. dv_path. Qed.
Hint Rewrite dv_deliver_queued : dv.
Lemma dv_complete cpu s g st sh sz k : dv (execreq_complete cpu s g st sh sz k) = dv k.
Proof. unfold execreq_complete. dv_path. Qed.
Hint Rewrite dv_complete : dv.
Lemma dv_submit_execreq cpu c a b k : dv (submit_execreq cpu c a b k).2 = dv k.
Proof. unfold submit_execreq. dv_path. Qed.
Hint Rewrite dv_submit_execreq : dv.
Lemma dv_spawn_create cpu c v n k : dv (spawn_create cpu c v n k).2 = dv k.
Proof. unfold spawn_create. dv_path. Qed.
Hint Rewrite dv_spawn_create : dv.
Lemma dv_spawn_exec cpu c v n k : dv (spawn_exec cpu c v n k).2 = dv k.
Proof. unfold spawn_exec. dv_path. Qed.
Hint Rewrite dv_spawn_exec : dv.
Lemma dv_fork c k : dv (spawn_fork_create c k).2 = dv k.
Proof. unfold spawn_fork_create. dv_path. Qed.
Hint Rewrite dv_fork : dv.

(** ** Messages *)
Lemma dv_transfer fl s a b m k : dv (transfer fl s a b m k).2 = dv k.
Proof. unfold transfer. dv_path. Qed.
Hint Rewrite dv_transfer : dv.
Lemma dv_count k : dv (count_msg k) = dv k.
Proof. done. Qed.
Hint Rewrite dv_count : dv.
Lemma dv_deliver t fr m k : dv (deliver_to_frame t fr m k) = dv k.
Proof. done. Qed.
Hint Rewrite dv_deliver : dv.
Lemma dv_complete_sender cpu c s k : dv (complete_parked_sender cpu c s k) = dv k.
Proof. unfold complete_parked_sender. dv_path. Qed.
Hint Rewrite dv_complete_sender : dv.
Lemma dv_take_fault t k : dv (vm_take_queued_fault t k).2 = dv k.
Proof. unfold vm_take_queued_fault. dv_path. Qed.
Hint Rewrite dv_take_fault : dv.
Lemma dv_recv cpu fl sf c k : dv (sys_recv cpu fl sf c k) = dv k.
Proof. unfold sys_recv. dv_path. Qed.
Hint Rewrite dv_recv : dv.
Lemma dv_direct cpu fl sf w c d f k : dv (send_direct cpu fl sf w c d f k) = dv k.
Proof. unfold send_direct. dv_path. Qed.
Hint Rewrite dv_direct : dv.
Lemma dv_parked cpu fl sf d w c t f k : dv (send_parked cpu fl sf d w c t f k) = dv k.
Proof. done. Qed.
Hint Rewrite dv_parked : dv.

(** ** Calls open to every thread *)
Lemma dv_fg vt v k : dv (set_grants (fun g => g <| console_fg_pgid := <[vt := v]> (console_fg_pgid g) |>) k) = dv k.
Proof. done. Qed.
Hint Rewrite dv_fg : dv.
Lemma dv_sys_retype c f k : dv (sys_retype c f k) = dv k.
Proof. unfold sys_retype. dv_path. Qed.
Lemma dv_sys_destroy cpu c f k : dv (sys_destroy cpu c f k) = dv k.
Proof. unfold sys_destroy. dv_path. Qed.
Lemma dv_sys_notify_signal cpu c f k : dv (sys_notify_signal cpu c f k) = dv k.
Proof. unfold sys_notify_signal. dv_path. Qed.
Lemma dv_sys_notify_wait cpu c f k : dv (sys_notify_wait cpu c f k) = dv k.
Proof. unfold sys_notify_wait. dv_path. Qed.
Lemma dv_sys_notify_poll c f k : dv (sys_notify_poll c f k) = dv k.
Proof. unfold sys_notify_poll. dv_path. Qed.
Lemma dv_sys_timer_arm c f k : dv (sys_timer_arm c f k) = dv k.
Proof. unfold sys_timer_arm. dv_path. Qed.
Lemma dv_sys_timer_disarm c f k : dv (sys_timer_disarm c f k) = dv k.
Proof. unfold sys_timer_disarm. dv_path. Qed.
Lemma dv_sys_revoke_frame cpu c f k : dv (sys_revoke_frame cpu c f k) = dv k.
Proof. unfold sys_revoke_frame. dv_path. Qed.
Lemma dv_sys_exit cpu c f k : dv (sys_exit cpu c f k) = dv k.
Proof. unfold sys_exit. dv_path. Qed.
Lemma dv_sys_spawn cpu c f k : dv (sys_spawn cpu c f k) = dv k.
Proof. unfold sys_spawn. dv_path. Qed.
Lemma dv_sys_wait cpu fl c f k : dv (sys_wait cpu fl c f k) = dv k.
Proof. unfold sys_wait. dv_path. Qed.
Lemma dv_sys_fork c k : dv (sys_fork c k) = dv k.
Proof. unfold sys_fork. dv_path. Qed.
Lemma dv_sys_exec cpu c f k : dv (sys_exec cpu c f k) = dv k.
Proof. unfold sys_exec. dv_path. Qed.
Lemma dv_sys_thread_info c f k : dv (sys_thread_info c f k) = dv k.
Proof. unfold sys_thread_info. dv_path. Qed.
Lemma dv_sys_pipe_create c k : dv (sys_pipe_create c k) = dv k.
Proof. unfold sys_pipe_create. dv_path. Qed.
Lemma dv_sys_pipe_read c f k : dv (sys_pipe_read c f k) = dv k.
Proof. unfold sys_pipe_read. dv_path. Qed.
Lemma dv_sys_pipe_write c f k : dv (sys_pipe_write c f k) = dv k.
Proof. unfold sys_pipe_write. dv_path. Qed.
Lemma dv_sys_pipe_close c f k : dv (sys_pipe_close c f k) = dv k.
Proof. unfold sys_pipe_close. dv_path. Qed.
Lemma dv_sys_mount c f k : dv (sys_mount c f k) = dv k.
Proof. unfold sys_mount. dv_path. Qed.
Lemma dv_sys_bootfs c f k : dv (sys_bootfs c f k) = dv k.
Proof. unfold sys_bootfs. dv_path. Qed.
Lemma dv_sys_resolve_fault c f k : dv (sys_resolve_fault c f k) = dv k.
Proof. unfold sys_resolve_fault. dv_path. Qed.
Lemma dv_sys_set_fsbase cpu c f k : dv (sys_set_fsbase cpu c f k) = dv k.
Proof. unfold sys_set_fsbase. dv_path. Qed.
Lemma dv_info_stats c f k : dv (info_stats c f k) = dv k.
Proof. unfold info_stats. dv_path. Qed.
Lemma dv_info_sigaction c f k : dv (info_sigaction c f k) = dv k.
Proof. unfold info_sigaction. dv_path. Qed.
Lemma dv_info_kill cpu c f k : dv (info_kill cpu c f k) = dv k.
Proof. unfold info_kill. dv_path. Qed.
Lemma dv_info_sigprocmask c f k : dv (info_sigprocmask c f k) = dv k.
Proof. unfold info_sigprocmask. dv_path. Qed.
Lemma dv_info_sigreturn c k : dv (info_sigreturn c k) = dv k.
Proof. unfold info_sigreturn. dv_path. Qed.
Lemma dv_info_console_mode c f k : dv (info_console_mode c f k) = dv k.
Proof. unfold info_console_mode. dv_path. Qed.
Lemma dv_info_setpgid c f k : dv (info_setpgid c f k) = dv k.
Proof. unfold info_setpgid. dv_path. Qed.
Lemma dv_info_getpgid c f k : dv (info_getpgid c f k) = dv k.
Proof. unfold info_getpgid. dv_path. Qed.
Lemma dv_info_setsid c k : dv (info_setsid c k) = dv k.
Proof. unfold info_setsid. dv_path. Qed.
Lemma dv_info_tcpgrp b c f k : dv (info_tcpgrp b c f k) = dv k.
Proof. unfold info_tcpgrp. dv_path. Qed.
Lemma dv_info_fb_map c k : dv (info_fb_map c k) = dv k.
Proof. unfold info_fb_map. dv_path. Qed.
Lemma dv_info_dma_alloc c f k : dv (info_dma_alloc c f k) = dv k.
Proof. unfold info_dma_alloc. dv_path. Qed.
Lemma dv_info_mmio_map c f k : dv (info_mmio_map c f k) = dv k.
Proof. unfold info_mmio_map. dv_path. Qed.
Lemma dv_info_shm_get c f k : dv (info_shm_get c f k) = dv k.
Proof. unfold info_shm_get. dv_path. Qed.
Lemma dv_info_shm_at c f k : dv (info_shm_at c f k) = dv k.
Proof. unfold info_shm_at. dv_path. Qed.
Lemma dv_info_shm_dt c f k : dv (info_shm_dt c f k) = dv k.
Proof. unfold info_shm_dt. dv_path. Qed.
Lemma dv_info_shm_ctl c f k : dv (info_shm_ctl c f k) = dv k.
Proof. unfold info_shm_ctl. dv_path. Qed.
Lemma dv_info_sock_create c k : dv (info_sock_create c k) = dv k.
Proof. unfold info_sock_create. dv_path. Qed.
Lemma dv_info_sock_bind c f k : dv (info_sock_bind c f k) = dv k.
Proof. unfold info_sock_bind. dv_path. Qed.
Lemma dv_info_sock_listen c f k : dv (info_sock_listen c f k) = dv k.
Proof. unfold info_sock_listen. dv_path. Qed.
Lemma dv_info_sock_connect c f k : dv (info_sock_connect c f k) = dv k.
Proof. unfold info_sock_connect. dv_path. Qed.
Lemma dv_info_sock_accept c f k : dv (info_sock_accept c f k) = dv k.
Proof. unfold info_sock_accept. dv_path. Qed.
Lemma dv_info_sock_read c f k : dv (info_sock_read c f k) = dv k.
Proof. unfold info_sock_read. dv_path. Qed.
Lemma dv_info_sock_write c f k : dv (info_sock_write c f k) = dv k.
Proof. unfold info_sock_write. dv_path. Qed.
Lemma dv_info_sock_close c f k : dv (info_sock_close c f k) = dv k.
Proof. unfold info_sock_close. dv_path. Qed.
Lemma dv_info_execreq_reply cpu c f k : dv (info_execreq_reply cpu c f k) = dv k.
Proof. unfold info_execreq_reply. dv_path. Qed.
Lemma dv_info_block c f k : dv (info_block c f k) = dv k.
Proof. unfold info_block. dv_path. Qed.
Hint Rewrite dv_sys_retype dv_sys_destroy dv_sys_notify_signal dv_sys_notify_wait dv_sys_notify_poll dv_sys_timer_arm dv_sys_timer_disarm dv_sys_revoke_frame dv_sys_exit dv_sys_spawn dv_sys_wait dv_sys_fork dv_sys_exec dv_sys_thread_info dv_sys_pipe_create dv_sys_pipe_read dv_sys_pipe_write dv_sys_pipe_close dv_sys_mount dv_sys_bootfs dv_sys_resolve_fault dv_sys_set_fsbase dv_info_stats dv_info_sigaction dv_info_kill dv_info_sigprocmask dv_info_sigreturn dv_info_console_mode dv_info_setpgid dv_info_getpgid dv_info_setsid dv_info_tcpgrp dv_info_fb_map dv_info_dma_alloc dv_info_mmio_map dv_info_shm_get dv_info_shm_at dv_info_shm_dt dv_info_shm_ctl dv_info_sock_create dv_info_sock_bind dv_info_sock_listen dv_info_sock_connect dv_info_sock_accept dv_info_sock_read dv_info_sock_write dv_info_sock_close dv_info_execreq_reply dv_info_block : dv.

(** ** Calls reserved to drivers *)

(** The thread holds no grant for hardware. *)
Definition unprivileged (tid : Z) k : Prop :=
  tid <> console_writer_tid (k_grants k) /\ tid <> console_driver_tid (k_grants k) /\
  hw_driver_allows tid k = false /\ hw_port_io_secondary_allows tid k = false /\ tid <> pci_cfg_secondary_tid (k_grants k).
(** A request for random numbers, a reboot, a halt or a shutdown. *)
Definition machine_request (f : arch_uctx_t) : bool :=
  has (u32 (rdx f)) IPC_FLAG_SYS_INFO && bool_decide (r8 f ∈ [2; 3; 4; SYS_INFO_CAT_GETENTROPY]).

Lemma driver_refused c k run : unprivileged (t_tid (kthr c k)) k -> dv (driver_only c k run) = dv k.
Proof. intros (_ & Hd & _). unfold driver_only. by replace (_ =? _) with false by lia. Qed.

Lemma console_refused cpu c f k :
  unprivileged (t_tid (kthr c k)) k ->
  dv (sys_console_write c f k) = dv k /\ dv (sys_console_read cpu c f k) = dv k /\ dv (info_mouse_read c k) = dv k.
Proof.
  intros (Hw & Hd & _). unfold sys_console_write, sys_console_read, info_mouse_read. cbv zeta.
  replace (_ =? console_writer_tid _) with false by lia. by replace (_ =? console_driver_tid _) with false by lia.
Qed.

Lemma hardware_refused c f k :
  unprivileged (t_tid (kthr c k)) k ->
  dv (info_pci_cfg c f k) = dv k /\ dv (info_hw_port_io c f k) = dv k /\ dv (info_bulk_read c f k) = dv k /\
  dv (info_bulk_write c f k) = dv k.
Proof.
  intros (_ & _ & Hh & Hp & Hc). unfold info_pci_cfg, info_hw_port_io, info_bulk_read, info_bulk_write, port_io_allows. cbv zeta.
  rewrite Hh, Hp. by replace (_ =? pci_cfg_secondary_tid _) with false by lia.
Qed.

Lemma info_isolated cpu c f k :
  unprivileged (t_tid (kthr c k)) k -> r8 f ∉ [2; 3; 4; SYS_INFO_CAT_GETENTROPY] -> dv (sys_info cpu c f k) = dv k.
Proof.
  intros Hu Hr. destruct (hardware_refused c f k Hu) as (H1 & H2 & H3 & H4).
  destruct (console_refused cpu c f k Hu) as (_ & _ & H5). pose proof (fun run => driver_refused c k run Hu) as H6.
  unfold sys_info. cbv zeta. rewrite !list.not_elem_of_cons in Hr. destruct Hr as (R2 & R3 & R4 & Re & _).
  replace (r8 f =? 2) with false by lia. replace (r8 f =? 3) with false by lia. replace (r8 f =? 4) with false by lia.
  replace (r8 f =? SYS_INFO_CAT_GETENTROPY) with false by lia.
  repeat (match goal with |- dv (if ?b then _ else _) = _ => destruct b end; [by first [apply H6 | autorewrite with dv]|]).
  by autorewrite with dv.
Qed.

End privilege.

(** Thread 7 asks for a device port without any grant. *)
Definition demo_intruder : kstate unit :=
  demo_kstate <| k_sched ::= fun s =>
    (upd (Thr 7) (fun b => b <| t_tid := 7 |>
       <| t_uctx ::= fun u => u <| rdx := IPC_FLAG_SYS_INFO |> <| r8 := SYS_INFO_CAT_HW_PORT_IO |> |>) s)
      <| current := <[0 := Some (Thr 7)]> (current s) |> |>.
Definition demo_no_devices : Ports unit := Build_Ports unit (fun _ _ d => (0, d)) (fun _ _ _ d => d) (fun d => (0, false, d)).

