(* ===== verification/Ext2Journal.v ===== *)
(** * The ext2 file server: block device, buffers and journal

    [src/src/servers/fs/ext2/journal.c] and the parts of [disk.c] it uses.
    Metadata writes of one operation are collected in memory and reach their
    place on disk through a journal file, so that a power failure leaves all of
    them or none.

    The driver below ([block.c]) is an interface: sectors are read, written and
    flushed, every call may fail, and the power may go in any call.  The calls
    of the server run in a monad over its static variables; [Lost] is the end of
    the run by a power failure. *)
From Stdlib Require Import ZArith Lia.
From stdpp Require Import base numbers sets list list_numbers functions.
From S2P Require Import Prelude.

(** ** Results *)
Inductive res (A : Type) := Ret (a : A) | Lost.
Arguments Ret {A} a.
Arguments Lost {A}.
#[export] Instance res_eq_dec `{EqDecision A} : EqDecision (res A).
Proof. solve_decision. Defined.

(** ** The block driver ([block.h]) *)
Class Blockdev (D : Type) := {
  blkdev_read : Z -> Z -> D -> res (Z * list Z) * D;
  blkdev_write : Z -> Z -> list Z -> D -> res Z * D;
  blkdev_flush : D -> res Z * D;
  (** What reads return, sector by sector. *)
  content : D -> Z -> list Z;
  (** What may be found on the medium after a power failure. *)
  image : D -> (Z -> list Z) -> Prop;
  (** No call fails any more and the power stays. *)
  healthy : D -> Prop
}.

(** Sector [i] of a buffer. *)
Definition sector_of (buf : list Z) (i : Z) : list Z := take 512 (drop (Z.to_nat (512 * i)) buf).

(** What the server relies on: reads change nothing and return the content; a
    write that succeeds changes the content of its sectors, and any write may or
    may not have reached the medium, sector by sector; a flush that succeeds
    puts the content on the medium; a healthy drive does what it is told. *)
Class BlockdevLaws (D : Type) `{!Blockdev D} := {
  read_law s n (d : D) :
    let '(r, d') := blkdev_read s n d in
    (forall x, content d' x = content d x) /\ (forall f, image d' f -> image d f) /\
    (forall l, r = Ret (0, l) -> l = mjoin (content d <$> seqZ s n)) /\
    (healthy d -> healthy d' /\ exists l, r = Ret (0, l));
  write_law s n (buf : list Z) (d : D) :
    Z.of_nat (length buf) = 512 * n ->
    let '(r, d') := blkdev_write s n buf d in
    (forall f, image d' f -> exists f0, image d f0 /\
      forall x, f x = f0 x \/ (s <= x < s + n /\ f x = sector_of buf (x - s))) /\
    (r = Ret 0 -> forall x, content d' x = if (s <=? x) && (x <? s + n) then sector_of buf (x - s) else content d x) /\
    (healthy d -> healthy d' /\ r = Ret 0);
  flush_law (d : D) :
    let '(r, d') := blkdev_flush d in
    (forall x, content d' x = content d x) /\ (forall f, image d' f -> image d f) /\
    (r = Ret 0 -> forall f, image d' f -> forall x, f x = content d x) /\
    (healthy d -> healthy d' /\ r = Ret 0)
}.

(** ** Buffers ([disk.c]) *)
Definition at_ (buf : list Z) (i : Z) : Z := nth (Z.to_nat i) buf 0.
Definition put (i v : Z) (buf : list Z) : list Z := <[Z.to_nat i := v]> buf.
(** [for (i = 0; i < n; i++) buf[off + i] = src[i]] *)
Definition blit (off : Z) (src buf : list Z) : list Z := list_inserts (Z.to_nat off) src buf.
Definition zeros (n : Z) : list Z := replicate (Z.to_nat n) 0.

Definition u32_get (buf : list Z) (off : Z) : Z :=
  Z.lor (Z.lor (Z.lor (at_ buf off) (Z.shiftl (at_ buf (off + 1)) 8)) (Z.shiftl (at_ buf (off + 2)) 16))
    (Z.shiftl (at_ buf (off + 3)) 24).
Definition u32_set (off v : Z) (buf : list Z) : list Z :=
  put (off + 3) (u8 (Z.shiftr v 24)) (put (off + 2) (u8 (Z.shiftr v 16))
    (put (off + 1) (u8 (Z.shiftr v 8)) (put off (u8 v) buf))).
Definition u16_get (buf : list Z) (off : Z) : Z := Z.lor (at_ buf off) (Z.shiftl (at_ buf (off + 1)) 8).
Definition u16_set (off v : Z) (buf : list Z) : list Z := put (off + 1) (u8 (Z.shiftr v 8)) (put off (u8 v) buf).

(** ** The server's variables ([disk.c], [journal.c]) *)
Notation EXT2FS_MAX_BLOCKS := 4096 (only parsing).
Notation EXT2FS_JOURNAL_SECTORS := 2048 (only parsing).
Notation EXT2FS_JOURNAL_RECORDS := 64 (only parsing).
Notation EXT2FS_ROOT_INODE := 2 (only parsing).

Notation journal_record_t := (Z * list Z)%type (only parsing).
(** The journal's blocks and records are the used parts of their arrays. *)
Record ext2 (D : Type) := mk_ext2 {
  e_dev : D;
  g_sb : list Z;
  g_block_size : Z;
  g_sectors_per_block : Z;
  g_blocks_count : Z;
  g_inodes_count : Z;
  g_blocks_per_group : Z;
  g_inodes_per_group : Z;
  g_first_data_block : Z;
  g_inode_size : Z;
  g_num_groups : Z;
  g_gdt_start_byte : Z;
  g_dirent_file_type : bool;
  g_alloc_cursor : Z * Z;
  g_alloc_inode_cursor : Z * Z;
  g_journal_blocks : list Z;
  g_journal_ready : bool;
  g_journal_active : bool;
  g_journal_faulted : bool;
  g_journal_sequence : Z;
  g_journal_sb_snapshot : list Z;
  g_journal_records : list journal_record_t
}.
Arguments mk_ext2 {D}.
Arguments e_dev {D}.
Arguments g_sb {D}.
Arguments g_block_size {D}.
Arguments g_sectors_per_block {D}.
Arguments g_blocks_count {D}.
Arguments g_inodes_count {D}.
Arguments g_blocks_per_group {D}.
Arguments g_inodes_per_group {D}.
Arguments g_first_data_block {D}.
Arguments g_inode_size {D}.
Arguments g_num_groups {D}.
Arguments g_gdt_start_byte {D}.
Arguments g_dirent_file_type {D}.
Arguments g_alloc_cursor {D}.
Arguments g_alloc_inode_cursor {D}.
Arguments g_journal_blocks {D}.
Arguments g_journal_ready {D}.
Arguments g_journal_active {D}.
Arguments g_journal_faulted {D}.
Arguments g_journal_sequence {D}.
Arguments g_journal_sb_snapshot {D}.
Arguments g_journal_records {D}.
#[export] Instance eta_ext2 {D} : Eta (ext2 D) := fun e =>
  mk_ext2 (e_dev e) (g_sb e) (g_block_size e) (g_sectors_per_block e) (g_blocks_count e) (g_inodes_count e) (g_blocks_per_group e) (g_inodes_per_group e) (g_first_data_block e) (g_inode_size e) (g_num_groups e) (g_gdt_start_byte e) (g_dirent_file_type e) (g_alloc_cursor e) (g_alloc_inode_cursor e) (g_journal_blocks e) (g_journal_ready e) (g_journal_active e) (g_journal_faulted e) (g_journal_sequence e) (g_journal_sb_snapshot e) (g_journal_records e).

(** ** The monad *)
Definition M (D A : Type) : Type := ext2 D -> res A * ext2 D.
#[export] Instance M_ret {D} : MRet (M D) := fun _ a e => (Ret a, e).
#[export] Instance M_bind {D} : MBind (M D) := fun _ _ g m e =>
  match m e with (Ret a, e) => g a e | (Lost, e) => (Lost, e) end.
(** [if (op != 0) return -1;] *)
Notation "'try' op ; k" := (mbind (fun rc => if negb (rc =? 0) then mret (-1) else k) op)
  (at level 20, op at level 100, k at level 200, right associativity, only parsing) : robu_scope.

Section journal.
Context {D : Type} `{!Blockdev D}.
Implicit Types e : ext2 D.

Definition get {A} (g : ext2 D -> A) : M D A := fun e => (Ret (g e), e).
Definition modify (g : ext2 D -> ext2 D) : M D unit := fun e => (Ret tt, g e).
Definition on_dev {A} (op : D -> res A * D) : M D A := fun e =>
  let '(r, d) := op (e_dev e) in (r, e <| e_dev := d |>).
(** [for (i = 0; i < n; i++) if (body(i) != 0) return -1;] *)
Fixpoint loop (n : nat) (i : Z) (body : Z -> M D Z) : M D Z :=
  match n with
  | O => mret 0
  | S n => try body i; loop n (i + 1) body
  end.

Notation JOURNAL_STATE_PREPARED := 1 (only parsing).
Notation JOURNAL_STATE_COMMITTED := 2 (only parsing).
Notation JOURNAL_HEADER_SECTOR := 0 (only parsing).
Notation JOURNAL_DESCRIPTOR_SECTOR := 1 (only parsing).
Notation JOURNAL_PAYLOAD_SECTOR := 3 (only parsing).
Notation JOURNAL_HEADER_CHECKSUM_OFF := 24 (only parsing).
Notation JOURNAL_DESCRIPTOR_CHECKSUM_OFF := 28 (only parsing).
(** "RBJNL001" *)
Definition journal_magic : list Z := [82; 66; 74; 78; 76; 48; 48; 49].

Definition journal_checksum (data : list Z) : Z :=
  foldl (fun value b => u32 (Z.lxor value b * 16777619)) 2166136261 data.
Definition journal_is_zero (data : list Z) : bool := forallb (fun b => b =? 0) data.
Definition journal_storage_sector (sector : Z) e : bool :=
  bool_decide (u32 (sector / g_sectors_per_block e) ∈ g_journal_blocks e).
Definition journal_map_sector (sector : Z) e : option Z :=
  let block_index := sector / g_sectors_per_block e in
  let sector_index := sector mod g_sectors_per_block e in
  match g_journal_blocks e !! Z.to_nat block_index with
  | None => None
  | Some b => if b =? 0 then None else Some (b * g_sectors_per_block e + sector_index)
  end.

Definition journal_disk_read (sector : Z) : M D (Z * list Z) :=
  m ← get (journal_map_sector sector);
  match m with None => mret (-1, []) | Some mapped => on_dev (blkdev_read mapped 1) end.
Definition journal_disk_write (sector : Z) (data : list Z) : M D Z :=
  m ← get (journal_map_sector sector);
  match m with None => mret (-1) | Some mapped => on_dev (blkdev_write mapped 1 data) end.

Definition journal_make_header (state count sequence : Z) : list Z :=
  u32_set 20 (u32 sequence) (u32_set 16 count (u32_set 12 state (u32_set 8 1 (blit 0 journal_magic (zeros 512))))).
Definition journal_header_valid (header : list Z) : bool :=
  bool_decide (take 8 header = journal_magic) && (u32_get header 8 =? 1).

Definition journal_clear : M D Z :=
  try journal_disk_write JOURNAL_HEADER_SECTOR (zeros 512);
  on_dev blkdev_flush.

(** The descriptor of record [i]: its sector in 8 bytes and the checksum of its data. *)
Definition put_descriptor (i : Z) (r : journal_record_t) (buf : list Z) : list Z :=
  u32_set (i * 16 + 8) (journal_checksum r.2)
    (blit (i * 16) ((fun b => u8 (Z.shiftr r.1 (8 * b))) <$> seqZ 0 8) buf).
Definition journal_descriptors (recs : list journal_record_t) : list Z :=
  foldl (fun buf '(i, r) => put_descriptor (Z.of_nat i) r buf) (zeros 1024) (imap pair recs).
Definition journal_write_descriptors : M D Z :=
  recs ← get g_journal_records;
  let descriptors := journal_descriptors recs in
  loop 2 0 (fun i => journal_disk_write (JOURNAL_DESCRIPTOR_SECTOR + i) (sector_of descriptors i)).
Definition journal_write_payloads : M D Z :=
  recs ← get g_journal_records;
  loop (length recs) 0 (fun i => journal_disk_write (JOURNAL_PAYLOAD_SECTOR + i) (nth (Z.to_nat i) recs (0, [])).2).

(** Both descriptor sectors. *)
Definition read_descriptors : M D (Z * list Z) :=
  '(rc, a) ← journal_disk_read JOURNAL_DESCRIPTOR_SECTOR;
  if negb (rc =? 0) then mret (-1, []) else
  '(rc, b) ← journal_disk_read (JOURNAL_DESCRIPTOR_SECTOR + 1);
  if negb (rc =? 0) then mret (-1, []) else mret (0, a ++ b).
Definition finish_header (header descriptors : list Z) : list Z :=
  let header := u32_set JOURNAL_DESCRIPTOR_CHECKSUM_OFF (journal_checksum descriptors) header in
  let header := u32_set JOURNAL_HEADER_CHECKSUM_OFF 0 header in
  u32_set JOURNAL_HEADER_CHECKSUM_OFF (journal_checksum header) header.
Definition journal_write_header (state : Z) : M D Z :=
  header ← get (fun e => journal_make_header state (Z.of_nat (length (g_journal_records e))) (g_journal_sequence e));
  '(rc, descriptors) ← read_descriptors;
  if negb (rc =? 0) then mret (-1) else
  journal_disk_write JOURNAL_HEADER_SECTOR (finish_header header descriptors).

(** The sector of descriptor [i]. *)
Definition descriptor_sector (descriptors : list Z) (i : Z) : Z :=
  foldl (fun s b => Z.lor s (Z.shiftl (at_ descriptors (i * 16 + b)) (8 * b))) 0 (seqZ 0 8).
Definition replay_record (descriptors : list Z) (i : Z) : M D Z :=
  let sector := descriptor_sector descriptors i in
  bad ← get (fun e => (sector >=? g_blocks_count e * g_sectors_per_block e) || journal_storage_sector sector e);
  if (bad : bool) then mret (-1) else
  '(rc, payload) ← journal_disk_read (JOURNAL_PAYLOAD_SECTOR + i);
  if negb (rc =? 0) || negb (u32_get descriptors (i * 16 + 8) =? journal_checksum payload) then mret (-1) else
  on_dev (blkdev_write sector 1 payload).
Definition journal_replay : M D Z :=
  '(rc, header) ← journal_disk_read JOURNAL_HEADER_SECTOR;
  if negb (rc =? 0) then mret (-1)
  else if journal_is_zero header then mret 0
  else if negb (journal_header_valid header) then mret (-1)
  else
    let saved := u32_get header JOURNAL_HEADER_CHECKSUM_OFF in
    let header := u32_set JOURNAL_HEADER_CHECKSUM_OFF 0 header in
    if negb (saved =? journal_checksum header) then mret (-1)
    else
      let state := u32_get header 12 in
      let count := u32_get header 16 in
      if (negb (state =? JOURNAL_STATE_PREPARED) && negb (state =? JOURNAL_STATE_COMMITTED)) ||
         (count >? EXT2FS_JOURNAL_RECORDS) then mret (-1)
      else
        '(rc, descriptors) ← read_descriptors;
        if negb (rc =? 0) then mret (-1)
        else if negb (u32_get header JOURNAL_DESCRIPTOR_CHECKSUM_OFF =? journal_checksum descriptors) then mret (-1)
        else if state =? JOURNAL_STATE_PREPARED then journal_clear
        else
          try loop (Z.to_nat count) 0 (replay_record descriptors);
          try on_dev blkdev_flush;
          journal_clear.

Definition journal_begin : M D Z :=
  e ← get id;
  if negb (g_journal_ready e) || g_journal_active e || g_journal_faulted e then mret (-1) else
  modify (fun e => e <| g_journal_sb_snapshot := g_sb e |> <| g_journal_records := [] |> <| g_journal_active := true |>);;
  mret 0.
Definition journal_abort : M D unit :=
  active ← get g_journal_active;
  if negb active then mret tt else
  modify (fun e => e <| g_sb := g_journal_sb_snapshot e |> <| g_journal_records := [] |> <| g_journal_active := false |>).

(** [g_journal_active = 0; g_journal_faulted = 1; return -1;] *)
Definition journal_fault : M D Z :=
  modify (fun e => e <| g_journal_active := false |> <| g_journal_faulted := true |>);; mret (-1).
(** The journal is written: descriptors, payloads, a header that does not count yet. *)
Definition commit_prepare : M D Z :=
  try journal_write_descriptors;
  try journal_write_payloads;
  try journal_write_header JOURNAL_STATE_PREPARED;
  on_dev blkdev_flush.
(** The header counts. *)
Definition commit_mark : M D Z :=
  try journal_write_header JOURNAL_STATE_COMMITTED;
  on_dev blkdev_flush.
(** The records go to their place, and the journal is emptied. *)
Definition commit_home : M D Z :=
  recs ← get g_journal_records;
  try loop (length recs) 0 (fun i => let r := nth (Z.to_nat i) recs (0, []) in on_dev (blkdev_write r.1 1 r.2));
  try on_dev blkdev_flush;
  journal_clear.
Definition journal_commit : M D Z :=
  e ← get id;
  if negb (g_journal_active e) then mret (-1)
  else if bool_decide (g_journal_records e = []) then modify (fun e => e <| g_journal_active := false |>);; mret 0
  else
    modify (fun e => e <| g_journal_sequence ::= fun n => u64 (n + 1) |>);;
    rc ← commit_prepare;
    if negb (rc =? 0) then journal_abort;; mret (-1) else
    rc ← commit_mark;
    if negb (rc =? 0) then journal_fault else
    rc ← commit_home;
    if negb (rc =? 0) then journal_fault else
    modify (fun e => e <| g_journal_records := [] |> <| g_journal_active := false |>);; mret 0.
Definition journal_finish (result : Z) : M D Z :=
  if negb (result =? 0) then journal_abort;; mret (-1) else journal_commit.

(** The records over what was read from sector [sector] on. *)
Definition overlay_records (sector count : Z) (recs : list journal_record_t) (bytes : list Z) : list Z :=
  foldl (fun bytes r =>
    if (r.1 <? sector) || (r.1 >=? sector + count) then bytes
    else blit ((r.1 - sector) * 512) r.2 bytes) bytes recs.
Definition journal_metadata_read (sector count : Z) : M D (Z * list Z) :=
  '(rc, bytes) ← on_dev (blkdev_read sector count);
  if negb (rc =? 0) then mret (-1, []) else
  e ← get id;
  if negb (g_journal_active e) then mret (0, bytes) else
  mret (0, overlay_records sector count (g_journal_records e) bytes).
(** The record of sector [target]; [None] when it is new and all records are in use. *)
Definition record_put (target : Z) (data : list Z) (recs : list journal_record_t) : option (list journal_record_t) :=
  match list_find (fun r => r.1 = target) recs with
  | Some (i, _) => Some (<[i := (target, data)]> recs)
  | None =>
    if Z.of_nat (length recs) =? EXT2FS_JOURNAL_RECORDS then None else Some (recs ++ [(target, data)])
  end.
Definition put_sector (sector : Z) (bytes : list Z) (s : Z) : M D Z :=
  let target := sector + s in
  e ← get id;
  if journal_storage_sector target e then mret (-1) else
  match record_put target (sector_of bytes s) (g_journal_records e) with
  | None => mret (-1)
  | Some recs => modify (fun e => e <| g_journal_records := recs |>);; mret 0
  end.
Definition journal_metadata_write (sector count : Z) (bytes : list Z) : M D Z :=
  active ← get g_journal_active;
  if negb active then on_dev (blkdev_write sector count bytes) else
  loop (Z.to_nat count) 0 (put_sector sector bytes).
Definition journal_is_active : M D bool := get g_journal_active.
End journal.

(** ".robu-journal" *)
Definition EXT2FS_JOURNAL_FILE_NAME : list Z := [46; 114; 111; 98; 117; 45; 106; 111; 117; 114; 110; 97; 108].
Definition journal_is_reserved_name (name : list Z) (name_len : Z) : bool :=
  (name_len =? 13) && bool_decide (take 13 name = EXT2FS_JOURNAL_FILE_NAME).

(** ** Buffers: what was set is what is got *)
Lemma at_lookup buf j : at_ buf j = default 0 (buf !! Z.to_nat j).
Proof. unfold at_. by rewrite nth_lookup. Qed.
Lemma put_length i v buf : length (put i v buf) = length buf.
Proof. apply length_insert. Qed.
Lemma blit_length off src buf : length (blit off src buf) = length buf.
Proof. apply length_inserts. Qed.
Lemma u32_set_length off v buf : length (u32_set off v buf) = length buf.
Proof. unfold u32_set. by rewrite !put_length. Qed.
Lemma zeros_length n : 0 <= n -> Z.of_nat (length (zeros n)) = n.
Proof. unfold zeros. rewrite length_replicate. lia. Qed.

Lemma at_put i v buf j :
  0 <= i < Z.of_nat (length buf) -> 0 <= j -> at_ (put i v buf) j = if i =? j then v else at_ buf j.
Proof.
  intros Hi Hj. rewrite !at_lookup. unfold put. destruct (Z.eqb_spec i j) as [->|Hne].
  - rewrite list_lookup_insert_eq; [done|lia].
  - rewrite list_lookup_insert_ne; [done|lia].
Qed.
Lemma at_blit off src buf j :
  0 <= off -> off + Z.of_nat (length src) <= Z.of_nat (length buf) -> 0 <= j ->
  at_ (blit off src buf) j =
    if (off <=? j) && (j <? off + Z.of_nat (length src)) then at_ src (j - off) else at_ buf j.
Proof.
  intros Ho Hl Hj. rewrite !at_lookup. unfold blit.
  destruct (Z.leb_spec off j), (Z.ltb_spec j (off + Z.of_nat (length src))); cbn [andb].
  - rewrite list_lookup_inserts by lia. do 2 f_equal. lia.
  - rewrite list_lookup_inserts_ge by lia. done.
  - rewrite list_lookup_inserts_lt by lia. done.
  - lia.
Qed.
Lemma take_u32_set n off v buf : Z.of_nat n <= off -> take n (u32_set off v buf) = take n buf.
Proof. intros Hn. unfold u32_set, put. by rewrite !take_insert_ge by lia. Qed.

Lemma testbit_u8 x j : 0 <= j -> Z.testbit (u8 x) j = (j <? 8) && Z.testbit x j.
Proof.
  intros Hj. unfold u8. destruct (Z.ltb_spec j 8); cbn [andb].
  - by rewrite Z.mod_pow2_bits_low by lia.
  - by rewrite Z.mod_pow2_bits_high by lia.
Qed.
(** A word put together from its bytes. *)
Lemma bytes_of_u32 v : 0 <= v < 2 ^ 32 ->
  Z.lor (Z.lor (Z.lor (u8 v) (Z.shiftl (u8 (Z.shiftr v 8)) 8)) (Z.shiftl (u8 (Z.shiftr v 16)) 16))
    (Z.shiftl (u8 (Z.shiftr v 24)) 24) = v.
Proof.
  intros Hv. apply Z.bits_inj'. intros j Hj. rewrite !Z.lor_spec, !Z.shiftl_spec, testbit_u8 by lia.
  assert (Hb : forall k, 0 <= k -> Z.testbit (u8 (Z.shiftr v k)) (j - k) = (k <=? j) && (j <? k + 8) && Z.testbit v j).
  { intros k Hk. destruct (Z.leb_spec k j); cbn [andb]; [|by rewrite Z.testbit_neg_r by lia].
    rewrite testbit_u8, Z.shiftr_spec by lia. replace (j - k + k) with j by lia.
    f_equal. destruct (Z.ltb_spec (j - k) 8), (Z.ltb_spec j (k + 8)); lia. }
  rewrite !Hb by lia. destruct (decide (32 <= j)).
  - rewrite (testbit_high v 32) by lia. by rewrite !andb_false_r.
  - destruct (Z.testbit v j); [|by rewrite !andb_false_r]. rewrite !andb_true_r.
    destruct (Z.ltb_spec j 8), (Z.leb_spec 8 j), (Z.ltb_spec j (8 + 8)), (Z.leb_spec 16 j),
      (Z.ltb_spec j (16 + 8)), (Z.leb_spec 24 j), (Z.ltb_spec j (24 + 8)); cbn; lia.
Qed.
Lemma u32_get_at a b off off' :
  (forall k, 0 <= k < 4 -> at_ a (off + k) = at_ b (off' + k)) -> u32_get a off = u32_get b off'.
Proof.
  intros Hk. unfold u32_get. rewrite (Hk 1), (Hk 2), (Hk 3) by lia.
  specialize (Hk 0). rewrite !Z.add_0_r in Hk. by rewrite Hk by lia.
Qed.
Lemma u32_get_set off v buf :
  0 <= off -> off + 4 <= Z.of_nat (length buf) -> 0 <= v < 2 ^ 32 -> u32_get (u32_set off v buf) off = v.
Proof.
  intros Ho Hl Hv. unfold u32_get, u32_set. rewrite !at_put by (rewrite ?put_length; lia).
  repeat match goal with |- context [?a =? ?b] => destruct (Z.eqb_spec a b); [lia|] ||
    (destruct (Z.eqb_spec a b); [|lia]) end.
  by apply bytes_of_u32.
Qed.
Lemma at_u32_set_ne off v buf j :
  0 <= off -> off + 4 <= Z.of_nat (length buf) -> 0 <= j -> (j < off \/ off + 4 <= j) ->
  at_ (u32_set off v buf) j = at_ buf j.
Proof.
  intros Ho Hl Hj Hd. unfold u32_set. rewrite !at_put by (rewrite ?put_length; lia).
  by repeat match goal with |- context [?a =? ?b] => destruct (Z.eqb_spec a b); [lia|] end.
Qed.
Lemma u32_get_set_ne off v buf off' :
  0 <= off -> off + 4 <= Z.of_nat (length buf) -> 0 <= off' -> (off' + 4 <= off \/ off + 4 <= off') ->
  u32_get (u32_set off v buf) off' = u32_get buf off'.
Proof. intros. apply u32_get_at. intros k Hk. apply at_u32_set_ne; lia. Qed.
Lemma at_ext (a b : list Z) :
  length a = length b -> (forall j, 0 <= j < Z.of_nat (length a) -> at_ a j = at_ b j) -> a = b.
Proof.
  intros Hl Hat. apply list_eq_same_length with (length a); [done|done|].
  intros i x y Hi Ha Hb. specialize (Hat (Z.of_nat i)). rewrite !at_lookup, !Nat2Z.id, Ha, Hb in Hat.
  apply Hat. lia.
Qed.
Lemma u32_set_set off v w buf :
  0 <= off -> off + 4 <= Z.of_nat (length buf) -> u32_set off v (u32_set off w buf) = u32_set off v buf.
Proof.
  intros Ho Hl. apply at_ext; [by rewrite !u32_set_length|]. rewrite !u32_set_length. intros j Hj.
  unfold u32_set. rewrite !at_put by (rewrite ?put_length; lia).
  repeat match goal with |- context [?a =? ?b] => destruct (Z.eqb_spec a b); [done|] end. done.
Qed.
Lemma journal_checksum_range data : 0 <= journal_checksum data < 2 ^ 32.
Proof.
  unfold journal_checksum. assert (0 <= 2166136261 < 2 ^ 32) as H0 by lia. revert H0.
  generalize 2166136261. induction data as [|b data IH]; intros v Hv; cbn [foldl]; [done|].
  apply IH, u32_range.
Qed.

(** ** Headers *)
Lemma make_header_length state count sequence : length (journal_make_header state count sequence) = 512%nat.
Proof. unfold journal_make_header. by rewrite !u32_set_length, blit_length. Qed.
Lemma finish_header_length header descriptors : length (finish_header header descriptors) = length header.
Proof. unfold finish_header. by rewrite !u32_set_length. Qed.
(** The header of a transaction, as [journal_write_header] leaves it. *)
Definition full_header (state count sequence : Z) (descriptors : list Z) : list Z :=
  finish_header (journal_make_header state count sequence) descriptors.
Lemma full_header_length state count sequence descriptors :
  length (full_header state count sequence descriptors) = 512%nat.
Proof. unfold full_header. by rewrite finish_header_length, make_header_length. Qed.

Lemma full_header_magic state count sequence descriptors :
  take 8 (full_header state count sequence descriptors) = journal_magic.
Proof.
  unfold full_header, finish_header, journal_make_header. rewrite !take_u32_set by (cbn; lia). reflexivity.
Qed.
Lemma full_header_nonzero state count sequence descriptors :
  journal_is_zero (full_header state count sequence descriptors) = false.
Proof.
  pose proof (full_header_magic state count sequence descriptors) as Hm.
  destruct (full_header _ _ _ _) as [|b l]; [done|]. cbn in Hm. injection Hm as -> _. done.
Qed.
(** The checks of [journal_replay] accept it, and find its fields. *)
Lemma full_header_fields state count sequence descriptors :
  0 <= state < 2 ^ 32 -> 0 <= count < 2 ^ 32 ->
  let header := full_header state count sequence descriptors in
  let unsigned := u32_set 24 0 header in
  journal_header_valid header = true /\
  u32_get header 24 = journal_checksum unsigned /\
  u32_get unsigned 12 = state /\ u32_get unsigned 16 = count /\
  u32_get unsigned 28 = journal_checksum descriptors.
Proof.
  intros Hs Hc. cbv zeta. pose proof (full_header_magic state count sequence descriptors) as Hm.
  pose proof (journal_checksum_range descriptors).
  unfold journal_header_valid. rewrite Hm. unfold full_header, finish_header, journal_make_header.
  assert (Hl : length (blit 0 journal_magic (zeros 512)) = 512%nat) by by rewrite blit_length.
  revert Hl. generalize (blit 0 journal_magic (zeros 512)). clear Hm. intros buf Hl.
  rewrite !u32_set_set by (rewrite ?u32_set_length, ?Hl; lia).
  repeat split.
  - rewrite bool_decide_eq_true_2 by done. cbn [andb]. apply Z.eqb_eq.
    rewrite !u32_get_set_ne by (rewrite ?u32_set_length, ?Hl; lia).
    apply u32_get_set; rewrite ?u32_set_length, ?Hl; lia.
  - apply u32_get_set; rewrite ?u32_set_length, ?Hl; try lia. apply journal_checksum_range.
  - rewrite !u32_get_set_ne by (rewrite ?u32_set_length, ?Hl; lia).
    apply u32_get_set; rewrite ?u32_set_length, ?Hl; lia.
  - rewrite !u32_get_set_ne by (rewrite ?u32_set_length, ?Hl; lia).
    apply u32_get_set; rewrite ?u32_set_length, ?Hl; lia.
  - rewrite !u32_get_set_ne by (rewrite ?u32_set_length, ?Hl; lia).
    apply u32_get_set; rewrite ?u32_set_length, ?Hl; lia.
Qed.

(** ** Descriptors *)
Lemma bytes_of_word v n :
  foldl (fun s b => Z.lor s (Z.shiftl (u8 (Z.shiftr v (8 * b))) (8 * b))) 0 (seqZ 0 (Z.of_nat n)) =
  v mod 2 ^ (8 * Z.of_nat n).
Proof.
  induction n as [|n IH]; [by rewrite Z.mod_1_r|].
  rewrite seqZ_S, foldl_app, IH, Nat2Z.inj_succ. cbn [foldl]. rewrite Z.add_0_l.
  apply Z.bits_inj'. intros j Hj. rewrite Z.lor_spec, Z.shiftl_spec by lia.
  destruct (decide (j < 8 * Z.of_nat n)); [|destruct (decide (j < 8 * Z.succ (Z.of_nat n)))].
  - rewrite !Z.mod_pow2_bits_low by lia. rewrite (Z.testbit_neg_r _ (j - _)) by lia. apply orb_false_r.
  - rewrite Z.mod_pow2_bits_high, Z.mod_pow2_bits_low, testbit_u8, Z.shiftr_spec by lia.
    destruct (Z.ltb_spec (j - 8 * Z.of_nat n) 8); [|lia]. cbn [orb andb]. f_equal. lia.
  - rewrite !Z.mod_pow2_bits_high, testbit_u8 by lia.
    destruct (Z.ltb_spec (j - 8 * Z.of_nat n) 8); [lia|done].
Qed.
Lemma descriptors_snoc recs r :
  journal_descriptors (recs ++ [r]) = put_descriptor (Z.of_nat (length recs)) r (journal_descriptors recs).
Proof. unfold journal_descriptors. rewrite imap_app, foldl_app. cbn. by rewrite Nat.add_0_r. Qed.
Lemma put_descriptor_length i r buf : length (put_descriptor i r buf) = length buf.
Proof. unfold put_descriptor. by rewrite u32_set_length, blit_length. Qed.
Lemma descriptors_length recs : length (journal_descriptors recs) = 1024%nat.
Proof.
  induction recs as [|r recs IH] using rev_ind; [done|]. by rewrite descriptors_snoc, put_descriptor_length.
Qed.
Lemma put_descriptor_at i r buf k :
  0 <= i -> i * 16 + 16 <= Z.of_nat (length buf) -> 0 <= k ->
  at_ (put_descriptor i r buf) k =
    if (i * 16 <=? k) && (k <? i * 16 + 8) then u8 (Z.shiftr r.1 (8 * (k - i * 16)))
    else if (i * 16 + 8 <=? k) && (k <? i * 16 + 12) then
      u8 (Z.shiftr (journal_checksum r.2) (8 * (k - (i * 16 + 8))))
    else at_ buf k.
Proof.
  intros Hi Hl Hk. unfold put_descriptor.
  set (src := (fun b => u8 (Z.shiftr r.1 (8 * b))) <$> seqZ 0 8).
  assert (Hsrc : Z.of_nat (length src) = 8) by reflexivity.
  destruct (Z.leb_spec (i * 16 + 8) k), (Z.ltb_spec k (i * 16 + 12)); cbn [andb].
  2-4: rewrite at_u32_set_ne by (rewrite ?blit_length; lia); rewrite at_blit by (rewrite ?Hsrc; lia);
    rewrite Hsrc.
  - destruct (Z.leb_spec (i * 16) k), (Z.ltb_spec k (i * 16 + 8)); cbn [andb]; try lia.
    unfold u32_set. rewrite !at_put by (rewrite ?put_length, ?blit_length; lia).
    repeat match goal with |- context [?a =? ?b] => destruct (Z.eqb_spec a b) as [<-|];
      [first [do 2 f_equal; lia|by rewrite Z.sub_diag, Z.shiftr_0_r]|] end.
    lia.
  - destruct (Z.leb_spec (i * 16) k), (Z.ltb_spec k (i * 16 + 8)); cbn [andb]; lia || done.
  - destruct (Z.leb_spec (i * 16) k), (Z.ltb_spec k (i * 16 + 8)); cbn [andb]; try lia; try done.
    rewrite at_lookup. unfold src. rewrite list_lookup_fmap, lookup_seqZ_lt by lia. cbn. do 3 f_equal. lia.
  - lia.
Qed.
(** Record [i] is found again in the descriptors. *)
Lemma descriptors_lookup recs i r :
  (length recs <= 64)%nat -> recs !! i = Some r -> 0 <= r.1 < 2 ^ 64 ->
  descriptor_sector (journal_descriptors recs) (Z.of_nat i) = r.1 /\
  u32_get (journal_descriptors recs) (Z.of_nat i * 16 + 8) = journal_checksum r.2.
Proof.
  intros Hn Hi Hr.
  assert (Hat : forall b, 0 <= b < 12 -> at_ (journal_descriptors recs) (Z.of_nat i * 16 + b) =
    if b <? 8 then u8 (Z.shiftr r.1 (8 * b)) else u8 (Z.shiftr (journal_checksum r.2) (8 * (b - 8)))).
  { intros b Hb. induction recs as [|r' recs IH] using rev_ind; [done|].
    rewrite length_app in Hn. cbn in Hn.
    rewrite descriptors_snoc, put_descriptor_at by (rewrite ?descriptors_length; lia).
    apply lookup_app_Some in Hi as [Hi|[Hge Hi]].
    - apply lookup_lt_Some in Hi as Hlt.
      rewrite <- IH by (done || lia).
      destruct (Z.leb_spec (Z.of_nat (length recs) * 16) (Z.of_nat i * 16 + b)); [lia|].
      by destruct (Z.leb_spec (Z.of_nat (length recs) * 16 + 8) (Z.of_nat i * 16 + b)); [lia|].
    - apply list_lookup_singleton_Some in Hi as [Hi ->].
      replace (Z.of_nat i) with (Z.of_nat (length recs)) by lia.
      generalize (Z.of_nat (length recs)). intros n.
      destruct (Z.ltb_spec b 8), (Z.leb_spec (n * 16) (n * 16 + b)), (Z.ltb_spec (n * 16 + b) (n * 16 + 8));
        cbn [andb]; try lia; [do 2 f_equal; lia|].
      destruct (Z.leb_spec (n * 16 + 8) (n * 16 + b)), (Z.ltb_spec (n * 16 + b) (n * 16 + 12)); cbn [andb]; try lia.
      do 2 f_equal. lia. }
  split.
  - unfold descriptor_sector. rewrite <- (Z.mod_small r.1 (2 ^ (8 * Z.of_nat 8))) by done.
    rewrite <- bytes_of_word. change (seqZ 0 (Z.of_nat 8)) with [0; 1; 2; 3; 4; 5; 6; 7].
    change (seqZ 0 8) with [0; 1; 2; 3; 4; 5; 6; 7]. cbn [foldl]. by rewrite !Hat by lia.
  - rewrite <- (bytes_of_u32 (journal_checksum r.2)) by apply journal_checksum_range.
    unfold u32_get. rewrite <- !Z.add_assoc, !Hat by lia. done.
Qed.
