(* ===== verification/Ext2Crash.v ===== *)
(** * The ext2 journal under power failures

    A commit is atomic: whatever calls of the drive fail and wherever the power
    goes, during the commit or during any number of recoveries after it, a
    recovery that ends leaves the sectors outside the journal as they were or
    with all records of the transaction in place, and with the records in place
    when the commit had reported success.

    The proofs run the operations in a small Hoare logic whose triples also say
    what holds of the medium when the power goes in the middle ([runs]). *)
From Stdlib Require Import ZArith Lia Morphisms.
From stdpp Require Import base numbers sets list list_numbers functions relations.
From S2P Require Import Prelude Ext2Journal.

(** ** Triples *)
Notation disk := (Z -> list Z) (only parsing).
(** A predicate that looks at a disk sector by sector. *)
Class Pointwise (K : disk -> Prop) : Prop :=
  pointwise : Proper (pointwise_relation Z eq ==> impl) K.

#[local] Opaque full_header journal_checksum journal_descriptors.

Section logic.
Context {D : Type} `{!Blockdev D}.
(** The server's variables during the run; [h] holds when the drive is healthy. *)
Context (e0 : ext2 D) (h : Prop).

Definition imgs (I : disk -> Prop) (d : D) : Prop := forall f, image d f -> I f.
Definition st (I K : disk -> Prop) (d : D) : Prop := imgs I d /\ K (content d) /\ (h -> healthy d).
Definition lost (I : disk -> Prop) (d : D) : Prop := imgs I d /\ ~ h.
(** A call has returned [rc]. *)
Definition returned (I : disk -> Prop) (Q : D -> Prop) (rc : Z) (d : D) : Prop :=
  imgs I d /\ (h -> rc = 0) /\ (rc = 0 -> Q d).

Lemma returned_failed I Q d : imgs I d -> ~ h -> returned I Q (-1) d.
Proof. intros Hi Hn. split; [done|]. by split; intros. Qed.

Definition runs {A} (P : D -> Prop) (m : M D A) (Q : A -> D -> Prop) (C : D -> Prop) : Prop :=
  forall d, P d ->
  let '(r, e) := m (e0 <| e_dev := d |>) in
  e = e0 <| e_dev := e_dev e |> /\ match r with Ret a => Q a (e_dev e) | Lost => C (e_dev e) end.

Lemma runs_conseq {A} (P P' : D -> Prop) (m : M D A) (Q Q' : A -> D -> Prop) (C C' : D -> Prop) :
  runs P m Q C -> (forall d, P' d -> P d) -> (forall a d, Q a d -> Q' a d) -> (forall d, C d -> C' d) ->
  runs P' m Q' C'.
Proof.
  intros Hm HP HQ HC d Hd. specialize (Hm d (HP d Hd)). destruct (m _) as [r e].
  destruct Hm as [He Hr]. split; [done|]. destruct r; auto.
Qed.
Lemma runs_ret {A} (P : D -> Prop) (a : A) (Q : A -> D -> Prop) (C : D -> Prop) :
  (forall d, P d -> Q a d) -> runs P (mret a) Q C.
Proof. intros HQ d Hd. cbn. auto. Qed.
Lemma runs_bind {A B} (P : D -> Prop) (m : M D A) (g : A -> M D B) (R : A -> D -> Prop) (Q : B -> D -> Prop) (C : D -> Prop) :
  runs P m R C -> (forall a, runs (R a) (g a) Q C) -> runs P (mbind g m) Q C.
Proof.
  intros Hm Hg d Hd. specialize (Hm d Hd). unfold mbind, M_bind. destruct (m _) as [[a|] e];
    destruct Hm as [He Hr]; [|done].
  specialize (Hg a (e_dev e) Hr). by rewrite <- He in Hg.
Qed.
Lemma runs_get {A B} (P : D -> Prop) (g : ext2 D -> A) (k : A -> M D B) (Q : B -> D -> Prop) (C : D -> Prop) :
  (forall d, g (e0 <| e_dev := d |>) = g e0) -> runs P (k (g e0)) Q C -> runs P (mbind k (get g)) Q C.
Proof. intros Hg Hk d Hd. specialize (Hk d Hd). unfold mbind, M_bind, get. by rewrite Hg. Qed.
Lemma runs_if {A} (b : bool) (P : D -> Prop) (m m' : M D A) (Q : A -> D -> Prop) (C : D -> Prop) :
  (b = true -> runs P m Q C) -> (b = false -> runs P m' Q C) -> runs P (if b then m else m') Q C.
Proof. destruct b; auto. Qed.
(** [if (op != 0) return -1; k] *)
Lemma runs_try (P : D -> Prop) (op k : M D Z) I (R : D -> Prop) (Q : Z -> D -> Prop) (C : D -> Prop) :
  runs P op (returned I R) C -> runs R k Q C ->
  (forall d, imgs I d -> ~ h -> Q (-1) d) ->
  runs P (mbind (fun rc => if negb (rc =? 0) then mret (-1) else k) op) Q C.
Proof.
  intros Hop Hk Hf. eapply runs_bind; [exact Hop|]. intros rc d (Hi & Hh & Hr).
  destruct (Z.eqb_spec rc 0) as [->|Hrc]; cbn [negb].
  - apply Hk. auto.
  - cbn. split; [done|]. apply Hf; [done|]. intros Hhh. auto.
Qed.
Lemma runs_loop I (R : Z -> D -> Prop) n i (body : Z -> M D Z) (C : D -> Prop) :
  (forall j d, R j d -> imgs I d) ->
  (forall j, i <= j < i + Z.of_nat n -> runs (R j) (body j) (returned I (R (j + 1))) C) ->
  runs (R i) (loop n i body) (returned I (R (i + Z.of_nat n))) C.
Proof.
  revert i. induction n as [|n IH]; intros i Hi Hb; cbn [loop].
  - apply runs_ret. intros d Hd. rewrite Z.add_0_r. repeat split; eauto.
  - eapply runs_try; [apply Hb; lia| |].
    + replace (i + Z.of_nat (S n)) with (i + 1 + Z.of_nat n) by lia. apply IH; [done|].
      intros j Hj. apply Hb. lia.
    + intros d. apply returned_failed.
Qed.
End logic.

Section device.
Context {D : Type} `{!Blockdev D, !BlockdevLaws D}.
Context (e0 : ext2 D) (h : Prop).
Notation runs := (runs e0).
Notation st := (st h).
Notation lost := (lost h).
Notation returned := (returned h).

(** [I] allows for sector [s] being overwritten with [data]. *)
Definition allows (I : disk -> Prop) (s : Z) (data : list Z) : Prop :=
  forall f0 f, I f0 -> (forall x, f x = f0 x \/ (x = s /\ f x = data)) -> I f.

Lemma sector_of_one data : length data = 512%nat -> sector_of data 0 = data.
Proof. intros Hl. unfold sector_of. cbn. rewrite drop_0. apply take_ge. lia. Qed.

Lemma runs_on_dev {A} (P : D -> Prop) (op : D -> res A * D) (Q : A -> D -> Prop) (C : D -> Prop) :
  (forall d, P d -> let '(r, d') := op d in match r with Ret a => Q a d' | Lost => C d' end) ->
  runs P (on_dev op) Q C.
Proof.
  intros Hop d Hd. specialize (Hop d Hd). unfold on_dev.
  change (e_dev (e0 <| e_dev := d |>)) with d. destruct (op d) as [r d'].
  split; [by destruct e0|exact Hop].
Qed.

(** The medium may be described anew ([I']) when a write is on its way. *)
Lemma runs_write (I I' K K' : disk -> Prop) s data :
  length data = 512%nat -> (forall f, I f -> I' f) -> allows I' s data ->
  (forall c c', K c -> (forall x, c' x = if x =? s then data else c x) -> K' c') ->
  runs (st I K) (on_dev (blkdev_write s 1 data)) (returned I' (st I' K')) (lost I').
Proof.
  intros Hl HI Ha HK. apply runs_on_dev. intros d (Hi & Hk & Hh).
  pose proof (write_law s 1 data d ltac:(lia)) as Hw. destruct (blkdev_write s 1 data d) as [r d'].
  destruct Hw as (Him & Hc & Hhe).
  assert (imgs I' d') as Hi'.
  { intros f Hf. destruct (Him f Hf) as (f0 & Hf0 & Hx). apply (Ha f0); [by apply HI, Hi|].
    intros x. destruct (Hx x) as [|[Hr Hd]]; [by left|]. assert (x = s) as -> by lia. right.
    by rewrite Z.sub_diag, sector_of_one in Hd. }
  destruct r as [rc|].
  - split; [done|]. split; [intros Hhh; destruct (Hhe (Hh Hhh)) as [_ E]; by injection E|].
    intros ->. split; [done|]. split; [|intros Hhh; by apply Hhe, Hh].
    eapply HK; [exact Hk|]. intros x. rewrite Hc by done.
    destruct (Z.eqb_spec x s) as [->|]; [|destruct (Z.leb_spec s x), (Z.ltb_spec x (s + 1)); cbn; done || lia].
    rewrite Z.leb_refl, Z.sub_diag, sector_of_one by done. destruct (Z.ltb_spec s (s + 1)); [done|lia].
  - split; [done|]. intros Hhh. by destruct (Hhe (Hh Hhh)).
Qed.
Lemma runs_flush (I K : disk -> Prop) {HK : Pointwise K} :
  runs (st I K) (on_dev blkdev_flush) (returned I (st (fun f => I f /\ K f) K)) (lost I).
Proof.
  apply runs_on_dev. intros d (Hi & Hk & Hh).
  pose proof (flush_law d) as Hw. destruct (blkdev_flush d) as [r d'].
  destruct Hw as (Hc & Him & Hfl & Hhe). assert (imgs I d') as Hi' by (intros f Hf; auto).
  destruct r as [rc|].
  - split; [done|]. split; [intros Hhh; destruct (Hhe (Hh Hhh)) as [_ E]; by injection E|].
    intros ->. assert (K (content d')) as Hk'. { eapply HK; [|exact Hk]. intros x. by rewrite Hc. }
    split; [|split; [done|intros Hhh; by apply Hhe, Hh]].
    intros f Hf. split; [auto|]. eapply HK; [|exact Hk]. intros x. symmetry. auto.
  - split; [done|]. intros Hhh. by destruct (Hhe (Hh Hhh)).
Qed.
Lemma runs_read (I K : disk -> Prop) s {HK : Pointwise K} :
  runs (st I K) (on_dev (blkdev_read s 1))
    (fun '(rc, l) d => st I K d /\ (h -> rc = 0) /\ (rc = 0 -> exists c, K c /\ l = c s /\ forall x, content d x = c x))
    (lost I).
Proof.
  apply runs_on_dev. intros d (Hi & Hk & Hh).
  pose proof (read_law s 1 d) as Hw. destruct (blkdev_read s 1 d) as [r d'].
  destruct Hw as (Hc & Him & Hrd & Hhe). assert (imgs I d') as Hi' by (intros f Hf; auto).
  destruct r as [[rc l]|].
  - split; [split; [done|split]|split].
    + eapply HK; [|exact Hk]. intros x. by rewrite Hc.
    + intros Hhh. by apply Hhe, Hh.
    + intros Hhh. destruct (Hhe (Hh Hhh)) as [_ [l' E]]. by injection E.
    + intros ->. exists (content d). split; [done|]. split; [|done].
      rewrite (Hrd l eq_refl). change (seqZ s 1) with [s + 0] || rewrite (seqZ_cons s 1) by lia.
      cbn. apply app_nil_r.
  - split; [done|]. intros Hhh. by destruct (Hhe (Hh Hhh)) as [_ [? ?]].
Qed.
End device.

(** ** The journal on disk *)
Section journal_ok.
Context {D : Type} (e : ext2 D).
(** The journal file as a mounted file system has it. *)
Record journal_ok : Prop := {
  ok_spb : 0 < g_sectors_per_block e <= 8;
  ok_blocks : Forall (fun b => 0 < b < 2 ^ 32) (g_journal_blocks e);
  ok_nodup : NoDup (g_journal_blocks e);
  ok_size : EXT2FS_JOURNAL_SECTORS <= Z.of_nat (length (g_journal_blocks e)) * g_sectors_per_block e;
  ok_count : 0 <= g_blocks_count e < 2 ^ 32
}.
(** Sector [k] of the journal. *)
Definition jsec (k : Z) : Z :=
  nth (Z.to_nat (k / g_sectors_per_block e)) (g_journal_blocks e) 0 * g_sectors_per_block e +
  k mod g_sectors_per_block e.
Definition outside (x : Z) : Prop := journal_storage_sector x e = false.
(** Records that may be committed. *)
Record records_ok (recs : list journal_record_t) : Prop := {
  ok_length : (length recs <= 64)%nat;
  ok_records : Forall (fun r => 0 <= r.1 < g_blocks_count e * g_sectors_per_block e /\ outside r.1 /\
                                length r.2 = 512%nat) recs
}.

Context (Hok : journal_ok).
Lemma block_index k : 0 <= k < EXT2FS_JOURNAL_SECTORS ->
  exists b, g_journal_blocks e !! Z.to_nat (k / g_sectors_per_block e) = Some b /\ 0 < b < 2 ^ 32 /\
    jsec k = b * g_sectors_per_block e + k mod g_sectors_per_block e.
Proof.
  intros Hk. destruct Hok as [Hs Hb _ Hz _].
  destruct (lookup_lt_is_Some_2 (g_journal_blocks e) (Z.to_nat (k / g_sectors_per_block e))) as [b Eb].
  { assert (k / g_sectors_per_block e < Z.of_nat (length (g_journal_blocks e))) by (apply Z.div_lt_upper_bound; lia).
    assert (0 <= k / g_sectors_per_block e) by (apply Z.div_pos; lia). lia. }
  exists b. split; [done|]. split; [by eapply list.Forall_lookup_1 in Hb|].
  unfold jsec. by rewrite (nth_lookup_Some _ _ _ _ Eb).
Qed.
Lemma map_jsec k : 0 <= k < EXT2FS_JOURNAL_SECTORS -> journal_map_sector k e = Some (jsec k).
Proof.
  intros Hk. destruct (block_index k Hk) as (b & Eb & Hb & ->). unfold journal_map_sector. rewrite Eb.
  by destruct (Z.eqb_spec b 0); [lia|].
Qed.
Lemma jsec_inside k : 0 <= k < EXT2FS_JOURNAL_SECTORS -> journal_storage_sector (jsec k) e = true.
Proof.
  intros Hk. destruct (block_index k Hk) as (b & Eb & Hb & ->). destruct Hok as [Hs _ _ _ _].
  unfold journal_storage_sector. rewrite Z.div_add_l by lia.
  rewrite Z.div_small by (apply Z.mod_pos_bound; lia). rewrite Z.add_0_r, u32_small by lia.
  apply bool_decide_eq_true_2. by eapply list_elem_of_lookup_2.
Qed.
Lemma jsec_inj k k' :
  0 <= k < EXT2FS_JOURNAL_SECTORS -> 0 <= k' < EXT2FS_JOURNAL_SECTORS -> jsec k = jsec k' -> k = k'.
Proof.
  intros Hk Hk' E. destruct (block_index k Hk) as (b & Eb & Hb & E1), (block_index k' Hk') as (b' & Eb' & Hb' & E2).
  destruct Hok as [Hs _ Hn _ _]. rewrite E1, E2 in E.
  pose proof (Z.mod_pos_bound k (g_sectors_per_block e)). pose proof (Z.mod_pos_bound k' (g_sectors_per_block e)).
  rewrite !(Z.mul_comm _ (g_sectors_per_block e)) in E.
  apply Z.div_mod_unique in E as [-> Em]; [|lia|lia].
  pose proof (NoDup_lookup _ _ _ _ Hn Eb Eb') as Ei.
  assert (0 <= k / g_sectors_per_block e) by (apply Z.div_pos; lia).
  assert (0 <= k' / g_sectors_per_block e) by (apply Z.div_pos; lia).
  rewrite (Z.div_mod k (g_sectors_per_block e)), (Z.div_mod k' (g_sectors_per_block e)) by lia. nia.
Qed.
Lemma outside_jsec x k : outside x -> 0 <= k < EXT2FS_JOURNAL_SECTORS -> x <> jsec k.
Proof. intros Hx Hk ->. unfold outside in Hx. by rewrite jsec_inside in Hx. Qed.
End journal_ok.

(** ** The phases of a commit, as the medium shows them *)
Definition installed (recs : list journal_record_t) (c : disk) : disk :=
  foldl (fun c r x => if x =? r.1 then r.2 else c x) c recs.

Section phases.
Context {D : Type} (e0 : ext2 D) (Hok : journal_ok e0).
(** The possible media and the content before, and the records. *)
Context (old : disk -> Prop) (c0 : disk) (recs : list journal_record_t) (Hrecs : records_ok e0 recs).
Notation jsec := (jsec e0).
Notation outside := (outside e0).

(** What belongs into sector [j] of the journal. *)
Definition log_data (j : Z) : list Z :=
  if j <? 3 then sector_of (journal_descriptors recs) (j - 1) else (nth (Z.to_nat (j - 3)) recs (0, [])).2.
Definition log_end : Z := 3 + Z.of_nat (length recs).
Definition tx_header (state : Z) : list Z :=
  full_header state (Z.of_nat (length recs)) (g_journal_sequence e0) (journal_descriptors recs).

(** The journal is filled up to sector [k]. *)
Definition filling (k : Z) (c : disk) : Prop :=
  (forall x, outside x -> c x = c0 x) /\ forall j, 1 <= j < k -> c (jsec j) = log_data j.
Definition logged (state : Z) (c' c : disk) : Prop :=
  c (jsec 0) = tx_header state /\ (forall j, 1 <= j < log_end -> c (jsec j) = log_data j) /\
  forall x, outside x -> c x = c' x.
Definition uncommitted (f : disk) : Prop :=
  (exists f0, old f0 /\ forall x, outside x -> f x = f0 x) /\
  (f (jsec 0) = zeros 512 \/
   exists n q l, 0 <= n < 2 ^ 32 /\ f (jsec 0) = full_header 1 n q l).
Definition committed (f : disk) : Prop :=
  f (jsec 0) = tx_header 2 /\ (forall j, 1 <= j < log_end -> f (jsec j) = log_data j) /\
  forall x, outside x -> f x = c0 x \/ exists data, (x, data) ∈ recs /\ f x = data.
Definition finished (f : disk) : Prop :=
  f (jsec 0) = zeros 512 /\ forall x, outside x -> f x = installed recs c0 x.

#[global] Typeclasses Opaque filling logged uncommitted committed finished.
#[export] Instance filling_pw k : Pointwise (filling k).
Proof. intros f g E [H1 H2]. split; intros; rewrite <- (E _); auto. Qed.
#[export] Instance logged_pw state c' : Pointwise (logged state c').
Proof. intros f g E (H0 & H1 & H2). split_and!; intros; rewrite <- (E _); auto. Qed.
#[export] Instance uncommitted_pw : Pointwise uncommitted.
Proof.
  intros f g E [(f0 & Hf0 & Hx) Hh]. split; [|by rewrite <- (E _)].
  exists f0. split; [done|]. intros x Ho. rewrite <- (E _). auto.
Qed.
#[export] Instance committed_pw : Pointwise committed.
Proof. intros f g E (H0 & H1 & H2). split_and!; intros; rewrite <- (E _); auto. Qed.
#[export] Instance finished_pw : Pointwise finished.
Proof. intros f g E [H1 H2]. split; intros; rewrite <- (E _); auto. Qed.

Lemma log_end_eq : log_end = 3 + Z.of_nat (length recs).
Proof. done. Qed.
Lemma log_end_bound : 3 <= log_end <= 67.
Proof. unfold log_end. destruct Hrecs as [Hl _]. lia. Qed.
Lemma log_data_length j : 1 <= j < log_end -> length (log_data j) = 512%nat.
Proof.
  intros Hj. unfold log_data, log_end in *. destruct (Z.ltb_spec j 3).
  - unfold sector_of. rewrite length_take, length_drop, descriptors_length. lia.
  - destruct (lookup_lt_is_Some_2 recs (Z.to_nat (j - 3))) as [r Er]; [lia|].
    rewrite (nth_lookup_Some _ _ _ _ Er). destruct Hrecs as [_ Hr].
    by apply (list.Forall_lookup_1 _ _ _ _ Hr Er).
Qed.
Lemma log_data_descriptor j : j < 2 -> log_data (1 + j) = sector_of (journal_descriptors recs) j.
Proof.
  intros Hj. unfold log_data. rewrite (proj2 (Z.ltb_lt _ _)) by lia. by replace (1 + j - 1) with j by lia.
Qed.
Lemma log_data_payload j : 0 <= j -> log_data (3 + j) = (nth (Z.to_nat j) recs (0, [])).2.
Proof.
  intros Hj. unfold log_data. rewrite (proj2 (Z.ltb_ge _ _)) by lia. by replace (3 + j - 3) with j by lia.
Qed.
Lemma log_descriptors : log_data 1 ++ log_data 2 = journal_descriptors recs.
Proof.
  unfold log_data. change (1 <? 3) with true. change (2 <? 3) with true. cbv iota. unfold sector_of.
  pose proof (descriptors_length recs). change (Z.to_nat (512 * (1 - 1))) with 0%nat.
  change (Z.to_nat (512 * (2 - 1))) with 512%nat. rewrite drop_0.
  rewrite (take_ge (drop 512 _)) by (rewrite length_drop; lia). apply take_drop.
Qed.

(** A journal sector is not outside, and not another journal sector. *)
Lemma other_sector (f f0 : disk) k data x :
  0 <= k < EXT2FS_JOURNAL_SECTORS -> (forall x, f x = f0 x \/ (x = jsec k /\ f x = data)) ->
  (outside x \/ exists j, 0 <= j < EXT2FS_JOURNAL_SECTORS /\ j <> k /\ x = jsec j) -> f x = f0 x.
Proof.
  intros Hk Hf Hx. destruct (Hf x) as [|[-> _]]; [done|]. destruct Hx as [Hx|(j & Hj & Hne & E)].
  - by destruct (outside_jsec e0 Hok _ k Hx Hk).
  - destruct Hne. symmetry. by apply (jsec_inj e0 Hok).
Qed.
Lemma allows_uncommitted_log k data : 1 <= k < EXT2FS_JOURNAL_SECTORS -> allows uncommitted (jsec k) data.
Proof.
  intros Hk f0 f [(g & Hg & Hx) Hh] Hf.
  assert (f (jsec 0) = f0 (jsec 0)) as E.
  { apply (other_sector _ _ k data); [lia|done|]. right. exists 0. lia. }
  split; [|by rewrite E]. exists g. split; [done|]. intros x Ho.
  rewrite (other_sector f f0 k data x) by (done || lia || by left). auto.
Qed.
Lemma allows_header (I : disk -> Prop) data :
  (forall f0 f, I f0 -> f (jsec 0) = data \/ f (jsec 0) = f0 (jsec 0) ->
    (forall x, outside x \/ (exists j, 0 < j < EXT2FS_JOURNAL_SECTORS /\ x = jsec j) -> f x = f0 x) -> I f) ->
  allows I (jsec 0) data.
Proof.
  intros HI f0 f Hf0 Hf. apply (HI f0); [done| |].
  - destruct (Hf (jsec 0)) as [|[_ ?]]; auto.
  - intros x Hx. apply (other_sector _ _ 0 data); [lia|done|].
    destruct Hx as [|(j & Hj & ->)]; [by left|right]. exists j. lia.
Qed.
Lemma allows_uncommitted_header : allows uncommitted (jsec 0) (tx_header 1).
Proof.
  destruct Hrecs as [Hl _]. apply allows_header. intros f0 f [(g & Hg & Hx) Hh] Hd Ho. split.
  - exists g. split; [done|]. intros x Hox. rewrite Ho by (by left). auto.
  - destruct Hd as [->| ->]; [right|done]. exists (Z.of_nat (length recs)). do 2 eexists. split; [lia|reflexivity].
Qed.
Lemma allows_uncommitted_clear : allows uncommitted (jsec 0) (zeros 512).
Proof.
  apply allows_header. intros f0 f [(g & Hg & Hx) Hh] Hd Ho. split.
  - exists g. split; [done|]. intros x Hox. rewrite Ho by (by left). auto.
  - destruct Hd as [->| ->]; [by left|done].
Qed.
(** The header is being replaced by that of a committed transaction. *)
Definition marking (f : disk) : Prop := (uncommitted f /\ logged 1 c0 f) \/ logged 2 c0 f.
Lemma logged_header state state' c f f0 :
  logged state c f0 -> f (jsec 0) = tx_header state' ->
  (forall x, outside x \/ (exists j, 0 < j < EXT2FS_JOURNAL_SECTORS /\ x = jsec j) -> f x = f0 x) ->
  logged state' c f.
Proof.
  pose proof log_end_bound. intros (_ & H1 & H2) Hd Ho. split_and!; [done| |].
  - intros j Hj. rewrite Ho; [auto|]. right. exists j. lia.
  - intros x Hx. rewrite Ho; [auto|]. by left.
Qed.
Lemma allows_marking : allows marking (jsec 0) (tx_header 2).
Proof.
  apply allows_header. intros f0 f [[Hu Hl]|Hl] Hd Ho.
  - destruct Hd as [Hd|Hd]; [right; by apply (logged_header 1 2 c0 f f0)|left]. split.
    + destruct Hu as [(g & Hg & Hx) Hh]. split; [|by rewrite Hd].
      exists g. split; [done|]. intros x Hox. rewrite Ho by (by left). auto.
    + apply (logged_header 1 1 c0 f f0); [done| |done]. rewrite Hd. apply Hl.
  - right. apply (logged_header 2 2 c0 f f0); [done| |done]. destruct Hd as [->| ->]; [done|apply Hl].
Qed.
Lemma marking_phase f : marking f -> uncommitted f \/ committed f.
Proof. intros [[? _]|(H0 & H1 & H2)]; [by left|right]. split_and!; auto. Qed.

Lemma installed_snoc rs r c x : installed (rs ++ [r]) c x = if x =? r.1 then r.2 else installed rs c x.
Proof. unfold installed. by rewrite foldl_app. Qed.
Lemma installed_app rs rs' c : installed (rs ++ rs') c = installed rs' (installed rs c).
Proof. apply foldl_app. Qed.
Lemma installed_cases rs x : installed rs c0 x = c0 x \/ exists data, (x, data) ∈ rs /\ installed rs c0 x = data.
Proof.
  induction rs as [|[s data] rs IH] using rev_ind; [by left|]. rewrite installed_snoc. cbn [fst snd].
  destruct (Z.eqb_spec x s) as [->|].
  - right. exists data. split; [|done]. apply elem_of_app. right. by apply list_elem_of_singleton.
  - destruct IH as [|(data' & Hd & E)]; [by left|right]. exists data'. split; [|done]. apply elem_of_app. by left.
Qed.
(** Installing the records once more changes nothing. *)
Lemma installed_again c1 x :
  (c1 x = c0 x \/ exists data, (x, data) ∈ recs /\ c1 x = data) -> installed recs c1 x = installed recs c0 x.
Proof.
  intros Hx. clear Hrecs. assert (c1 x = c0 x \/ x ∈ recs.*1) as Hc.
  { destruct Hx as [|(data & Hd & _)]; [by left|right]. apply list_elem_of_fmap. by exists (x, data). }
  clear Hx. induction recs as [|r rs IH] using rev_ind; [by destruct Hc as [|?%not_elem_of_nil]|].
  rewrite !installed_snoc. destruct (Z.eqb_spec x r.1); [done|]. apply IH.
  destruct Hc as [|Hc]; [by left|]. rewrite fmap_app, elem_of_app in Hc. cbn in Hc.
  destruct Hc as [|Hc%list_elem_of_singleton]; [by right|done].
Qed.
Lemma record_outside r : r ∈ recs ->
  0 <= r.1 < g_blocks_count e0 * g_sectors_per_block e0 /\ outside r.1 /\ length r.2 = 512%nat.
Proof. intros Hr. destruct Hrecs as [_ Hf]. rewrite list.Forall_forall in Hf. by apply Hf. Qed.
Lemma allows_committed r : r ∈ recs -> allows committed r.1 r.2.
Proof.
  intros Hr f0 f (H0 & H1 & H2) Hf. destruct (record_outside r Hr) as (_ & Ho & _).
  pose proof log_end_bound.
  assert (forall j, 0 <= j < EXT2FS_JOURNAL_SECTORS -> f (jsec j) = f0 (jsec j)) as Hj.
  { intros j Hj. destruct (Hf (jsec j)) as [|[E _]]; [done|]. symmetry in E.
    by destruct (outside_jsec e0 Hok r.1 j Ho Hj). }
  split_and!.
  - by rewrite Hj by lia.
  - intros j Hjb. rewrite Hj by lia. auto.
  - intros x Hx. destruct (Hf x) as [->|[-> ->]]; [auto|]. right. exists r.2. by destruct r.
Qed.
(** The header of a transaction whose records are in place is being cleared. *)
Definition clearing (f : disk) : Prop := logged 2 (installed recs c0) f \/ finished f.
Lemma allows_clearing : allows clearing (jsec 0) (zeros 512).
Proof.
  apply allows_header. intros f0 f Hf0 Hd Ho. destruct Hd as [Hd|Hd].
  - right. split; [done|]. intros x Hx. rewrite Ho by (by left).
    destruct Hf0 as [(_ & _ & H2)|[_ H2]]; auto.
  - destruct Hf0 as [Hl|[H0 H2]].
    + left. apply (logged_header 2 2 _ f f0); [done| |done]. rewrite Hd. apply Hl.
    + right. split; [by rewrite Hd|]. intros x Hx. rewrite Ho by (by left). auto.
Qed.
Lemma clearing_phase f : clearing f -> committed f \/ finished f.
Proof.
  intros [(H0 & H1 & H2)|]; [left|by right]. split_and!; [done|done|].
  intros x Hx. rewrite H2 by done. apply installed_cases.
Qed.
End phases.

(** Two states of the server with the same file system mounted. *)
Definition same_geometry {D} (e e' : ext2 D) : Prop :=
  g_journal_blocks e' = g_journal_blocks e /\ g_sectors_per_block e' = g_sectors_per_block e /\
  g_blocks_count e' = g_blocks_count e.

Section commit.
Context {D : Type} `{!Blockdev D, !BlockdevLaws D}.
Context (e0 : ext2 D) (Hok : journal_ok e0).
Context (old : disk -> Prop) (c0 : disk) (recs : list journal_record_t) (Hrecs : records_ok e0 recs).
Context (e1 : ext2 D) (Hgeo : same_geometry e0 e1) (h : Prop).
Notation runs := (runs e1).
Notation st := (st h).
Notation lost := (lost h).
Notation returned := (returned h).
Notation jsec := (jsec e0).
Notation outside := (outside e0).
Notation uncommitted := (uncommitted e0 old).
Notation committed := (committed e0 c0 recs).
Notation finished := (finished e0 c0 recs).
Notation filling := (filling e0 c0 recs).
Notation logged := (logged e0 recs).
Notation log_data := (log_data recs).
Notation log_end := (log_end recs).
Notation tx_header := (tx_header e0 recs).

Lemma geo_map k : 0 <= k < EXT2FS_JOURNAL_SECTORS -> journal_map_sector k e1 = Some (jsec k).
Proof.
  intros Hk. rewrite <- (map_jsec e0 Hok k Hk). unfold journal_map_sector. by destruct Hgeo as (-> & -> & _).
Qed.
Lemma runs_disk_write (I I' K K' : disk -> Prop) k data :
  0 <= k < EXT2FS_JOURNAL_SECTORS -> length data = 512%nat -> (forall f, I f -> I' f) -> allows I' (jsec k) data ->
  (forall c c', K c -> (forall x, c' x = if x =? jsec k then data else c x) -> K' c') ->
  runs (st I K) (journal_disk_write k data) (returned I' (st I' K')) (lost I').
Proof.
  intros Hk Hl HI Ha HK. unfold journal_disk_write. apply runs_get; [done|]. rewrite geo_map by done.
  by apply runs_write with (K := K).
Qed.
(** What a read of a journal sector finds. *)
Lemma runs_disk_read {B} (I K : disk -> Prop) {HK : Pointwise K} k (g : Z * list Z -> M D B) Q C :
  0 <= k < EXT2FS_JOURNAL_SECTORS -> (forall d, lost I d -> C d) ->
  (forall c, K c -> runs (st I K) (g (0, c (jsec k))) Q C) ->
  (~ h -> forall rc l, rc <> 0 -> runs (st I K) (g (rc, l)) Q C) ->
  runs (st I K) (mbind g (journal_disk_read k)) Q C.
Proof.
  intros Hk HC Hg Hf. eapply runs_bind.
  - unfold journal_disk_read. apply runs_get; [done|]. rewrite geo_map by done.
    eapply runs_conseq; [by apply (runs_read _ h)|done|intros a d Hd; exact Hd|done].
  - intros [rc l] d (Hst & Hh & Hr). destruct (decide (rc = 0)) as [->|Hne].
    + destruct (Hr eq_refl) as (c & Hc & -> & Hx). by apply Hg.
    + apply Hf; [by intros Hhh; auto|done|done].
Qed.

Lemma runs_clear (I I' K K' : disk -> Prop) {HK : Pointwise K'} :
  (forall f, I f -> I' f) -> allows I' (jsec 0) (zeros 512) ->
  (forall c c', K c -> (forall x, c' x = if x =? jsec 0 then zeros 512 else c x) -> K' c') ->
  runs (st I K) journal_clear (returned I' (st (fun f => I' f /\ K' f) K')) (lost I').
Proof.
  intros HI Ha HK'. unfold journal_clear. eapply runs_try.
  - apply runs_disk_write with (K := K) (K' := K') (I' := I'); [lia|done|done|done|done].
  - by apply runs_flush.
  - intros d. apply returned_failed.
Qed.

(** Both descriptor sectors are read. *)
Lemma runs_descriptors {B} (I K : disk -> Prop) {HK : Pointwise K} (g : Z * list Z -> M D B) Q C :
  (forall d, lost I d -> C d) ->
  (forall c c', K c -> K c' -> runs (st I K) (g (0, c (jsec 1) ++ c' (jsec 2))) Q C) ->
  (~ h -> runs (st I K) (g (-1, [])) Q C) ->
  runs (st I K) (mbind g read_descriptors) Q C.
Proof.
  intros HC Hg Hf. eapply runs_bind with (R := fun '(rc, l) d => st I K d /\
    ((rc = 0 /\ exists c c', K c /\ K c' /\ l = c (jsec 1) ++ c' (jsec 2)) \/ (rc = -1 /\ l = [] /\ ~ h))).
  - unfold read_descriptors. apply runs_disk_read; [done|lia|done| |].
    + intros c Hc. cbn [negb Z.eqb]. apply runs_disk_read; [done|lia|done| |].
      * intros c' Hc'. apply runs_ret. intros d Hd. split; [done|]. left. split; [done|]. by exists c, c'.
      * intros Hn rc l Hrc. destruct (Z.eqb_spec rc 0); [done|]. apply runs_ret. auto.
    + intros Hn rc l Hrc. destruct (Z.eqb_spec rc 0); [done|]. apply runs_ret. auto.
  - intros [rc l] d [Hst [(-> & c & c' & Hc & Hc' & ->)|(-> & -> & Hn)]]; [by apply Hg|by apply Hf].
Qed.

(** A write into the journal leaves the rest. *)
Lemma upd_outside (c c' : disk) k data x :
  0 <= k < EXT2FS_JOURNAL_SECTORS -> (forall x, c' x = if x =? jsec k then data else c x) ->
  outside x -> c' x = c x.
Proof.
  intros Hk Hx Ho. rewrite Hx. destruct (Z.eqb_spec x (jsec k)); [|done].
  by destruct (outside_jsec e0 Hok x k Ho Hk).
Qed.
Lemma upd_jsec (c c' : disk) k data j :
  0 <= k < EXT2FS_JOURNAL_SECTORS -> 0 <= j < EXT2FS_JOURNAL_SECTORS ->
  (forall x, c' x = if x =? jsec k then data else c x) ->
  c' (jsec j) = if j =? k then data else c (jsec j).
Proof.
  intros Hk Hj Hx. rewrite Hx. destruct (Z.eqb_spec (jsec j) (jsec k)) as [E|Hne].
  - apply (jsec_inj e0 Hok) in E as ->; [|done|done]. by rewrite Z.eqb_refl.
  - destruct (Z.eqb_spec j k) as [->|]; done.
Qed.

Lemma runs_log j : 1 <= j < log_end ->
  runs (st uncommitted (filling j)) (journal_disk_write j (log_data j))
    (returned uncommitted (st uncommitted (filling (j + 1)))) (lost uncommitted).
Proof.
  intros Hj. pose proof (log_end_bound e0 recs Hrecs). apply runs_disk_write with (K := filling j).
  - lia.
  - by apply (log_data_length e0).
  - done.
  - apply allows_uncommitted_log; [done|lia].
  - intros c c' [H1 H2] Hx. split.
    + intros x Ho. rewrite (upd_outside c c' j (log_data j)) by (done || lia). auto.
    + intros i Hi. rewrite (upd_jsec c c' j (log_data j)) by (done || lia).
      destruct (Z.eqb_spec i j) as [->|]; [done|]. apply H2. lia.
Qed.
Lemma runs_write_descriptors : g_journal_records e1 = recs ->
  runs (st uncommitted (filling 1)) journal_write_descriptors
    (returned uncommitted (st uncommitted (filling 3))) (lost uncommitted).
Proof.
  intros Er. pose proof (log_end_bound e0 recs Hrecs). unfold journal_write_descriptors. apply runs_get; [done|].
  rewrite Er. apply (runs_loop _ h uncommitted (fun j => st uncommitted (filling (1 + j))) 2 0).
  - by intros j d [Hi _].
  - intros j Hj. pose proof (runs_log (1 + j) ltac:(lia)) as Hl. rewrite <- Z.add_assoc in Hl.
    rewrite log_data_descriptor in Hl by lia. exact Hl.
Qed.
Lemma runs_write_payloads : g_journal_records e1 = recs ->
  runs (st uncommitted (filling 3)) journal_write_payloads
    (returned uncommitted (st uncommitted (filling log_end))) (lost uncommitted).
Proof.
  intros Er. unfold journal_write_payloads. apply runs_get; [done|]. rewrite Er.
  apply (runs_loop _ h uncommitted (fun j => st uncommitted (filling (3 + j))) (length recs) 0).
  - by intros j d [Hi _].
  - intros j Hj. assert (1 <= 3 + j < log_end) as Hb by (rewrite log_end_eq; lia).
    pose proof (runs_log (3 + j) Hb) as Hl. rewrite <- Z.add_assoc in Hl.
    rewrite log_data_payload in Hl by lia. exact Hl.
Qed.
Lemma runs_write_header (I I' : disk -> Prop) (K : disk -> Prop) {HK : Pointwise K} state :
  g_journal_records e1 = recs -> g_journal_sequence e1 = g_journal_sequence e0 ->
  (forall c, K c -> filling log_end c) -> (forall f, I f -> I' f) -> allows I' (jsec 0) (tx_header state) ->
  runs (st I K) (journal_write_header state) (returned I' (st I' (logged state c0))) (lost I').
Proof.
  intros Er Es HKf HI Ha. pose proof (log_end_bound e0 recs Hrecs).
  unfold journal_write_header. apply runs_get; [done|]. rewrite Er, Es.
  apply runs_descriptors; [done| | |].
  - intros d [Hi Hn]. split; [|done]. intros f Hf. auto.
  - intros c c' Hc%HKf Hc'%HKf. cbn [negb Z.eqb].
    rewrite (proj2 Hc 1), (proj2 Hc' 2), log_descriptors by lia.
    change (finish_header _ _) with (tx_header state).
    apply runs_disk_write with (K := K); [lia|apply full_header_length|exact HI|exact Ha|].
    intros c1 c2 [H1 H2]%HKf Hx. split_and!.
    + by rewrite (upd_jsec c1 c2 0 (tx_header state)) by (done || lia).
    + intros j Hj. rewrite (upd_jsec c1 c2 0 (tx_header state)) by (done || lia).
      destruct (Z.eqb_spec j 0); [lia|auto].
    + intros x Ho. rewrite (upd_outside c1 c2 0 (tx_header state)) by (done || lia). auto.
  - intros Hn. apply runs_ret. intros d (Hi & _). apply returned_failed; [|done]. intros f Hf. auto.
Qed.

Notation marking := (marking e0 old c0 recs).
Notation clearing := (clearing e0 c0 recs).
(** On the way to its end a commit is not yet or already committed, or finished. *)
Definition closing (f : disk) : Prop := committed f \/ finished f.

Lemma runs_prepare :
  g_journal_records e1 = recs -> g_journal_sequence e1 = g_journal_sequence e0 ->
  runs (st uncommitted (filling 1)) commit_prepare
    (returned uncommitted (st (fun f => uncommitted f /\ logged 1 c0 f) (logged 1 c0))) (lost uncommitted).
Proof.
  intros Er Es. unfold commit_prepare.
  eapply runs_try; [by apply runs_write_descriptors| |intros d; apply returned_failed].
  eapply runs_try; [by apply runs_write_payloads| |intros d; apply returned_failed].
  eapply runs_try; [|apply runs_flush; apply _|intros d; apply returned_failed].
  apply (runs_write_header uncommitted uncommitted (filling log_end)); [done|done|auto|auto|].
  by apply allows_uncommitted_header.
Qed.
Lemma runs_mark :
  g_journal_records e1 = recs -> g_journal_sequence e1 = g_journal_sequence e0 ->
  runs (st (fun f => uncommitted f /\ logged 1 c0 f) (logged 1 c0)) commit_mark
    (returned marking (st (fun f => marking f /\ logged 2 c0 f) (logged 2 c0))) (lost marking).
Proof.
  intros Er Es. unfold commit_mark.
  eapply runs_try; [|apply runs_flush; apply _|intros d; apply returned_failed].
  apply (runs_write_header _ marking (logged 1 c0)); [done|done| |intros f; by left|by apply allows_marking].
  intros c (_ & H1 & H2). by split.
Qed.

(** Record [i] goes to its place. *)
Lemma runs_install c1 i r : recs !! i = Some r ->
  runs (st committed (logged 2 (installed (take i recs) c1))) (on_dev (blkdev_write r.1 1 r.2))
    (returned committed (st committed (logged 2 (installed (take (S i) recs) c1)))) (lost committed).
Proof.
  intros Hi. pose proof (log_end_bound e0 recs Hrecs). apply list_elem_of_lookup_2 in Hi as Hr.
  destruct (record_outside e0 recs Hrecs r Hr) as (_ & Ho & Hl).
  apply runs_write with (K := logged 2 (installed (take i recs) c1)); [done|done|by apply allows_committed|].
  intros c c' (H0 & H1 & H2) Hx.
  assert (forall j, 0 <= j < EXT2FS_JOURNAL_SECTORS -> c' (jsec j) = c (jsec j)) as Hj.
  { intros j Hj. rewrite Hx. destruct (Z.eqb_spec (jsec j) r.1) as [E|]; [|done].
    by destruct (outside_jsec e0 Hok r.1 j Ho Hj). }
  split_and!.
  - by rewrite Hj by lia.
  - intros j Hjb. rewrite Hj by lia. auto.
  - intros x Hox. rewrite Hx, (take_S_r _ _ _ Hi), installed_snoc. destruct (Z.eqb_spec x r.1); auto.
Qed.
(** All of them do, one by one, by [body]. *)
Lemma runs_install_all c1 (body : Z -> M D Z) :
  (forall i r, recs !! i = Some r ->
    runs (st committed (logged 2 (installed (take i recs) c1))) (body (Z.of_nat i))
      (returned committed (st committed (logged 2 (installed (take (S i) recs) c1)))) (lost committed)) ->
  runs (st committed (logged 2 c1)) (loop (length recs) 0 body)
    (returned committed (st committed (logged 2 (installed recs c1)))) (lost committed).
Proof.
  intros Hb. pose proof (runs_loop e1 h committed
    (fun j => st committed (logged 2 (installed (take (Z.to_nat j) recs) c1))) (length recs) 0 body (lost committed)) as Hloop.
  cbv beta in Hloop. rewrite Z.add_0_l, Nat2Z.id, firstn_all in Hloop. apply Hloop.
  - by intros j d [Hi _].
  - intros j Hj. destruct (lookup_lt_is_Some_2 recs (Z.to_nat j)) as [r Er]; [lia|].
    specialize (Hb _ _ Er). rewrite Z2Nat.id in Hb by lia.
    replace (Z.to_nat (j + 1)) with (S (Z.to_nat j)) by lia. exact Hb.
Qed.
Lemma runs_finish :
  runs (st committed (logged 2 (installed recs c0)))
    (mbind (fun rc => if negb (rc =? 0) then mret (-1) else journal_clear) (on_dev blkdev_flush))
    (returned closing (st finished finished)) (lost closing).
Proof.
  eapply runs_try with (I := committed).
  - eapply runs_conseq; [apply (runs_flush _ h committed (logged 2 (installed recs c0)))|intros d Hd; exact Hd|intros a d Hd; exact Hd|].
    intros d [Hi Hn]. split; [|done]. intros f Hf. left. auto.
  - eapply runs_conseq.
    + apply (runs_clear (fun f => committed f /\ logged 2 (installed recs c0) f) clearing
        (logged 2 (installed recs c0)) finished).
      * intros f [_ Hf]. by left.
      * by apply allows_clearing.
      * intros c c' (H0 & H1 & H2) Hx. split.
        -- by rewrite (upd_jsec c c' 0 (zeros 512)) by (done || lia).
        -- intros x Ho. rewrite (upd_outside c c' 0 (zeros 512)) by (done || lia). auto.
    + intros d Hd; exact Hd.
    + intros rc d (Hi & Hh & Hr). split; [intros f Hf; eapply clearing_phase, Hi, Hf|]. split; [done|].
      intros E. destruct (Hr E) as (Hi' & Hk & Hhe). split; [|done]. intros f Hf. by apply Hi'.
    + intros d [Hi Hn]. split; [|done]. intros f Hf. eapply clearing_phase, Hi, Hf.
  - intros d Hi Hn. apply returned_failed; [|done]. intros f Hf. left. auto.
Qed.
Lemma runs_home : g_journal_records e1 = recs ->
  runs (st committed (logged 2 c0)) commit_home (returned closing (st finished finished)) (lost closing).
Proof.
  intros Er. unfold commit_home. apply runs_get; [done|]. rewrite Er.
  eapply runs_try with (I := committed).
  - eapply runs_conseq; [apply (runs_install_all c0)|intros d Hd; exact Hd|intros a d Hd; exact Hd|].
    + intros i r Hi. rewrite Nat2Z.id, (nth_lookup_Some _ _ _ _ Hi). by apply runs_install.
    + intros d [Hi Hn]. split; [|done]. intros f Hf. left. auto.
  - apply runs_finish.
  - intros d Hi Hn. apply returned_failed; [|done]. intros f Hf. left. auto.
Qed.

(** *** Recovery *)
Lemma runs_content {A} (I K : disk -> Prop) (m : M D A) Q C :
  (forall c1, K c1 -> runs (st I (fun c => forall x, c x = c1 x)) m Q C) -> runs (st I K) m Q C.
Proof.
  intros Hm d (Hi & Hk & Hh). apply (Hm (content d)); [done|]. by split.
Qed.
Lemma runs_replay_record c1 i r : recs !! i = Some r ->
  runs (st committed (logged 2 (installed (take i recs) c1)))
    (replay_record (journal_descriptors recs) (Z.of_nat i))
    (returned committed (st committed (logged 2 (installed (take (S i) recs) c1)))) (lost committed).
Proof.
  intros Hi. destruct Hrecs as [Hl _]. pose proof (lookup_lt_Some _ _ _ Hi) as Hlt.
  pose proof (log_end_bound e0 recs Hrecs). pose proof (log_end_eq recs).
  destruct (record_outside e0 recs Hrecs r) as (Hr & Ho & _); [by eapply list_elem_of_lookup_2|].
  destruct Hok as [Hspb _ _ _ Hcount]. destruct (descriptors_lookup recs i r) as [Es Ec]; [done|done|nia|].
  unfold replay_record. rewrite Es. destruct Hgeo as (Gb & Gs & Gc).
  apply runs_get; [done|]. replace (_ || _) with false.
  2: { change (journal_storage_sector r.1 e0 = false) in Ho. unfold journal_storage_sector in *. rewrite Gb, Gs, Gc, Ho.
       rewrite orb_false_r. symmetry. rewrite Z.geb_leb. apply Z.leb_gt. lia. }
  apply runs_disk_read; [apply _|lia|auto| |].
  - intros c (_ & Hd & _). rewrite Hd, log_data_payload, Nat2Z.id, (nth_lookup_Some _ _ _ _ Hi) by lia.
    rewrite Ec, !Z.eqb_refl. cbn [negb orb]. by apply runs_install.
  - intros Hn rc l Hrc. destruct (Z.eqb_spec rc 0); [done|]. cbn [negb orb]. apply runs_ret.
    intros d (Hii & _). by apply returned_failed.
Qed.

Lemma runs_replay_zero (I K : disk -> Prop) {HK : Pointwise K} :
  (forall c, K c -> c (jsec 0) = zeros 512) ->
  runs (st I K) journal_replay (returned I (st I K)) (lost I).
Proof.
  intros Hz. unfold journal_replay. apply runs_disk_read; [done|lia|auto| |].
  - intros c Hc. rewrite (Hz c Hc). apply runs_ret. intros d Hd. split; [apply Hd|]. by split.
  - intros Hn rc l Hrc. destruct (Z.eqb_spec rc 0); [done|]. apply runs_ret.
    intros d (Hi & _). by apply returned_failed.
Qed.
(** A header that passes the checks: its descriptors are read next. *)
Lemma runs_replay_header (I K : disk -> Prop) {HK : Pointwise K} state n q l Q C :
  (forall c, K c -> c (jsec 0) = full_header state n q l) -> state = 1 \/ state = 2 -> 0 <= n < 2 ^ 32 ->
  (forall d, lost I d -> C d) ->
  (forall d, st I K d -> (h -> 64 < n) -> Q (-1) d) ->
  (forall c c', K c -> K c' -> n <= 64 ->
    let l' := c (jsec 1) ++ c' (jsec 2) in
    runs (st I K) (if negb (journal_checksum l =? journal_checksum l') then mret (-1)
      else if state =? 1 then journal_clear
      else try loop (Z.to_nat n) 0 (replay_record l'); try on_dev blkdev_flush; journal_clear) Q C) ->
  runs (st I K) journal_replay Q C.
Proof.
  intros Hhd Hs Hn HC Hf Hg. unfold journal_replay. apply runs_disk_read; [done|lia|done| |].
  - intros c Hc. rewrite (Hhd c Hc). rewrite full_header_nonzero. cbn [negb Z.eqb].
    destruct (full_header_fields state n q l) as (-> & -> & E1 & E2 & E3); [lia|lia|].
    rewrite Z.eqb_refl. cbn [negb]. cbv zeta. rewrite E1, E2, E3.
    replace (negb (state =? 1) && negb (state =? 2)) with false by (by destruct Hs as [->| ->]).
    cbn [orb]. destruct (Z.gtb_spec n 64); [apply runs_ret; intros d Hd; by apply Hf|].
    apply runs_descriptors; [done|done| |].
    + intros c1 c2 H1 H2. cbn [negb Z.eqb]. by apply Hg.
    + intros Hnh. apply runs_ret. intros d Hd. by apply Hf.
  - intros Hnh rc l' Hrc. destruct (Z.eqb_spec rc 0); [done|]. apply runs_ret. intros d Hd. by apply Hf.
Qed.

#[local] Instance eq_pw (c1 : disk) : Pointwise (fun c => forall x, c x = c1 x).
Proof. intros f g E Hx x. by rewrite <- (E x). Qed.
(** Nothing was committed, and the journal is empty again. *)
Definition cleared (f : disk) : Prop := uncommitted f /\ f (jsec 0) = zeros 512.
#[local] Instance cleared_pw : Pointwise cleared.
Proof. intros f g E [Hu Hz]. split; [by eapply uncommitted_pw|by rewrite <- (E _)]. Qed.

Lemma runs_replay_uncommitted c1 : uncommitted c1 ->
  let same := fun c => forall x, c x = c1 x in
  runs (st same same) journal_replay
    (fun rc d => imgs uncommitted d /\ (rc = 0 -> cleared (content d) /\ imgs cleared d) /\
                 (h -> c1 (jsec 0) = zeros 512 -> rc = 0)) (lost uncommitted).
Proof.
  intros Hc1 same.
  assert (forall f, same f -> uncommitted f) as Hsame.
  { intros f Hf. eapply uncommitted_pw; [intros x; symmetry; apply Hf|done]. }
  assert (forall d, imgs same d -> imgs uncommitted d) as Himgs by (intros d Hd f Hf; auto).
  destruct (proj2 Hc1) as [Hz|(n & q & l & Hn & Hh)].
  - assert (forall f, same f -> cleared f) as Hcl by (intros f Hf; split; [auto|by rewrite Hf]).
    eapply runs_conseq; [apply (runs_replay_zero same same)|intros d Hd; exact Hd| |].
    + intros c Hc. by rewrite Hc.
    + intros rc d (Hi & Hh & Hr). split; [auto|]. split; [|auto]. intros E.
      destruct (Hr E) as (_ & Hk & _). split; [auto|]. intros f Hf. auto.
    + intros d [Hi Hn]. split; auto.
  - assert (c1 (jsec 0) <> zeros 512) as Hnz.
    { rewrite Hh. intros E. pose proof (full_header_nonzero 1 n q l) as Hf. by rewrite E in Hf. }
    apply (runs_replay_header _ _ 1 n q l); [intros c Hc; by rewrite Hc|by left|done| | |].
    + intros d [Hi Hnh]. split; auto.
    + intros d (Hi & _) _. by split_and!; [auto| |].
    + intros c c' Hc Hc' Hle. cbv zeta. destruct (negb _).
      { apply runs_ret. intros d (Hi & _). by split_and!; [auto| |]. }
      cbn [Z.eqb Pos.eqb]. eapply runs_conseq.
      * apply (runs_clear same uncommitted same cleared); [done|by apply allows_uncommitted_clear|].
        intros c2 c3 H2 Hx. split; [|by rewrite (upd_jsec c2 c3 0 (zeros 512)) by (done || lia)].
        apply (allows_uncommitted_clear e0 Hok old c1); [done|]. intros x. rewrite Hx, H2.
        destruct (Z.eqb_spec x (jsec 0)); auto.
      * intros d Hd; exact Hd.
      * intros rc d (Hi & _ & Hr). split; [done|]. split; [|done]. intros E.
        destruct (Hr E) as (Hi' & Hk & _). split; [done|]. intros f Hf. by apply Hi'.
      * auto.
Qed.
Lemma runs_replay_committed :
  runs (st committed committed) journal_replay (returned closing (st finished finished)) (lost closing).
Proof.
  apply runs_content. intros c1 (H0 & H1 & H2). destruct Hrecs as [Hl _].
  pose proof (log_end_bound e0 recs Hrecs).
  assert (forall d, imgs committed d -> imgs closing d) as Hcl by (intros d Hd f Hf; left; auto).
  apply (runs_replay_header _ _ 2 (Z.of_nat (length recs)) (g_journal_sequence e0) (journal_descriptors recs)).
  - intros c Hc. by rewrite Hc.
  - by right.
  - lia.
  - intros d [Hi Hn]. split; auto.
  - intros d (Hi & _) Hn. apply returned_failed; [auto|]. intros Hh. specialize (Hn Hh). lia.
  - intros c c' Hc Hc' Hle. cbv zeta. rewrite Hc, Hc', !H1, log_descriptors, Z.eqb_refl, Nat2Z.id by lia.
    cbn [negb Z.eqb Pos.eqb]. eapply runs_try with (I := committed).
    + eapply runs_conseq; [apply (runs_install_all c1); intros i r Hi; exact (runs_replay_record c1 i r Hi)| | |].
      * intros d (Hi & Hk & Hh). split; [done|]. split; [|done]. split_and!; intros; rewrite Hk; auto.
      * intros rc d Hd. exact Hd.
      * intros d [Hi Hn]. split; auto.
    + eapply runs_conseq; [apply runs_finish| |intros a d Hd; exact Hd|auto].
      intros d (Hi & (K0 & K1 & K2) & Hh). split; [done|]. split; [|done]. split_and!; [done|done|].
      intros x Ho. rewrite K2 by done. apply installed_again. auto.
    + intros d Hi Hn. apply returned_failed; auto.
Qed.
End commit.

(** ** Commit and recovery *)
Section atomicity.
Context {D : Type} `{!Blockdev D, !BlockdevLaws D}.
(** The drive is up again after a power failure that left [f]. *)
Definition restarted (f : disk) (d : D) : Prop :=
  (forall x, content d x = f x) /\ forall g, image d g -> forall x, g x = f x.
(** A recovery from [f], by a server [e] that has mounted the file system, may itself be cut short and leave [f']. *)
Definition interrupted (e : ext2 D) (f f' : disk) : Prop :=
  exists e' d r e2, same_geometry e e' /\ restarted f d /\
    journal_replay (e' <| e_dev := d |>) = (r, e2) /\ image (e_dev e2) f'.
(** [e] is about to commit. *)
Record committing (e : ext2 D) : Prop := {
  com_journal : journal_ok e;
  com_records : records_ok e (g_journal_records e);
  com_some : g_journal_records e <> [];
  com_active : g_journal_active e = true;
  com_clear : imgs (fun f => f (jsec e 0) = zeros 512) (e_dev e)
}.

Section run.
Context (e : ext2 D) (Hcom : committing e).
Notation e1 := (e <| g_journal_sequence ::= fun n => u64 (n + 1) |>).
Notation recs := (g_journal_records e).
Notation uncommitted := (uncommitted e1 (image (e_dev e))).
Notation closing := (closing e1 (content (e_dev e)) recs).
Notation finished := (finished e1 (content (e_dev e)) recs).
Notation cleared := (cleared e1 (image (e_dev e))).

Lemma com_ok1 : journal_ok e1.
Proof. destruct (com_journal e Hcom) as [H1 H2 H3 H4 H5]. by constructor. Qed.
Lemma com_recs1 : records_ok e1 recs.
Proof. destruct (com_records e Hcom) as [H1 H2]. by constructor. Qed.
Lemma commit_start h : (h -> healthy (e_dev e)) ->
  st h uncommitted (filling e1 (content (e_dev e)) recs 1) (e_dev e).
Proof.
  intros Hh. split; [|split; [|done]].
  - intros f Hf. split; [by exists f|]. left. by apply (com_clear e Hcom).
  - split; [done|]. intros j Hj. lia.
Qed.
Lemma abort_dev (x : ext2 D) : journal_abort x = (Ret tt, (journal_abort x).2).
Proof. unfold journal_abort, mbind, M_bind, get. by destruct (g_journal_active x). Qed.
Lemma abort_dev_eq (x : ext2 D) : e_dev (journal_abort x).2 = e_dev x.
Proof. unfold journal_abort, mbind, M_bind, get. by destruct (g_journal_active x). Qed.
Lemma commit_phases r e' : journal_commit e = (r, e') ->
  imgs (fun f => uncommitted f \/ closing f) (e_dev e') /\
  (r = Ret 0 -> imgs finished (e_dev e') /\ finished (content (e_dev e'))) /\
  (healthy (e_dev e) -> r = Ret 0).
Proof.
  intros E. set (h := healthy (e_dev e)).
  assert (same_geometry e1 e1) as Hg by done.
  pose proof (runs_prepare e1 com_ok1 (image (e_dev e)) (content (e_dev e)) recs com_recs1 e1 Hg h eq_refl eq_refl
    (e_dev e) (commit_start h (fun x => x))) as Hp.
  pose proof (runs_mark e1 com_ok1 (image (e_dev e)) (content (e_dev e)) recs com_recs1 e1 Hg h eq_refl eq_refl) as Hm.
  pose proof (runs_home e1 com_ok1 (content (e_dev e)) recs com_recs1 e1 Hg h eq_refl) as Hho.
  replace (e1 <| e_dev := e_dev e |>) with e1 in Hp by by destruct e.
  unfold journal_commit in E. unfold mbind, M_bind, get, modify, mret, M_ret in E. cbv beta iota in E.
  unfold id in E. rewrite (com_active e Hcom) in E. cbn [negb] in E.
  rewrite bool_decide_eq_false_2 in E by apply (com_some e Hcom). cbv beta iota in E.
  destruct (commit_prepare e1) as [[rc|] ea]; destruct Hp as [Ea Hp].
  2: { injection E as <- <-. destruct Hp as [Hi Hn]. split_and!; [|done|done]. intros f Hf. left. auto. }
  destruct Hp as (Hi & Hh & Hr). destruct (Z.eqb_spec rc 0) as [->|Hrc]; cbn [negb] in E.
  2: { rewrite abort_dev in E. injection E as <- <-. split_and!; [|done|intros Hx; by destruct Hrc; auto].
       intros f Hf. left. apply Hi. by rewrite abort_dev_eq in Hf. }
  specialize (Hm (e_dev ea) (Hr eq_refl)). rewrite <- Ea in Hm.
  destruct (commit_mark ea) as [[rc|] eb]; destruct Hm as [Eb Hm].
  2: { injection E as <- <-. destruct Hm as [Hi' Hn]. split_and!; [|done|done].
       intros f Hf. destruct (marking_phase _ _ _ _ _ (Hi' f Hf)); [by left|right; by left]. }
  clear Hi Hh Hr. destruct Hm as (Hi & Hh & Hr). destruct (Z.eqb_spec rc 0) as [->|Hrc]; cbn [negb] in E.
  2: { injection E as <- <-. split_and!; [|done|intros Hx; by destruct Hrc; auto].
       intros f Hf. destruct (marking_phase _ _ _ _ _ (Hi f Hf)); [by left|right; by left]. }
  specialize (Hho (e_dev eb)). rewrite <- Eb in Hho.
  destruct (Hr eq_refl) as (Hi' & Hk & Hhe).
  assert (imgs (committed e1 (content (e_dev e)) recs) (e_dev eb)) as Hcm.
  { intros f Hf. destruct (Hi' f Hf) as [_ (K0 & K1 & K2)]. split_and!; auto. }
  specialize (Hho (conj Hcm (conj Hk Hhe))). destruct (commit_home eb) as [[rc|] ec]; destruct Hho as [Ec Hho].
  2: { injection E as <- <-. destruct Hho as [Hi2 Hn]. split_and!; [|done|done]. intros f Hf. right. auto. }
  destruct Hho as (Hi2 & Hh2 & Hr2). destruct (Z.eqb_spec rc 0) as [->|Hrc]; cbn [negb] in E.
  - injection E as <- <-. destruct (Hr2 eq_refl) as (Hfi & Hfc & _). split_and!; [|by intros _|done].
    intros f Hf. right. by apply Hi2.
  - injection E as <- <-. split_and!; [|done|intros Hx; by destruct Hrc; auto]. intros f Hf. right. by apply Hi2.
Qed.

(** Recovery stays within [P], and reaches [G] when it reports success. *)
Definition keeps (P G : disk -> Prop) : Prop :=
  forall f e' d r e2, P f -> same_geometry e e' -> restarted f d ->
  journal_replay (e' <| e_dev := d |>) = (r, e2) ->
  imgs P (e_dev e2) /\ (r = Ret 0 -> G (content (e_dev e2)) /\ imgs G (e_dev e2)).
Lemma keeps_rtc P G f f' : keeps P G -> P f -> rtc (interrupted e) f f' -> P f'.
Proof.
  intros Hk Hf Hr. induction Hr as [|f g f' (e' & d & r & e2 & Hg & Hd & E & Hi) _ IH]; [done|].
  apply IH. by apply (Hk f e' d r e2).
Qed.
Lemma restarted_st h (P : disk -> Prop) {HP : Pointwise P} f d :
  P f -> restarted f d -> (h -> healthy d) -> st h P P d.
Proof.
  intros Hf [Hc Hi] Hh. split; [|split; [|done]].
  - intros g Hg. eapply HP; [|exact Hf]. intros x. symmetry. by apply Hi.
  - eapply HP; [|exact Hf]. intros x. symmetry. apply Hc.
Qed.

Lemma geo1 e' : same_geometry e e' -> same_geometry e1 e'.
Proof. done. Qed.
Lemma keeps_uncommitted : keeps uncommitted cleared.
Proof.
  intros f e' d r e2 Hf Hg Hd E.
  pose proof (runs_replay_uncommitted e1 com_ok1 (image (e_dev e)) e' (geo1 e' Hg) False f Hf d
    (conj (proj2 Hd) (conj (proj1 Hd) (False_ind _)))) as H.
  rewrite E in H. destruct H as [_ H].
  destruct r as [rc|]; [|split; [apply H|done]]. destruct H as (Hi & Hr & _). split; [done|].
  intros [= ->]. auto.
Qed.
Lemma keeps_finished : keeps finished finished.
Proof.
  intros f e' d r e2 Hf Hg Hd E.
  pose proof (runs_replay_zero e1 com_ok1 e' (geo1 e' Hg) False finished finished (fun c Hc => proj1 Hc) d
    (restarted_st _ _ _ _ Hf Hd (False_ind _))) as H.
  rewrite E in H. destruct H as [_ H]. destruct r as [rc|]; [|split; [apply H|done]].
  destruct H as (Hi & _ & Hr). split; [done|]. intros [= ->]. destruct (Hr eq_refl) as (_ & Hk & _). auto.
Qed.
Lemma keeps_closing : keeps closing finished.
Proof.
  intros f e' d r e2 [Hf|Hf] Hg Hd E.
  - pose proof (runs_replay_committed e1 com_ok1 (content (e_dev e)) recs com_recs1 e' (geo1 e' Hg) False d
      (restarted_st _ _ _ _ Hf Hd (False_ind _))) as H.
    rewrite E in H. destruct H as [_ H]. destruct r as [rc|]; [|split; [apply H|done]].
    destruct H as (Hi & _ & Hr). split; [done|]. intros [= ->]. destruct (Hr eq_refl) as (Hfi & Hk & _). auto.
  - destruct (keeps_finished f e' d r e2 Hf Hg Hd E) as [Hi Hr]. split; [|done]. intros g Hgi. right. auto.
Qed.
End run.

(** C1: a journalled commit is atomic under power failures.  The drive may fail any call and the power may go in any
    call of the commit; then any number of recoveries may be cut short in the same way.  When a recovery at last
    reports success, the sectors outside the journal are all as some state of the medium before the commit had them,
    or all as the content before with every record of the transaction put in its place; it is the latter when the
    commit had reported success.  The journal is empty afterwards on every possible medium, so that the next commit
    starts from where this one did. *)
Theorem journal_atomic (e : ext2 D) r e1 f f' e' d e2 :
  committing e -> journal_commit e = (r, e1) ->
  image (e_dev e1) f -> rtc (interrupted e) f f' ->
  same_geometry e e' -> restarted f' d -> journal_replay (e' <| e_dev := d |>) = (Ret 0, e2) ->
  imgs (fun g => g (jsec e 0) = zeros 512) (e_dev e2) /\
  ((r <> Ret 0 /\ exists f0, image (e_dev e) f0 /\ forall x, outside e x -> content (e_dev e2) x = f0 x) \/
   forall x, outside e x -> content (e_dev e2) x = installed (g_journal_records e) (content (e_dev e)) x).
Proof.
  intros Hcom Ec Hf Hr Hg Hd E. destruct (commit_phases e Hcom _ _ Ec) as (Hi & Hfin & _).
  assert (forall P, keeps e P (finished (e <| g_journal_sequence ::= fun n => u64 (n + 1) |>)
    (content (e_dev e)) (g_journal_records e)) -> P f ->
    imgs (fun g => g (jsec e 0) = zeros 512) (e_dev e2) /\
    forall x, outside e x -> content (e_dev e2) x = installed (g_journal_records e) (content (e_dev e)) x) as Hnew.
  { intros P HP Hpf. pose proof (keeps_rtc e _ _ _ _ HP Hpf Hr) as Hf'.
    destruct (HP f' e' d _ e2 Hf' Hg Hd E) as [_ H]. destruct (H eq_refl) as [[_ Hx] Hi2].
    split; [|done]. intros g Hgi. by apply Hi2. }
  destruct (decide (r = Ret 0)) as [->|Hr0].
  - destruct (Hfin eq_refl) as [Hfi _]. destruct (Hnew _ (keeps_finished e Hcom) (Hfi f Hf)). auto.
  - destruct (Hi f Hf) as [Hu|Hc].
    + pose proof (keeps_rtc e _ _ _ _ (keeps_uncommitted e Hcom) Hu Hr) as Hf'.
      destruct (keeps_uncommitted e Hcom f' e' d _ e2 Hf' Hg Hd E) as [_ H].
      destruct (H eq_refl) as [[[Hold _] _] Hi2]. split; [|by left]. intros g Hgi. by apply Hi2.
    + destruct (Hnew _ (keeps_closing e Hcom) Hc). auto.
Qed.

(** C19: a journalled commit ends and can be recovered from.  On a healthy drive the commit reports success, with the
    records in place.  After a commit that met any failure or power loss, and any recoveries cut short, a recovery on
    a healthy drive reports success, unless the medium carries the header of a transaction that was only prepared. *)
Theorem journal_recovers (e : ext2 D) r e1 :
  committing e -> journal_commit e = (r, e1) ->
  (healthy (e_dev e) -> r = Ret 0 /\
    forall x, outside e x -> content (e_dev e1) x = installed (g_journal_records e) (content (e_dev e)) x) /\
  forall f f' e' d, image (e_dev e1) f -> rtc (interrupted e) f f' ->
  same_geometry e e' -> restarted f' d -> healthy d ->
  (exists n q l, f' (jsec e 0) = full_header 1 n q l) \/ exists e2, journal_replay (e' <| e_dev := d |>) = (Ret 0, e2).
Proof.
  intros Hcom Ec. destruct (commit_phases e Hcom _ _ Ec) as (Hi & Hfin & Hh). split.
  { intros Hhe. specialize (Hh Hhe). split; [done|]. by destruct (Hfin Hh) as [_ [_ Hx]]. }
  intros f f' e' d Hf Hr Hg Hd Hhe. destruct (journal_replay (e' <| e_dev := d |>)) as [r2 e2] eqn:E.
  destruct (Hi f Hf) as [Hu|Hc].
  - pose proof (keeps_rtc e _ _ _ _ (keeps_uncommitted e Hcom) Hu Hr) as Hf'.
    destruct (proj2 Hf') as [Hz|(n & q & l & _ & Hp)]; [right|left; by exists n, q, l].
    pose proof (runs_replay_uncommitted _ (com_ok1 e Hcom) _ e' (geo1 e e' Hg) True f' Hf' d
      (conj (proj2 Hd) (conj (proj1 Hd) (fun _ => Hhe)))) as H.
    rewrite E in H. destruct H as [_ H]. destruct r2 as [rc|]; [|by destruct H as [_ []]].
    destruct H as (_ & _ & H). rewrite H by done. by exists e2.
  - right. destruct (keeps_rtc e _ _ _ _ (keeps_closing e Hcom) Hc Hr) as [Hf'|Hf'].
    + pose proof (runs_replay_committed _ (com_ok1 e Hcom) _ _ (com_recs1 e Hcom) e' (geo1 e e' Hg) True d
        (restarted_st _ _ _ _ Hf' Hd (fun _ => Hhe))) as H.
      rewrite E in H. destruct H as [_ H]. destruct r2 as [rc|]; [|by destruct H as [_ []]].
      destruct H as (_ & H & _). rewrite H by done. by exists e2.
    + pose proof (runs_replay_zero _ (com_ok1 e Hcom) e' (geo1 e e' Hg) True (finished _ _ _) (finished _ _ _)
        (fun c Hc => proj1 Hc) d
        (restarted_st _ _ _ _ Hf' Hd (fun _ => Hhe))) as H.
      rewrite E in H. destruct H as [_ H]. destruct r2 as [rc|]; [|by destruct H as [_ []]].
      destruct H as (_ & H & _). rewrite H by done. by exists e2.
Qed.
End atomicity.

(** ** A drive with a write-back cache *)
#[local] Arguments installed : simpl never.
Inductive fate := Works | Fails | PowerCut.
(** What is on the medium, the writes on their way to it, and what becomes of the next calls. *)
Record ramdisk := mk_ramdisk { rd_durable : disk; rd_cache : list (Z * list Z); rd_fates : list fate }.
Definition rd_content (d : ramdisk) : disk := installed (rd_cache d) (rd_durable d).
Definition rd_image (d : ramdisk) (f : disk) : Prop :=
  forall x, f x = rd_durable d x \/ (x, f x) ∈ rd_cache d.
Definition rd_next (d : ramdisk) : fate * ramdisk :=
  match rd_fates d with
  | [] => (Works, d)
  | o :: os => (o, mk_ramdisk (rd_durable d) (rd_cache d) os)
  end.
Definition rd_answer {A} (o : fate) (ok bad : A) : res A :=
  match o with Works => Ret ok | Fails => Ret bad | PowerCut => Lost end.
Definition rd_read (s n : Z) (d : ramdisk) : res (Z * list Z) * ramdisk :=
  let '(o, d) := rd_next d in (rd_answer o (0, mjoin (rd_content d <$> seqZ s n)) (-1, []), d).
(** A write that fails, or in which the power goes, may have reached the cache. *)
Definition rd_write (s n : Z) (buf : list Z) (d : ramdisk) : res Z * ramdisk :=
  let '(o, d) := rd_next d in
  (rd_answer o 0 (-1),
   mk_ramdisk (rd_durable d) (rd_cache d ++ ((fun i => (s + i, sector_of buf i)) <$> seqZ 0 n)) (rd_fates d)).
Definition rd_flush (d : ramdisk) : res Z * ramdisk :=
  let '(o, d) := rd_next d in
  (rd_answer o 0 (-1), match o with Works => mk_ramdisk (rd_content d) [] (rd_fates d) | _ => d end).
#[export] Instance ramdisk_blockdev : Blockdev ramdisk := {
  blkdev_read := rd_read; blkdev_write := rd_write; blkdev_flush := rd_flush;
  content := rd_content; image := rd_image; healthy := fun d => rd_fates d = []
}.

Lemma rd_next_same d o d' : rd_next d = (o, d') ->
  rd_durable d' = rd_durable d /\ rd_cache d' = rd_cache d /\ (rd_fates d = [] -> o = Works /\ rd_fates d' = []).
Proof. unfold rd_next. destruct (rd_fates d) eqn:E; intros [= <- <-]; repeat split; done. Qed.
Lemma installed_chunk (s : Z) (g : Z -> list Z) (c : disk) n x :
  installed ((fun i => (s + i, g i)) <$> seqZ 0 (Z.of_nat n)) c x =
  if (s <=? x) && (x <? s + Z.of_nat n) then g (x - s) else c x.
Proof.
  induction n as [|n IH].
  - change (Z.of_nat 0) with 0. rewrite Z.add_0_r.
    destruct (Z.leb_spec s x), (Z.ltb_spec x s); cbn [andb]; lia || done.
  - rewrite seqZ_S, fmap_app, Z.add_0_l. cbn [fmap list_fmap]. rewrite installed_snoc, IH. cbn [fst snd].
    destruct (Z.eqb_spec x (s + Z.of_nat n)) as [->|Hne].
    + destruct (Z.leb_spec s (s + Z.of_nat n)), (Z.ltb_spec (s + Z.of_nat n) (s + Z.of_nat (S n))); cbn; try lia.
      f_equal. lia.
    + destruct (Z.leb_spec s x), (Z.ltb_spec x (s + Z.of_nat n)), (Z.ltb_spec x (s + Z.of_nat (S n))); cbn; done || lia.
Qed.
Lemma rd_image_ext d f g : rd_image d f -> (forall x, g x = f x) -> rd_image d g.
Proof. intros Hf Hx x. rewrite Hx. apply Hf. Qed.
#[export] Instance ramdisk_laws : BlockdevLaws ramdisk.
Proof.
  split.
  - intros s n d. cbn. unfold rd_read. destruct (rd_next d) as [o d'] eqn:E. apply rd_next_same in E as (E1 & E2 & E3).
    unfold rd_content, rd_image. rewrite E1, E2. split_and!; [done|done| |].
    + intros l. destruct o; cbn; congruence.
    + intros Hh. destruct (E3 Hh) as [-> ->]. cbn. eauto.
  - intros s n buf d Hl. cbn. unfold rd_write. destruct (rd_next d) as [o d'] eqn:E.
    apply rd_next_same in E as (E1 & E2 & E3). assert (n = Z.of_nat (Z.to_nat n)) as Hn by lia.
    unfold rd_content, rd_image. cbn. rewrite E1, E2. split_and!.
    + intros f Hf. exists (fun x => if decide (f x = rd_durable d x \/ (x, f x) ∈ rd_cache d) then f x else rd_durable d x).
      split; [intros x; case_decide; [done|by left]|]. intros x. case_decide as Hx; [by left|right].
      destruct (Hf x) as [|Hc]; [tauto|]. apply elem_of_app in Hc as [|Hc]; [tauto|].
      apply list_elem_of_fmap in Hc as (i & [= -> ->] & Hi%elem_of_seqZ). split; [lia|]. f_equal. lia.
    + intros _ x. rewrite installed_app, Hn. apply installed_chunk.
    + intros Hh. destruct (E3 Hh) as [-> ->]. done.
  - intros d. cbn. unfold rd_flush. destruct (rd_next d) as [o d'] eqn:E. apply rd_next_same in E as (E1 & E2 & E3).
    unfold rd_content, rd_image. destruct o; cbn; rewrite ?E1, ?E2.
    + split_and!; [done| |by intros _ f Hf x; destruct (Hf x) as [|?%not_elem_of_nil]|].
      * intros f Hf x. destruct (Hf x) as [->|?%not_elem_of_nil]; [|done].
        destruct (installed_cases (rd_durable d) (rd_cache d) x) as [|(data & Hd & ->)]; auto.
      * intros Hh. by destruct (E3 Hh).
    + split_and!; try done. intros Hh. by destruct (E3 Hh).
    + split_and!; try done. intros Hh. by destruct (E3 Hh).
Qed.

(** ** A small file system *)
Definition demo_geometry (d : ramdisk) : ext2 ramdisk :=
  mk_ext2 d (zeros 1024) 1024 2 4096 128 4096 128 1 128 1 2048 true (0, 0) (0, 0)
    (seqZ 100 1024) true true false 0 (zeros 1024) [(4, replicate 512 7)].
(** It commits one record on a drive whose calls have the given fates. *)
Definition demo_commit (fates : list fate) : ext2 ramdisk :=
  demo_geometry (mk_ramdisk (fun _ => zeros 512) [] fates).
(** The power goes when the record is on its way to its place. *)
Definition demo_cut : ext2 ramdisk := demo_commit (replicate 12 Works ++ [PowerCut]).
Definition demo_cut_medium : disk := rd_content (e_dev (journal_commit demo_cut).2).
(** The power goes in the first flush; of the journal, only the header has reached the medium. *)
Definition demo_torn : ext2 ramdisk := demo_commit (replicate 6 Works ++ [PowerCut]).
Definition demo_torn_medium : disk := fun x =>
  if x =? 200 then rd_content (e_dev (journal_commit demo_torn).2) 200 else zeros 512.

Lemma demo_committing fates : committing (demo_commit fates).
Proof.
  split.
  - split; [cbn; lia| |apply NoDup_seqZ|cbn [g_journal_blocks demo_commit demo_geometry]|cbn; lia].
    + apply list.Forall_forall. intros b Hb%elem_of_seqZ. lia.
    + rewrite length_seqZ. cbn. lia.
  - split; [cbn; lia|]. constructor; [|constructor]. split_and!; [cbn; lia|cbn; lia|by vm_compute|done].
  - done.
  - done.
  - intros f Hf. by destruct (Hf (jsec (demo_commit fates) 0)) as [|?%not_elem_of_nil].
Qed.
Lemma rd_image_content d : rd_image d (rd_content d).
Proof. intros x. destruct (installed_cases (rd_durable d) (rd_cache d) x) as [|(data & Hd & E)]; [by left|right]. by rewrite <- E in Hd. Qed.
Lemma rd_restarted f : restarted f (mk_ramdisk f [] []).
Proof. split; [done|]. intros g Hg x. by destruct (Hg x) as [|?%not_elem_of_nil]. Qed.

Lemma pair_fst {A B} (p : A * B) a : p.1 = a -> p = (a, p.2).
Proof. intros <-. apply surjective_pairing. Qed.

Notation demo_recovered := (journal_replay (demo_cut <| e_dev := mk_ramdisk demo_cut_medium [] [] |>)).
Lemma demo_recovers : demo_recovered.1 = Ret 0.
Proof. vm_compute. reflexivity. Qed.
Lemma demo_recovery :
  journal_replay (demo_cut <| e_dev := mk_ramdisk demo_cut_medium [] [] |>) = (Ret 0, demo_recovered.2).
Proof. exact (pair_fst demo_recovered (Ret 0) demo_recovers). Qed.
Lemma demo_cut_image : image (e_dev (journal_commit demo_cut).2) demo_cut_medium.
Proof. unfold demo_cut_medium. apply rd_image_content. Qed.
Lemma demo_cut_committing : committing demo_cut.
Proof. apply demo_committing. Qed.
Lemma journal_atomic_witness :
  imgs (fun g => g (jsec demo_cut 0) = zeros 512) (e_dev demo_recovered.2) /\
  (((journal_commit demo_cut).1 <> Ret 0 /\ exists f0, image (e_dev demo_cut) f0 /\
      forall x, outside demo_cut x -> content (e_dev demo_recovered.2) x = f0 x) \/
   forall x, outside demo_cut x ->
     content (e_dev demo_recovered.2) x = installed (g_journal_records demo_cut) (content (e_dev demo_cut)) x).
Proof.
  exact (@journal_atomic ramdisk _ _ demo_cut (journal_commit demo_cut).1 (journal_commit demo_cut).2
    demo_cut_medium demo_cut_medium demo_cut (mk_ramdisk demo_cut_medium [] []) demo_recovered.2
    demo_cut_committing (surjective_pairing (journal_commit demo_cut)) demo_cut_image (rtc_refl _ _)
    (conj eq_refl (conj eq_refl eq_refl)) (rd_restarted demo_cut_medium) demo_recovery).
Defined.
Lemma journal_recovers_witness :
  (healthy (e_dev demo_cut) -> (journal_commit demo_cut).1 = Ret 0 /\
    forall x, outside demo_cut x -> content (e_dev (journal_commit demo_cut).2) x =
      installed (g_journal_records demo_cut) (content (e_dev demo_cut)) x) /\
  forall f f' e' d, image (e_dev (journal_commit demo_cut).2) f -> rtc (interrupted demo_cut) f f' ->
  same_geometry demo_cut e' -> restarted f' d -> healthy d ->
  (exists n q l, f' (jsec demo_cut 0) = full_header 1 n q l) \/
  exists e2, journal_replay (e' <| e_dev := d |>) = (Ret 0, e2).
Proof.
  exact (@journal_recovers ramdisk _ _ demo_cut (journal_commit demo_cut).1 (journal_commit demo_cut).2
    demo_cut_committing (surjective_pairing (journal_commit demo_cut))).
Defined.

