(* ===== verification/Ext2Txn.v ===== *)
(** * Transactions of the ext2 file server

    What [journal_metadata_read] and [journal_metadata_write] promise the rest of
    the server: inside a transaction the server sees its own writes, the drive
    sees nothing of them before the commit, an abort takes them back and a commit
    puts all of them in place. *)
From Stdlib Require Import ZArith Lia.
From stdpp Require Import base numbers sets list list_numbers functions relations.
From S2P Require Import Prelude Ext2Journal Ext2Crash.

Notation disk := (Z -> list Z) (only parsing).

(** ** Runs of sectors *)
(** [buf] written from sector [s] on. *)
Definition chunk (s n : Z) (buf : list Z) (c : disk) : disk := fun x =>
  if (s <=? x) && (x <? s + n) then sector_of buf (x - s) else c x.
Definition run_of (c : disk) (s n : Z) : list Z := mjoin (c <$> seqZ s n).
Definition sectors_ok (c : disk) : Prop := forall x, length (c x) = 512%nat.

Lemma run_cons c s n : run_of c s (Z.of_nat (S n)) = c s ++ run_of c (s + 1) (Z.of_nat n).
Proof.
  unfold run_of. rewrite seqZ_cons by lia. rewrite fmap_cons. unfold Z.succ.
  by replace (Z.pred (Z.of_nat (S n))) with (Z.of_nat n) by lia.
Qed.
Lemma run_length c s n : sectors_ok c -> length (run_of c s (Z.of_nat n)) = (512 * n)%nat.
Proof.
  intros Hc. revert s. induction n as [|n IH]; intros s; [done|]. rewrite run_cons, length_app, Hc, IH. lia.
Qed.
Lemma at_app a b j : 0 <= j ->
  at_ (a ++ b) j = if j <? Z.of_nat (length a) then at_ a j else at_ b (j - Z.of_nat (length a)).
Proof.
  intros Hj. rewrite !at_lookup. destruct (Z.ltb_spec j (Z.of_nat (length a))).
  - by rewrite lookup_app_l by lia.
  - rewrite lookup_app_r by lia. do 2 f_equal. lia.
Qed.
Lemma at_run c s n j : sectors_ok c -> 0 <= j < 512 * Z.of_nat n ->
  at_ (run_of c s (Z.of_nat n)) j = at_ (c (s + j / 512)) (j mod 512).
Proof.
  intros Hc. revert s j. induction n as [|n IH]; intros s j Hj; [lia|].
  rewrite run_cons, at_app, Hc by lia. destruct (Z.ltb_spec j (Z.of_nat 512)).
  - rewrite Z.div_small, Z.mod_small, Z.add_0_r by lia. done.
  - change (Z.of_nat 512) with 512 in *. rewrite IH by lia.
    pose proof (Z.div_add (j - 512) 1 512 ltac:(lia)) as Ed. pose proof (Z.mod_add (j - 512) 1 512 ltac:(lia)) as Em.
    replace (j - 512 + 1 * 512) with j in * by lia. rewrite Ed, Em. do 2 f_equal. lia.
Qed.
(** A sector put over a run. *)
Lemma blit_run c s n t data :
  sectors_ok c -> length data = 512%nat -> s <= t < s + Z.of_nat n ->
  blit ((t - s) * 512) data (run_of c s (Z.of_nat n)) =
  run_of (fun x => if x =? t then data else c x) s (Z.of_nat n).
Proof.
  intros Hc Hd Ht.
  assert (sectors_ok (fun x => if x =? t then data else c x)) as Hc' by (intros x; by destruct (x =? t)).
  apply at_ext; [by rewrite blit_length, !run_length|].
  rewrite blit_length, run_length by done. intros j Hj.
  rewrite at_blit by (rewrite ?run_length, ?Hd by done; lia).
  rewrite !at_run by (done || lia). rewrite Hd. change (Z.of_nat 512) with 512.
  pose proof (Z.div_mod j 512 ltac:(lia)). pose proof (Z.mod_pos_bound j 512 ltac:(lia)).
  destruct (Z.eqb_spec (s + j / 512) t).
  - replace ((t - s) * 512 <=? j) with true by (symmetry; apply Z.leb_le; lia).
    replace (j <? (t - s) * 512 + 512) with true by (symmetry; apply Z.ltb_lt; lia). cbn [andb]. f_equal. lia.
  - destruct (Z.leb_spec ((t - s) * 512) j), (Z.ltb_spec j ((t - s) * 512 + 512)); cbn [andb]; lia || done.
Qed.
Lemma run_ext c c' s n : (forall x, s <= x < s + n -> c x = c' x) -> run_of c s n = run_of c' s n.
Proof.
  intros Hx. unfold run_of. f_equal. apply list_fmap_ext. intros i x Hi%list_elem_of_lookup_2.
  apply Hx. by apply elem_of_seqZ in Hi.
Qed.
Lemma sector_of_length buf n i :
  Z.of_nat (length buf) = 512 * n -> 0 <= i < n -> length (sector_of buf i) = 512%nat.
Proof. intros Hl Hi. unfold sector_of. rewrite length_take, length_drop. lia. Qed.
Lemma chunk_ok s n buf c : Z.of_nat (length buf) = 512 * n -> sectors_ok c -> sectors_ok (chunk s n buf c).
Proof.
  intros Hl Hc x. unfold chunk. destruct (Z.leb_spec s x), (Z.ltb_spec x (s + n)); cbn [andb]; try apply Hc.
  eapply sector_of_length; [done|lia].
Qed.

(** ** The records of a transaction over the drive *)
Lemma installed_in recs c x data : NoDup recs.*1 -> (x, data) ∈ recs -> installed recs c x = data.
Proof.
  induction recs as [|r recs IH] using rev_ind; intros Hn Hin; [by apply not_elem_of_nil in Hin|].
  rewrite fmap_app in Hn. apply list.NoDup_app in Hn as (Hn & Hd & _). rewrite installed_snoc.
  apply elem_of_app in Hin as [Hin|Hin%list_elem_of_singleton].
  - destruct (Z.eqb_spec x r.1) as [->|]; [|auto]. destruct (Hd r.1); [|by left].
    apply list_elem_of_fmap. by exists (r.1, data).
  - subst r. cbn [fst snd]. by rewrite Z.eqb_refl.
Qed.
Lemma installed_ext recs (c c' : disk) : (forall x, c x = c' x) -> forall x, installed recs c x = installed recs c' x.
Proof.
  intros E. induction recs as [|r recs IH] using rev_ind; intros x; [apply E|]. rewrite !installed_snoc. by rewrite IH.
Qed.
Lemma installed_out recs c x : x ∉ recs.*1 -> installed recs c x = c x.
Proof.
  induction recs as [|r recs IH] using rev_ind; intros Hn; [done|]. rewrite installed_snoc.
  rewrite fmap_app, not_elem_of_app in Hn. destruct Hn as [Hn Hr]. cbn in Hr.
  destruct (Z.eqb_spec x r.1) as [->|]; [|auto]. destruct Hr. by apply list_elem_of_singleton.
Qed.
Lemma record_put_spec recs recs' c t data :
  NoDup recs.*1 -> record_put t data recs = Some recs' ->
  NoDup recs'.*1 /\ forall x, installed recs' c x = if x =? t then data else installed recs c x.
Proof.
  intros Hn. unfold record_put. destruct (list_find _ recs) as [[i r]|] eqn:E.
  - intros [= <-]. apply list_find_Some in E as (Hi & Ht & _). pose proof (lookup_lt_Some _ _ _ Hi) as Hlt.
    assert ((<[i:=(t, data)]> recs).*1 = recs.*1) as Ef.
    { rewrite list_fmap_insert. apply list_insert_id. rewrite list_lookup_fmap, Hi. cbn. by rewrite Ht. }
    split; [by rewrite Ef|]. intros x. destruct (Z.eqb_spec x t) as [->|Hne].
    + apply installed_in; [by rewrite Ef|]. apply list_elem_of_lookup. exists i. by apply list_lookup_insert_eq.
    + destruct (decide (x ∈ recs.*1)) as [Hx|Hx]; [|by rewrite !installed_out by (by rewrite ?Ef)].
      apply list_elem_of_fmap in Hx as ([x' dx] & -> & Hx). cbn [fst] in *.
      rewrite (installed_in recs c x' dx) by done. apply installed_in; [by rewrite Ef|].
      apply list_elem_of_lookup in Hx as [k Hk]. apply list_elem_of_lookup. exists k.
      rewrite list_lookup_insert_ne; [done|]. intros <-. rewrite Hi in Hk. injection Hk as ->. by cbn in Ht.
  - break_if; [done|]. intros [= <-]. split; [|intros x; apply installed_snoc].
    rewrite fmap_app. apply list.NoDup_app. split_and!; [done| |apply NoDup_singleton].
    intros y Hy Hy2%list_elem_of_singleton. cbn in Hy2. subst y.
    apply list_elem_of_fmap in Hy as (r & -> & Hr). apply list_find_None in E.
    rewrite list.Forall_forall in E. by apply (E r Hr).
Qed.
(** Reading through the records. *)
Lemma overlay_run recs c s n :
  sectors_ok c -> Forall (fun r => length r.2 = 512%nat) recs ->
  overlay_records s (Z.of_nat n) recs (run_of c s (Z.of_nat n)) = run_of (installed recs c) s (Z.of_nat n) /\
  sectors_ok (installed recs c).
Proof.
  intros Hc. induction recs as [|r recs IH] using rev_ind; intros Hr; [done|].
  apply list.Forall_app in Hr as [Hr Hl]. apply list.Forall_cons in Hl as [Hl _].
  destruct (IH Hr) as [E Hi]. split.
  - unfold overlay_records. rewrite foldl_app. cbn [foldl].
    change (foldl _ _ recs) with (overlay_records s (Z.of_nat n) recs (run_of c s (Z.of_nat n))). rewrite E.
    destruct (Z.ltb_spec r.1 s), (Z.geb_spec r.1 (s + Z.of_nat n)); cbn [orb];
      try (apply run_ext; intros x Hx; rewrite installed_snoc; destruct (Z.eqb_spec x r.1); [lia|done]).
    rewrite blit_run by (done || lia). apply run_ext. intros x _. by rewrite installed_snoc.
  - intros x. rewrite installed_snoc. destruct (x =? r.1); [done|apply Hi].
Qed.

(** ** The operations *)
Section txn.
Context {D : Type} `{!Blockdev D, !BlockdevLaws D}.
Implicit Types e : ext2 D.

(** What the server sees. *)
Definition view e : disk :=
  if g_journal_active e then installed (g_journal_records e) (content (e_dev e)) else content (e_dev e).
Definition in_fs e (x : Z) : Prop := 0 <= x < g_blocks_count e * g_sectors_per_block e.
(** A transaction under way: its records are distinct sectors of the file system outside the journal, and there is
    room for them. *)
Record txn_ok e : Prop := {
  txn_active : g_journal_active e = true;
  txn_nodup : NoDup (g_journal_records e).*1;
  txn_room : (length (g_journal_records e) <= 64)%nat;
  txn_data : Forall (fun r => in_fs e r.1 /\ outside e r.1 /\ length r.2 = 512%nat) (g_journal_records e)
}.

Definition write_req : Type := Z * Z * list Z.
(** The buffer fits, and its place is in the file system. *)
Definition request_ok (e : ext2 D) (w : write_req) : Prop :=
  let '(s, n, bytes) := w in
  0 <= n /\ 0 <= s /\ s + n <= g_blocks_count e * g_sectors_per_block e /\ Z.of_nat (length bytes) = 512 * n.

Lemma record_put_ok e t data recs' :
  txn_ok e -> in_fs e t -> outside e t -> length data = 512%nat ->
  record_put t data (g_journal_records e) = Some recs' -> txn_ok (e <| g_journal_records := recs' |>).
Proof.
  intros [Ha Hn Hl Hd] Hin Ho Hlen E.
  pose proof (record_put_spec _ _ (fun _ => []) _ _ Hn E) as [Hn' _].
  split; [done|done| |]; change (g_journal_records (e <| g_journal_records := recs' |>)) with recs'.
  - unfold record_put in E. destruct (list_find _ _) as [[i r]|].
    + injection E as <-. by rewrite length_insert.
    + destruct (Z.eqb_spec (Z.of_nat (length (g_journal_records e))) 64); [done|]. injection E as <-.
      rewrite length_app. cbn. lia.
  - unfold record_put in E. destruct (list_find _ _) as [[i r]|].
    + injection E as <-. by apply list.Forall_insert.
    + break_if_in E; [done|]. injection E as <-. apply list.Forall_app. split; [done|].
      by apply list.Forall_cons.
Qed.

Lemma put_sector_spec sector bytes n s e :
  txn_ok e -> Z.of_nat (length bytes) = 512 * n -> 0 <= s < n -> in_fs e (sector + s) ->
  let '(r, e') := put_sector sector bytes s e in
  exists recs, e' = e <| g_journal_records := recs |> /\ txn_ok e' /\
  (r = Ret 0 \/ r = Ret (-1)) /\
  (r = Ret 0 -> outside e (sector + s) /\
    forall c x, installed recs c x =
      if x =? sector + s then sector_of bytes s else installed (g_journal_records e) c x) /\
  (outside e (sector + s) -> (length (g_journal_records e) < 64)%nat ->
    r = Ret 0 /\ (length recs <= S (length (g_journal_records e)))%nat).
Proof.
  intros Hok Hl Hs Hin. unfold put_sector, mbind, M_bind, get, id, modify, mret, M_ret. cbv beta iota.
  assert (e = e <| g_journal_records := g_journal_records e |>) as He by by destruct e.
  destruct (journal_storage_sector (sector + s) e) eqn:Eo.
  { exists (g_journal_records e). split; [done|]. split; [done|]. split; [by right|].
    split; [done|]. intros Ho. unfold outside in Ho. congruence. }
  destruct (record_put _ _ _) as [recs|] eqn:Ep.
  - exists recs. split; [done|]. split.
    { eapply record_put_ok; [done|done|done| |exact Ep]. eapply sector_of_length; [done|lia]. }
    split; [by left|]. split.
    + intros _. split; [done|]. intros c x. by apply (record_put_spec _ _ _ _ _ (txn_nodup e Hok) Ep).
    + intros _ _. split; [done|]. unfold record_put in Ep. destruct (list_find _ _) as [[i r]|].
      * injection Ep as <-. rewrite length_insert. lia.
      * break_if_in Ep; [done|]. injection Ep as <-. rewrite length_app. cbn. lia.
  - exists (g_journal_records e). split; [done|]. split; [done|]. split; [by right|]. split; [done|].
    intros _ Hlt. unfold record_put in Ep. destruct (list_find _ _) as [[i r]|]; [done|].
    destruct (Z.eqb_spec (Z.of_nat (length (g_journal_records e))) 64); [lia|done].
Qed.

(** The sectors from [i] on are put one after the other. *)
Lemma put_sectors_spec sector bytes n k i e :
  txn_ok e -> Z.of_nat (length bytes) = 512 * n -> 0 <= i -> i + Z.of_nat k = n ->
  0 <= sector -> sector + n <= g_blocks_count e * g_sectors_per_block e ->
  let '(r, e') := loop k i (put_sector sector bytes) e in
  exists recs, e' = e <| g_journal_records := recs |> /\ txn_ok e' /\
  (r = Ret 0 \/ r = Ret (-1)) /\
  (r = Ret 0 -> (forall s, i <= s < n -> outside e (sector + s)) /\
    forall c x, installed recs c x =
      if (sector + i <=? x) && (x <? sector + n) then sector_of bytes (x - sector) else installed (g_journal_records e) c x) /\
  ((forall s, i <= s < n -> outside e (sector + s)) -> (length (g_journal_records e) + k <= 64)%nat ->
    r = Ret 0 /\ (length recs <= length (g_journal_records e) + k)%nat).
Proof.
  intros Hok Hl Hi. revert i e Hok Hi. induction k as [|k IH]; intros i e Hok Hi Hn Hs0 Hs1; cbn [loop].
  { exists (g_journal_records e). split; [by destruct e|]. split; [done|]. split; [by left|]. split; [|intros _ _; split; [done|lia]].
    intros _. split; [lia|]. intros c x. destruct (Z.leb_spec (sector + i) x), (Z.ltb_spec x (sector + n)); cbn; lia || done. }
  unfold mbind, M_bind. pose proof (put_sector_spec sector bytes n i e Hok Hl ltac:(lia) ltac:(unfold in_fs; lia)) as Hp.
  destruct (put_sector sector bytes i e) as [r1 e1]. destruct Hp as (recs1 & -> & Hok1 & Hr & H0 & Ht).
  destruct Hr as [->| ->]; cbn [negb Z.eqb].
  - specialize (IH (i + 1) (e <| g_journal_records := recs1 |>) Hok1 ltac:(lia) ltac:(lia) Hs0 Hs1).
    destruct (loop k (i + 1) (put_sector sector bytes) (e <| g_journal_records := recs1 |>)) as [r2 e2].
    destruct IH as (recs2 & -> & Hok2 & Hr2 & H2 & Ht2). exists recs2. split; [by destruct e|]. split; [done|].
    split; [done|]. destruct (H0 eq_refl) as [Ho Hx]. split.
    + intros E. destruct (H2 E) as [Ho2 Hx2]. split.
      { intros s Hs. destruct (decide (s = i)) as [->|]; [done|]. apply Ho2. lia. }
      intros c x. rewrite Hx2. change (g_journal_records (e <| g_journal_records := recs1 |>)) with recs1. rewrite Hx.
      destruct (Z.eqb_spec x (sector + i)) as [->|Hne].
      * replace (sector + (i + 1) <=? sector + i) with false by (symmetry; apply Z.leb_gt; lia).
        replace (sector + i <=? sector + i) with true by (symmetry; apply Z.leb_le; lia).
        replace (sector + i <? sector + n) with true by (symmetry; apply Z.ltb_lt; lia).
        cbn [andb]. f_equal. lia.
      * destruct (Z.leb_spec (sector + (i + 1)) x), (Z.leb_spec (sector + i) x); cbn [andb]; lia || done.
    + change (g_journal_records (e <| g_journal_records := recs1 |>)) with recs1 in Ht2.
      intros Hall Hroom. destruct Ht as [_ Hl1]; [done|lia|].
      destruct Ht2 as [-> Hl2]; [intros s Hs; apply Hall; lia|lia|]. split; [done|lia].
  - exists recs1. split; [done|]. split; [done|]. split; [by right|]. split; [done|].
    intros Hall Hroom. by destruct Ht as [? _]; [apply Hall; lia|lia|].
Qed.

Lemma metadata_write_spec sector n bytes e :
  txn_ok e -> request_ok e (sector, n, bytes) ->
  let '(r, e') := journal_metadata_write sector n bytes e in
  exists recs, e' = e <| g_journal_records := recs |> /\ txn_ok e' /\
  (r = Ret 0 \/ r = Ret (-1)) /\
  (r = Ret 0 -> (forall s, 0 <= s < n -> outside e (sector + s)) /\
                forall x, view e' x = chunk sector n bytes (view e) x) /\
  ((forall s, 0 <= s < n -> outside e (sector + s)) -> Z.of_nat (length (g_journal_records e)) + n <= 64 ->
    r = Ret 0 /\ Z.of_nat (length recs) <= Z.of_nat (length (g_journal_records e)) + n).
Proof.
  intros Hok (Hn & Hs0 & Hs1 & Hl). unfold journal_metadata_write. unfold mbind at 1, M_bind at 1, get.
  rewrite (txn_active e Hok). cbn [negb].
  pose proof (put_sectors_spec sector bytes n (Z.to_nat n) 0 e Hok Hl ltac:(lia) ltac:(lia) Hs0 Hs1) as Hp.
  destruct (loop _ _ _ e) as [r e']. destruct Hp as (recs & -> & Hok' & Hr & H0 & Ht).
  exists recs. split; [done|]. split; [done|]. split; [done|]. split.
  - intros E. destruct (H0 E) as [Ho Hx]. split; [done|]. intros x. unfold view.
    rewrite (txn_active _ Hok), (txn_active _ Hok'). unfold chunk.
    change (g_journal_records (e <| g_journal_records := recs |>)) with recs.
    change (e_dev (e <| g_journal_records := recs |>)) with (e_dev e). by rewrite Hx, Z.add_0_r.
  - intros Ho Hroom. destruct Ht as [-> Hlen]; [done|lia|]. split; [done|lia].
Qed.

Lemma view_ok e : txn_ok e -> sectors_ok (content (e_dev e)) -> sectors_ok (view e).
Proof.
  intros Hok Hc. unfold view. rewrite (txn_active e Hok).
  apply (overlay_run (g_journal_records e) (content (e_dev e)) 0 0 Hc).
  eapply list.Forall_impl; [apply (txn_data e Hok)|]. by intros r (_ & _ & ?).
Qed.
Lemma metadata_read_spec sector n e :
  txn_ok e -> 0 <= n -> sectors_ok (content (e_dev e)) ->
  let '(r, e') := journal_metadata_read sector n e in
  exists d, e' = e <| e_dev := d |> /\ (forall x, content d x = content (e_dev e) x) /\
  (forall f, image d f -> image (e_dev e) f) /\
  (forall l, r = Ret (0, l) -> l = run_of (view e) sector n) /\
  (healthy (e_dev e) -> healthy d /\ exists l, r = Ret (0, l)).
Proof.
  intros Hok Hn Hc. unfold journal_metadata_read, mbind, M_bind, get, on_dev, mret, M_ret, id.
  pose proof (read_law sector n (e_dev e)) as Hr. destruct (blkdev_read sector n (e_dev e)) as [r d].
  destruct Hr as (Hx & Hi & Hl & Hh). destruct r as [[rc l]|].
  2: { exists d. split_and!; try done. }
  destruct (Z.eqb_spec rc 0) as [->|Hrc]; cbn [negb].
  2: { exists d. split_and!; try done. intros Hhe. destruct (Hh Hhe) as [_ [l' E]]. by injection E. }
  change (g_journal_active (e <| e_dev := d |>)) with (g_journal_active e). rewrite (txn_active e Hok). cbn [negb].
  exists d. split_and!; [done|done|done| |].
  - intros l' [= <-]. rewrite (Hl l eq_refl). change (g_journal_records (e <| e_dev := d |>)) with (g_journal_records e).
    unfold view. rewrite (txn_active e Hok). rewrite <- (Z2Nat.id n) by done. apply overlay_run; [done|].
    eapply list.Forall_impl; [apply (txn_data e Hok)|]. by intros r (_ & _ & ?).
  - intros Hhe. destruct (Hh Hhe) as [? _]. eauto.
Qed.

(** *** A whole transaction *)
Fixpoint metadata_writes (ws : list write_req) : M D Z :=
  match ws with
  | [] => mret 0
  | (s, n, bytes) :: ws => try journal_metadata_write s n bytes; metadata_writes ws
  end.
(** What the drive would hold after the writes, done directly. *)
Definition written (ws : list write_req) (c : disk) : disk :=
  foldl (fun c '(s, n, bytes) => chunk s n bytes c) c ws.
Definition sectors_of (ws : list write_req) : Z := foldr (fun '(_, n, _) k => n + k) 0 ws.

Lemma chunk_ext s n bytes (c c' : disk) x : c x = c' x -> chunk s n bytes c x = chunk s n bytes c' x.
Proof. intros E. unfold chunk. by destruct (_ && _). Qed.
Lemma written_ext ws (c c' : disk) : (forall x, c x = c' x) -> forall x, written ws c x = written ws c' x.
Proof.
  revert c c'. induction ws as [|[[s n] bytes] ws IH]; intros c c' E x; [apply E|]. cbn. apply IH.
  intros y. by apply chunk_ext.
Qed.
Lemma sectors_of_nonneg e ws : Forall (request_ok e) ws -> 0 <= sectors_of ws.
Proof. induction 1 as [|[[s n] b] ws (Hn & _) _ IH]; cbn; [done|]. fold (sectors_of ws). lia. Qed.
Lemma writes_spec ws e :
  txn_ok e -> Forall (request_ok e) ws ->
  let '(r, e') := metadata_writes ws e in
  exists recs, e' = e <| g_journal_records := recs |> /\ txn_ok e' /\
  (r = Ret 0 -> forall x, view e' x = written ws (view e) x) /\
  (Forall (fun '(s, n, _) => forall i, 0 <= i < n -> outside e (s + i)) ws ->
    Z.of_nat (length (g_journal_records e)) + sectors_of ws <= 64 -> r = Ret 0).
Proof.
  intros Hok Hws. revert e Hok Hws. induction ws as [|[[s n] bytes] ws IH]; intros e Hok Hws; cbn [metadata_writes].
  { exists (g_journal_records e). split_and!; try done. by destruct e. }
  apply list.Forall_cons in Hws as [Hw0 Hws]. unfold mbind, M_bind.
  pose proof (metadata_write_spec s n bytes e Hok Hw0) as Hw.
  destruct (journal_metadata_write s n bytes e) as [r e1]. destruct Hw as (recs & -> & Hok1 & Hr & H0 & Ht).
  destruct Hr as [->| ->]; cbn [negb Z.eqb].
  - specialize (IH (e <| g_journal_records := recs |>) Hok1 Hws).
    destruct (metadata_writes ws _) as [r2 e2]. destruct IH as (recs2 & -> & Hok2 & H2 & Ht2).
    exists recs2. split; [by destruct e|]. split; [done|]. split.
    + intros E x. rewrite H2 by done. cbn. apply written_ext. apply H0. done.
    + intros [Ho Hos]%list.Forall_cons Hroom. cbn [sectors_of foldr] in Hroom. fold (sectors_of ws) in Hroom.
      pose proof (sectors_of_nonneg e ws Hws).
      destruct Ht as [_ Hlen]; [done|lia|]. apply Ht2; [done|].
      change (g_journal_records (e <| g_journal_records := recs |>)) with recs. lia.
  - exists recs. split; [done|]. split; [done|]. split; [done|].
    intros [Ho Hos]%list.Forall_cons Hroom. cbn [sectors_of foldr] in Hroom. fold (sectors_of ws) in Hroom.
    pose proof (sectors_of_nonneg e ws Hws).
    by destruct Ht as [? _]; [done|lia|].
Qed.

Lemma begin_spec e e1 : journal_begin e = (Ret 0, e1) ->
  txn_ok e1 /\ e1 = e <| g_journal_sb_snapshot := g_sb e |> <| g_journal_records := [] |> <| g_journal_active := true |>.
Proof.
  unfold journal_begin, mbind, M_bind, get, modify, mret, M_ret, id. break_if; [done|]. intros [= <-].
  split; [|done]. split; [done|apply NoDup_nil_2|apply (Nat.le_0_l 64)|apply list.Forall_nil_2].
Qed.
Lemma txn_records e : txn_ok e -> records_ok e (g_journal_records e).
Proof. intros [_ _ Hl Hd]. by split. Qed.
(** A commit of what was written makes it the content of the drive. *)
Lemma finish_spec e r e' :
  journal_ok e -> txn_ok e -> imgs (fun f => f (jsec e 0) = zeros 512) (e_dev e) ->
  journal_finish 0 e = (r, e') ->
  (healthy (e_dev e) -> r = Ret 0) /\
  (r = Ret 0 -> forall x, outside e x -> content (e_dev e') x = view e x).
Proof.
  intros Hj Hok Hc E. unfold view. rewrite (txn_active e Hok). unfold journal_finish in E. cbn [negb Z.eqb] in E.
  destruct (decide (g_journal_records e = [])) as [Hn|Hn].
  - unfold journal_commit, mbind, M_bind, get, modify, mret, M_ret, id in E.
    rewrite (txn_active e Hok), bool_decide_eq_true_2 in E by done. cbn [negb] in E. injection E as <- <-.
    split; [done|]. intros _ x _. by rewrite Hn.
  - assert (committing e) as Hcom by (split; [done|by apply txn_records|done|apply txn_active, Hok|done]).
    destruct (commit_phases e Hcom r e' E) as (_ & Hf & Hh).
    split; [done|]. intros Hr x Ho. destruct (Hf Hr) as [_ [_ Hx]]. by apply Hx.
Qed.
End txn.

(** C18: the journal gives the file server transactions.  Writes between [journal_begin] and the end of the
    transaction succeed when they fit and spare the journal file.  They do not touch the drive; the server reads what
    it has written over what the drive holds.  An abort brings the content and the superblock back, whatever was
    done to the latter; a commit that reports success, as it does on a healthy drive, makes the drive's content,
    outside the journal, what writing directly would have made it. *)
Theorem journal_transaction {D} `{!Blockdev D, !BlockdevLaws D} (e e1 e2 : ext2 D) ws r :
  sectors_ok (content (e_dev e)) -> journal_ok e -> imgs (fun f => f (jsec e 0) = zeros 512) (e_dev e) ->
  Forall (request_ok e) ws ->
  journal_begin e = (Ret 0, e1) -> metadata_writes ws e1 = (r, e2) ->
  (Forall (fun '(s, n, _) => forall i, 0 <= i < n -> outside e (s + i)) ws -> sectors_of ws <= 64 -> r = Ret 0) /\
  e_dev e2 = e_dev e /\
  (r = Ret 0 ->
    (forall s n l e3, 0 <= n -> journal_metadata_read s n e2 = (Ret (0, l), e3) ->
      l = run_of (written ws (content (e_dev e))) s n) /\
    (forall sb, let e3 := (journal_abort (e2 <| g_sb := sb |>)).2 in
      g_sb e3 = g_sb e /\ forall x, view e3 x = content (e_dev e) x) /\
    (forall rc e3, journal_finish 0 e2 = (rc, e3) ->
      (healthy (e_dev e) -> rc = Ret 0) /\
      (rc = Ret 0 -> forall x, outside e x -> content (e_dev e3) x = written ws (content (e_dev e)) x))).
Proof.
  intros Hs Hj Hc Hws Hb E. apply begin_spec in Hb as [Hok1 He1].
  assert (Forall (request_ok e1) ws) as Hws1 by by rewrite He1.
  pose proof (writes_spec ws e1 Hok1 Hws1) as Hw. rewrite E in Hw.
  destruct Hw as (recs & He2 & Hok2 & Hv & Ht).
  assert (e_dev e2 = e_dev e) as Hd by by rewrite He2, He1.
  split; [|split; [done|]].
  { intros Ho Hroom. apply Ht; [by rewrite He1|]. by rewrite He1. }
  intros Hr. specialize (Hv Hr).
  assert (forall x, view e2 x = written ws (content (e_dev e)) x) as Hv2.
  { intros x. rewrite Hv. by rewrite He1. }
  split_and!.
  - intros s n l e3 Hn Er. pose proof (metadata_read_spec s n e2 Hok2 Hn) as Hrd. rewrite Hd, Er in Hrd.
    destruct (Hrd Hs) as (d & _ & _ & _ & Hl & _). rewrite (Hl l eq_refl). apply run_ext. auto.
  - intros sb. rewrite He2, He1. cbn. done.
  - intros rc e3 Ef. destruct (finish_spec e2 rc e3) as [Hh Hx]; [|done| |done|].
    + rewrite He2, He1. destruct Hj as [H1 H2 H3 H4 H5]. by split.
    + rewrite Hd. intros f Hf. rewrite He2, He1. by apply Hc.
    + rewrite Hd in Hh. split; [done|]. intros Hrc x Ho. rewrite <- Hv2. apply Hx; [done|]. by rewrite He2, He1.
Qed.

(** A server that is about to begin a transaction, on a healthy drive. *)
Definition demo_idle : ext2 ramdisk := (demo_commit []) <| g_journal_active := false |>.
Definition demo_writes : list write_req := [(4, 2, replicate 1024 7); (5, 1, replicate 512 9)].
Lemma journal_transaction_witness :
  let e1 := (journal_begin demo_idle).2 in
  let e2 := (metadata_writes demo_writes e1).2 in
  e_dev e2 = e_dev demo_idle /\
  (forall s n l e3, 0 <= n -> journal_metadata_read s n e2 = (Ret (0, l), e3) ->
    l = run_of (written demo_writes (content (e_dev demo_idle))) s n).
Proof.
  intros e1 e2.
  destruct (@journal_transaction ramdisk _ _ demo_idle e1 e2 demo_writes (Ret 0)) as (_ & Hd & H).
  - intros x. reflexivity.
  - destruct (com_journal (demo_commit []) (demo_committing [])) as [H1 H2 H3 H4 H5]. by split.
  - intros f Hf. by apply (com_clear (demo_commit []) (demo_committing [])).
  - apply list.Forall_cons; split; [|apply list.Forall_cons; split; [|apply list.Forall_nil_2]];
      split_and!; try reflexivity; vm_compute; discriminate.
  - reflexivity.
  - vm_compute. reflexivity.
  - split; [exact Hd|]. by apply H.
Defined.
