(* ===== verification/Ext2Disk.v ===== *)
(** * The ext2 file server: groups, bitmaps and inodes

    [src/src/servers/fs/ext2/disk.c]: group descriptors, the inode table, the two
    bitmap allocators, the block map of an inode and the mount, with what the
    mount needs of [path.c] and [journal.c].  All of it goes through the metadata
    reads and writes of the journal. *)
From Stdlib Require Import ZArith Lia.
From stdpp Require Import base numbers sets list list_numbers functions relations.
From S2P Require Import Prelude Ext2Journal Ext2Crash Ext2Txn.

Notation EXT2_S_IFDIR := 0x4000 (only parsing).
Notation EXT2_S_IFREG := 0x8000 (only parsing).
Notation EXT2_I_FILE_ACL := 104 (only parsing).
Notation EXT2FS_MAX_GROUPS := 32 (only parsing).

(** [for (i = 0; i < n; i++) out[i] = buf[off + i]] *)
Definition slice (off n : Z) (buf : list Z) : list Z := take (Z.to_nat n) (drop (Z.to_nat off) buf).

(** Bit [bit] of a bitmap. *)
Definition bitmap_bit (bitmap : list Z) (bit : Z) : bool := has (at_ bitmap (bit / 8)) (Z.shiftl 1 (bit mod 8)).
Definition bitmap_set (bit : Z) (bitmap : list Z) : list Z :=
  put (bit / 8) (u8 (Z.lor (at_ bitmap (bit / 8)) (Z.shiftl 1 (bit mod 8)))) bitmap.
Definition bitmap_clear (bit : Z) (bitmap : list Z) : list Z :=
  put (bit / 8) (u8 (Z.land (at_ bitmap (bit / 8)) (Z.lnot (Z.shiftl 1 (bit mod 8))))) bitmap.
(** The first clear bit of [n] bits from [bit] on. *)
Fixpoint find_clear (n : nat) (bit : Z) (bitmap : list Z) : option Z :=
  match n with
  | O => None
  | S n => if bitmap_bit bitmap bit then find_clear n (bit + 1) bitmap else Some bit
  end.

(** The entries of a block map from entry [i] on, up to the first that is 0 ([true]), [count] entries or [room] blocks. *)
Fixpoint collect (buf : list Z) (off i : Z) (count room : nat) : list Z * bool :=
  match count, room with
  | S count, S room =>
    let b := u32_get buf (off + i * 4) in
    if b =? 0 then ([], true) else
    let '(l, z) := collect buf off (i + 1) count room in (b :: l, z)
  | _, _ => ([], false)
  end.

Section disk.
Context {D : Type} `{!Blockdev D}.
Implicit Types e : ext2 D.

Definition sb_write : M D Z := sb ← get g_sb; journal_metadata_write 2 2 sb.
Definition gd_read (group : Z) : M D (Z * list Z) :=
  byte_off ← get (fun e => g_gdt_start_byte e + group * 32);
  '(rc, buf) ← journal_metadata_read (byte_off / 512) 1;
  if negb (rc =? 0) then mret (-1, []) else mret (0, slice (byte_off mod 512) 32 buf).
Definition gd_write (group : Z) (gd : list Z) : M D Z :=
  byte_off ← get (fun e => g_gdt_start_byte e + group * 32);
  '(rc, buf) ← journal_metadata_read (byte_off / 512) 1;
  if negb (rc =? 0) then mret (-1) else
  journal_metadata_write (byte_off / 512) 1 (blit (byte_off mod 512) gd buf).

Definition block_read (block_num : Z) : M D (Z * list Z) :=
  spb ← get g_sectors_per_block; on_dev (blkdev_read (block_num * spb) spb).
Definition block_write (block_num : Z) (buf : list Z) : M D Z :=
  spb ← get g_sectors_per_block; on_dev (blkdev_write (block_num * spb) spb buf).
Definition metadata_block_read (block_num : Z) : M D (Z * list Z) :=
  spb ← get g_sectors_per_block; journal_metadata_read (block_num * spb) spb.
Definition metadata_block_write (block_num : Z) (buf : list Z) : M D Z :=
  spb ← get g_sectors_per_block; journal_metadata_write (block_num * spb) spb buf.

(** Both directions; reading returns the inode in place of [io]. *)
Definition inode_io (ino : Z) (io : list Z) (is_write : bool) : M D (Z * list Z) :=
  e ← get id;
  let group := u32 (ino - 1) / g_inodes_per_group e in
  let idx := u32 (ino - 1) mod g_inodes_per_group e in
  '(rc, gd) ← gd_read group;
  if negb (rc =? 0) then mret (-1, io) else
  let inode_table_block := u32_get gd 8 in
  let byte_off := inode_table_block * g_block_size e + idx * g_inode_size e in
  let sector := byte_off / 512 in
  let sec_off := byte_off mod 512 in
  let nsectors := (sec_off + 128 + 511) / 512 in
  '(rc, buf) ← journal_metadata_read sector nsectors;
  if negb (rc =? 0) then mret (-1, io) else
  if is_write then rc ← journal_metadata_write sector nsectors (blit sec_off io buf); mret (rc, io)
  else mret (0, slice sec_off 128 buf).

(** *** Bitmap allocators: blocks and inodes alike *)
Inductive bitmap_kind := Blocks | Inodes.
Definition gd_bitmap (k : bitmap_kind) : Z := match k with Blocks => 0 | Inodes => 4 end.
Definition gd_free (k : bitmap_kind) : Z := match k with Blocks => 12 | Inodes => 14 end.
Definition sb_free (k : bitmap_kind) : Z := match k with Blocks => 12 | Inodes => 16 end.
Definition cursor (k : bitmap_kind) e : Z * Z :=
  match k with Blocks => g_alloc_cursor e | Inodes => g_alloc_inode_cursor e end.
Definition set_cursor (k : bitmap_kind) (c : Z * Z) e : ext2 D :=
  match k with Blocks => e <| g_alloc_cursor := c |> | Inodes => e <| g_alloc_inode_cursor := c |> end.
Definition group_start (g : Z) e : Z := g_first_data_block e + g * g_blocks_per_group e.
Definition bits_in_group (k : bitmap_kind) (g : Z) e : Z :=
  match k with
  | Blocks =>
    let group_end := group_start g e + g_blocks_per_group e in
    u32 ((if group_end >? g_blocks_count e then g_blocks_count e else group_end) - group_start g e)
  | Inodes => g_inodes_per_group e
  end.
Definition next_group (k : bitmap_kind) : M D unit :=
  modify (fun e => set_cursor k (u32 ((cursor k e).1 + 1) mod g_num_groups e, 0) e).

(** The counters of group [g] and of the superblock change by [delta]. *)
Definition count_free (k : bitmap_kind) (g : Z) (gd : list Z) (delta : Z) : M D Z :=
  try gd_write g (u16_set (gd_free k) (u16 (u16_get gd (gd_free k) + delta)) gd);
  modify (fun e => e <| g_sb ::= fun sb => u32_set (sb_free k) (u32 (u32_get sb (sb_free k) + delta)) sb |>);;
  sb_write.
Fixpoint alloc_bit (k : bitmap_kind) (attempts : nat) : M D (Z * (Z * Z)) :=
  match attempts with
  | O => mret (-1, (0, 0))
  | S attempts =>
    e ← get id;
    let g := (cursor k e).1 in
    '(rc, gd) ← gd_read g;
    if negb (rc =? 0) then mret (-1, (0, 0)) else
    if u16_get gd (gd_free k) =? 0 then next_group k;; alloc_bit k attempts else
    let bitmap_block := u32_get gd (gd_bitmap k) in
    '(rc, bitmap) ← metadata_block_read bitmap_block;
    if negb (rc =? 0) then mret (-1, (0, 0)) else
    match find_clear (Z.to_nat (bits_in_group k g e - (cursor k e).2)) (cursor k e).2 bitmap with
    | None => next_group k;; alloc_bit k attempts
    | Some bit =>
      rc ← metadata_block_write bitmap_block (bitmap_set bit bitmap);
      if negb (rc =? 0) then mret (-1, (0, 0)) else
      rc ← count_free k g gd (-1);
      if negb (rc =? 0) then mret (-1, (0, 0)) else
      modify (fun e => set_cursor k ((cursor k e).1, bit + 1) e);;
      mret (0, (g, bit))
    end
  end.
Definition alloc_block : M D (Z * Z) :=
  e ← get id;
  '(rc, (g, bit)) ← alloc_bit Blocks (Z.to_nat (g_num_groups e + 1));
  if negb (rc =? 0) then mret (-1, 0) else mret (0, u32 (u32 (group_start g e) + bit)).
Definition alloc_inode : M D (Z * Z) :=
  e ← get id;
  '(rc, (g, bit)) ← alloc_bit Inodes (Z.to_nat (g_num_groups e + 1));
  if negb (rc =? 0) then mret (-1, 0) else mret (0, u32 (g * g_inodes_per_group e + bit + 1)).

(** [free_inode] refuses a bit that is clear, [free_block] does not look. *)
Definition free_bit (k : bitmap_kind) (g bit : Z) : M D Z :=
  '(rc, gd) ← gd_read g;
  if negb (rc =? 0) then mret (-1) else
  let bitmap_block := u32_get gd (gd_bitmap k) in
  '(rc, bitmap) ← metadata_block_read bitmap_block;
  if negb (rc =? 0) then mret (-1) else
  if (match k with Inodes => negb (bitmap_bit bitmap bit) | Blocks => false end) then mret (-1) else
  try metadata_block_write bitmap_block (bitmap_clear bit bitmap);
  count_free k g gd 1.
Definition free_block (block_num : Z) : M D Z :=
  e ← get id;
  if block_num <? g_first_data_block e then mret (-1) else
  let rel := block_num - g_first_data_block e in
  free_bit Blocks (rel / g_blocks_per_group e) (rel mod g_blocks_per_group e).
Definition free_inode (ino : Z) : M D Z :=
  e ← get id;
  if (ino =? 0) || (ino >? g_inodes_count e) then mret (-1) else
  let group := (ino - 1) / g_inodes_per_group e in
  if group >=? g_num_groups e then mret (-1) else
  free_bit Inodes group ((ino - 1) mod g_inodes_per_group e).

(** *** The block map of an inode *)
Notation direct_off := 40 (only parsing).
Definition indirect_of (inode : list Z) : Z := u32_get inode (40 + 12 * 4).
Definition dindirect_of (inode : list Z) : Z := u32_get inode (40 + 13 * 4).

(** One block of entries: [(rc, blocks, hit a zero)]. *)
Definition walk_indirect (block : Z) (entries room : nat) : M D (Z * (list Z * bool)) :=
  '(rc, buf) ← metadata_block_read block;
  if negb (rc =? 0) then mret (-1, ([], true)) else mret (0, collect buf 0 0 entries room).
(** The blocks named by entries [di] on of a doubly indirect block. *)
Fixpoint walk_dindirect (dindbuf : list Z) (di : Z) (count entries room : nat) : M D (Z * list Z) :=
  match count, room with
  | S count, S _ =>
    let sind := u32_get dindbuf (di * 4) in
    if sind =? 0 then mret (0, []) else
    '(rc, (l, z)) ← walk_indirect sind entries room;
    if negb (rc =? 0) then mret (-1, []) else
    if (z : bool) then mret (0, l) else
    '(rc, l') ← walk_dindirect dindbuf (di + 1) count entries (room - length l);
    if negb (rc =? 0) then mret (-1, []) else mret (0, l ++ l')
  | _, _ => mret (0, [])
  end.
Definition walk_inode_blocks (inode : list Z) (need_blocks : Z) : M D (Z * list Z) :=
  entries ← get (fun e => Z.to_nat (g_block_size e / 4));
  let need := Z.to_nat need_blocks in
  let '(l0, z) := collect inode direct_off 0 12 need in
  if z then mret (0, l0) else
  '(rc, (l1, z)) ←
    (if (length l0 <? need)%nat && negb (indirect_of inode =? 0)
     then walk_indirect (indirect_of inode) entries (need - length l0) else mret (0, ([], false)));
  if negb (rc =? 0) then mret (-1, []) else
  if (z : bool) then mret (0, l0 ++ l1) else
  let n := length (l0 ++ l1) in
  if (n <? need)%nat && negb (dindirect_of inode =? 0) then
    '(rc, dindbuf) ← metadata_block_read (dindirect_of inode);
    if negb (rc =? 0) then mret (-1, []) else
    '(rc, l2) ← walk_dindirect dindbuf 0 entries entries (need - n);
    if negb (rc =? 0) then mret (-1, []) else mret (0, l0 ++ l1 ++ l2)
  else mret (0, l0 ++ l1).

(** The block of entries [block], a fresh one when it is 0: [(rc, block, its content)]. *)
Definition open_indirect (block : Z) : M D (Z * (Z * list Z)) :=
  if block =? 0 then
    '(rc, block) ← alloc_block;
    if negb (rc =? 0) then mret (-1, (0, [])) else
    zero ← get (fun e => zeros (g_block_size e));
    rc ← metadata_block_write block zero;
    if negb (rc =? 0) then mret (-1, (0, [])) else mret (0, (block, zero))
  else
    '(rc, buf) ← metadata_block_read block;
    if negb (rc =? 0) then mret (-1, (0, [])) else mret (0, (block, buf)).
(** The inode buffer is returned as it is left. *)
Definition append_block_to_inode (inode : list Z) (logical_idx new_block : Z) : M D (Z * list Z) :=
  if logical_idx <? 12 then mret (0, u32_set (40 + logical_idx * 4) new_block inode) else
  entries ← get (fun e => g_block_size e / 4);
  let idx := logical_idx - 12 in
  if idx <? entries then
    '(rc, (indirect, indbuf)) ← open_indirect (indirect_of inode);
    if negb (rc =? 0) then mret (-1, inode) else
    let inode := if indirect_of inode =? 0 then u32_set (40 + 12 * 4) indirect inode else inode in
    rc ← metadata_block_write indirect (u32_set (idx * 4) new_block indbuf);
    mret (rc, inode)
  else
    let idx := idx - entries in
    let di := idx / entries in
    let si := idx mod entries in
    if di >=? entries then mret (-1, inode) else
    '(rc, (dindirect, dindbuf)) ← open_indirect (dindirect_of inode);
    if negb (rc =? 0) then mret (-1, inode) else
    let inode := if dindirect_of inode =? 0 then u32_set (40 + 13 * 4) dindirect inode else inode in
    let old_sind := u32_get dindbuf (di * 4) in
    '(rc, (sind, sindbuf)) ← open_indirect old_sind;
    if negb (rc =? 0) then mret (-1, inode) else
    rc ← (if old_sind =? 0 then metadata_block_write dindirect (u32_set (di * 4) sind dindbuf) else mret 0);
    if negb (rc =? 0) then mret (-1, inode) else
    rc ← metadata_block_write sind (u32_set (si * 4) new_block sindbuf);
    mret (rc, inode).

Definition compute_i_blocks_sectors (inode : list Z) (num_blocks : Z) e : Z :=
  let entries := g_block_size e / 4 in
  let spb := g_sectors_per_block e in
  let sectors := u32 (num_blocks * spb) in
  let sectors := if indirect_of inode =? 0 then sectors else u32 (sectors + spb) in
  let sectors :=
    if dindirect_of inode =? 0 then sectors else
    let data_beyond_single := if num_blocks >? 12 + entries then num_blocks - 12 - entries else 0 in
    let sind_blocks_used := u32 (data_beyond_single + entries - 1) / entries in
    u32 (u32 (sectors + spb) + u32 (sind_blocks_used * spb)) in
  if u32_get inode EXT2_I_FILE_ACL =? 0 then sectors else u32 (sectors + spb).

Fixpoint free_blocks (blocks : list Z) : M D Z :=
  match blocks with
  | [] => mret 0
  | b :: blocks => try free_block b; free_blocks blocks
  end.
Definition size_blocks (size : Z) e : Z := u32 (size + g_block_size e - 1) / g_block_size e.
Definition free_inode_blocks (inode : list Z) : M D Z :=
  need_blocks ← get (size_blocks (u32_get inode 4));
  '(rc, blocks) ← walk_inode_blocks inode need_blocks;
  if negb (rc =? 0) then mret (-1) else
  try free_blocks blocks;
  try (if indirect_of inode =? 0 then mret 0 else free_block (indirect_of inode));
  if dindirect_of inode =? 0 then mret 0 else
  '(rc, dindbuf) ← metadata_block_read (dindirect_of inode);
  if negb (rc =? 0) then mret (-1) else
  entries ← get (fun e => Z.to_nat (g_block_size e / 4));
  try loop entries 0 (fun i =>
    let sindirect := u32_get dindbuf (i * 4) in
    if sindirect =? 0 then mret 0 else free_block sindirect);
  try free_block (dindirect_of inode);
  mret 0.

(** *** Looking up a name ([path.c]) *)
(** The entry of [name] in a directory block, from [off] on. *)
Fixpoint find_entry (fuel : nat) (dirbuf : list Z) (block_size off : Z) (name : list Z) : option Z :=
  match fuel with
  | O => None
  | S fuel =>
    if off + 8 <=? block_size then
      let ino := u32_get dirbuf off in
      let rec_len := u16_get dirbuf (off + 4) in
      let nl := at_ dirbuf (off + 6) in
      if rec_len <? 8 then None else
      if negb (ino =? 0) && (nl =? Z.of_nat (length name)) && bool_decide (slice (off + 8) nl dirbuf = name)
      then Some ino
      else find_entry fuel dirbuf block_size (off + rec_len) name
    else None
  end.
(** Entries are at least 8 bytes long. *)
Definition dir_fuel (block_size : Z) : nat := Z.to_nat (block_size / 8 + 1).
Fixpoint find_in_blocks (blocks : list Z) (name : list Z) : M D (Z * Z) :=
  match blocks with
  | [] => mret (-1, 0)
  | b :: blocks =>
    '(rc, dirbuf) ← metadata_block_read b;
    if negb (rc =? 0) then mret (-1, 0) else
    bs ← get g_block_size;
    match find_entry (dir_fuel bs) dirbuf bs 0 name with
    | Some ino => mret (0, ino)
    | None => find_in_blocks blocks name
    end
  end.
(** Inode, size and whether it is a directory. *)
Definition find_in_dir (dir_ino : Z) (name : list Z) : M D (Z * (Z * Z * bool)) :=
  '(rc, dir_inode) ← inode_io dir_ino [] false;
  if negb (rc =? 0) then mret (-1, (0, 0, false)) else
  need_blocks ← get (size_blocks (u32_get dir_inode 4));
  '(rc, blocks) ← walk_inode_blocks dir_inode need_blocks;
  if negb (rc =? 0) then mret (-1, (0, 0, false)) else
  '(rc, ino) ← find_in_blocks blocks name;
  if negb (rc =? 0) then mret (-1, (0, 0, false)) else
  '(rc, fib) ← inode_io ino [] false;
  if negb (rc =? 0) then mret (-1, (0, 0, false)) else
  mret (0, (ino, u32_get fib 4, Z.land (u16_get fib 0) 0xF000 =? EXT2_S_IFDIR)).

(** *** Mounting *)
Definition journal_mount : M D Z :=
  '(rc, (journal_ino, journal_size, journal_is_dir)) ← find_in_dir EXT2FS_ROOT_INODE EXT2FS_JOURNAL_FILE_NAME;
  if negb (rc =? 0) || journal_is_dir || (journal_size <? EXT2FS_JOURNAL_SECTORS * 512) then mret 0 else
  '(rc, inode_buf) ← inode_io journal_ino [] false;
  if negb (rc =? 0) || negb (Z.land (u16_get inode_buf 0) 0xF000 =? EXT2_S_IFREG) then mret (-1) else
  spb ← get g_sectors_per_block;
  let needed_blocks := (EXT2FS_JOURNAL_SECTORS + spb - 1) / spb in
  '(rc, blocks) ← walk_inode_blocks inode_buf needed_blocks;
  if negb (rc =? 0) then mret (-1) else
  modify (fun e => e <| g_journal_blocks := blocks |>);;
  if negb (Z.of_nat (length blocks) =? needed_blocks) then mret (-1) else
  if existsb (fun b => b =? 0) blocks then mret (-1) else
  modify (fun e => e <| g_journal_ready := true |>);;
  let unready := modify (fun e => e <| g_journal_ready := false |>);; mret (-1) in
  rc ← journal_replay;
  if negb (rc =? 0) then unready else
  '(rc, sb) ← on_dev (blkdev_read 2 2);
  if negb (rc =? 0) then unready else
  modify (fun e => e <| g_sb := sb |>);; mret 0.

(** The superblock's features and block size are supported. *)
Definition sb_supported (sb : list Z) : bool :=
  (u16_get sb 56 =? 0xEF53) &&
  negb (has (u32_get sb 92) 0x0004) &&
  (Z.land (u32_get sb 96) (Z.lnot 0x0002) =? 0) &&
  (Z.land (u32_get sb 100) (Z.lnot (Z.lor 0x0001 0x0002)) =? 0) &&
  negb (u32_get sb 24 >? 2).
Definition sb_geometry (sb : list Z) e : ext2 D :=
  let block_size := u32 (Z.shiftl 1024 (u32_get sb 24)) in
  e <| g_block_size := block_size |> <| g_sectors_per_block := block_size / 512 |>
    <| g_blocks_count := u32_get sb 4 |> <| g_inodes_count := u32_get sb 0 |>
    <| g_blocks_per_group := u32_get sb 32 |> <| g_inodes_per_group := u32_get sb 40 |>
    <| g_first_data_block := u32_get sb 20 |>
    <| g_inode_size := if u32_get sb 76 >=? 1 then u16_get sb 88 else 128 |>.
(** [probe] is what [blkdev_probe] returned. *)
Definition ext2_mount (probe : Z) : M D Z :=
  if negb (probe =? 0) then mret probe else
  '(rc, sb) ← on_dev (blkdev_read 2 2);
  if negb (rc =? 0) then mret rc else
  modify (fun e => e <| g_sb := sb |>);;
  if negb (sb_supported sb) then mret (-1) else
  modify (sb_geometry sb);;
  e ← get id;
  if (g_inode_size e <? 128) || (g_inode_size e >? 256) then mret (-1) else
  if (g_blocks_count e =? 0) || (g_inodes_count e =? 0) || (g_blocks_per_group e =? 0) ||
     (g_inodes_per_group e =? 0) then mret (-1) else
  let num_groups := u32 (g_blocks_count e + g_blocks_per_group e - 1) / g_blocks_per_group e in
  modify (fun e => e <| g_num_groups := num_groups |>);;
  if (num_groups =? 0) || (num_groups >? EXT2FS_MAX_GROUPS) then mret (-1) else
  modify (fun e => e <| g_dirent_file_type := has (u32_get sb 96) 0x0002 |>
                     <| g_gdt_start_byte := u32 (g_first_data_block e + 1) * g_block_size e |>);;
  journal_mount.
End disk.
