(* ===== verification/Ext2Store.v ===== *)
(** * The metadata of the ext2 file server as one array of bytes

    Inside a transaction the operations of [disk.c] read and change the bytes of
    the file system the server sees ([mem]); here every one of them is described
    by the bytes it reads and the bytes it replaces.  On top of that: an inode
    that is written is read back, and no other changes; the bitmap allocators
    hand out what is free, find it when there is something, and change nothing
    else. *)
From Stdlib Require Import ZArith Lia.
From stdpp Require Import base numbers sets list list_numbers functions relations.
From S2P Require Import Prelude Ext2Journal Ext2Crash Ext2Txn Ext2Disk.

Notation disk := (Z -> list Z) (only parsing).
Notation bytes := (Z -> Z) (only parsing).

Definition byte_at (c : disk) : bytes := fun a => at_ (c (a / 512)) (a mod 512).
Definition span (m : bytes) (a n : Z) : list Z := m <$> seqZ a n.
(** The bytes from [a] on replaced by [l]. *)
Definition patch (a : Z) (l : list Z) (m : bytes) : bytes := fun x =>
  if (a <=? x) && (x <? a + Z.of_nat (length l)) then at_ l (x - a) else m x.

Lemma span_length m a n : 0 <= n -> Z.of_nat (length (span m a n)) = n.
Proof. intros Hn. unfold span. rewrite length_fmap, length_seqZ. lia. Qed.
Lemma at_bytes m a n j : 0 <= j < n -> at_ (span m a n) j = m (a + j).
Proof.
  intros Hj. rewrite at_lookup. unfold span. rewrite list_lookup_fmap, lookup_seqZ_lt by lia. cbn. f_equal. lia.
Qed.
Lemma span_ext m m' a n : (forall x, a <= x < a + n -> m x = m' x) -> span m a n = span m' a n.
Proof.
  intros Hx. unfold span. apply list_fmap_ext. intros i x Hi%list_elem_of_lookup_2.
  apply Hx. by apply elem_of_seqZ in Hi.
Qed.
Lemma at_slice off n buf j : 0 <= off -> 0 <= j < n -> at_ (slice off n buf) j = at_ buf (off + j).
Proof.
  intros Ho Hj. rewrite !at_lookup. unfold slice. rewrite lookup_take_lt by lia. rewrite lookup_drop. do 2 f_equal. lia.
Qed.
Lemma slice_length off n buf :
  0 <= off -> 0 <= n -> off + n <= Z.of_nat (length buf) -> Z.of_nat (length (slice off n buf)) = n.
Proof. intros Ho Hn Hl. unfold slice. rewrite length_take, length_drop. lia. Qed.
Lemma at_sector_of buf i j : 0 <= i -> 0 <= j < 512 -> at_ (sector_of buf i) j = at_ buf (512 * i + j).
Proof.
  intros Hi Hj. rewrite !at_lookup. unfold sector_of. rewrite lookup_take_lt by lia. rewrite lookup_drop. do 2 f_equal. lia.
Qed.

(** What is read from a run of sectors. *)
Lemma at_run_byte c s k j : sectors_ok c -> 0 <= j < 512 * k -> at_ (run_of c s k) j = byte_at c (512 * s + j).
Proof.
  intros Hc Hj. rewrite <- (Z2Nat.id k) by lia. rewrite at_run by (done || lia). unfold byte_at.
  replace (512 * s + j) with (j + s * 512) by lia. rewrite Z.div_add, Z.mod_add by lia. f_equal. f_equal. lia.
Qed.
Lemma run_length_Z c s k : sectors_ok c -> 0 <= k -> Z.of_nat (length (run_of c s k)) = 512 * k.
Proof. intros Hc Hk. rewrite <- (Z2Nat.id k) by lia. rewrite run_length by done. lia. Qed.
Lemma slice_run c s k off n :
  sectors_ok c -> 0 <= off -> 0 <= n -> off + n <= 512 * k ->
  slice off n (run_of c s k) = span (byte_at c) (512 * s + off) n.
Proof.
  intros Hc Ho Hn Hk.
  assert (Z.of_nat (length (slice off n (run_of c s k))) = n) as Hl.
  { apply slice_length; [done|done|]. by rewrite run_length_Z by (done || lia). }
  pose proof (span_length (byte_at c) (512 * s + off) n Hn).
  apply at_ext; [lia|]. rewrite Hl. intros j Hj.
  rewrite at_slice, at_bytes, at_run_byte by (done || lia). f_equal. lia.
Qed.
Lemma run_bytes c s k : sectors_ok c -> 0 <= k -> run_of c s k = span (byte_at c) (512 * s) (512 * k).
Proof.
  intros Hc Hk. pose proof (run_length_Z c s k Hc Hk). pose proof (span_length (byte_at c) (512 * s) (512 * k)).
  apply at_ext; [lia|]. intros j Hj. rewrite at_run_byte, at_bytes by (done || lia). done.
Qed.
(** What a write of a run of sectors changes. *)
Lemma chunk_patch c s k buf x :
  Z.of_nat (length buf) = 512 * k -> byte_at (chunk s k buf c) x = patch (512 * s) buf (byte_at c) x.
Proof.
  intros Hl. unfold byte_at, chunk, patch. rewrite Hl.
  pose proof (Z.div_mod x 512 ltac:(lia)). pose proof (Z.mod_pos_bound x 512 ltac:(lia)).
  destruct (Z.leb_spec s (x / 512)), (Z.ltb_spec (x / 512) (s + k)), (Z.leb_spec (512 * s) x),
    (Z.ltb_spec x (512 * s + 512 * k)); cbn [andb]; try lia; try done.
  rewrite at_sector_of by lia. f_equal. lia.
Qed.
Lemma patch_blit c s k off l x :
  sectors_ok c -> 0 <= k -> 0 <= off -> off + Z.of_nat (length l) <= 512 * k ->
  patch (512 * s) (blit off l (run_of c s k)) (byte_at c) x = patch (512 * s + off) l (byte_at c) x.
Proof.
  intros Hc Hk Ho Hl. unfold patch. rewrite blit_length, run_length_Z by done.
  destruct (Z.leb_spec (512 * s) x), (Z.ltb_spec x (512 * s + 512 * k)); cbn [andb].
  - rewrite at_blit by (rewrite ?run_length_Z by done; lia).
    destruct (Z.leb_spec off (x - 512 * s)), (Z.ltb_spec (x - 512 * s) (off + Z.of_nat (length l))),
      (Z.leb_spec (512 * s + off) x), (Z.ltb_spec x (512 * s + off + Z.of_nat (length l))); cbn [andb]; try lia.
    + f_equal. lia.
    + rewrite at_run_byte by (done || lia). f_equal. lia.
    + rewrite at_run_byte by (done || lia). f_equal. lia.
  - destruct (Z.leb_spec (512 * s + off) x), (Z.ltb_spec x (512 * s + off + Z.of_nat (length l))); cbn [andb]; lia || done.
  - destruct (Z.leb_spec (512 * s + off) x), (Z.ltb_spec x (512 * s + off + Z.of_nat (length l))); cbn [andb]; lia || done.
  - lia.
Qed.
Lemma patch_ext a l m m' x : m x = m' x -> patch a l m x = patch a l m' x.
Proof. intros E. unfold patch. by destruct (_ && _). Qed.
Lemma bytes_patch a l m b n :
  0 <= n -> (b + n <= a \/ a + Z.of_nat (length l) <= b) -> span (patch a l m) b n = span m b n.
Proof.
  intros Hn Hd. apply span_ext. intros x Hx. unfold patch.
  destruct (Z.leb_spec a x), (Z.ltb_spec x (a + Z.of_nat (length l))); cbn [andb]; lia || done.
Qed.
Lemma bytes_patch_same a l m : span (patch a l m) a (Z.of_nat (length l)) = l.
Proof.
  pose proof (span_length (patch a l m) a (Z.of_nat (length l))). apply at_ext; [lia|].
  intros j Hj. rewrite at_bytes by lia. unfold patch.
  destruct (Z.leb_spec a (a + j)), (Z.ltb_spec (a + j) (a + Z.of_nat (length l))); cbn [andb]; try lia. f_equal. lia.
Qed.

(** ** Runs inside a transaction *)
Section store.
Context {D : Type} `{!Blockdev D, !BlockdevLaws D}.
Implicit Types e : ext2 D.
(** [h] holds when the drive is healthy. *)
Context (h : Prop).

Definition mem e : bytes := byte_at (view e).

(** What [ext2_mount] has established about the geometry. *)
Record fs_ok e : Prop := {
  fs_spb : 0 < g_sectors_per_block e <= 8;
  fs_bs : g_block_size e = 512 * g_sectors_per_block e;
  fs_blocks : 0 < g_blocks_count e < 2 ^ 32;
  fs_bpg : 0 < g_blocks_per_group e < 2 ^ 32;
  fs_ipg : 0 < g_inodes_per_group e < 2 ^ 32;
  fs_first : 0 <= g_first_data_block e < 2 ^ 32;
  fs_isz : 128 <= g_inode_size e <= 256;
  fs_groups : 0 < g_num_groups e <= 32;
  fs_gdt : 2048 <= g_gdt_start_byte e;
  fs_gdt_align : g_gdt_start_byte e mod 32 = 0
}.
Record same_geo e e' : Prop := {
  sg_bs : g_block_size e' = g_block_size e;
  sg_spb : g_sectors_per_block e' = g_sectors_per_block e;
  sg_blocks : g_blocks_count e' = g_blocks_count e;
  sg_inodes : g_inodes_count e' = g_inodes_count e;
  sg_bpg : g_blocks_per_group e' = g_blocks_per_group e;
  sg_ipg : g_inodes_per_group e' = g_inodes_per_group e;
  sg_first : g_first_data_block e' = g_first_data_block e;
  sg_isz : g_inode_size e' = g_inode_size e;
  sg_groups : g_num_groups e' = g_num_groups e;
  sg_gdt : g_gdt_start_byte e' = g_gdt_start_byte e;
  sg_journal : g_journal_blocks e' = g_journal_blocks e
}.
Record good e : Prop := {
  good_txn : txn_ok e;
  good_fs : fs_ok e;
  good_sb : length (g_sb e) = 1024%nat;
  good_sectors : sectors_ok (content (e_dev e));
  good_health : h -> healthy (e_dev e)
}.
(** The transaction has gone on, and the drive has not seen it. *)
Record tx e e' : Prop := {
  tx_good : good e';
  tx_geo : same_geo e e';
  tx_content x : content (e_dev e') x = content (e_dev e) x
}.
#[export] Instance same_geo_preorder : PreOrder same_geo.
Proof.
  split; [done|]. intros e1 e2 e3 [] []. split; by etrans.
Qed.
Lemma tx_refl e : good e -> tx e e.
Proof. by split. Qed.
Lemma tx_trans e1 e2 e3 : tx e1 e2 -> tx e2 e3 -> tx e1 e3.
Proof. intros [_ Hg Hc] [Hg2 Hge Hc2]. split; [done|by etrans|]. intros x. by rewrite Hc2. Qed.

Definition run {A} (m : M D A) e (Q : A -> ext2 D -> Prop) : Prop :=
  match m e with (Ret a, e') => Q a e' | (Lost, _) => ~ h end.
Lemma run_ret {A} (a : A) e (Q : A -> ext2 D -> Prop) : Q a e -> run (mret a) e Q.
Proof. done. Qed.
Lemma run_bind {A B} (m : M D A) (g : A -> M D B) e (Q : B -> ext2 D -> Prop) :
  run m e (fun a e' => run (g a) e' Q) -> run (mbind g m) e Q.
Proof. unfold run, mbind, M_bind. by destruct (m e) as [[a|] e']. Qed.
Lemma run_get {A B} (f : ext2 D -> A) (g : A -> M D B) e (Q : B -> ext2 D -> Prop) :
  run (g (f e)) e Q -> run (mbind g (get f)) e Q.
Proof. done. Qed.
Lemma run_modify {B} (f : ext2 D -> ext2 D) (g : unit -> M D B) e (Q : B -> ext2 D -> Prop) :
  run (g tt) (f e) Q -> run (mbind g (modify f)) e Q.
Proof. done. Qed.
Lemma run_result {A} (m : M D A) e (Q : A -> ext2 D -> Prop) a e' : run m e Q -> m e = (Ret a, e') -> Q a e'.
Proof. unfold run. intros H E. by rewrite E in H. Qed.
Lemma run_conseq {A} (m : M D A) e (Q Q' : A -> ext2 D -> Prop) :
  run m e Q -> (forall a e', Q a e' -> Q' a e') -> run m e Q'.
Proof. unfold run. destruct (m e) as [[a|] e']; auto. Qed.

(** *** Sectors *)
(** Everything but the drive and the records is as it was. *)
Record quiet e e' : Prop := {
  q_sb : g_sb e' = g_sb e;
  q_cursor : g_alloc_cursor e' = g_alloc_cursor e;
  q_icursor : g_alloc_inode_cursor e' = g_alloc_inode_cursor e
}.
#[export] Instance quiet_preorder : PreOrder quiet.
Proof. split; [done|]. intros e1 e2 e3 [] []. split; by etrans. Qed.
(** A read that has not changed anything. *)
Record looked e e' : Prop := {
  l_tx : tx e e';
  l_quiet : quiet e e';
  l_mem a : mem e' a = mem e a;
  l_records : g_journal_records e' = g_journal_records e
}.
Lemma looked_refl e : good e -> looked e e.
Proof. intros Hg. split; [by apply tx_refl|done|done|done]. Qed.
Lemma looked_trans e1 e2 e3 : looked e1 e2 -> looked e2 e3 -> looked e1 e3.
Proof.
  intros [H1 H2 H3 H4] [K1 K2 K3 K4].
  split; [by eapply tx_trans|by etrans|intros a; by rewrite K3|by rewrite K4].
Qed.

Lemma txn_ok_dev e d : txn_ok e -> txn_ok (e <| e_dev := d |>).
Proof. intros [H1 H2 H3 H4]. by split. Qed.
Lemma run_metadata_read s n e :
  good e -> 0 <= n ->
  run (journal_metadata_read s n) e (fun '(rc, l) e' =>
    looked e e' /\ (h -> rc = 0) /\ (rc = 0 -> l = run_of (view e) s n)).
Proof.
  intros [Ht Hf Hsb Hs Hh] Hn. pose proof (metadata_read_spec s n e Ht Hn Hs) as Hr. unfold run.
  destruct (journal_metadata_read s n e) as [r e']. destruct Hr as (d & -> & Hc & _ & Hl & Hhe).
  destruct r as [[rc l]|]; [|intros Hx; by destruct (Hhe (Hh Hx)) as [_ [? ?]]].
  split.
  - split; [split; [split| |]|done| |done].
    + by apply txn_ok_dev.
    + destruct Hf. by split.
    + done.
    + intros x. change (e_dev (e <| e_dev := d |>)) with d. by rewrite Hc.
    + intros Hx. by apply Hhe, Hh.
    + done.
    + done.
    + intros a. unfold mem, byte_at, view. change (g_journal_active (e <| e_dev := d |>)) with (g_journal_active e).
      change (g_journal_records (e <| e_dev := d |>)) with (g_journal_records e).
      change (e_dev (e <| e_dev := d |>)) with d. rewrite (txn_active e Ht). f_equal. by apply installed_ext.
  - split.
    + intros Hx. destruct (Hhe (Hh Hx)) as [_ [l' E]]. by injection E.
    + intros ->. by apply Hl.
Qed.

Definition used e : Z := Z.of_nat (length (g_journal_records e)).
Definition spared e (s n : Z) : Prop := forall i, 0 <= i < n -> outside e (s + i).
(** A write of [n] sectors, of which [l] from byte [a] on is new. *)
Record wrote e e' (a : Z) (l : list Z) : Prop := {
  w_tx : tx e e';
  w_quiet : quiet e e';
  w_mem x : mem e' x = patch a l (mem e) x
}.
Lemma run_metadata_write s n buf e :
  good e -> request_ok e (s, n, buf) ->
  run (journal_metadata_write s n buf) e (fun rc e' =>
    tx e e' /\ (rc = 0 -> wrote e e' (512 * s) buf) /\
    (spared e s n -> used e + n <= 64 -> rc = 0 /\ used e' <= used e + n)).
Proof.
  intros [Ht Hf Hsb Hs Hh] Hq. pose proof (metadata_write_spec s n buf e Ht Hq) as Hw. unfold run.
  destruct (journal_metadata_write s n buf e) as [r e']. destruct Hw as (recs & -> & Ht' & Hr & H0 & Hx).
  assert (tx e (e <| g_journal_records := recs |>)) as Htx.
  { split; [split|by split|done]; try done. destruct Hf. by split. }
  destruct Hq as (_ & _ & _ & Hl).
  assert (exists rc, r = Ret rc) as [rc ->] by (destruct Hr as [->| ->]; eauto).
  split; [done|]. split.
  - intros ->. destruct (H0 eq_refl) as [_ Hv]. split; [done|by split|]. intros x.
    change (mem e) with (byte_at (view e)). rewrite <- (chunk_patch (view e) s n) by done.
    unfold mem, byte_at. by rewrite Hv.
  - intros Hsp Hroom. destruct (Hx Hsp Hroom) as [[= ->] Hlen]. by split.
Qed.

(** *** Group descriptors *)
Definition gd_addr e (group : Z) : Z := g_gdt_start_byte e + group * 32.
Definition gd_at e (group : Z) : list Z := span (mem e) (gd_addr e group) 32.
Lemma gd_sector e group : fs_ok e -> 0 <= group ->
  gd_addr e group mod 512 + 32 <= 512 /\ 0 <= gd_addr e group mod 512 /\
  512 * (gd_addr e group / 512) + gd_addr e group mod 512 = gd_addr e group /\ 4 <= gd_addr e group / 512.
Proof.
  intros Hf Hg. pose proof (fs_gdt e Hf). pose proof (fs_gdt_align e Hf) as Ha. unfold gd_addr.
  pose proof (Z.div_mod (g_gdt_start_byte e) 32 ltac:(lia)) as Hq.
  pose proof (Z.div_mod (g_gdt_start_byte e + group * 32) 512 ltac:(lia)).
  pose proof (Z.mod_pos_bound (g_gdt_start_byte e + group * 32) 512 ltac:(lia)).
  split_and!; lia.
Qed.
Lemma view_sectors e : good e -> sectors_ok (view e).
Proof. intros Hg. apply view_ok; [apply (good_txn e Hg)|apply (good_sectors e Hg)]. Qed.
Lemma run_gd_read group e :
  good e -> 0 <= group ->
  run (gd_read group) e (fun '(rc, gd) e' => looked e e' /\ (h -> rc = 0) /\ (rc = 0 -> gd = gd_at e group)).
Proof.
  intros Hg Hgr. destruct (gd_sector e group (good_fs e Hg) Hgr) as (H1 & H2 & H3 & _).
  unfold gd_read. apply run_get. fold (gd_addr e group). apply run_bind.
  eapply run_conseq; [apply run_metadata_read; [done|lia]|]. intros [rc buf] e' (Hl & Hh & Hr).
  destruct (Z.eqb_spec rc 0) as [->|Hrc]; cbn [negb]; apply run_ret.
  - split; [done|]. split; [done|]. intros _. rewrite (Hr eq_refl), slice_run by (lia || by apply view_sectors).
    by rewrite H3.
  - split; [done|]. split; [intros Hx; by destruct Hrc; auto|done].
Qed.
Lemma wrote_after e e1 e2 a l : looked e e1 -> wrote e1 e2 a l -> wrote e e2 a l.
Proof.
  intros [H1 H2 H3 _] [K1 K2 K3]. split; [by eapply tx_trans|by etrans|]. intros x. rewrite K3. unfold patch.
  by rewrite H3.
Qed.
(** A byte range inside a run that was read is written back with the run. *)
Lemma run_write_back s n off l e0 e :
  looked e0 e -> good e0 -> 0 <= n -> 0 <= off -> off + Z.of_nat (length l) <= 512 * n ->
  0 <= s -> s + n <= g_blocks_count e0 * g_sectors_per_block e0 ->
  run (journal_metadata_write s n (blit off l (run_of (view e0) s n))) e (fun rc e' =>
    tx e0 e' /\ (rc = 0 -> wrote e0 e' (512 * s + off) l) /\
    (spared e0 s n -> used e0 + n <= 64 -> rc = 0 /\ used e' <= used e0 + n)).
Proof.
  intros Hlk Hg Hn Ho Hl Hs Hb. pose proof (l_tx e0 e Hlk) as Htx. pose proof (view_sectors e0 Hg) as Hv.
  eapply run_conseq; [apply run_metadata_write; [apply Htx|]|].
  - unfold request_ok. destruct (tx_geo e0 e Htx) as [_ -> -> _ _ _ _ _ _ _ _].
    split_and!; [done|done|done|]. by rewrite blit_length, run_length_Z.
  - intros rc e' (H1 & H2 & H3). split; [by eapply tx_trans|]. split.
    + intros E. apply (wrote_after e0 e e'); [done|]. destruct (H2 E) as [W1 W2 W3]. split; [done|done|].
      intros x. rewrite W3, (patch_ext _ _ _ (mem e0)) by apply Hlk. rewrite patch_blit by done.
      symmetry. apply patch_ext, Hlk.
    + intros Hsp Hroom. unfold used in *. rewrite (l_records e0 e Hlk) in H3. apply H3; [|done].
      intros i Hi. specialize (Hsp i Hi). unfold outside, journal_storage_sector in *.
      by destruct (tx_geo e0 e Htx) as [_ -> _ _ _ _ _ _ _ _ ->].
Qed.
Lemma run_gd_write group gd e :
  good e -> 0 <= group -> length gd = 32%nat ->
  gd_addr e group / 512 < g_blocks_count e * g_sectors_per_block e ->
  run (gd_write group gd) e (fun rc e' =>
    tx e e' /\ (rc = 0 -> wrote e e' (gd_addr e group) gd) /\
    (h -> spared e (gd_addr e group / 512) 1 -> used e + 1 <= 64 -> rc = 0 /\ used e' <= used e + 1)).
Proof.
  intros Hg Hgr Hl Hb. destruct (gd_sector e group (good_fs e Hg) Hgr) as (H1 & H2 & H3 & H4).
  unfold gd_write. apply run_get. fold (gd_addr e group). apply run_bind.
  eapply run_conseq; [apply run_metadata_read; [done|lia]|]. intros [rc buf] e' (Hlk & Hh & Hr).
  destruct (Z.eqb_spec rc 0) as [->|Hrc]; cbn [negb].
  - rewrite (Hr eq_refl). eapply run_conseq; [apply (run_write_back _ 1 _ gd e e'); try done; lia|].
    intros rc e2 (K1 & K2 & K3). rewrite H3 in K2. auto.
  - apply run_ret. split; [apply Hlk|]. split; [done|]. intros Hx. by destruct Hrc; auto.
Qed.

(** *** Blocks *)
Definition block_at e (b : Z) : list Z := span (mem e) (b * g_block_size e) (g_block_size e).
Lemma run_block_read b e :
  good e -> run (metadata_block_read b) e (fun '(rc, buf) e' =>
    looked e e' /\ (h -> rc = 0) /\ (rc = 0 -> buf = block_at e b)).
Proof.
  intros Hg. destruct (good_fs e Hg) as [Hspb Hbs _ _ _ _ _ _ _ _]. unfold metadata_block_read. apply run_get.
  eapply run_conseq; [apply run_metadata_read; [done|lia]|]. intros [rc buf] e' (Hlk & Hh & Hr).
  split; [done|]. split; [done|]. intros E. rewrite (Hr E), run_bytes by (lia || by apply view_sectors).
  unfold block_at. rewrite Hbs. f_equal. lia.
Qed.
Lemma run_block_write b buf e :
  good e -> Z.of_nat (length buf) = g_block_size e -> 0 <= b < g_blocks_count e ->
  run (metadata_block_write b buf) e (fun rc e' =>
    tx e e' /\ (rc = 0 -> wrote e e' (b * g_block_size e) buf) /\
    (spared e (b * g_sectors_per_block e) (g_sectors_per_block e) -> used e + g_sectors_per_block e <= 64 ->
      rc = 0 /\ used e' <= used e + g_sectors_per_block e)).
Proof.
  intros Hg Hl Hb. destruct (good_fs e Hg) as [Hspb Hbs _ _ _ _ _ _ _ _]. unfold metadata_block_write. apply run_get.
  eapply run_conseq; [apply run_metadata_write; [done|]|].
  - unfold request_ok. split_and!; [lia|nia|nia|lia].
  - intros rc e' (H1 & H2 & H3). split; [done|]. split; [|done].
    replace (b * g_block_size e) with (512 * (b * g_sectors_per_block e)) by lia. done.
Qed.

(** *** Inodes *)
Definition inode_addr e (ino : Z) : Z :=
  u32_get (gd_at e (u32 (ino - 1) / g_inodes_per_group e)) 8 * g_block_size e +
  u32 (ino - 1) mod g_inodes_per_group e * g_inode_size e.
Definition inode_at e (ino : Z) : list Z := span (mem e) (inode_addr e ino) 128.
Lemma looked_gd e e' g : looked e e' -> gd_at e' g = gd_at e g.
Proof.
  intros Hl. unfold gd_at, gd_addr. rewrite (sg_gdt _ _ (tx_geo _ _ (l_tx _ _ Hl))). apply span_ext.
  intros x _. apply Hl.
Qed.
Lemma spared_geo e e' s n : same_geo e e' -> spared e s n -> spared e' s n.
Proof.
  intros Hg Hs i Hi. specialize (Hs i Hi). unfold outside, journal_storage_sector in *.
  by rewrite (sg_spb _ _ Hg), (sg_journal _ _ Hg).
Qed.
Lemma inode_sectors a : 0 <= a ->
  let n := (a mod 512 + 128 + 511) / 512 in
  0 < n /\ a mod 512 + 128 <= 512 * n /\ 512 * (a / 512) + a mod 512 = a /\ 0 <= a mod 512 /\
  512 * (a / 512 + n) <= a + 128 + 511 /\ 0 <= a / 512.
Proof.
  intros Ha n. pose proof (Z.div_mod a 512 ltac:(lia)). pose proof (Z.mod_pos_bound a 512 ltac:(lia)).
  pose proof (Z.div_mod (a mod 512 + 128 + 511) 512 ltac:(lia)).
  pose proof (Z.mod_pos_bound (a mod 512 + 128 + 511) 512 ltac:(lia)). subst n. lia.
Qed.
Lemma run_inode_read ino io e :
  good e -> 0 <= inode_addr e ino ->
  run (inode_io ino io false) e (fun '(rc, l) e' =>
    looked e e' /\ (h -> rc = 0) /\ (rc = 0 -> l = inode_at e ino)).
Proof.
  intros Hg Ha. destruct (inode_sectors _ Ha) as (S1 & S2 & S3 & S4 & _ & _).
  pose proof (u32_range (ino - 1)). pose proof (fs_ipg e (good_fs e Hg)).
  unfold inode_io. apply run_get. cbv zeta. unfold id. apply run_bind.
  eapply run_conseq; [apply run_gd_read; [done|by apply Z.div_pos; lia]|]. intros [rc gd] e1 (L1 & Hh & Hr).
  destruct (Z.eqb_spec rc 0) as [->|Hrc]; cbn [negb].
  2: { apply run_ret. split; [done|]. split; [intros Hx; by destruct Hrc; auto|done]. }
  rewrite (Hr eq_refl). fold (inode_addr e ino). apply run_bind.
  eapply run_conseq; [apply run_metadata_read; [apply L1|lia]|]. intros [rc buf] e2 (L2 & Hh2 & Hr2).
  pose proof (looked_trans _ _ _ L1 L2).
  destruct (Z.eqb_spec rc 0) as [->|Hrc]; cbn [negb]; apply run_ret.
  - split; [done|]. split; [done|]. intros _. rewrite (Hr2 eq_refl).
    rewrite slice_run by (lia || by apply view_sectors, L1). rewrite S3. apply span_ext. intros x _. apply L1.
  - split; [done|]. split; [intros Hx; by destruct Hrc; auto|done].
Qed.
Lemma run_inode_write ino io e :
  good e -> 0 <= inode_addr e ino -> length io = 128%nat ->
  inode_addr e ino + 128 <= 512 * (g_blocks_count e * g_sectors_per_block e) ->
  run (inode_io ino io true) e (fun '(rc, _) e' =>
    tx e e' /\ (rc = 0 -> wrote e e' (inode_addr e ino) io)).
Proof.
  intros Hg Ha Hl Hb. destruct (inode_sectors _ Ha) as (S1 & S2 & S3 & S4 & S5 & S6).
  pose proof (u32_range (ino - 1)). pose proof (fs_ipg e (good_fs e Hg)).
  unfold inode_io. apply run_get. cbv zeta. unfold id. apply run_bind.
  eapply run_conseq; [apply run_gd_read; [done|by apply Z.div_pos; lia]|]. intros [rc gd] e1 (L1 & Hh & Hr).
  destruct (Z.eqb_spec rc 0) as [->|Hrc]; cbn [negb].
  2: { apply run_ret. by split; [apply L1|]. }
  rewrite (Hr eq_refl). fold (inode_addr e ino). apply run_bind.
  eapply run_conseq; [apply run_metadata_read; [apply L1|lia]|]. intros [rc buf] e2 (L2 & Hh2 & Hr2).
  destruct (Z.eqb_spec rc 0) as [->|Hrc]; cbn [negb].
  2: { apply run_ret. by split; [apply (looked_trans _ _ _ L1 L2)|]. }
  rewrite (Hr2 eq_refl). apply run_bind. pose proof (tx_geo _ _ (l_tx _ _ L1)) as Hge.
  eapply run_conseq; [apply (run_write_back _ _ _ io e1 e2); try done; try lia|].
  - apply L1.
  - rewrite (sg_blocks _ _ Hge), (sg_spb _ _ Hge). lia.
  - intros rc e3 (K1 & K2 & _). apply run_ret. split; [by eapply tx_trans; [apply L1|]|].
    intros E. rewrite S3 in K2. by eapply wrote_after; [|apply K2].
Qed.

(** ** The layout of the file system *)
Inductive area := Super | Descriptors | Bitmap (k : bitmap_kind) (g : Z) | Table (g : Z).
Definition area_valid e (a : area) : Prop :=
  match a with Bitmap _ g | Table g => 0 <= g < g_num_groups e | _ => True end.
Definition bitmap_block e (k : bitmap_kind) (g : Z) : Z := u32_get (gd_at e g) (gd_bitmap k).
Definition area_start e (a : area) : Z :=
  match a with
  | Super => 1024
  | Descriptors => g_gdt_start_byte e
  | Bitmap k g => bitmap_block e k g * g_block_size e
  | Table g => u32_get (gd_at e g) 8 * g_block_size e
  end.
Definition area_size e (a : area) : Z :=
  match a with
  | Super => 1024
  | Descriptors => 32 * g_num_groups e
  | Bitmap _ _ => g_block_size e
  | Table _ => g_inodes_per_group e * g_inode_size e
  end.
Definition apart (a n b k : Z) : Prop := a + n <= b \/ b + k <= a.
Record layout e : Prop := {
  lay_in a : area_valid e a ->
    0 <= area_start e a /\ area_start e a + area_size e a <= 512 * (g_blocks_count e * g_sectors_per_block e);
  lay_apart a b : area_valid e a -> area_valid e b -> a <> b ->
    apart (area_start e a) (area_size e a) (area_start e b) (area_size e b);
  lay_inodes : g_inodes_count e <= g_num_groups e * g_inodes_per_group e
}.

Definition ino_group e (ino : Z) : Z := (ino - 1) / g_inodes_per_group e.
Lemma inode_place e ino :
  good e -> layout e -> 1 <= ino <= g_inodes_count e -> ino < 2 ^ 32 ->
  0 <= ino_group e ino < g_num_groups e /\
  exists i, 0 <= i < g_inodes_per_group e /\ ino - 1 = ino_group e ino * g_inodes_per_group e + i /\
  inode_addr e ino = area_start e (Table (ino_group e ino)) + i * g_inode_size e /\
  i * g_inode_size e + 128 <= area_size e (Table (ino_group e ino)).
Proof.
  intros Hg Hla Hi Hw. pose proof (fs_ipg e (good_fs e Hg)). pose proof (fs_isz e (good_fs e Hg)).
  pose proof (lay_inodes e Hla). unfold ino_group, inode_addr. rewrite u32_small by lia.
  pose proof (Z.div_mod (ino - 1) (g_inodes_per_group e) ltac:(lia)).
  pose proof (Z.mod_pos_bound (ino - 1) (g_inodes_per_group e) ltac:(lia)).
  assert (0 <= (ino - 1) / g_inodes_per_group e) by (apply Z.div_pos; lia).
  split; [split; [done|]; apply Z.div_lt_upper_bound; nia|].
  exists ((ino - 1) mod g_inodes_per_group e). split_and!; [lia|lia|lia|done|]. cbn [area_size]. nia.
Qed.
(** Where the inode is, nothing else is. *)
Lemma inode_apart e ino ino' :
  good e -> layout e -> 1 <= ino <= g_inodes_count e -> ino < 2 ^ 32 ->
  1 <= ino' <= g_inodes_count e -> ino' < 2 ^ 32 -> ino <> ino' ->
  apart (inode_addr e ino) 128 (inode_addr e ino') 128.
Proof.
  intros Hg Hla Hi Hw Hi' Hw' Hne. pose proof (fs_isz e (good_fs e Hg)).
  destruct (inode_place e ino Hg Hla Hi Hw) as (Hgr & i & Hi0 & Hi1 & -> & Hs).
  destruct (inode_place e ino' Hg Hla Hi' Hw') as (Hgr' & i' & Hi0' & Hi1' & -> & Hs').
  destruct (decide (ino_group e ino = ino_group e ino')) as [E|E].
  - rewrite <- E in *. assert (i <> i') by lia. unfold apart. nia.
  - assert (Table (ino_group e ino) <> Table (ino_group e ino')) as Ht by congruence.
    pose proof (lay_apart e Hla (Table (ino_group e ino)) (Table (ino_group e ino')) Hgr Hgr' Ht) as Hap.
    unfold apart in *. nia.
Qed.
Lemma inode_apart_gd e ino g :
  good e -> layout e -> 1 <= ino <= g_inodes_count e -> ino < 2 ^ 32 -> 0 <= g < g_num_groups e ->
  apart (inode_addr e ino) 128 (gd_addr e g) 32.
Proof.
  intros Hg Hla Hi Hw Hgr. pose proof (fs_isz e (good_fs e Hg)).
  destruct (inode_place e ino Hg Hla Hi Hw) as (Hgr' & i & Hi0 & Hi1 & -> & Hs).
  pose proof (lay_apart e Hla (Table (ino_group e ino)) Descriptors Hgr' I ltac:(done)) as Hap.
  unfold apart in *. cbn [area_start area_size] in *. unfold gd_addr. nia.
Qed.
(** A write away from the descriptors leaves them. *)
Lemma wrote_gd e e' a l g :
  wrote e e' a l -> apart a (Z.of_nat (length l)) (gd_addr e g) 32 -> gd_at e' g = gd_at e g.
Proof.
  intros [Ht _ Hm] Hap. unfold gd_at, gd_addr in *. rewrite (sg_gdt _ _ (tx_geo _ _ Ht)).
  rewrite <- (bytes_patch a l (mem e)) by (unfold apart in Hap; lia). apply span_ext. auto.
Qed.
Lemma inode_addr_nonneg e ino :
  good e -> layout e -> 1 <= ino <= g_inodes_count e -> ino < 2 ^ 32 ->
  0 <= inode_addr e ino /\ inode_addr e ino + 128 <= 512 * (g_blocks_count e * g_sectors_per_block e).
Proof.
  intros Hg Hla Hi Hw. pose proof (fs_isz e (good_fs e Hg)).
  destruct (inode_place e ino Hg Hla Hi Hw) as (Hgr & i & Hi0 & _ & -> & Hs).
  destruct (lay_in e Hla (Table (ino_group e ino)) Hgr). nia.
Qed.
Lemma inode_addr_same e e' ino :
  same_geo e e' -> gd_at e' (u32 (ino - 1) / g_inodes_per_group e) = gd_at e (u32 (ino - 1) / g_inodes_per_group e) ->
  inode_addr e' ino = inode_addr e ino.
Proof. intros [Hbs _ _ _ _ Hipg _ Hisz _ _ _] E. unfold inode_addr. by rewrite Hbs, Hipg, Hisz, E. Qed.
End store.

(** C23: the inode table is a store.  In a transaction over a file system that is laid out as it should be, an inode
    that [inode_io] has written is what [inode_io] reads, and every other inode reads as it did. *)
Theorem inode_store {D} `{!Blockdev D, !BlockdevLaws D} (e e1 e2 e3 : ext2 D) ino ino' io io0 old l :
  good False e -> layout e ->
  1 <= ino <= g_inodes_count e -> 1 <= ino' <= g_inodes_count e -> g_inodes_count e < 2 ^ 32 ->
  length io = 128%nat ->
  inode_io ino' io0 false e = (Ret (0, old), e1) ->
  inode_io ino io true e = (Ret (0, io), e2) ->
  inode_io ino' io0 false e2 = (Ret (0, l), e3) ->
  l = if ino' =? ino then io else old.
Proof.
  intros Hg Hla Hi Hi' Hw Hl E1 E2 E3.
  destruct (inode_addr_nonneg False e ino Hg Hla Hi ltac:(lia)) as [Ha Hin].
  destruct (inode_addr_nonneg False e ino' Hg Hla Hi' ltac:(lia)) as [Ha' _].
  destruct (inode_place False e ino' Hg Hla Hi' ltac:(lia)) as [Hgr' _].
  destruct (run_result _ _ _ _ _ _ (run_inode_read False ino' io0 e Hg Ha') E1) as (_ & _ & R1).
  rewrite (R1 eq_refl).
  destruct (run_result _ _ _ _ _ _ (run_inode_write False ino io e Hg Ha Hl Hin) E2) as [Htx Hw2].
  specialize (Hw2 eq_refl). assert (inode_addr e2 ino' = inode_addr e ino') as Ea.
  { apply inode_addr_same; [apply Htx|]. rewrite u32_small by lia. eapply wrote_gd; [exact Hw2|].
    rewrite Hl. apply (inode_apart_gd False); done || lia. }
  rewrite <- Ea in Ha'.
  destruct (run_result _ _ _ _ _ _ (run_inode_read False ino' io0 e2 (tx_good _ _ _ Htx) Ha') E3) as (_ & _ & R3).
  rewrite (R3 eq_refl).
  unfold inode_at. rewrite Ea, (span_ext (mem e2) (patch (inode_addr e ino) io (mem e))) by (intros x _; apply Hw2).
  destruct (Z.eqb_spec ino' ino) as [->|Hne].
  - replace 128 with (Z.of_nat (length io)) by lia. apply bytes_patch_same.
  - apply bytes_patch; [lia|]. rewrite Hl.
    destruct (inode_apart False e ino ino' Hg Hla Hi ltac:(lia) Hi' ltac:(lia)); [congruence|by right|by left].
Qed.

(** ** A small file system in a transaction *)
(** One group: bitmaps in blocks 3 and 4, the inode table from block 5 on, 5 blocks and 7 inodes said to be free. *)
Definition demo_gd : list Z := [3; 0; 0; 0; 4; 0; 0; 0; 5; 0; 0; 0; 5; 0; 7; 0] ++ zeros 16.
Definition demo_medium : disk := fun x => if x =? 4 then demo_gd ++ zeros 480 else zeros 512.
Definition demo_fs : ext2 ramdisk :=
  (demo_geometry (mk_ramdisk demo_medium [] [])) <| g_journal_records := [] |>.
Lemma demo_gd_at : gd_at demo_fs 0 = demo_gd.
Proof. vm_compute. reflexivity. Qed.
Lemma demo_good h : good h demo_fs.
Proof.
  split.
  - split; [done|apply NoDup_nil_2|apply (Nat.le_0_l 64)|apply list.Forall_nil_2].
  - split; first [reflexivity|split; (reflexivity || discriminate)|discriminate].
  - reflexivity.
  - intros x. change (length (demo_medium x) = 512%nat). unfold demo_medium. by destruct (x =? 4).
  - done.
Qed.
Lemma demo_areas a : area_valid demo_fs a ->
  area_start demo_fs a =
    match a with
    | Super => 1024 | Descriptors => 2048 | Bitmap Blocks _ => 3072 | Bitmap Inodes _ => 4096 | Table _ => 5120
    end /\
  area_size demo_fs a = match a with Super | Bitmap _ _ => 1024 | Descriptors => 32 | Table _ => 16384 end.
Proof.
  destruct a as [| |k g|g]; cbn [area_valid]; intros Hg; [done|done| |].
  - assert (g = 0) as -> by (change (g_num_groups demo_fs) with 1 in Hg; lia).
    cbn [area_start area_size]. unfold bitmap_block. rewrite demo_gd_at. by destruct k.
  - assert (g = 0) as -> by (change (g_num_groups demo_fs) with 1 in Hg; lia).
    cbn [area_start area_size]. by rewrite demo_gd_at.
Qed.
Lemma demo_layout : layout demo_fs.
Proof.
  assert (g_blocks_count demo_fs * g_sectors_per_block demo_fs = 8192) as Hn by reflexivity. split.
  - intros a Ha. destruct (demo_areas a Ha) as [-> ->]. rewrite Hn. destruct a as [| |[]|]; lia.
  - intros a b Ha Hb Hne. destruct (demo_areas a Ha) as [-> ->], (demo_areas b Hb) as [-> ->]. unfold apart.
    assert (forall g g', 0 <= g < g_num_groups demo_fs -> 0 <= g' < g_num_groups demo_fs -> g = g') as H1.
    { change (g_num_groups demo_fs) with 1. lia. }
    destruct a as [| |[] g|g], b as [| |[] g'|g']; cbn [area_valid] in Ha, Hb; try lia;
      destruct Hne; by rewrite ?(H1 g g' Ha Hb).
  - discriminate.
Qed.
Definition demo_inode : list Z := replicate 128 9.
Definition demo_stored : ext2 ramdisk := (inode_io 2 demo_inode true demo_fs).2.
Lemma demo_read_before : inode_io 2 [] false demo_fs = (Ret (0, zeros 128), (inode_io 2 [] false demo_fs).2).
Proof. apply pair_fst. vm_compute. reflexivity. Qed.
Lemma demo_write : inode_io 2 demo_inode true demo_fs = (Ret (0, demo_inode), demo_stored).
Proof. unfold demo_stored. apply pair_fst. vm_compute. reflexivity. Qed.
Lemma demo_read_after :
  exists l, inode_io 2 [] false demo_stored = (Ret (0, l), (inode_io 2 [] false demo_stored).2).
Proof. exists demo_inode. apply pair_fst. vm_compute. reflexivity. Qed.
Lemma inode_store_witness :
  exists l e3, inode_io 2 [] false demo_stored = (Ret (0, l), e3) /\ l = demo_inode.
Proof.
  destruct demo_read_after as [l E]. exists l. eexists. split; [exact E|].
  exact (@inode_store ramdisk _ _ demo_fs _ demo_stored _ 2 2 demo_inode [] (zeros 128) l (demo_good False) demo_layout
    ltac:(split; discriminate) ltac:(split; discriminate) eq_refl eq_refl demo_read_before demo_write E).
Defined.
