(* ===== verification/Ext2Alloc.v ===== *)
(** * The bitmap allocators of the ext2 file server

    [alloc_block], [free_block], [alloc_inode] and [free_inode] of [disk.c]: what
    they hand out was free, they change the one bit and the counters and nothing
    else, and they find something when there is something. *)
From Stdlib Require Import ZArith Lia.
From stdpp Require Import base numbers sets list list_numbers functions relations.
From S2P Require Import Prelude Ext2Journal Ext2Crash Ext2Txn Ext2Disk Ext2Store.

#[export] Instance bitmap_kind_eq_dec : EqDecision bitmap_kind.
Proof. solve_decision. Defined.

(** ** Bitmaps *)
Lemma bitmap_bit_testbit bitmap b : 0 <= b -> bitmap_bit bitmap b = Z.testbit (at_ bitmap (b / 8)) (b mod 8).
Proof. intros Hb. unfold bitmap_bit. fold (bit (b mod 8)). apply has_bit. apply Z.mod_pos_bound. lia. Qed.
Lemma same_bit b b' : 0 <= b -> 0 <= b' -> (b / 8 =? b' / 8) && (b mod 8 =? b' mod 8) = (b =? b').
Proof.
  intros Hb Hb'. pose proof (Z.div_mod b 8 ltac:(lia)). pose proof (Z.div_mod b' 8 ltac:(lia)).
  destruct (Z.eqb_spec (b / 8) (b' / 8)), (Z.eqb_spec (b mod 8) (b' mod 8)), (Z.eqb_spec b b'); cbn; try lia; done || congruence.
Qed.
Lemma bitmap_set_bit bitmap b b' :
  0 <= b -> b / 8 < Z.of_nat (length bitmap) -> 0 <= b' ->
  bitmap_bit (bitmap_set b bitmap) b' = (b =? b') || bitmap_bit bitmap b'.
Proof.
  intros Hb Hl Hb'. rewrite !bitmap_bit_testbit by done. unfold bitmap_set.
  assert (0 <= b / 8) by (apply Z.div_pos; lia). assert (0 <= b' / 8) by (apply Z.div_pos; lia).
  pose proof (Z.mod_pos_bound b 8 ltac:(lia)). pose proof (Z.mod_pos_bound b' 8 ltac:(lia)).
  rewrite at_put by lia. rewrite <- (same_bit b b') by done. destruct (Z.eqb_spec (b / 8) (b' / 8)) as [E|]; [|done].
  rewrite testbit_u8, Z.lor_spec, <- E by lia. fold (bit (b mod 8)). rewrite bit_testbit by lia.
  destruct (Z.ltb_spec (b' mod 8) 8); [|lia]. cbn [andb]. apply orb_comm.
Qed.
Lemma bitmap_clear_bit bitmap b b' :
  0 <= b -> b / 8 < Z.of_nat (length bitmap) -> 0 <= b' ->
  bitmap_bit (bitmap_clear b bitmap) b' = negb (b =? b') && bitmap_bit bitmap b'.
Proof.
  intros Hb Hl Hb'. rewrite !bitmap_bit_testbit by done. unfold bitmap_clear.
  assert (0 <= b / 8) by (apply Z.div_pos; lia). assert (0 <= b' / 8) by (apply Z.div_pos; lia).
  pose proof (Z.mod_pos_bound b 8 ltac:(lia)). pose proof (Z.mod_pos_bound b' 8 ltac:(lia)).
  rewrite at_put by lia. rewrite <- (same_bit b b') by done. destruct (Z.eqb_spec (b / 8) (b' / 8)) as [E|]; [|done].
  rewrite testbit_u8, Z.land_spec, Z.lnot_spec, <- E by lia. fold (bit (b mod 8)). rewrite bit_testbit by lia.
  destruct (Z.ltb_spec (b' mod 8) 8); [|lia]. cbn [andb]. apply andb_comm.
Qed.
Lemma bitmap_set_length b bitmap : length (bitmap_set b bitmap) = length bitmap.
Proof. apply put_length. Qed.
Lemma bitmap_clear_length b bitmap : length (bitmap_clear b bitmap) = length bitmap.
Proof. apply put_length. Qed.
Lemma find_clear_spec n b bitmap :
  match find_clear n b bitmap with
  | Some x => b <= x < b + Z.of_nat n /\ bitmap_bit bitmap x = false
  | None => forall x, b <= x < b + Z.of_nat n -> bitmap_bit bitmap x = true
  end.
Proof.
  revert b. induction n as [|n IH]; intros b; cbn [find_clear]; [lia|].
  destruct (bitmap_bit bitmap b) eqn:E; [|split; [lia|done]]. specialize (IH (b + 1)).
  destruct (find_clear n (b + 1) bitmap) as [x|]; [split; [lia|apply IH]|].
  intros x Hx. destruct (decide (x = b)) as [->|]; [done|]. apply IH. lia.
Qed.

(** ** 16-bit fields *)
Lemma u16_set_length off v buf : length (u16_set off v buf) = length buf.
Proof. unfold u16_set. by rewrite !put_length. Qed.
Lemma at_u16_set_ne off v buf j :
  0 <= off -> off + 2 <= Z.of_nat (length buf) -> 0 <= j -> (j < off \/ off + 2 <= j) ->
  at_ (u16_set off v buf) j = at_ buf j.
Proof.
  intros Ho Hl Hj Hd. unfold u16_set. rewrite !at_put by (rewrite ?put_length; lia).
  by repeat match goal with |- context [?a =? ?b] => destruct (Z.eqb_spec a b); [lia|] end.
Qed.
Lemma u32_get_u16_set off v buf off' :
  0 <= off -> off + 2 <= Z.of_nat (length buf) -> 0 <= off' -> (off' + 4 <= off \/ off + 2 <= off') ->
  u32_get (u16_set off v buf) off' = u32_get buf off'.
Proof. intros. apply u32_get_at. intros k Hk. apply at_u16_set_ne; lia. Qed.
Lemma u16_get_u16_set off v buf off' :
  0 <= off -> off + 2 <= Z.of_nat (length buf) -> 0 <= off' -> (off' + 2 <= off \/ off + 2 <= off') ->
  u16_get (u16_set off v buf) off' = u16_get buf off'.
Proof. intros. unfold u16_get. by rewrite !at_u16_set_ne by lia. Qed.
Lemma u16_get_set off v buf :
  0 <= off -> off + 2 <= Z.of_nat (length buf) -> 0 <= v < 2 ^ 16 -> u16_get (u16_set off v buf) off = v.
Proof.
  intros Ho Hl Hv. unfold u16_get, u16_set. rewrite !at_put by (rewrite ?put_length; lia).
  repeat match goal with |- context [?a =? ?b] => destruct (Z.eqb_spec a b); [lia|] ||
    (destruct (Z.eqb_spec a b); [|lia]) end.
  apply Z.bits_inj'. intros j Hj. rewrite Z.lor_spec, Z.shiftl_spec, testbit_u8 by lia.
  destruct (Z.ltb_spec j 8); cbn [andb].
  - rewrite (Z.testbit_neg_r _ (j - 8)) by lia. apply orb_false_r.
  - rewrite testbit_u8, Z.shiftr_spec by lia. replace (j - 8 + 8) with j by lia.
    destruct (Z.ltb_spec (j - 8) 8); cbn [andb orb]; [done|]. by rewrite (testbit_high v 16) by lia.
Qed.

(** ** Groups *)
Section alloc.
Context {D : Type} `{!Blockdev D, !BlockdevLaws D}.
Implicit Types e : ext2 D.
Context (h : Prop).
Notation good := (good h).
Notation tx := (tx h).
Notation run := (run h).

(** A bitmap has the bits of its group, and no group starts after the end. *)
Record groups_ok e : Prop := {
  gr_start g : 0 <= g < g_num_groups e -> group_start g e <= g_blocks_count e;
  gr_cover : g_blocks_count e <= g_num_groups e * g_blocks_per_group e;
  gr_blocks : g_blocks_per_group e <= 8 * g_block_size e;
  gr_inodes : g_inodes_per_group e <= 8 * g_block_size e
}.
Record cursor_ok (k : bitmap_kind) e : Prop := {
  cu_group : 0 <= (cursor k e).1 < g_num_groups e;
  cu_bit : 0 <= (cursor k e).2
}.
Record alloc_ok e : Prop := {
  al_good : good e;
  al_layout : layout e;
  al_groups : groups_ok e
}.
(** Whether bit [b] of a bitmap of group [g] is set, and how many are said to be free. *)
Definition bit_used e (k : bitmap_kind) (g b : Z) : bool := bitmap_bit (block_at e (bitmap_block e k g)) b.
Definition free_count e (k : bitmap_kind) (g : Z) : Z := u16_get (gd_at e g) (gd_free k).

Lemma gd_length e g : length (gd_at e g) = 32%nat.
Proof. unfold gd_at. pose proof (span_length (mem e) (gd_addr e g) 32). lia. Qed.
Lemma block_length e b : good e -> Z.of_nat (length (block_at e b)) = g_block_size e.
Proof. intros Hg. destruct (good_fs h e Hg) as [? Hbs _ _ _ _ _ _ _ _]. apply span_length. lia. Qed.
Lemma bits_range e k g : alloc_ok e -> 0 <= g < g_num_groups e -> 0 <= bits_in_group k g e <= 8 * g_block_size e.
Proof.
  intros [Hg _ [Hs _ Hb Hi]] Hgr. specialize (Hs g Hgr). destruct (good_fs h e Hg) as [Hspb Hbs Hbl Hbpg Hipg Hf _ _ _ _].
  destruct k; cbn [bits_in_group]; [|lia].
  assert (0 <= group_start g e) by (unfold group_start; nia).
  destruct (Z.gtb_spec (group_start g e + g_blocks_per_group e) (g_blocks_count e)); rewrite u32_small; lia.
Qed.

(** *** The bytes an allocation changes *)
Definition new_gd e k g delta : list Z := u16_set (gd_free k) (u16 (free_count e k g + delta)) (gd_at e g).
Definition new_sb e k delta : list Z := u32_set (sb_free k) (u32 (u32_get (g_sb e) (sb_free k) + delta)) (g_sb e).
Record recounted e e' k g (bitmap : list Z) (delta : Z) : Prop := {
  rc_tx : tx e e';
  rc_sb : g_sb e' = new_sb e k delta;
  rc_mem x : mem e' x = patch 1024 (new_sb e k delta) (patch (gd_addr e g) (new_gd e k g delta)
                          (patch (bitmap_block e k g * g_block_size e) bitmap (mem e))) x
}.
Lemma new_gd_length e k g delta : length (new_gd e k g delta) = 32%nat.
Proof. unfold new_gd. by rewrite u16_set_length, gd_length. Qed.
Lemma new_sb_length e k delta : length (new_sb e k delta) = length (g_sb e).
Proof. apply u32_set_length. Qed.
Lemma gd_apart e g g' : g <> g' -> apart (gd_addr e g) 32 (gd_addr e g') 32.
Proof. intros Hne. unfold apart, gd_addr. lia. Qed.
(** The descriptors are apart from the superblock and the bitmaps. *)
Lemma gd_apart_area e a g :
  good e -> layout e -> area_valid e a -> a <> Descriptors -> 0 <= g < g_num_groups e ->
  apart (area_start e a) (area_size e a) (gd_addr e g) 32.
Proof.
  intros Hg Hla Ha Hne Hgr. pose proof (lay_apart e Hla a Descriptors Ha I Hne) as Hap.
  unfold apart in *. cbn [area_start area_size] in Hap. unfold gd_addr. lia.
Qed.
Lemma recounted_gd e e' k g bitmap delta g' :
  alloc_ok e -> 0 <= g < g_num_groups e -> Z.of_nat (length bitmap) = g_block_size e ->
  recounted e e' k g bitmap delta -> 0 <= g' < g_num_groups e ->
  gd_at e' g' = if g' =? g then new_gd e k g delta else gd_at e g'.
Proof.
  intros [Hg Hla _] Hgr Hl [Ht _ Hm] Hgr'. unfold gd_at at 1, gd_addr. rewrite (sg_gdt _ _ (tx_geo h _ _ Ht)).
  fold (gd_addr e g'). rewrite (span_ext _ _ _ _ (fun x _ => Hm x)).
  pose proof (gd_apart_area e Super g' Hg Hla I ltac:(done) Hgr') as H1.
  pose proof (gd_apart_area e (Bitmap k g) g' Hg Hla Hgr ltac:(done) Hgr') as H2.
  unfold apart in *. cbn [area_start area_size] in *.
  rewrite bytes_patch by (rewrite ?new_sb_length, ?(good_sb h e Hg); lia).
  destruct (Z.eqb_spec g' g) as [->|Hne].
  - pose proof (bytes_patch_same (gd_addr e g) (new_gd e k g delta)) as Hs. rewrite new_gd_length in Hs. apply Hs.
  - pose proof (gd_apart e g g' ltac:(done)) as H3. unfold apart in H3.
    rewrite bytes_patch by (rewrite ?new_gd_length; lia). apply bytes_patch; [lia|]. lia.
Qed.
Lemma new_gd_field e k g delta off : 0 <= off <= 8 -> u32_get (new_gd e k g delta) off = u32_get (gd_at e g) off.
Proof.
  intros Ho. unfold new_gd. apply u32_get_u16_set; rewrite ?gd_length; destruct k; cbn [gd_free]; lia.
Qed.
Lemma recounted_field e e' k g bitmap delta g' off :
  alloc_ok e -> 0 <= g < g_num_groups e -> Z.of_nat (length bitmap) = g_block_size e ->
  recounted e e' k g bitmap delta -> 0 <= g' < g_num_groups e -> 0 <= off <= 8 ->
  u32_get (gd_at e' g') off = u32_get (gd_at e g') off.
Proof.
  intros Ha Hgr Hl Hr Hgr' Ho. rewrite (recounted_gd e e' k g bitmap delta) by done.
  destruct (Z.eqb_spec g' g) as [->|]; [by apply new_gd_field|done].
Qed.
Lemma same_areas_ok e e' :
  alloc_ok e -> good e' -> same_geo e e' ->
  (forall a, area_valid e a -> area_start e' a = area_start e a /\ area_size e' a = area_size e a) -> alloc_ok e'.
Proof.
  intros Ha Hg' Hge Hs.
  assert (forall a, area_valid e' a -> area_valid e a) as Hv by (intros []; cbn; by rewrite ?(sg_groups _ _ Hge)).
  split; [done| |].
  - split.
    + intros a Ha'%Hv. destruct (Hs a Ha') as [-> ->]. rewrite (sg_blocks _ _ Hge), (sg_spb _ _ Hge).
      by apply (lay_in e (al_layout e Ha)).
    + intros a b Ha'%Hv Hb'%Hv Hne. destruct (Hs a Ha') as [-> ->], (Hs b Hb') as [-> ->].
      by apply (lay_apart e (al_layout e Ha)).
    + destruct Hge as [_ _ _ -> _ -> _ _ -> _ _]. apply (lay_inodes e (al_layout e Ha)).
  - destruct (al_groups e Ha) as [H1 H0 H2 H3]. split.
    + intros g'. unfold group_start. destruct Hge as [_ _ -> _ -> _ -> _ -> _ _]. apply H1.
    + by destruct Hge as [_ _ -> _ -> _ _ _ -> _ _].
    + by destruct Hge as [-> _ _ _ -> _ _ _ _ _ _].
    + by destruct Hge as [-> _ _ _ _ -> _ _ _ _ _].
Qed.
Lemma recounted_areas e e' k g bitmap delta a :
  alloc_ok e -> 0 <= g < g_num_groups e -> Z.of_nat (length bitmap) = g_block_size e ->
  recounted e e' k g bitmap delta -> area_valid e a ->
  area_start e' a = area_start e a /\ area_size e' a = area_size e a.
Proof.
  intros Ha Hgr Hl Hr Hv. destruct (tx_geo h _ _ (rc_tx _ _ _ _ _ _ Hr)) as [Hbs _ _ _ _ Hipg _ Hisz Hng Hgdt _].
  destruct a as [| |k' g'|g']; cbn [area_start area_size]; rewrite ?Hbs, ?Hipg, ?Hisz, ?Hng, ?Hgdt; [done|done| |].
  - split; [|done]. unfold bitmap_block. rewrite (recounted_field e e' k g bitmap delta) by (done || by destruct k'). done.
  - split; [|done]. by rewrite (recounted_field e e' k g bitmap delta) by done.
Qed.
Lemma recounted_ok e e' k g bitmap delta :
  alloc_ok e -> 0 <= g < g_num_groups e -> Z.of_nat (length bitmap) = g_block_size e ->
  recounted e e' k g bitmap delta -> alloc_ok e'.
Proof.
  intros Ha Hgr Hl Hr. apply (same_areas_ok e); [done|apply Hr|apply (rc_tx _ _ _ _ _ _ Hr)|].
  intros a Hv. by apply (recounted_areas e e' k g bitmap delta).
Qed.
(** Of all bitmaps, that of group [g] has changed. *)
Lemma recounted_bitmap e e' k g bitmap delta k' g' :
  alloc_ok e -> 0 <= g < g_num_groups e -> Z.of_nat (length bitmap) = g_block_size e ->
  recounted e e' k g bitmap delta -> 0 <= g' < g_num_groups e ->
  block_at e' (bitmap_block e' k' g') =
    if decide (k' = k /\ g' = g) then bitmap else block_at e (bitmap_block e k' g').
Proof.
  intros Ha Hgr Hl Hr Hgr'. pose proof (al_good e Ha) as Hg. pose proof (al_layout e Ha) as Hla.
  destruct (good_fs h e Hg) as [Hspb Hbs _ _ _ _ _ _ _ _].
  assert (bitmap_block e' k' g' = bitmap_block e k' g') as ->.
  { unfold bitmap_block. rewrite (recounted_field e e' k g bitmap delta) by (done || by destruct k'). done. }
  unfold block_at at 1. rewrite (sg_bs _ _ (tx_geo h _ _ (rc_tx _ _ _ _ _ _ Hr))).
  rewrite (span_ext _ _ _ _ (fun x _ => rc_mem _ _ _ _ _ _ Hr x)).
  pose proof (lay_apart e Hla Super (Bitmap k' g') I Hgr' ltac:(done)) as H1.
  pose proof (gd_apart_area e (Bitmap k' g') g Hg Hla Hgr' ltac:(done) Hgr) as H2.
  unfold apart in *. cbn [area_start area_size] in *.
  rewrite !bytes_patch by (rewrite ?new_sb_length, ?new_gd_length, ?(good_sb h e Hg); lia).
  case_decide as Hd.
  - destruct Hd as [-> ->].
    pose proof (bytes_patch_same (bitmap_block e k g * g_block_size e) bitmap (mem e)) as Hs. by rewrite Hl in Hs.
  - assert (Bitmap k g <> Bitmap k' g') as Hne by (intros [= -> ->]; by apply Hd).
    pose proof (lay_apart e Hla (Bitmap k g) (Bitmap k' g') Hgr Hgr' Hne) as H3. unfold apart in H3.
    cbn [area_start area_size] in H3. apply bytes_patch; [lia|]. rewrite Hl. lia.
Qed.

(** *** The counters *)
Definition same_cursors e e' : Prop :=
  g_alloc_cursor e' = g_alloc_cursor e /\ g_alloc_inode_cursor e' = g_alloc_inode_cursor e.
(** The journal leaves the sectors an allocation in group [g] writes alone. *)
Definition group_spared e (k : bitmap_kind) (g : Z) : Prop :=
  spared e 2 2 /\ spared e (gd_addr e g / 512) 1 /\
  spared e (bitmap_block e k g * g_sectors_per_block e) (g_sectors_per_block e).
Lemma good_set_sb e sb : good e -> length sb = 1024%nat -> good (e <| g_sb := sb |>).
Proof. intros [Ht Hf _ Hs Hh] Hl. split; [destruct Ht; by split|destruct Hf; by split|done|done|done]. Qed.
Lemma tx_set_sb e e' sb : tx e e' -> length sb = 1024%nat -> tx e (e' <| g_sb := sb |>).
Proof. intros [Hg [] Hc] Hl. split; [by apply good_set_sb|by split|done]. Qed.
Lemma gd_write_range e g : good e -> layout e -> 0 <= g < g_num_groups e ->
  gd_addr e g / 512 < g_blocks_count e * g_sectors_per_block e.
Proof.
  intros Hg Hla Hgr. destruct (lay_in e Hla Descriptors I) as [_ Hin]. cbn [area_start area_size] in Hin.
  apply Z.div_lt_upper_bound; [lia|]. unfold gd_addr. lia.
Qed.
Lemma run_count_free e e1 k g bitmap delta :
  alloc_ok e -> 0 <= g < g_num_groups e ->
  wrote h e e1 (bitmap_block e k g * g_block_size e) bitmap ->
  run (count_free k g (gd_at e g) delta) e1 (fun rc e' =>
    tx e e' /\ (rc = 0 -> recounted e e' k g bitmap delta /\ same_cursors e e') /\
    (h -> group_spared e k g -> used e1 + 3 <= 64 -> rc = 0)).
Proof.
  intros [Hg Hla Hgo] Hgr [Ht Hq Hm]. pose proof (tx_geo h _ _ Ht) as Hge. pose proof (good_sb h e Hg) as Hsb.
  assert (gd_addr e1 g = gd_addr e g) as Ea by (unfold gd_addr; by rewrite (sg_gdt _ _ Hge)).
  pose proof (gd_write_range e g Hg Hla Hgr) as Hgw. destruct (lay_in e Hla Super I) as [_ Hin].
  unfold count_free. apply run_bind.
  eapply run_conseq; [apply run_gd_write; [apply Ht|lia|by rewrite u16_set_length, gd_length|]|].
  { by rewrite Ea, (sg_blocks _ _ Hge), (sg_spb _ _ Hge). }
  fold (free_count e k g). fold (new_gd e k g delta). intros rc e2 (H1 & H2 & H3). rewrite Ea in H2, H3.
  destruct (Z.eqb_spec rc 0) as [->|Hrc]; cbn [negb].
  2: { apply run_ret. split; [by eapply tx_trans|]. split; [done|]. intros Hx (_ & Hs2 & _) Hu.
       destruct Hrc. apply H3; [done|by eapply spared_geo|lia]. }
  destruct (H2 eq_refl) as [Ht2 Hq2 Hm2]. apply run_modify.
  assert (g_sb e2 = g_sb e) as Esb by by rewrite (q_sb _ _ Hq2), (q_sb _ _ Hq).
  pose proof (tx_trans h _ _ _ Ht Ht2) as Ht02. pose proof (tx_geo h _ _ Ht02) as Hge2.
  assert (e2 <| g_sb ::= fun sb => u32_set (sb_free k) (u32 (u32_get sb (sb_free k) + delta)) sb |> =
    e2 <| g_sb := new_sb e k delta |>) as ->.
  { unfold new_sb. rewrite <- Esb. by destruct e2. }
  assert (length (new_sb e k delta) = 1024%nat) as Hlsb by by rewrite new_sb_length.
  pose proof (tx_set_sb _ _ _ Ht02 Hlsb) as Ht3. unfold sb_write. apply run_get.
  change (g_sb (e2 <| g_sb := new_sb e k delta |>)) with (new_sb e k delta).
  eapply run_conseq; [apply run_metadata_write; [apply Ht3|]|].
  { unfold request_ok. cbn [area_start area_size] in Hin.
    change (g_blocks_count (e2 <| g_sb := new_sb e k delta |>)) with (g_blocks_count e2).
    change (g_sectors_per_block (e2 <| g_sb := new_sb e k delta |>)) with (g_sectors_per_block e2).
    rewrite (sg_blocks _ _ Hge2), (sg_spb _ _ Hge2). lia. }
  intros rc e3 (K1 & K2 & K3). split; [by eapply tx_trans|]. split.
  - intros E. destruct (K2 E) as [_ [W1 W2 W3] Wm].
    split; [split; [by eapply tx_trans|done|]|split; [rewrite W2|rewrite W3]].
    + intros x. rewrite Wm. apply patch_ext. change (mem (e2 <| g_sb := new_sb e k delta |>) x) with (mem e2 x).
      rewrite Hm2. apply patch_ext, Hm.
    + by rewrite <- (q_cursor _ _ Hq), <- (q_cursor _ _ Hq2).
    + by rewrite <- (q_icursor _ _ Hq), <- (q_icursor _ _ Hq2).
  - intros Hx (Hs1 & Hs2 & _) Hu. destruct (H3 Hx) as [_ Hu2]; [by eapply spared_geo|lia|].
    apply K3; [by eapply spared_geo; [|exact Hs1]; apply Ht3|].
    change (used (e2 <| g_sb := new_sb e k delta |>)) with (used e2). lia.
Qed.

(** *** Looking for a group *)
(** Nothing has changed but the cursors. *)
Record idle e e' : Prop := {
  i_tx : tx e e';
  i_sb : g_sb e' = g_sb e;
  i_mem x : mem e' x = mem e x;
  i_records : g_journal_records e' = g_journal_records e
}.
Lemma idle_looked e e' : looked h e e' -> idle e e'.
Proof. intros [Ht Hq Hm Hr]. split; [done|apply Hq|done|done]. Qed.
Lemma idle_trans e1 e2 e3 : idle e1 e2 -> idle e2 e3 -> idle e1 e3.
Proof.
  intros [H1 H2 H3 H4] [K1 K2 K3 K4].
  split; [by eapply tx_trans|by rewrite K2|intros x; by rewrite K3|by rewrite K4].
Qed.
Lemma good_cursor k c e : good e -> good (set_cursor k c e).
Proof. intros [Ht Hf Hl Hs Hh]. destruct k; split; try done; (destruct Ht; by split) || (destruct Hf; by split). Qed.
Lemma idle_cursor k c e : good e -> idle e (set_cursor k c e).
Proof. intros Hg. split; [split; [by apply good_cursor| |]| | |]; destruct k; done. Qed.
Lemma idle_gd e e' g : idle e e' -> gd_at e' g = gd_at e g.
Proof.
  intros Hi. unfold gd_at, gd_addr. rewrite (sg_gdt _ _ (tx_geo h _ _ (i_tx _ _ Hi))). apply span_ext.
  intros x _. apply Hi.
Qed.
Lemma idle_bitmap_block e e' k g : idle e e' -> bitmap_block e' k g = bitmap_block e k g.
Proof. intros Hi. unfold bitmap_block. by rewrite (idle_gd e e'). Qed.
Lemma idle_block e e' b : idle e e' -> block_at e' b = block_at e b.
Proof.
  intros Hi. unfold block_at. rewrite (sg_bs _ _ (tx_geo h _ _ (i_tx _ _ Hi))). apply span_ext.
  intros x _. apply Hi.
Qed.
Lemma idle_used e e' k g b : idle e e' -> bit_used e' k g b = bit_used e k g b.
Proof. intros Hi. unfold bit_used. by rewrite (idle_bitmap_block e e'), (idle_block e e'). Qed.
Lemma idle_free e e' k g : idle e e' -> free_count e' k g = free_count e k g.
Proof. intros Hi. unfold free_count. by rewrite (idle_gd e e'). Qed.
Lemma geo_bits e e' k g : same_geo e e' -> bits_in_group k g e' = bits_in_group k g e.
Proof.
  intros [_ _ H1 _ H2 H3 H4 _ _ _ _]. destruct k; cbn [bits_in_group]; unfold group_start; by rewrite ?H1, ?H2, ?H3, ?H4.
Qed.
Lemma idle_ok e e' : alloc_ok e -> idle e e' -> alloc_ok e'.
Proof.
  intros Ha Hi. pose proof (tx_geo h _ _ (i_tx _ _ Hi)) as Hge.
  apply (same_areas_ok e); [done|apply (i_tx _ _ Hi)|done|]. intros a _.
  destruct Hge as [Hbs _ _ _ _ Hipg _ Hisz Hng Hgdt _].
  destruct a; cbn; rewrite ?(idle_bitmap_block e e') by done; rewrite ?(idle_gd e e') by done;
    by rewrite ?Hbs, ?Hipg, ?Hisz, ?Hng, ?Hgdt.
Qed.
Lemma idle_recounted e e' e2 k g bitmap delta :
  idle e e' -> recounted e' e2 k g bitmap delta -> recounted e e2 k g bitmap delta.
Proof.
  intros Hi [Ht Hs Hm]. pose proof (tx_geo h _ _ (i_tx _ _ Hi)) as Hge.
  assert (new_sb e' k delta = new_sb e k delta) as Esb by (unfold new_sb; by rewrite (i_sb _ _ Hi)).
  assert (new_gd e' k g delta = new_gd e k g delta) as Egd
    by (unfold new_gd; by rewrite (idle_free e e'), (idle_gd e e')).
  split; [by eapply tx_trans; [apply Hi|]|by rewrite Hs|]. intros x. rewrite Hm, Esb, Egd.
  unfold gd_addr. rewrite (sg_gdt _ _ Hge), (sg_bs _ _ Hge), (idle_bitmap_block e e') by done.
  do 3 apply patch_ext. apply Hi.
Qed.
Lemma idle_spared e e' k g : idle e e' -> group_spared e k g -> group_spared e' k g.
Proof.
  intros Hi (H1 & H2 & H3). pose proof (tx_geo h _ _ (i_tx _ _ Hi)) as Hge.
  unfold group_spared, gd_addr. rewrite (sg_gdt _ _ Hge), (sg_spb _ _ Hge), (idle_bitmap_block e e') by done.
  split_and!; by eapply spared_geo.
Qed.
Lemma next_cursor e k : alloc_ok e -> cursor_ok k e ->
  cursor_ok k (set_cursor k (u32 ((cursor k e).1 + 1) mod g_num_groups e, 0) e) /\
  cursor k (set_cursor k (u32 ((cursor k e).1 + 1) mod g_num_groups e, 0) e) = (((cursor k e).1 + 1) mod g_num_groups e, 0).
Proof.
  intros [Hg _ _] [Hc1 Hc2]. pose proof (fs_groups e (good_fs h e Hg)).
  rewrite u32_small by lia. pose proof (Z.mod_pos_bound ((cursor k e).1 + 1) (g_num_groups e) ltac:(lia)) as Hm.
  destruct k; (split; [split; [exact Hm|exact (Z.le_refl 0)]|done]).
Qed.

(** A search that fails on a healthy drive has seen every bit from the cursor on: in [n] groups, of which the first
    from the cursor's bit on. *)
Definition searched e k (n : nat) : Prop :=
  forall i b, 0 <= i < Z.of_nat n ->
  let g := ((cursor k e).1 + i) mod g_num_groups e in
  (if i =? 0 then (cursor k e).2 else 0) <= b < bits_in_group k g e ->
  free_count e k g <> 0 -> bit_used e k g b = true.
Record allocated e e' k g b : Prop := {
  al_group : 0 <= g < g_num_groups e;
  al_bit : 0 <= b < bits_in_group k g e;
  al_was_free : bit_used e k g b = false;
  al_counted : free_count e k g <> 0;
  al_change : recounted e e' k g (bitmap_set b (block_at e (bitmap_block e k g))) (-1);
  al_cursor : cursor_ok k e'
}.
Lemma bitmap_range e k g : good e -> layout e -> 0 <= g < g_num_groups e -> 0 <= bitmap_block e k g < g_blocks_count e.
Proof.
  intros Hg Hla Hgr. destruct (lay_in e Hla (Bitmap k g) Hgr) as [H1 H2]. cbn [area_start area_size] in *.
  destruct (good_fs h e Hg) as [Hspb Hbs _ _ _ _ _ _ _ _]. rewrite Hbs in *. nia.
Qed.
(** Group [g] has room. *)
Lemma run_take e e2 k g b :
  alloc_ok e -> looked h e e2 -> 0 <= g < g_num_groups e -> 0 <= b < bits_in_group k g e ->
  g = (cursor k e).1 -> bit_used e k g b = false -> free_count e k g <> 0 ->
  run (rc ← metadata_block_write (bitmap_block e k g) (bitmap_set b (block_at e (bitmap_block e k g)));
       if negb (rc =? 0) then mret (-1, (0, 0)) else
       rc ← count_free k g (gd_at e g) (-1);
       if negb (rc =? 0) then mret (-1, (0, 0)) else
       modify (fun e => set_cursor k ((cursor k e).1, b + 1) e);;
       mret (0, (g, b))) e2 (fun '(rc, (g', b')) e' =>
    tx e e' /\ (rc = 0 -> g' = g /\ b' = b /\ allocated e e' k g b) /\
    (h -> group_spared e k g -> used e + g_sectors_per_block e + 3 <= 64 -> rc = 0)).
Proof.
  intros Ha Hl Hgr Hb Ecu Hfree Hcnt. pose proof (al_good e Ha) as Hg. pose proof (tx_geo h _ _ (l_tx h _ _ Hl)) as Hge.
  pose proof (bitmap_range e k g Hg (al_layout e Ha) Hgr) as Hbr.
  assert (Z.of_nat (length (bitmap_set b (block_at e (bitmap_block e k g)))) = g_block_size e) as Hlen
    by (rewrite bitmap_set_length; by apply block_length).
  apply run_bind. eapply run_conseq; [apply run_block_write|].
  { apply Hl. } { by rewrite (sg_bs _ _ Hge). } { by rewrite (sg_blocks _ _ Hge). }
  intros rc e3 (H1 & H2 & H3). rewrite (sg_spb _ _ Hge), (sg_bs _ _ Hge) in *.
  assert (used e2 = used e) as Eu by (unfold used; by rewrite (l_records h _ _ Hl)). rewrite Eu in H3.
  destruct (Z.eqb_spec rc 0) as [->|Hrc]; cbn [negb].
  2: { apply run_ret. split; [by eapply tx_trans; [apply Hl|]|]. split; [done|]. intros Hx (_ & _ & Hs) Hu.
       destruct Hrc. apply H3; [by eapply spared_geo|lia]. }
  apply run_bind. eapply run_conseq.
  { apply (run_count_free e e3 k g); [done|done|]. eapply wrote_after; [done|by apply H2]. }
  intros rc e4 (K1 & K2 & K3).
  destruct (Z.eqb_spec rc 0) as [->|Hrc]; cbn [negb].
  2: { apply run_ret. split; [done|]. split; [done|]. intros Hx Hs Hu. destruct Hrc. apply K3; [done|done|].
       destruct H3 as [_ Hu3]; [eapply spared_geo; [exact Hge|apply Hs]|lia|lia]. }
  destruct (K2 eq_refl) as [Hrec [Ec1 Ec2]]. apply run_modify. apply run_ret.
  assert (cursor k e4 = cursor k e) as Ec by (by destruct k).
  pose proof (idle_cursor k ((cursor k e4).1, b + 1) e4 (tx_good h _ _ K1)) as Hi.
  split; [by eapply tx_trans; [|apply Hi]|]. split; [|done]. intros _. split; [done|]. split; [done|].
  split; [done|done|done|done| |].
  - destruct Hrec as [R1 R2 R3]. split; [by eapply tx_trans; [|apply Hi]|by rewrite (i_sb _ _ Hi)|].
    intros x. by rewrite (i_mem _ _ Hi).
  - assert (g_num_groups e4 = g_num_groups e) as Hng by apply (sg_groups _ _ (tx_geo h _ _ K1)).
    assert (0 <= g < g_num_groups e4) as Hc1 by lia. assert (0 <= b + 1) as Hc2 by lia.
    rewrite Ec, <- Ecu. destruct k; (split; [exact Hc1|exact Hc2]).
Qed.

Lemma idle_allocated e e' e2 k g b : idle e e' -> allocated e' e2 k g b -> allocated e e2 k g b.
Proof.
  intros Hi [H1 H2 H3 H4 H5 H6]. pose proof (tx_geo h _ _ (i_tx _ _ Hi)) as Hge.
  rewrite (sg_groups _ _ Hge) in H1. rewrite (geo_bits e e') in H2 by done. rewrite (idle_used e e') in H3 by done.
  rewrite (idle_free e e') in H4 by done. rewrite (idle_bitmap_block e e'), (idle_block e e') in H5 by done.
  split; try done. by eapply idle_recounted.
Qed.
(** The search goes on in the next group. *)
Lemma searched_next e e' k n :
  alloc_ok e -> cursor_ok k e -> idle e e' ->
  cursor k e' = (((cursor k e).1 + 1) mod g_num_groups e, 0) ->
  (forall b, (cursor k e).2 <= b < bits_in_group k (cursor k e).1 e ->
    free_count e k (cursor k e).1 <> 0 -> bit_used e k (cursor k e).1 b = true) ->
  searched e' k n -> searched e k (S n).
Proof.
  intros [Hg _ _] [Hc1 Hc2] Hi Ecu H0 Hs i b Hin. cbv zeta. pose proof (fs_groups e (good_fs h e Hg)).
  pose proof (tx_geo h _ _ (i_tx _ _ Hi)) as Hge. destruct (Z.eqb_spec i 0) as [->|Hne].
  - rewrite Z.add_0_r, Z.mod_small by lia. apply H0.
  - intros Hb Hf. specialize (Hs (i - 1) b ltac:(lia)). cbv zeta in Hs. rewrite Ecu in Hs. cbn [fst snd] in Hs.
    rewrite (sg_groups _ _ Hge), Z.add_mod_idemp_l in Hs by lia.
    replace ((cursor k e).1 + 1 + (i - 1)) with ((cursor k e).1 + i) in Hs by lia.
    rewrite (geo_bits e e'), (idle_free e e'), (idle_used e e') in Hs by done.
    apply Hs; [|done]. by destruct (i - 1 =? 0).
Qed.
Definition alloc_post e k n (r : Z * (Z * Z)) (e' : ext2 D) : Prop :=
  let '(rc, (g, b)) := r in
  tx e e' /\ (rc = 0 -> allocated e e' k g b) /\
  (rc <> 0 -> h -> (forall g, 0 <= g < g_num_groups e -> group_spared e k g) ->
    used e + g_sectors_per_block e + 3 <= 64 -> searched e k n).
Lemma run_skip e e1 k n :
  alloc_ok e -> cursor_ok k e -> idle e e1 -> cursor k e1 = cursor k e ->
  (forall b, (cursor k e).2 <= b < bits_in_group k (cursor k e).1 e ->
    free_count e k (cursor k e).1 <> 0 -> bit_used e k (cursor k e).1 b = true) ->
  (forall e, alloc_ok e -> cursor_ok k e -> run (alloc_bit k n) e (alloc_post e k n)) ->
  run (next_group k;; alloc_bit k n) e1 (alloc_post e k (S n)).
Proof.
  intros Ha Hc Hi Ec H0 IH. pose proof (tx_geo h _ _ (i_tx _ _ Hi)) as Hge.
  assert (alloc_ok e1) as Ha1 by by eapply idle_ok.
  assert (cursor_ok k e1) as Hc1 by (destruct Hc; split; rewrite Ec, ?(sg_groups _ _ Hge); done).
  destruct (next_cursor e1 k Ha1 Hc1) as [Hc2 Ec2].
  pose proof (idle_cursor k (u32 ((cursor k e1).1 + 1) mod g_num_groups e1, 0) e1 (al_good e1 Ha1)) as Hi2.
  apply run_modify. revert Hc2 Ec2 Hi2. generalize (set_cursor k (u32 ((cursor k e1).1 + 1) mod g_num_groups e1, 0) e1).
  intros e2 Hc2 Ec2 Hi2. rewrite Ec, (sg_groups _ _ Hge) in Ec2. pose proof (idle_trans _ _ _ Hi Hi2) as Hi02.
  eapply run_conseq; [apply IH; [by eapply idle_ok|done]|].
  intros [rc [g b]] e3 (T1 & T2 & T3). split; [by eapply tx_trans; [apply Hi02|]|]. split.
  - intros E. eapply idle_allocated; [done|auto].
  - intros E Hx Hs Hu. eapply searched_next; [done|done|done|done|done|]. apply T3; [done|done| |].
    + intros g'. rewrite (sg_groups _ _ (tx_geo h _ _ (i_tx _ _ Hi02))). intros Hg'. eapply idle_spared; [done|auto].
    + unfold used in *. rewrite (i_records _ _ Hi02), (sg_spb _ _ (tx_geo h _ _ (i_tx _ _ Hi02))). done.
Qed.
Lemma run_alloc_bit k n e : alloc_ok e -> cursor_ok k e -> run (alloc_bit k n) e (alloc_post e k n).
Proof.
  revert e. induction n as [|n IH]; intros e Ha Hc; cbn [alloc_bit].
  { apply run_ret. split; [apply tx_refl, Ha|]. split; [done|]. intros _ _ _ _ i b Hi. lia. }
  pose proof (al_good e Ha) as Hg. destruct (cu_group k e Hc) as [Hc1 Hc2].
  apply run_get. unfold id. apply run_bind. eapply run_conseq; [apply run_gd_read; done|].
  intros [rc gd] e1 (L1 & Hh & Hr). destruct (Z.eqb_spec rc 0) as [->|Hrc]; cbn [negb].
  2: { apply run_ret. split; [apply L1|]. split; [done|]. intros _ Hx. by destruct Hrc; auto. }
  rewrite (Hr eq_refl). fold (free_count e k (cursor k e).1).
  assert (forall e', looked h e e' -> cursor k e' = cursor k e) as Hcu.
  { intros e' [_ [_ Q1 Q2] _ _]. by destruct k. }
  destruct (Z.eqb_spec (free_count e k (cursor k e).1) 0) as [Hf|Hf].
  { apply run_skip; [done|done|by apply idle_looked|auto|done|done]. }
  fold (bitmap_block e k (cursor k e).1). apply run_bind. eapply run_conseq; [apply run_block_read; apply L1|].
  intros [rc bitmap] e2 (L2 & Hh2 & Hr2). pose proof (looked_trans h _ _ _ L1 L2) as L02.
  destruct (Z.eqb_spec rc 0) as [->|Hrc]; cbn [negb].
  2: { apply run_ret. split; [apply L02|]. split; [done|]. intros _ Hx. by destruct Hrc; auto. }
  rewrite (Hr2 eq_refl), (idle_block e e1) by (by apply idle_looked).
  pose proof (find_clear_spec (Z.to_nat (bits_in_group k (cursor k e).1 e - (cursor k e).2)) (cursor k e).2
    (block_at e (bitmap_block e k (cursor k e).1))) as Hfc. pose proof (cu_bit k e Hc).
  destruct (find_clear _ _ _) as [b|].
  - destruct Hfc as [Hb1 Hb2]. eapply run_conseq; [apply run_take; try done; lia|].
    intros [rc [g' b']] e3 (T1 & T2 & T3). split; [done|]. split.
    + intros E. by destruct (T2 E) as (-> & -> & ?).
    + intros E Hx Hs Hu. destruct E. apply T3; [done|by apply Hs|done].
  - apply run_skip; [done|done|by apply idle_looked|auto| |done]. intros b Hb _. apply Hfc. lia.
Qed.

(** *** Giving back *)
Lemma run_free_bit k g b e :
  alloc_ok e -> 0 <= g < g_num_groups e ->
  run (free_bit k g b) e (fun rc e' =>
    tx e e' /\ (rc = 0 -> recounted e e' k g (bitmap_clear b (block_at e (bitmap_block e k g))) 1 /\
                          same_cursors e e' /\ (k = Inodes -> bit_used e k g b = true))).
Proof.
  intros Ha Hgr. pose proof (al_good e Ha) as Hg. unfold free_bit.
  apply run_bind. eapply run_conseq; [apply run_gd_read; [done|lia]|].
  intros [rc gd] e1 (L1 & _ & Hr). destruct (Z.eqb_spec rc 0) as [->|Hrc]; cbn [negb].
  2: { apply run_ret. by split; [apply L1|]. }
  rewrite (Hr eq_refl). fold (bitmap_block e k g). apply run_bind. eapply run_conseq; [apply run_block_read; apply L1|].
  intros [rc bitmap] e2 (L2 & _ & Hr2). pose proof (looked_trans h _ _ _ L1 L2) as L02.
  destruct (Z.eqb_spec rc 0) as [->|Hrc]; cbn [negb].
  2: { apply run_ret. by split; [apply L02|]. }
  rewrite (Hr2 eq_refl), (idle_block e e1) by (by apply idle_looked). fold (bit_used e k g b).
  destruct (match k with Inodes => negb (bit_used e k g b) | Blocks => false end) eqn:Ek.
  { apply run_ret. by split; [apply L02|]. }
  pose proof (tx_geo h _ _ (l_tx h _ _ L02)) as Hge.
  pose proof (bitmap_range e k g Hg (al_layout e Ha) Hgr) as Hbr.
  apply run_bind. eapply run_conseq; [apply run_block_write|].
  { apply L02. }
  { rewrite bitmap_clear_length, (sg_bs _ _ Hge). by apply block_length. }
  { by rewrite (sg_blocks _ _ Hge). }
  intros rc e3 (H1 & H2 & _). rewrite (sg_bs _ _ Hge) in H2. destruct (Z.eqb_spec rc 0) as [->|Hrc]; cbn [negb].
  2: { apply run_ret. by split; [eapply tx_trans; [apply L02|]|]. }
  eapply run_conseq.
  { apply (run_count_free e e3 k g); [done|done|]. eapply wrote_after; [done|by apply H2]. }
  intros rc e4 (K1 & K2 & _). split; [done|]. intros E. destruct (K2 E) as [R1 R2]. split; [done|]. split; [done|].
  intros ->. by apply negb_false_iff in Ek.
Qed.

(** *** Blocks *)
Definition block_group e (b : Z) : Z := (b - g_first_data_block e) / g_blocks_per_group e.
Definition block_bit e (b : Z) : Z := (b - g_first_data_block e) mod g_blocks_per_group e.
Definition block_used e (b : Z) : bool := bit_used e Blocks (block_group e b) (block_bit e b).
Definition is_block e (b : Z) : Prop := g_first_data_block e <= b < g_blocks_count e.
Lemma block_place e b : alloc_ok e -> is_block e b ->
  0 <= block_group e b < g_num_groups e /\ 0 <= block_bit e b < bits_in_group Blocks (block_group e b) e /\
  b = group_start (block_group e b) e + block_bit e b.
Proof.
  intros Ha [Hb1 Hb2]. destruct (good_fs h e (al_good e Ha)) as [Hspb Hbs Hbl Hbpg _ Hf _ _ _ _].
  destruct (al_groups e Ha) as [Hgs Hcov _ _]. unfold block_group, block_bit.
  pose proof (Z.div_mod (b - g_first_data_block e) (g_blocks_per_group e) ltac:(lia)).
  pose proof (Z.mod_pos_bound (b - g_first_data_block e) (g_blocks_per_group e) ltac:(lia)).
  set (g := (b - g_first_data_block e) / g_blocks_per_group e) in *.
  assert (0 <= g < g_num_groups e) as Hgr.
  { split; [apply Z.div_pos; lia|]. apply Z.div_lt_upper_bound; lia. }
  split; [done|]. specialize (Hgs g Hgr). cbn [bits_in_group]. unfold group_start in *.
  split; [|lia]. split; [lia|].
  destruct (Z.gtb_spec (g_first_data_block e + g * g_blocks_per_group e + g_blocks_per_group e) (g_blocks_count e));
    rewrite u32_small; nia.
Qed.
Lemma block_of_bit e g b : alloc_ok e -> 0 <= g < g_num_groups e -> 0 <= b < bits_in_group Blocks g e ->
  let n := u32 (u32 (group_start g e) + b) in
  is_block e n /\ block_group e n = g /\ block_bit e n = b.
Proof.
  intros Ha Hgr Hb. destruct (good_fs h e (al_good e Ha)) as [Hspb Hbs Hbl Hbpg _ Hf _ _ _ _].
  destruct (al_groups e Ha) as [Hgs _ _ _]. specialize (Hgs g Hgr). cbn [bits_in_group] in Hb.
  assert (0 <= group_start g e) by (unfold group_start; nia).
  assert (b < g_blocks_per_group e /\ group_start g e + b < g_blocks_count e) as [H1 H2].
  { destruct (Z.gtb_spec (group_start g e + g_blocks_per_group e) (g_blocks_count e));
      rewrite u32_small in Hb by lia; lia. }
  rewrite (u32_small (group_start g e)), u32_small by lia. cbv zeta. unfold is_block, block_group, block_bit.
  unfold group_start in *. replace (g_first_data_block e + g * g_blocks_per_group e + b - g_first_data_block e)
    with (b + g * g_blocks_per_group e) by lia.
  rewrite Z.div_add, Z.mod_add, Z.div_small, Z.mod_small by lia. nia.
Qed.
(** A search over one group more than there are has seen every bit. *)
Lemma searched_all e k g b :
  alloc_ok e -> cursor_ok k e -> searched e k (Z.to_nat (g_num_groups e + 1)) ->
  0 <= g < g_num_groups e -> 0 <= b < bits_in_group k g e -> free_count e k g <> 0 -> bit_used e k g b = true.
Proof.
  intros Ha [Hc1 _] Hs Hgr Hb Hf. pose proof (fs_groups e (good_fs h e (al_good e Ha))).
  set (c := (cursor k e).1) in *. set (n := g_num_groups e) in *.
  assert (exists i, 0 < i <= n /\ (c + i) mod n = g) as (i & Hi & Eg).
  { destruct (decide (g <= c)).
    - exists (g - c + n). split; [lia|]. replace (c + (g - c + n)) with (g + 1 * n) by lia.
      rewrite Z.mod_add by lia. apply Z.mod_small. lia.
    - exists (g - c). split; [lia|]. replace (c + (g - c)) with g by lia. apply Z.mod_small. lia. }
  specialize (Hs i b ltac:(lia)). cbv zeta in Hs. fold c n in Hs. rewrite Eg in Hs.
  destruct (Z.eqb_spec i 0); [lia|]. by apply Hs.
Qed.
End alloc.

(** ** Theorems *)
Section theorems.
Context {D : Type} `{!Blockdev D, !BlockdevLaws D}.
Implicit Types e : ext2 D.

(** What [alloc_bit] has done to the bits. *)
Lemma allocated_bits h e e' k g b k' g' b' :
  alloc_ok h e -> allocated h e e' k g b -> 0 <= g' < g_num_groups e -> 0 <= b' ->
  bit_used e' k' g' b' = bool_decide (k' = k /\ g' = g /\ b' = b) || bit_used e k' g' b'.
Proof.
  intros Ha [H1 H2 H3 H4 H5 H6] Hgr' Hb'. pose proof (al_good h e Ha) as Hg.
  pose proof (bits_range h e k g Ha H1). pose proof (block_length h e (bitmap_block e k g) Hg) as Hl.
  unfold bit_used at 1. rewrite (recounted_bitmap h e e' k g (bitmap_set b (block_at e (bitmap_block e k g))) (-1) k' g' Ha H1)
    by (rewrite ?bitmap_set_length; done). case_decide as Hd.
  - destruct Hd as [-> ->]. rewrite bitmap_set_bit by (rewrite ?Hl; done || lia || (apply Z.div_lt_upper_bound; lia)).
    fold (bit_used e k g b'). f_equal. destruct (Z.eqb_spec b b') as [->|]; symmetry.
    + by apply bool_decide_eq_true_2.
    + apply bool_decide_eq_false_2. naive_solver.
  - rewrite bool_decide_eq_false_2 by tauto. done.
Qed.
Lemma freed_bits h e e' k g b k' g' b' :
  alloc_ok h e -> 0 <= g < g_num_groups e -> 0 <= b < bits_in_group k g e ->
  recounted h e e' k g (bitmap_clear b (block_at e (bitmap_block e k g))) 1 -> 0 <= g' < g_num_groups e -> 0 <= b' ->
  bit_used e' k' g' b' = negb (bool_decide (k' = k /\ g' = g /\ b' = b)) && bit_used e k' g' b'.
Proof.
  intros Ha H1 H2 H5 Hgr' Hb'. pose proof (al_good h e Ha) as Hg.
  pose proof (bits_range h e k g Ha H1). pose proof (block_length h e (bitmap_block e k g) Hg) as Hl.
  unfold bit_used at 1. rewrite (recounted_bitmap h e e' k g (bitmap_clear b (block_at e (bitmap_block e k g))) 1 k' g' Ha H1)
    by (rewrite ?bitmap_clear_length; done). case_decide as Hd.
  - destruct Hd as [-> ->]. rewrite bitmap_clear_bit by (rewrite ?Hl; done || lia || (apply Z.div_lt_upper_bound; lia)).
    fold (bit_used e k g b'). f_equal. f_equal. destruct (Z.eqb_spec b b') as [->|]; symmetry.
    + by apply bool_decide_eq_true_2.
    + apply bool_decide_eq_false_2. naive_solver.
  - rewrite bool_decide_eq_false_2 by tauto. done.
Qed.
(** The counter of the group. *)
Lemma recounted_count h e e' k g bitmap delta :
  alloc_ok h e -> 0 <= g < g_num_groups e -> Z.of_nat (length bitmap) = g_block_size e ->
  recounted h e e' k g bitmap delta -> free_count e' k g = u16 (free_count e k g + delta).
Proof.
  intros Ha Hgr Hl Hr. unfold free_count at 1. rewrite (recounted_gd h e e' k g bitmap delta g) by done.
  rewrite Z.eqb_refl. unfold new_gd. apply u16_get_set; [by destruct k|rewrite gd_length; destruct k; cbn; lia|apply u16_range].
Qed.
Lemma geo_block_group e e' b : same_geo e e' -> block_group e' b = block_group e b /\ block_bit e' b = block_bit e b.
Proof. intros [_ _ _ _ H1 _ H2 _ _ _ _]. unfold block_group, block_bit. by rewrite H1, H2. Qed.
Lemma run_alloc_block h e :
  alloc_ok h e -> cursor_ok Blocks e ->
  run h alloc_block e (fun '(rc, b) e' =>
    tx h e e' /\ (rc = 0 -> is_block e b /\ allocated h e e' Blocks (block_group e b) (block_bit e b)) /\
    (rc <> 0 -> h -> (forall g, 0 <= g < g_num_groups e -> group_spared e Blocks g) ->
      used e + g_sectors_per_block e + 3 <= 64 ->
      forall b, is_block e b -> free_count e Blocks (block_group e b) <> 0 -> block_used e b = true)).
Proof.
  intros Ha Hc. unfold alloc_block. apply run_get. unfold id. apply run_bind.
  eapply run_conseq; [apply run_alloc_bit; done|]. intros [rc [g b]] e' (T1 & T2 & T3).
  destruct (Z.eqb_spec rc 0) as [->|Hrc]; cbn [negb]; apply run_ret.
  - split; [done|]. split; [|done]. intros _. specialize (T2 eq_refl).
    destruct (block_of_bit h e g b Ha (al_group _ _ _ _ _ _ T2) (al_bit _ _ _ _ _ _ T2)) as (H1 & -> & ->). done.
  - split; [done|]. split; [done|]. intros _ Hx Hs Hu b0 Hb0 Hf.
    destruct (block_place h e b0 Ha Hb0) as (H1 & H2 & _).
    by apply (searched_all h e Blocks (block_group e b0) (block_bit e b0) Ha Hc (T3 Hrc Hx Hs Hu)).
Qed.

(** Two blocks are the same when their groups and bits are. *)
Lemma same_block h e b b' : alloc_ok h e -> is_block e b -> is_block e b' ->
  bool_decide (Blocks = Blocks /\ block_group e b' = block_group e b /\ block_bit e b' = block_bit e b) = (b' =? b).
Proof.
  intros Ha Hb Hb'. destruct (block_place h e b Ha Hb) as (_ & _ & E), (block_place h e b' Ha Hb') as (_ & _ & E').
  destruct (Z.eqb_spec b' b) as [->|Hne]; [by apply bool_decide_eq_true_2|].
  apply bool_decide_eq_false_2. intros (_ & Eg & Eb). rewrite Eg, Eb in E'. congruence.
Qed.
Lemma block_used_next h e e' b : alloc_ok h e -> same_geo e e' -> is_block e b ->
  block_used e' b = bit_used e' Blocks (block_group e b) (block_bit e b).
Proof. intros _ Hge _. unfold block_used. by destruct (geo_block_group e e' b Hge) as [-> ->]. Qed.
(** What [alloc_block] has done to the blocks. *)
Lemma allocated_used h e e' b b' :
  alloc_ok h e -> is_block e b -> allocated h e e' Blocks (block_group e b) (block_bit e b) -> is_block e b' ->
  block_used e' b' = (b' =? b) || block_used e b'.
Proof.
  intros Ha Hb Hal Hb'. destruct (block_place h e b' Ha Hb') as (Hgr' & Hbit' & _).
  rewrite (block_used_next h e e' b' Ha (tx_geo h _ _ (rc_tx h _ _ _ _ _ _ (al_change h _ _ _ _ _ Hal))) Hb').
  rewrite (allocated_bits h e e' Blocks (block_group e b) (block_bit e b)) by (done || lia).
  by rewrite (same_block h e b b').
Qed.
Lemma new_sb_count h e k delta : alloc_ok h e ->
  u32_get (new_sb e k delta) (sb_free k) = u32 (u32_get (g_sb e) (sb_free k) + delta).
Proof.
  intros Ha. pose proof (good_sb h e (al_good h e Ha)) as Hl. unfold new_sb.
  apply u32_get_set; [by destruct k|rewrite Hl; destruct k; cbn; lia|apply u32_range].
Qed.
End theorems.

(** C20: [alloc_block] hands out what is free and finds it.  A block it returns lies in the file system and was free;
    it is in use afterwards, every other block and every inode is as before, and the counters of its group and of the
    superblock are one less.  On a healthy drive, with room left in the transaction, it returns a block whenever some
    group that counts free blocks has one. *)
Theorem alloc_block_correct {D} `{!Blockdev D, !BlockdevLaws D} (e e' : ext2 D) r :
  let h := healthy (e_dev e) in
  alloc_ok h e -> cursor_ok Blocks e -> alloc_block e = (r, e') ->
  (forall b, r = Ret (0, b) ->
    is_block e b /\ block_used e b = false /\
    (forall b', is_block e b' -> block_used e' b' = (b' =? b) || block_used e b') /\
    (forall g i, 0 <= g < g_num_groups e -> 0 <= i -> bit_used e' Inodes g i = bit_used e Inodes g i) /\
    free_count e' Blocks (block_group e b) = u16 (free_count e Blocks (block_group e b) - 1) /\
    u32_get (g_sb e') 12 = u32 (u32_get (g_sb e) 12 - 1) /\
    alloc_ok h e' /\ cursor_ok Blocks e') /\
  (h -> (forall g, 0 <= g < g_num_groups e -> group_spared e Blocks g) -> used e + g_sectors_per_block e + 3 <= 64 ->
    forall b, is_block e b -> block_used e b = false -> free_count e Blocks (block_group e b) <> 0 ->
    exists b', r = Ret (0, b')).
Proof.
  intros h Ha Hc E. pose proof (run_alloc_block h e Ha Hc) as Hr. unfold run in Hr. rewrite E in Hr.
  destruct r as [[rc b0]|]; [|split; [done|by intros]]. destruct Hr as (T1 & T2 & T3). split.
  - intros b [= -> ->]. destruct (T2 eq_refl) as [Hb Hal]. pose proof (tx_geo h _ _ T1) as Hge.
    destruct (block_place h e b Ha Hb) as (Hgr & _ & _). pose proof (al_change h _ _ _ _ _ Hal) as Hch.
    assert (Z.of_nat (length (bitmap_set (block_bit e b) (block_at e (bitmap_block e Blocks (block_group e b))))) =
      g_block_size e) as Hl by (rewrite bitmap_set_length; by apply (block_length h), Ha).
    split_and!; [done|apply Hal| | | | | |apply Hal].
    + intros b' Hb'. by apply (allocated_used h).
    + intros g i Hg Hi. rewrite (allocated_bits h e e' Blocks (block_group e b) (block_bit e b)) by (done || lia).
      by rewrite bool_decide_eq_false_2 by naive_solver.
    + by rewrite (recounted_count h e e' _ _ _ (-1) Ha Hgr Hl Hch).
    + rewrite (rc_sb h _ _ _ _ _ _ Hch). exact (new_sb_count h e Blocks (-1) Ha).
    + by apply (recounted_ok h e e' _ _ _ _ Ha Hgr Hl Hch).
  - intros Hx Hs Hu b Hb Hfree Hcnt. destruct (decide (rc = 0)) as [->|Hrc]; [eauto|].
    by rewrite (T3 Hrc Hx Hs Hu b Hb Hcnt) in Hfree.
Qed.

(** [free_block] takes back what [alloc_block] handed out.  After both, every block and every inode is in use or
    free as it was, and so are the counters. *)
Theorem alloc_free_roundtrip {D} `{!Blockdev D, !BlockdevLaws D} (e e1 e2 : ext2 D) b :
  alloc_ok False e -> cursor_ok Blocks e ->
  alloc_block e = (Ret (0, b), e1) -> free_block b e1 = (Ret 0, e2) ->
  (forall b', is_block e b' -> block_used e2 b' = block_used e b') /\
  (forall g i, 0 <= g < g_num_groups e -> 0 <= i -> bit_used e2 Inodes g i = bit_used e Inodes g i) /\
  free_count e2 Blocks (block_group e b) = u16 (free_count e Blocks (block_group e b)) /\
  u32_get (g_sb e2) 12 = u32 (u32_get (g_sb e) 12) /\
  alloc_ok False e2.
Proof.
  intros Ha Hc E1 E2. pose proof (run_alloc_block False e Ha Hc) as Hr.
  apply (run_result _ _ _ _ _ _ Hr) in E1 as (T1 & T2 & _). destruct (T2 eq_refl) as [Hb Hal]. clear Hr T2.
  pose proof (tx_geo _ _ _ T1) as Hge. destruct (block_place False e b Ha Hb) as (Hgr & Hbit & _).
  pose proof (al_change _ _ _ _ _ _ Hal) as Hch. pose proof (al_good _ e Ha) as Hgd.
  assert (Z.of_nat (length (bitmap_set (block_bit e b) (block_at e (bitmap_block e Blocks (block_group e b))))) =
    g_block_size e) as Hl by (rewrite bitmap_set_length; by apply (block_length False)).
  pose proof (recounted_ok _ e e1 _ _ _ _ Ha Hgr Hl Hch) as Ha1.
  assert (is_block e1 b) as Hb1 by (unfold is_block; by rewrite (sg_first _ _ Hge), (sg_blocks _ _ Hge)).
  destruct (geo_block_group e e1 b Hge) as [Eg Eb].
  unfold free_block, mbind, M_bind, get, id in E2.
  destruct (Z.ltb_spec b (g_first_data_block e1)) as [?|_]; [by destruct Hb1; lia|].
  fold (block_group e1 b) (block_bit e1 b) in E2. rewrite Eg, Eb in E2.
  assert (0 <= block_group e b < g_num_groups e1) as Hgr1 by by rewrite (sg_groups _ _ Hge).
  assert (0 <= block_bit e b < bits_in_group Blocks (block_group e b) e1) as Hbit1 by by rewrite (geo_bits e e1).
  pose proof (run_free_bit False Blocks (block_group e b) (block_bit e b) e1 Ha1 Hgr1) as Hr.
  apply (run_result _ _ _ _ _ _ Hr) in E2 as (K1 & K2). destruct (K2 eq_refl) as (Hch2 & _ & _).
  assert (Z.of_nat (length (bitmap_clear (block_bit e b) (block_at e1 (bitmap_block e1 Blocks (block_group e b))))) =
    g_block_size e1) as Hl1 by (rewrite bitmap_clear_length; by apply (block_length False), Ha1).
  pose proof (tx_geo _ _ _ K1) as Hge2.
  split_and!.
  - intros b' Hb'. destruct (block_place False e b' Ha Hb') as (Hgr' & Hbit' & _).
    rewrite (block_used_next False e e2 b' Ha ltac:(by etrans) Hb').
    rewrite (freed_bits False e1 e2 Blocks (block_group e b) (block_bit e b)) by
      (rewrite ?(sg_groups _ _ Hge); done || lia).
    rewrite (allocated_bits False e e1 Blocks (block_group e b) (block_bit e b)) by (done || lia).
    rewrite (same_block False e b b') by done. fold (block_used e b').
    destruct (Z.eqb_spec b' b) as [->|]; [|done]. symmetry. apply Hal.
  - intros g i Hg Hi. rewrite (freed_bits False e1 e2 Blocks (block_group e b) (block_bit e b)) by
      (rewrite ?(sg_groups _ _ Hge); done || lia).
    rewrite (allocated_bits False e e1 Blocks (block_group e b) (block_bit e b)) by (done || lia).
    by rewrite bool_decide_eq_false_2 by naive_solver.
  - rewrite (recounted_count _ e1 e2 _ _ _ 1 Ha1 Hgr1 Hl1 Hch2), (recounted_count _ e e1 _ _ _ (-1) Ha Hgr Hl Hch).
    unfold u16. rewrite Z.add_mod_idemp_l by lia. f_equal. lia.
  - change 12 with (sb_free Blocks). rewrite (rc_sb _ _ _ _ _ _ _ Hch2), (new_sb_count False e1 Blocks 1 Ha1), (rc_sb _ _ _ _ _ _ _ Hch).
    rewrite (new_sb_count False e Blocks (-1) Ha). unfold u32. rewrite Z.add_mod_idemp_l by lia. f_equal. lia.
  - by apply (recounted_ok _ e1 e2 _ _ _ _ Ha1 Hgr1 Hl1 Hch2).
Qed.

Lemma demo_alloc_ok h : alloc_ok h demo_fs.
Proof.
  split; [apply demo_good|apply demo_layout|]. split; [|discriminate|discriminate|discriminate].
  intros g Hg. change (g_num_groups demo_fs) with 1 in Hg. assert (g = 0) as -> by lia. discriminate.
Qed.
Lemma demo_cursor : cursor_ok Blocks demo_fs.
Proof. split; [split; [discriminate|reflexivity]|discriminate]. Qed.
Definition demo_taken : ext2 ramdisk := (alloc_block demo_fs).2.
Lemma demo_take : alloc_block demo_fs = (Ret (0, 1), demo_taken).
Proof. unfold demo_taken. apply pair_fst. vm_compute. reflexivity. Qed.
Lemma demo_give : free_block 1 demo_taken = (Ret 0, (free_block 1 demo_taken).2).
Proof. apply pair_fst. vm_compute. reflexivity. Qed.
Lemma alloc_block_correct_witness :
  block_used demo_fs 1 = false /\
  (forall b', is_block demo_fs b' -> block_used demo_taken b' = (b' =? 1) || block_used demo_fs b').
Proof.
  destruct (@alloc_block_correct ramdisk _ _ demo_fs demo_taken (Ret (0, 1)) (demo_alloc_ok _) demo_cursor demo_take)
    as [H _].
  destruct (H 1 eq_refl) as (_ & H1 & H2 & _). by split.
Defined.
Lemma alloc_free_roundtrip_witness :
  (forall b', is_block demo_fs b' -> block_used (free_block 1 demo_taken).2 b' = block_used demo_fs b') /\
  free_count (free_block 1 demo_taken).2 Blocks 0 = 5.
Proof.
  destruct (@alloc_free_roundtrip ramdisk _ _ demo_fs demo_taken (free_block 1 demo_taken).2 1
    (demo_alloc_ok False) demo_cursor demo_take demo_give) as (H1 & _ & H2 & _).
  split; [exact H1|]. change (block_group demo_fs 1) with 0 in H2. rewrite H2. vm_compute. reflexivity.
Defined.
