(* ===== verification/Ext2Map.v ===== *)
(** * The block map of a file in the ext2 server

    [append_block_to_inode] and [walk_inode_blocks] of [disk.c]: the blocks of a
    file are named by twelve entries of the inode, a block of entries and a tree of
    blocks of entries of depth two.  An append adds one block at the end, taking
    fresh blocks for the tree as needed, and keeps all blocks of the file distinct;
    a walk returns the blocks in order. *)
From Stdlib Require Import ZArith Lia.
From stdpp Require Import base numbers sets list list_numbers functions relations.
From S2P Require Import Prelude Ext2Journal Ext2Crash Ext2Txn Ext2Disk Ext2Store Ext2Alloc.

(** Where the number of a block of a file is kept: in the two pointers of the inode to blocks of entries, in the
    entries of the doubly indirect block, or in one of the entries for data. *)
Inductive place := Ind | Dind | Sind (j : Z) | Data (i : Z).
#[export] Instance place_eq_dec : EqDecision place.
Proof. solve_decision. Defined.

Section blockmap.
Context {D : Type} `{!Blockdev D, !BlockdevLaws D}.
Implicit Types e : ext2 D.
Context (h : Prop).
Notation good := (good h).
Notation tx := (tx h).
Notation run := (run h).

Definition entries e : Z := g_block_size e / 4.
Definition capacity e : Z := 12 + entries e + entries e * entries e.
(** Entry [i] of the block of entries [t]; without a block there is none. *)
Definition entry_of e (t i : Z) : Z := if t =? 0 then 0 else u32_get (block_at e t) (i * 4).
Definition block_of e (inode : list Z) (p : place) : Z :=
  match p with
  | Ind => indirect_of inode
  | Dind => dindirect_of inode
  | Sind j => entry_of e (dindirect_of inode) j
  | Data i =>
    if i <? 12 then u32_get inode (40 + i * 4) else
    if i - 12 <? entries e then entry_of e (indirect_of inode) (i - 12) else
    let k := i - 12 - entries e in
    entry_of e (entry_of e (dindirect_of inode) (k / entries e)) (k mod entries e)
  end.
Definition valid e (n : Z) (p : place) : Prop :=
  match p with Sind j => 0 <= j < entries e | Data i => 0 <= i < n | _ => True end.

(** Outside of what the file system keeps for itself. *)
Definition storage e (b : Z) : Prop :=
  b <> 0 /\ forall a, area_valid e a -> apart (b * g_block_size e) (g_block_size e) (area_start e a) (area_size e a).
Definition owned e (b : Z) : Prop := is_block e b /\ block_used e b = true /\ storage e b.
(** The bitmap leaves no block of the file system's own free. *)
Record disk_ok e : Prop := {
  do_alloc : alloc_ok h e;
  do_cursor : cursor_ok Blocks e;
  do_free b : is_block e b -> block_used e b = false -> storage e b
}.
(** An inode with [n] blocks of data: all blocks it names are in use and distinct. *)
Record file_ok e (inode : list Z) (n : Z) : Prop := {
  fo_length : length inode = 128%nat;
  fo_range : 0 <= n <= capacity e;
  fo_data i : 0 <= i < n -> block_of e inode (Data i) <> 0;
  fo_owned p : valid e n p -> block_of e inode p <> 0 -> owned e (block_of e inode p);
  fo_distinct p p' : valid e n p -> valid e n p' -> block_of e inode p <> 0 ->
    block_of e inode p = block_of e inode p' -> p = p'
}.
Definition file_blocks e (inode : list Z) (n : Z) : list Z := (fun i => block_of e inode (Data i)) <$> seqZ 0 n.

(** ** What an operation leaves alone *)
(** Every block in use but [w] keeps its content. *)
Record touched e e' (w : Z) : Prop := {
  to_tx : tx e e';
  to_ok : disk_ok e';
  to_area a : area_valid e a -> area_start e' a = area_start e a /\ area_size e' a = area_size e a;
  to_used b : is_block e b -> block_used e b = true -> block_used e' b = true;
  to_keep b : owned e b -> b <> w -> block_at e' b = block_at e b
}.
Lemma geo_is_block e e' b : same_geo e e' -> is_block e b <-> is_block e' b.
Proof. intros Hge. unfold is_block. by rewrite (sg_first _ _ Hge), (sg_blocks _ _ Hge). Qed.
Lemma geo_area_valid e e' a : same_geo e e' -> area_valid e' a <-> area_valid e a.
Proof. intros Hge. destruct a; cbn; by rewrite ?(sg_groups _ _ Hge). Qed.
Lemma storage_same e e' b :
  same_geo e e' -> (forall a, area_valid e a -> area_start e' a = area_start e a /\ area_size e' a = area_size e a) ->
  storage e b <-> storage e' b.
Proof.
  intros Hge Ha. unfold storage. rewrite (sg_bs _ _ Hge).
  split; intros [H0 Hs]; (split; [done|]); intros a Hv.
  - apply (geo_area_valid e e') in Hv; [|done]. destruct (Ha a Hv) as [-> ->]. auto.
  - destruct (Ha a Hv) as [<- <-]. apply Hs. by apply (geo_area_valid e e').
Qed.
Lemma touched_owned e e' w b : touched e e' w -> owned e b -> owned e' b.
Proof.
  intros Ht (H1 & H2 & H3). pose proof (tx_geo h _ _ (to_tx _ _ _ Ht)) as Hge. split_and!.
  - by apply (geo_is_block e e').
  - by apply (to_used _ _ _ Ht).
  - apply (storage_same e e'); [done|apply Ht|done].
Qed.
Lemma touched_trans e e1 e2 w : touched e e1 w -> touched e1 e2 w -> touched e e2 w.
Proof.
  intros H1 H2. pose proof (tx_geo h _ _ (to_tx _ _ _ H1)) as Hge. split.
  - eapply tx_trans; [apply H1|apply H2].
  - apply H2.
  - intros a Ha. destruct (to_area _ _ _ H1 a Ha) as [<- <-]. apply H2. by apply (geo_area_valid e e1).
  - intros b Hb Hu. apply (to_used _ _ _ H2); [by apply (geo_is_block e e1)|]. by apply (to_used _ _ _ H1).
  - intros b Hb Hne. rewrite (to_keep _ _ _ H2); [by apply (to_keep _ _ _ H1)| |done]. by eapply touched_owned.
Qed.
(** What has not changed but for the cursors of the allocators. *)
Lemma looked_touched e e' w : disk_ok e -> looked h e e' -> touched e e' w.
Proof.
  intros [Ha Hc Hf] Hl. pose proof (idle_looked h e e' Hl) as Hi. pose proof (tx_geo h _ _ (i_tx _ _ _ Hi)) as Hge.
  assert (forall a, area_valid e a -> area_start e' a = area_start e a /\ area_size e' a = area_size e a) as Har.
  { intros a _. destruct Hge as [Hbs _ _ _ _ Hipg _ Hisz Hng Hgdt _].
    destruct a; cbn; rewrite ?(idle_bitmap_block h e e') by done; rewrite ?(idle_gd h e e') by done;
      by rewrite ?Hbs, ?Hipg, ?Hisz, ?Hng, ?Hgdt. }
  assert (forall b, block_used e' b = block_used e b) as Hu.
  { intros b. unfold block_used. destruct (geo_block_group e e' b Hge) as [-> ->]. by apply (idle_used h). }
  split; [apply Hi| |done| |].
  - split.
    + by eapply idle_ok.
    + destruct Hl as [_ [_ Hq _] _ _], Hc. split; unfold cursor in *; by rewrite Hq, ?(sg_groups _ _ Hge).
    + intros b Hb Hub. rewrite Hu in Hub. apply (storage_same e e'); [done|done|]. apply Hf; [|done].
      by apply (geo_is_block e e').
  - intros b _. by rewrite Hu.
  - intros b _ _. by apply (idle_block h).
Qed.

(** ** Writing and taking blocks *)
Lemma block_bs e : good e -> 0 < g_block_size e /\ g_block_size e = 4 * entries e /\ 128 <= entries e.
Proof.
  intros Hg. destruct (good_fs h e Hg) as [Hspb Hbs _ _ _ _ _ _ _ _]. unfold entries. rewrite Hbs.
  replace (512 * g_sectors_per_block e) with (128 * g_sectors_per_block e * 4) by lia. rewrite Z.div_mul by lia. lia.
Qed.
Lemma block_patched e e' b w buf :
  good e -> g_block_size e' = g_block_size e -> Z.of_nat (length buf) = g_block_size e ->
  (forall x, mem e' x = patch (w * g_block_size e) buf (mem e) x) ->
  block_at e' b = if b =? w then buf else block_at e b.
Proof.
  intros Hg Hbs Hl Hm. destruct (block_bs e Hg) as [Hp _]. unfold block_at at 1.
  rewrite Hbs, (span_ext _ _ _ _ (fun x _ => Hm x)). destruct (Z.eqb_spec b w) as [->|Hne].
  - pose proof (bytes_patch_same (w * g_block_size e) buf (mem e)) as Hs. by rewrite Hl in Hs.
  - apply bytes_patch; [lia|]. rewrite Hl. nia.
Qed.
Lemma touched_write e e' b buf :
  disk_ok e -> owned e b -> Z.of_nat (length buf) = g_block_size e -> wrote h e e' (b * g_block_size e) buf ->
  touched e e' b /\ block_at e' b = buf.
Proof.
  intros [Ha Hc Hf] (_ & _ & Hst) Hl Hw. pose proof (al_good h e Ha) as Hg. destruct Hw as [Ht Hq Hm].
  pose proof (tx_geo h _ _ Ht) as Hge. destruct (block_bs e Hg) as [Hp _].
  assert (forall b', block_at e' b' = if b' =? b then buf else block_at e b') as Hb.
  { intros b'. apply block_patched; [done|apply Hge|done|done]. }
  assert (forall g, 0 <= g < g_num_groups e -> gd_at e' g = gd_at e g) as Hgd.
  { intros g Hgr. eapply (wrote_gd h); [by split|]. rewrite Hl. destruct Hst as [_ Hst].
    specialize (Hst Descriptors I). unfold apart in *. cbn [area_start area_size] in Hst. unfold gd_addr. lia. }
  assert (forall a, area_valid e a -> area_start e' a = area_start e a /\ area_size e' a = area_size e a) as Har.
  { intros a Hv. destruct Hge as [Hbs _ _ _ _ Hipg _ Hisz Hng Hgdt _].
    destruct a as [| |k g|g]; cbn [area_start area_size area_valid] in *; unfold bitmap_block; rewrite ?Hgd by done;
      by rewrite ?Hbs, ?Hipg, ?Hisz, ?Hng, ?Hgdt. }
  assert (forall b', is_block e b' -> block_used e' b' = block_used e b') as Hu.
  { intros b' Hb'. destruct (block_place h e b' Ha Hb') as (Hgr & _ & _). unfold block_used.
    destruct (geo_block_group e e' b' Hge) as [-> ->]. unfold bit_used, bitmap_block. rewrite Hgd, Hb by done.
    fold (bitmap_block e Blocks (block_group e b')). destruct (Z.eqb_spec (bitmap_block e Blocks (block_group e b')) b) as [E|]; [|done].
    destruct Hst as [_ Hst]. specialize (Hst (Bitmap Blocks (block_group e b')) Hgr).
    unfold apart in Hst. cbn [area_start area_size] in Hst. rewrite E in Hst. lia. }
  split; [|by rewrite Hb, Z.eqb_refl]. split; [done| |done|intros b' Hb'; by rewrite Hu|].
  - split.
    + by apply (same_areas_ok h e); [|apply Ht| |].
    + destruct Hc, Hq as [_ Hq _]. split; unfold cursor in *; by rewrite Hq, ?(sg_groups _ _ Hge).
    + intros b' Hb' Hub. apply (geo_is_block e e') in Hb'; [|done]. rewrite Hu in Hub by done.
      apply (storage_same e e'); auto.
  - intros b' _ Hne. rewrite Hb. by destruct (Z.eqb_spec b' b).
Qed.
Lemma run_write_owned b buf e :
  disk_ok e -> owned e b -> Z.of_nat (length buf) = g_block_size e ->
  run (metadata_block_write b buf) e (fun rc e' =>
    tx e e' /\ (rc = 0 -> touched e e' b /\ block_at e' b = buf) /\
    (spared e (b * g_sectors_per_block e) (g_sectors_per_block e) -> used e + g_sectors_per_block e <= 64 -> rc = 0)).
Proof.
  intros Hd Ho Hl. pose proof (al_good h e (do_alloc e Hd)) as Hg. pose proof (fs_first e (good_fs h e Hg)) as Hfi.
  destruct (proj1 Ho) as [Hb1 Hb2]. eapply run_conseq; [apply run_block_write; [done|done|lia]|].
  intros rc e' (H1 & H2 & H3). split; [done|]. split.
  - intros E. by apply touched_write; auto.
  - intros Hs Hu. by apply H3.
Qed.

Lemma touched_alloc e e' b :
  disk_ok e -> is_block e b -> allocated h e e' Blocks (block_group e b) (block_bit e b) ->
  touched e e' b /\ owned e' b /\ block_used e b = false.
Proof.
  intros [Ha Hc Hf] Hb Hal. pose proof (al_good h e Ha) as Hg. pose proof (al_layout h e Ha) as Hla.
  destruct (block_place h e b Ha Hb) as (Hgr & _ & _). pose proof (al_change h _ _ _ _ _ Hal) as Hch.
  pose proof (rc_tx h _ _ _ _ _ _ Hch) as Ht. pose proof (tx_geo h _ _ Ht) as Hge.
  set (bitmap := bitmap_set (block_bit e b) (block_at e (bitmap_block e Blocks (block_group e b)))) in *.
  assert (Z.of_nat (length bitmap) = g_block_size e) as Hl
    by (subst bitmap; rewrite bitmap_set_length; by apply (block_length h)).
  assert (forall a, area_valid e a -> area_start e' a = area_start e a /\ area_size e' a = area_size e a) as Har
    by (intros a; by apply (recounted_areas h e e' Blocks (block_group e b) bitmap (-1))).
  assert (block_used e b = false) as Hfree by apply Hal.
  assert (forall b', is_block e b' -> block_used e' b' = (b' =? b) || block_used e b') as Hu
    by (intros b'; by apply (allocated_used h)).
  assert (touched e e' b) as Hto.
  { split; [done| |done| |].
    - split; [by apply (recounted_ok h e e' _ _ _ _ Ha Hgr Hl Hch)|apply Hal|]. intros b' Hb' Hub.
      apply (geo_is_block e e') in Hb'; [|done]. rewrite Hu in Hub by done. apply orb_false_iff in Hub as [_ Hub].
      apply (storage_same e e'); auto.
    - intros b' Hb' Hub. by rewrite Hu, Hub, orb_true_r.
    - intros b' (_ & _ & [_ Hst]) _. unfold block_at at 1. rewrite (sg_bs _ _ Hge).
      rewrite (span_ext _ _ _ _ (fun x _ => rc_mem h _ _ _ _ _ _ Hch x)). destruct (block_bs e Hg) as [Hp _].
      pose proof (Hst Super I) as H1. pose proof (Hst Descriptors I) as H2.
      pose proof (Hst (Bitmap Blocks (block_group e b)) Hgr) as H3. unfold apart in *. cbn [area_start area_size] in *.
      rewrite !bytes_patch; [done|lia|rewrite Hl; lia|lia|rewrite new_gd_length; unfold gd_addr; lia|lia|].
      rewrite new_sb_length, (good_sb h e Hg). lia. }
  split; [done|]. split; [|done]. split_and!.
  - by apply (geo_is_block e e').
  - by rewrite Hu, Z.eqb_refl.
  - apply (storage_same e e'); [done|done|]. auto.
Qed.
Lemma run_alloc e :
  disk_ok e -> run alloc_block e (fun '(rc, b) e' =>
    tx e e' /\ (rc = 0 -> touched e e' b /\ owned e' b /\ is_block e b /\ block_used e b = false)).
Proof.
  intros Hd. eapply run_conseq; [apply run_alloc_block; apply Hd|]. intros [rc b] e' (T1 & T2 & _).
  split; [done|]. intros E. destruct (T2 E) as [Hb Hal]. destruct (touched_alloc e e' b Hd Hb Hal) as (? & ? & ?). done.
Qed.
Lemma touched_fresh e e' w : touched e e' w -> block_used e w = false -> touched e e' (-1).
Proof.
  intros Ht Hw. split; [apply Ht..|]. intros b Hb _. apply (to_keep _ _ _ Ht); [done|]. intros ->.
  destruct Hb as (_ & Hu & _). congruence.
Qed.
(** The block of entries [b], or a fresh one of zeros. *)
Lemma run_open b e :
  disk_ok e -> b = 0 \/ owned e b ->
  run (open_indirect b) e (fun '(rc, (t, buf)) e' =>
    tx e e' /\
    (rc = 0 -> touched e e' (-1) /\ owned e' t /\ block_at e' t = buf /\
      if b =? 0 then block_used e t = false /\ buf = zeros (g_block_size e)
      else t = b /\ buf = block_at e b) /\
    (h -> b <> 0 -> rc = 0 /\ used e' = used e)).
Proof.
  intros Hd Hb. pose proof (al_good h e (do_alloc e Hd)) as Hg. unfold open_indirect.
  destruct (Z.eqb_spec b 0) as [->|Hne]; apply run_bind.
  - eapply run_conseq; [by apply run_alloc|]. intros [rc t] e1 (H1 & H2).
    destruct (Z.eqb_spec rc 0) as [->|Hrc]; cbn [negb]; [|by apply run_ret].
    destruct (H2 eq_refl) as (T1 & T2 & T3 & T4). apply run_get. apply run_bind.
    pose proof (tx_geo h _ _ H1) as Hge. destruct (block_bs e Hg) as [Hp _].
    assert (Z.of_nat (length (zeros (g_block_size e1))) = g_block_size e1) as Hz
      by (apply zeros_length; rewrite (sg_bs _ _ Hge); lia).
    eapply run_conseq; [by apply run_write_owned; [apply T1| |]|]. intros rc e2 (K1 & K2 & _).
    destruct (Z.eqb_spec rc 0) as [->|Hrc]; cbn [negb]; apply run_ret; (split; [by eapply tx_trans|]); [|done].
    split; [|done]. intros _. destruct (K2 eq_refl) as [K3 K4].
    split; [by eapply touched_fresh; [eapply touched_trans|]|]. split; [by eapply touched_owned|].
    split; [done|]. by rewrite (sg_bs _ _ Hge).
  - destruct Hb as [|Hb]; [done|]. eapply run_conseq; [by apply run_block_read|].
    intros [rc buf] e1 (L1 & L2 & L3). assert (used e1 = used e) as Hu by (unfold used; by rewrite (l_records h _ _ L1)).
    destruct (Z.eqb_spec rc 0) as [->|Hrc]; cbn [negb]; apply run_ret; (split; [apply L1|]).
    + pose proof (looked_touched e e1 (-1) Hd L1) as Ht. split; [|done]. intros _. rewrite (L3 eq_refl).
      split; [done|]. split; [by eapply touched_owned|]. split; [|done].
      apply (idle_block h). by apply idle_looked.
    + split; [done|]. intros Hx _. by destruct Hrc; auto.
Qed.

(** ** The places of a file *)
Lemma geo_entries e e' : same_geo e e' -> entries e' = entries e.
Proof. intros Hge. unfold entries. by rewrite (sg_bs _ _ Hge). Qed.
Lemma geo_valid e e' n p : same_geo e e' -> valid e' n p <-> valid e n p.
Proof. intros Hge. destruct p; cbn; by rewrite ?(geo_entries e e'). Qed.
Lemma file_at e inode n p : file_ok e inode n -> valid e n p -> block_of e inode p = 0 \/ owned e (block_of e inode p).
Proof. intros Hf Hv. destruct (decide (block_of e inode p = 0)); [by left|right]. by apply (fo_owned _ _ _ Hf). Qed.
Lemma owned_range e b : good e -> owned e b -> 0 < b < 2 ^ 32.
Proof.
  intros Hg ((H1 & H2) & _ & H3 & _). pose proof (fs_first e (good_fs h e Hg)). pose proof (fs_blocks e (good_fs h e Hg)). lia.
Qed.
(** The entry of a block of data beyond the singly indirect ones. *)
Lemma deep_index e k : 0 < entries e -> 0 <= k < entries e * entries e ->
  0 <= k / entries e < entries e /\ 0 <= k mod entries e < entries e.
Proof.
  intros He Hk. split; [|by apply Z.mod_pos_bound]. split; [apply Z.div_pos; lia|]. apply Z.div_lt_upper_bound; lia.
Qed.
Lemma entry_kept e e' w t i : touched e e' w -> t = 0 \/ owned e t -> t <> w -> entry_of e' t i = entry_of e t i.
Proof.
  intros Ht Ho Hne. unfold entry_of. destruct (Z.eqb_spec t 0); [done|]. destruct Ho; [done|].
  by rewrite (to_keep _ _ _ Ht).
Qed.
Lemma entry_written e e' t x i j :
  good e -> t <> 0 -> block_at e' t = u32_set (i * 4) x (block_at e t) -> 0 <= x < 2 ^ 32 ->
  0 <= i < entries e -> 0 <= j < entries e -> entry_of e' t j = if j =? i then x else entry_of e t j.
Proof.
  intros Hg Hne Hb Hx Hi Hj. unfold entry_of. destruct (Z.eqb_spec t 0); [done|]. rewrite Hb.
  destruct (block_bs e Hg) as (_ & Hbs & _). pose proof (block_length h e t Hg) as Hl.
  destruct (Z.eqb_spec j i) as [->|Hji]; [apply u32_get_set; lia|apply u32_get_set_ne; lia].
Qed.
Lemma entry_zero e t j : good e -> block_at e t = zeros (g_block_size e) -> 0 <= j < entries e -> entry_of e t j = 0.
Proof.
  intros Hg Hb Hj. unfold entry_of. destruct (t =? 0); [done|]. rewrite Hb. destruct (block_bs e Hg) as (_ & Hbs & _).
  assert (forall k, 0 <= k < g_block_size e -> at_ (zeros (g_block_size e)) k = 0) as Hz.
  { intros k Hk. rewrite at_lookup. unfold zeros. by rewrite lookup_replicate_2 by lia. }
  unfold u32_get. by rewrite !Hz by lia.
Qed.

(** A block that is not of the file, and may become one of it. *)
Definition spare_for e (inode : list Z) (n x : Z) : Prop :=
  owned e x /\ forall p, valid e n p -> block_of e inode p <> x.
Lemma fresh_spare e inode n b : file_ok e inode n -> block_used e b = false -> b <> 0 ->
  forall p, valid e n p -> block_of e inode p <> b.
Proof.
  intros Hf Hb H0 p Hv E. destruct (file_at _ _ _ p Hf Hv) as [?|(_ & Hu & _)]; congruence.
Qed.
Lemma file_kept e e' w inode n :
  file_ok e inode n -> good e -> touched e e' w -> (forall p, valid e n p -> block_of e inode p <> w) ->
  (forall p, valid e n p -> block_of e' inode p = block_of e inode p) /\ file_ok e' inode n.
Proof.
  intros Hf Hg Ht Hw. pose proof (tx_geo h _ _ (to_tx _ _ _ Ht)) as Hge. destruct (block_bs e Hg) as (_ & _ & HE).
  assert (forall p i, valid e n p -> entry_of e' (block_of e inode p) i = entry_of e (block_of e inode p) i) as He.
  { intros p i Hv. apply (entry_kept e e' w); [done|by eapply file_at|auto]. }
  assert (forall p, valid e n p -> block_of e' inode p = block_of e inode p) as Hsame.
  { intros [| |j|i] Hv; [done|done|by apply (He Dind)|]. cbn [block_of valid] in *. rewrite (geo_entries e e') by done.
    destruct (Z.ltb_spec i 12); [done|]. destruct (Z.ltb_spec (i - 12) (entries e)); [by apply (He Ind)|].
    pose proof (fo_range _ _ _ Hf) as Hr. unfold capacity in Hr.
    destruct (deep_index e (i - 12 - entries e)) as [Hj _]; [lia|lia|].
    pose proof (He Dind ((i - 12 - entries e) / entries e) I) as E1. cbn [block_of] in E1. rewrite E1. by apply (He (Sind _)). }
  split; [done|]. split.
  - apply Hf.
  - unfold capacity. rewrite (geo_entries e e') by done. apply Hf.
  - intros i Hi. rewrite Hsame by done. by apply (fo_data _ _ _ Hf).
  - intros p Hv. apply (geo_valid e e') in Hv; [|done]. rewrite Hsame by done. intros H0.
    eapply touched_owned; [done|]. by apply (fo_owned _ _ _ Hf).
  - intros p p' Hv Hv'. apply (geo_valid e e') in Hv, Hv'; [|done|done]. rewrite !Hsame by done.
    by apply (fo_distinct _ _ _ Hf).
Qed.
(** One place gets the number of a block that the file did not have. *)
Lemma file_assign e e' w inode inode' n n' p0 x :
  file_ok e inode n -> touched e e' w -> spare_for e inode n x -> length inode' = 128%nat -> 0 <= n' <= capacity e ->
  (forall p, valid e n' p -> p = p0 \/ valid e n p) ->
  (forall p, valid e n' p -> block_of e' inode' p = if decide (p = p0) then x else block_of e inode p) ->
  file_ok e' inode' n'.
Proof.
  intros Hf Ht [Hx Hne] Hl Hn Hp Hb. pose proof (tx_geo h _ _ (to_tx _ _ _ Ht)) as Hge.
  assert (x <> 0) as Hx0 by apply Hx. split; [done| | | |].
  - unfold capacity in *. by rewrite (geo_entries e e').
  - intros i Hi. rewrite Hb by done. case_decide as Hd; [done|]. destruct (Hp (Data i) Hi) as [|Hv]; [done|].
    by apply (fo_data _ _ _ Hf).
  - intros p Hv. apply (geo_valid e e') in Hv; [|done]. rewrite Hb by done. case_decide as Hd.
    + intros _. by eapply touched_owned.
    + intros H0. destruct (Hp p Hv) as [|Hv0]; [done|]. eapply touched_owned; [done|]. by apply (fo_owned _ _ _ Hf).
  - intros p p' Hv Hv'. apply (geo_valid e e') in Hv, Hv'; [|done|done]. rewrite !Hb by done.
    destruct (Hp p Hv) as [->|Hv0], (Hp p' Hv') as [->|Hv0']; [done| | |].
    + rewrite decide_True by done. case_decide as Hd; [done|]. intros _ E. by destruct (Hne p' Hv0').
    + rewrite (decide_True (P := p0 = p0)) by done. case_decide as Hd; [done|]. intros _ E. by destruct (Hne p Hv0).
    + case_decide as Hd; case_decide as Hd'; [by subst|intros _ E; by destruct (Hne p' Hv0')|intros _ E; by destruct (Hne p Hv0)|].
      by apply (fo_distinct _ _ _ Hf).
Qed.

(** ** One entry is set *)
Definition placed e inode e' inode' n' p0 x : Prop :=
  forall p, valid e n' p -> block_of e' inode' p = if decide (p = p0) then x else block_of e inode p.
Lemma pointers_kept off x inode :
  length inode = 128%nat -> 0 <= off -> off + 4 <= 128 ->
  (off + 4 <= 88 \/ 92 <= off -> indirect_of (u32_set off x inode) = indirect_of inode) /\
  (off + 4 <= 92 \/ 96 <= off -> dindirect_of (u32_set off x inode) = dindirect_of inode).
Proof. intros Hl Ho Hb. unfold indirect_of, dindirect_of. split; intros; apply u32_get_set_ne; lia. Qed.
Lemma direct_kept off x inode i : length inode = 128%nat -> 88 <= off -> off + 4 <= 128 -> 0 <= i < 12 ->
  u32_get (u32_set off x inode) (40 + i * 4) = u32_get inode (40 + i * 4).
Proof. intros. apply u32_get_set_ne; lia. Qed.
Lemma set_direct e inode n x :
  length inode = 128%nat -> 0 <= n < 12 -> 0 <= x < 2 ^ 32 ->
  placed e inode e (u32_set (40 + n * 4) x inode) (n + 1) (Data n) x.
Proof.
  intros Hl Hn Hx p Hv. destruct (pointers_kept (40 + n * 4) x inode Hl ltac:(lia) ltac:(lia)) as [E1 E2].
  specialize (E1 ltac:(lia)). specialize (E2 ltac:(lia)).
  destruct p as [| |j|i]; cbn [block_of valid] in *; rewrite ?E1, ?E2; [done|done|done|].
  destruct (Z.ltb_spec i 12); [|lia]. case_decide as Hd.
  - injection Hd as ->. apply u32_get_set; lia.
  - apply u32_get_set_ne; [lia|lia|lia|]. assert (i <> n) by congruence. lia.
Qed.
Lemma set_ind e inode n t :
  length inode = 128%nat -> n <= 12 -> 0 <= t < 2 ^ 32 -> placed e inode e (u32_set (40 + 12 * 4) t inode) n Ind t.
Proof.
  intros Hl Hn Ht p Hv. destruct (pointers_kept (40 + 12 * 4) t inode Hl ltac:(lia) ltac:(lia)) as [_ E2].
  specialize (E2 ltac:(lia)). destruct p as [| |j|i]; cbn [block_of valid] in *; rewrite ?E2; [|done|done|].
  - rewrite decide_True by done. apply u32_get_set; lia.
  - destruct (Z.ltb_spec i 12); [|lia]. by apply direct_kept; lia.
Qed.
Lemma set_dind e inode n t :
  good e -> length inode = 128%nat -> n <= 12 + entries e -> dindirect_of inode = 0 -> 0 <= t < 2 ^ 32 ->
  block_at e t = zeros (g_block_size e) -> placed e inode e (u32_set (40 + 13 * 4) t inode) n Dind t.
Proof.
  intros Hg Hl Hn H0 Ht Hz p Hv. destruct (pointers_kept (40 + 13 * 4) t inode Hl ltac:(lia) ltac:(lia)) as [E1 _].
  specialize (E1 ltac:(lia)).
  assert (dindirect_of (u32_set (40 + 13 * 4) t inode) = t) as E2 by (apply u32_get_set; lia).
  destruct p as [| |j|i]; cbn [block_of valid] in *; rewrite ?E1, ?E2; [done|done| |].
  - rewrite H0. cbn. by apply entry_zero.
  - destruct (Z.ltb_spec i 12); [by apply direct_kept; lia|]. by destruct (Z.ltb_spec (i - 12) (entries e)); [|lia].
Qed.
(** A block of entries of the file other than the one that was written. *)
Lemma other_entry e e' inode n q p i :
  file_ok e inode n -> touched e e' (block_of e inode q) -> valid e n q -> block_of e inode q <> 0 ->
  valid e n p -> p <> q -> entry_of e' (block_of e inode p) i = entry_of e (block_of e inode p) i.
Proof.
  intros Hf Ht Hq H0 Hp Hne. eapply entry_kept; [done|by eapply file_at|]. intros E. apply Hne. symmetry.
  by apply (fo_distinct _ _ _ Hf).
Qed.
Lemma set_sind e e' inode n di t :
  good e -> file_ok e inode n -> touched e e' (dindirect_of inode) -> dindirect_of inode <> 0 ->
  block_at e' (dindirect_of inode) = u32_set (di * 4) t (block_at e (dindirect_of inode)) ->
  0 <= di < entries e -> 0 <= t < 2 ^ 32 -> entry_of e (dindirect_of inode) di = 0 ->
  placed e inode e' inode n (Sind di) t.
Proof.
  intros Hg Hf Ht H0 Hb Hdi Hx Hz p Hv. pose proof (tx_geo h _ _ (to_tx _ _ _ Ht)) as Hge.
  destruct (block_bs e Hg) as (_ & _ & HE). pose proof (fo_range _ _ _ Hf) as Hr. unfold capacity in Hr.
  destruct p as [| |j|i]; [done|done| |].
  - cbn [block_of valid] in *. rewrite (entry_written e e' _ t di j) by done.
    destruct (Z.eqb_spec j di) as [->|]; [by rewrite decide_True|by rewrite decide_False by congruence].
  - rewrite decide_False by done. pose proof (fo_data _ _ _ Hf i Hv) as Hd. revert Hd.
    cbn [block_of valid] in *. rewrite (geo_entries e e') by done. destruct (Z.ltb_spec i 12); [done|].
    destruct (Z.ltb_spec (i - 12) (entries e)).
    { intros _. by apply (other_entry e e' inode n Dind Ind). }
    destruct (deep_index e (i - 12 - entries e)) as [Hj Hk]; [lia|lia|].
    set (j := (i - 12 - entries e) / entries e) in *. rewrite (entry_written e e' _ t di j) by done.
    destruct (Z.eqb_spec j di) as [->|Hne]; [rewrite Hz; by cbn|]. intros _.
    by apply (other_entry e e' inode n Dind (Sind j)).
Qed.
(** The block of entries that has the entry of data block [i], and its index there. *)
Definition leaf e (i : Z) : place := if i - 12 <? entries e then Ind else Sind ((i - 12 - entries e) / entries e).
Definition leaf_index e (i : Z) : Z :=
  if i - 12 <? entries e then i - 12 else (i - 12 - entries e) mod entries e.
Lemma data_leaf e inode i :
  12 <= i -> block_of e inode (Data i) = entry_of e (block_of e inode (leaf e i)) (leaf_index e i).
Proof.
  intros Hi. unfold leaf, leaf_index. cbn [block_of]. destruct (Z.ltb_spec i 12); [lia|].
  by destruct (i - 12 <? entries e).
Qed.
Lemma leaf_valid e n i : good e -> 12 <= i < capacity e -> valid e n (leaf e i) /\ 0 <= leaf_index e i < entries e.
Proof.
  intros Hg Hi. destruct (block_bs e Hg) as (_ & _ & HE). unfold leaf, leaf_index, capacity in *.
  destruct (Z.ltb_spec (i - 12) (entries e)); [cbn; lia|].
  destruct (deep_index e (i - 12 - entries e)) as [Hj Hk]; [lia|lia|]. done.
Qed.
Lemma leaf_inj e i j : good e -> 12 <= i -> 12 <= j -> leaf e i = leaf e j -> leaf_index e i = leaf_index e j -> i = j.
Proof.
  intros Hg Hi Hj. destruct (block_bs e Hg) as (_ & _ & HE). unfold leaf, leaf_index.
  destruct (Z.ltb_spec (i - 12) (entries e)), (Z.ltb_spec (j - 12) (entries e)); intros E1 E2; try done; [lia|].
  injection E1 as E1. pose proof (Z.div_mod (i - 12 - entries e) (entries e) ltac:(lia)) as H1.
  pose proof (Z.div_mod (j - 12 - entries e) (entries e) ltac:(lia)) as H2. rewrite E1, E2, <- H2 in H1. lia.
Qed.
Lemma set_leaf e e' inode n x :
  good e -> file_ok e inode n -> 12 <= n < capacity e -> 0 <= x < 2 ^ 32 ->
  let t := block_of e inode (leaf e n) in
  t <> 0 -> touched e e' t -> block_at e' t = u32_set (leaf_index e n * 4) x (block_at e t) ->
  placed e inode e' inode (n + 1) (Data n) x.
Proof.
  intros Hg Hf Hn Hx t H0 Ht Hb p Hv. pose proof (tx_geo h _ _ (to_tx _ _ _ Ht)) as Hge.
  destruct (block_bs e Hg) as (_ & _ & HE). destruct (leaf_valid e n n Hg Hn) as [Hv0 Hi0].
  assert (leaf e n <> Dind) as Hld by (unfold leaf; by destruct (_ <? _)).
  assert (forall j, entry_of e' (dindirect_of inode) j = entry_of e (dindirect_of inode) j) as Hdi.
  { intros j. by apply (other_entry e e' inode n (leaf e n) Dind). }
  destruct p as [| |j|i]; [done|done|by apply Hdi|]. cbn [valid] in Hv.
  destruct (Z.ltb_spec i 12) as [Hi|Hi].
  { rewrite decide_False by (intros [= ->]; lia). cbn [block_of]. by destruct (Z.ltb_spec i 12); [|lia]. }
  destruct (leaf_valid e n i Hg ltac:(lia)) as [Hvi Hii].
  assert (block_of e' inode (leaf e' i) = block_of e inode (leaf e i) /\ leaf_index e' i = leaf_index e i) as [El Ei].
  { unfold leaf, leaf_index. rewrite (geo_entries e e') by done. destruct (_ <? _); [done|]. split; [|done]. apply Hdi. }
  rewrite !data_leaf, El, Ei by done. destruct (decide (leaf e i = leaf e n)) as [E|Hne].
  - rewrite E. fold t. rewrite (entry_written e e' t x (leaf_index e n)) by done.
    destruct (Z.eqb_spec (leaf_index e i) (leaf_index e n)) as [E2|Hne].
    + rewrite decide_True by (f_equal; apply (leaf_inj e); done || lia). done.
    + by rewrite decide_False by congruence.
  - rewrite decide_False by congruence. by apply (other_entry e e' inode n (leaf e n)).
Qed.

(** ** Appending *)
(** The file has the same data as before; a block that was not of the file is still not, and has its content. *)
Record stage e inode n e' inode' : Prop := {
  st_tx : tx e e';
  st_disk : disk_ok e';
  st_file : file_ok e' inode' n;
  st_data i : 0 <= i < n -> block_of e' inode' (Data i) = block_of e inode (Data i);
  st_frame b : spare_for e inode n b -> spare_for e' inode' n b /\ block_at e' b = block_at e b
}.
Lemma stage_trans e inode n e1 inode1 e2 inode2 :
  stage e inode n e1 inode1 -> stage e1 inode1 n e2 inode2 -> stage e inode n e2 inode2.
Proof.
  intros H1 H2. split; [eapply tx_trans; [apply H1|apply H2]|apply H2|apply H2| |].
  - intros i Hi. rewrite (st_data _ _ _ _ _ H2) by done. by apply H1.
  - intros b Hb. destruct (st_frame _ _ _ _ _ H1 b Hb) as [K1 <-]. by apply H2.
Qed.
Lemma file_positive e inode n p : good e -> file_ok e inode n -> valid e n p -> block_of e inode p <> -1.
Proof.
  intros Hg Hf Hv. destruct (file_at _ _ _ p Hf Hv) as [->|Ho]; [done|]. apply owned_range in Ho; [lia|done].
Qed.
Lemma stage_read e inode n e1 : good e -> file_ok e inode n -> touched e e1 (-1) ->
  stage e inode n e1 inode /\ forall p, valid e n p -> block_of e1 inode p = block_of e inode p.
Proof.
  intros Hg Hf Ht. pose proof (tx_geo h _ _ (to_tx _ _ _ Ht)) as Hge.
  destruct (file_kept e e1 (-1) inode n Hf Hg Ht (fun p => file_positive e inode n p Hg Hf)) as [Hs Hf1].
  split; [|done]. split; [apply Ht|apply Ht|done|intros i Hi; by apply Hs|]. intros b [Ho Hb]. split; [split|].
  - by eapply touched_owned.
  - intros p Hv. apply (geo_valid e e1) in Hv; [|done]. rewrite Hs by done. auto.
  - apply (to_keep _ _ _ Ht); [done|]. apply owned_range in Ho; [lia|done].
Qed.
(** A fresh block becomes a block of entries of the file. *)
Lemma stage_fresh e e1 e2 w inode inode' n p0 t :
  good e -> file_ok e inode n -> touched e e1 (-1) -> block_used e t = false -> owned e1 t ->
  touched e1 e2 w -> (forall b, spare_for e inode n b -> b <> w) -> length inode' = 128%nat ->
  (forall i, p0 <> Data i) -> valid e n p0 -> placed e1 inode e2 inode' n p0 t -> stage e inode n e2 inode'.
Proof.
  intros Hg Hf Ht Hu Ho Ht2 Hw Hl Hp0 Hv0 Hp. destruct (stage_read e inode n e1 Hg Hf Ht) as [[S1 S2 S3 S4 S5] Hs].
  pose proof (tx_geo h _ _ S1) as Hge. assert (t <> 0) as Ht0 by apply Ho.
  assert (spare_for e1 inode n t) as Hsp.
  { split; [done|]. intros p Hv. apply (geo_valid e e1) in Hv; [|done]. rewrite Hs by done. by eapply fresh_spare. }
  pose proof (tx_geo h _ _ (to_tx _ _ _ Ht2)) as Hge2.
  split; [eapply tx_trans; [done|apply Ht2]|apply Ht2| | |].
  - eapply (file_assign e1 e2 w); [done|done|exact Hsp|done|apply S3|by right|done].
  - intros i Hi. rewrite (Hp (Data i)) by done. rewrite decide_False by done. auto.
  - intros b Hb. destruct (S5 b Hb) as [[K1 K2] <-]. split; [split|].
    + by eapply touched_owned.
    + intros p Hv. apply (geo_valid e1 e2) in Hv; [|done]. rewrite (Hp p) by done. case_decide; [|auto].
      destruct Hb as [(_ & Hub & _) _]. intros ->. congruence.
    + apply (to_keep _ _ _ Ht2); auto.
Qed.
Record added e inode n x e' inode' : Prop := {
  ad_disk : disk_ok e';
  ad_file : file_ok e' inode' (n + 1);
  ad_data : file_blocks e' inode' (n + 1) = file_blocks e inode n ++ [x];
  ad_frame b : spare_for e inode n b ->
    block_at e' b = block_at e b /\ (b <> x -> spare_for e' inode' (n + 1) b)
}.
Lemma file_blocks_ext e e' inode inode' n :
  (forall i, 0 <= i < n -> block_of e' inode' (Data i) = block_of e inode (Data i)) ->
  file_blocks e' inode' n = file_blocks e inode n.
Proof.
  intros Hi. unfold file_blocks. apply list_fmap_ext. intros k i Hk%list_elem_of_lookup_2%elem_of_seqZ. apply Hi. lia.
Qed.
Lemma added_stage e inode n x e1 inode1 e2 inode2 :
  stage e inode n e1 inode1 -> added e1 inode1 n x e2 inode2 -> added e inode n x e2 inode2.
Proof.
  intros HS [H1 H2 H3 H4]. split; [done|done| |].
  - rewrite H3. f_equal. apply file_blocks_ext. apply HS.
  - intros b Hb. destruct (st_frame _ _ _ _ _ HS b Hb) as [K1 <-]. auto.
Qed.
Lemma added_placed e inode n x e' w inode' :
  disk_ok e -> file_ok e inode n -> spare_for e inode n x -> touched e e' w ->
  (forall b, spare_for e inode n b -> b <> w) -> length inode' = 128%nat -> n < capacity e ->
  placed e inode e' inode' (n + 1) (Data n) x -> added e inode n x e' inode'.
Proof.
  intros Hd Hf Hx Ht Hw Hl Hn Hp. pose proof (tx_geo h _ _ (to_tx _ _ _ Ht)) as Hge.
  pose proof (fo_range _ _ _ Hf) as Hr.
  assert (forall p, valid e (n + 1) p -> p = Data n \/ valid e n p) as Hv.
  { intros [| |j|i]; cbn [valid]; [by right..|]. intros Hi. destruct (decide (i = n)) as [->|]; [by left|right; lia]. }
  split; [apply Ht| | |].
  - eapply (file_assign e e' w); [done|done|done|done|lia|done|done].
  - unfold file_blocks at 1. rewrite seqZ_app, fmap_app by lia. rewrite Z.add_0_l. change (seqZ n 1) with [n].
    cbn [fmap list_fmap]. rewrite (Hp (Data n)) by (cbn; lia). rewrite decide_True by done. f_equal.
    apply (file_blocks_ext e e'). intros i Hi. rewrite (Hp (Data i)) by (cbn; lia).
    apply decide_False. intros [= ->]. lia.
  - intros b [Ho Hb]. split; [apply (to_keep _ _ _ Ht); [done|by apply Hw]|]. intros Hne.
    split; [by eapply touched_owned|]. intros p Hp'. apply (geo_valid e e') in Hp'; [|done]. rewrite (Hp p) by done.
    case_decide as Hdc; [congruence|]. destruct (Hv p Hp') as [|]; [done|auto].
Qed.

(** On a healthy drive an append that needs no new block of entries succeeds while the transaction has room. *)
Definition has_room e inode n : Prop :=
  let t := block_of e inode (leaf e n) in
  t <> 0 /\ spared e (t * g_sectors_per_block e) (g_sectors_per_block e) /\ used e + g_sectors_per_block e <= 64.
Definition append_post e inode n x (r : Z * list Z) e' : Prop :=
  tx e e' /\ (r.1 = 0 -> added e inode n x e' r.2) /\ (h -> n < 12 \/ has_room e inode n -> r.1 = 0).
(** The block of entries is there. *)
Lemma run_leaf e inode n x e1 inode1 t buf :
  stage e inode n e1 inode1 -> spare_for e inode n x -> 12 <= n < capacity e ->
  block_of e1 inode1 (leaf e1 n) = t -> owned e1 t -> block_at e1 t = buf ->
  (h -> has_room e inode n -> t = block_of e inode (leaf e n) /\ used e1 = used e) ->
  run (rc ← metadata_block_write t (u32_set (leaf_index e1 n * 4) x buf); mret (rc, inode1)) e1 (append_post e inode n x).
Proof.
  intros HS Hx Hn Et Ho Eb Hroom. pose proof (st_disk _ _ _ _ _ HS) as Hd1. pose proof (st_file _ _ _ _ _ HS) as Hf1.
  pose proof (al_good h e1 (do_alloc e1 Hd1)) as Hg1. pose proof (tx_geo h _ _ (st_tx _ _ _ _ _ HS)) as Hge.
  assert (capacity e1 = capacity e) as Ecap by (unfold capacity; by rewrite (geo_entries e e1)).
  destruct (st_frame _ _ _ _ _ HS x Hx) as [Hx1 _].
  apply run_bind. eapply run_conseq; [apply run_write_owned; [done|done|]|].
  { rewrite u32_set_length, <- Eb. by apply (block_length h). }
  intros rc e2 (H1 & H2 & H3). apply run_ret. split; [eapply tx_trans; [apply HS|done]|]. cbn [fst snd]. split.
  - intros E. destruct (H2 E) as [H4 H5]. eapply added_stage; [exact HS|].
    apply (added_placed e1 inode1 n x e2 t); [done|done|done|done| |apply Hf1|lia|].
    + intros b [_ Hb] ->. rewrite <- Et in Hb. eapply Hb; [|done]. apply (leaf_valid e1 n n); [done|lia].
    + apply set_leaf; [done|done|lia| | | |].
      * pose proof (owned_range e1 x Hg1 (proj1 Hx1)). lia.
      * rewrite Et. apply Ho.
      * by rewrite Et.
      * by rewrite Et, Eb.
  - intros Hh [?|Hr]; [lia|]. destruct (Hroom Hh Hr) as [E1 E2]. destruct Hr as (_ & Hr1 & Hr2). subst t. rewrite E1 in H3.
    rewrite E2, (sg_spb _ _ Hge) in H3. apply H3; [by eapply spared_geo|done].
Qed.
(** A pointer of the inode to a block of entries. *)
Lemma run_open_pointer e inode n p off :
  disk_ok e -> file_ok e inode n -> p = Ind /\ off = 40 + 12 * 4 /\ 12 <= n < 12 + entries e \/
    p = Dind /\ off = 40 + 13 * 4 /\ 12 + entries e <= n ->
  let b := block_of e inode p in
  run (open_indirect b) e (fun '(rc, (t, buf)) e1 =>
    let inode1 := if b =? 0 then u32_set off t inode else inode in
    tx e e1 /\
    (rc = 0 -> stage e inode n e1 inode1 /\ block_of e1 inode1 p = t /\ owned e1 t /\ block_at e1 t = buf /\
      (b <> 0 -> forall q, valid e n q -> block_of e1 inode1 q = block_of e inode q)) /\
    (h -> b <> 0 -> rc = 0 /\ used e1 = used e)).
Proof.
  intros Hd Hf Hp b. pose proof (al_good h e (do_alloc e Hd)) as Hg. destruct (block_bs e Hg) as (_ & _ & HE).
  assert (valid e n p) as Hv by (by destruct Hp as [(-> & _)|(-> & _)]).
  eapply run_conseq; [apply run_open; [done|by eapply file_at]|]. intros [rc [t buf]] e1 (H1 & H2 & H3).
  split; [done|]. split; [|done]. intros E. destruct (H2 E) as (T1 & T2 & T3 & T4). fold b in T4.
  pose proof (tx_geo h _ _ H1) as Hge. destruct (stage_read e inode n e1 Hg Hf T1) as [HS Hs].
  pose proof (al_good h e1 (do_alloc e1 (to_ok _ _ _ T1))) as Hg1. pose proof (owned_range e1 t Hg1 T2) as Ht.
  pose proof (fo_length _ _ _ Hf) as Hl.
  destruct (Z.eqb_spec b 0) as [E0|Hne].
  2: { destruct T4 as [-> ->]. split; [done|]. split; [by apply Hs|]. done. }
  destruct T4 as [T4 T5].
  assert (placed e1 inode e1 (u32_set off t inode) n p t) as Hpl.
  { destruct Hp as [(-> & -> & Hn)|(-> & -> & Hn)].
    - apply set_ind; [done| |lia]. apply Z.nlt_ge. intros Hn12. apply (fo_data _ _ _ Hf 12 ltac:(lia)).
      rewrite data_leaf by done. unfold leaf. destruct (Z.ltb_spec (12 - 12) (entries e)); [|lia].
      unfold entry_of. fold b. by rewrite E0.
    - apply set_dind; [done|done| |exact E0|lia|by rewrite T3, T5, (sg_bs _ _ Hge)]. rewrite (geo_entries e e1) by done.
      apply Z.nlt_ge. intros Hn12. apply (fo_data _ _ _ Hf (12 + entries e) ltac:(lia)).
      rewrite data_leaf by lia. unfold leaf. destruct (Z.ltb_spec (12 + entries e - 12) (entries e)); [lia|].
      cbn [block_of]. change (dindirect_of inode) with b. by rewrite E0. }
  split; [|split; [|done]].
  - eapply (stage_fresh e e1 e1 (-1)); try done.
    + apply looked_touched; [apply T1|]. by apply looked_refl.
    + intros b' [Hb' _] ->. apply owned_range in Hb'; [lia|done].
    + by rewrite u32_set_length.
    + by destruct Hp as [(-> & _)|(-> & _)].
  - rewrite (Hpl p); [by rewrite decide_True|]. by apply (geo_valid e e1).
Qed.
(** The block of entries is named by entry [di] of the doubly indirect block. *)
Lemma run_deep e inode n x e1 inode1 dindirect dindbuf :
  stage e inode n e1 inode1 -> spare_for e inode n x -> 12 + entries e <= n < capacity e ->
  dindirect_of inode1 = dindirect -> owned e1 dindirect -> block_at e1 dindirect = dindbuf ->
  (h -> has_room e inode n -> block_of e1 inode1 (leaf e n) = block_of e inode (leaf e n) /\ used e1 = used e) ->
  let di := (n - 12 - entries e) / entries e in
  let si := (n - 12 - entries e) mod entries e in
  let old_sind := u32_get dindbuf (di * 4) in
  run ('(rc, (sind, sindbuf)) ← open_indirect old_sind;
       if negb (rc =? 0) then mret (-1, inode1) else
       rc ← (if old_sind =? 0 then metadata_block_write dindirect (u32_set (di * 4) sind dindbuf) else mret 0);
       if negb (rc =? 0) then mret (-1, inode1) else
       rc ← metadata_block_write sind (u32_set (si * 4) x sindbuf);
       mret (rc, inode1)) e1 (append_post e inode n x).
Proof.
  intros HS Hx Hn Ed Hod Ebd Hroom di si old_sind. pose proof (st_disk _ _ _ _ _ HS) as Hd1.
  pose proof (st_file _ _ _ _ _ HS) as Hf1. pose proof (al_good h e1 (do_alloc e1 Hd1)) as Hg1.
  pose proof (st_tx _ _ _ _ _ HS) as Htx. pose proof (tx_geo h _ _ Htx) as Hge. destruct (block_bs e1 Hg1) as (_ & _ & HE).
  rewrite (geo_entries e e1 Hge) in HE. unfold capacity in Hn.
  destruct (deep_index e (n - 12 - entries e)) as [Hdi Hsi]; [lia|lia|]. fold di in Hdi. fold si in Hsi.
  assert (leaf e n = Sind di /\ leaf_index e n = si) as [Elf Eix].
  { unfold leaf, leaf_index. by destruct (Z.ltb_spec (n - 12) (entries e)); [lia|]. }
  assert (forall e2, same_geo e e2 -> leaf e2 n = Sind di /\ leaf_index e2 n = si) as Hlf.
  { intros e2 Hge2. rewrite <- Elf, <- Eix. unfold leaf, leaf_index. by rewrite (geo_entries e e2). }
  assert (block_of e1 inode1 (Sind di) = old_sind) as Eo.
  { cbn [block_of]. rewrite Ed. unfold entry_of. destruct (Z.eqb_spec dindirect 0) as [E0|]; [by destruct Hod as (_ & _ & ? & _)|].
    by rewrite Ebd. }
  assert (valid e1 n (Sind di)) as Hv by (cbn; by rewrite (geo_entries e e1)).
  rewrite Elf in Hroom. apply run_bind. eapply run_conseq; [apply run_open; [done|rewrite <- Eo; by eapply file_at]|].
  intros [rc [sind sindbuf]] e2 (H1 & H2 & H3). pose proof (tx_trans h _ _ _ Htx H1) as Htx2.
  destruct (Z.eqb_spec rc 0) as [->|Hrc]; cbn [negb].
  2: { apply run_ret. split; [done|]. split; [done|]. intros Hh [?|Hr]; [lia|]. destruct (Hroom Hh Hr) as [E1 E2].
       destruct Hrc. apply H3; [done|]. rewrite <- Eo, E1, <- Elf. apply Hr. }
  destruct (H2 eq_refl) as (T1 & T2 & T3 & T4). destruct (stage_read e1 inode1 n e2 Hg1 Hf1 T1) as [HS2 Hs].
  destruct (Z.eqb_spec old_sind 0) as [E0|Hne]; apply run_bind.
  - destruct T4 as [T4 T5]. assert (owned e2 dindirect) as Hod2 by by eapply touched_owned.
    assert (dindirect <> sind) as Hds by (intros ->; destruct Hod as (_ & Hu & _); congruence).
    assert (block_at e2 dindirect = dindbuf) as Ebd2.
    { rewrite (to_keep _ _ _ T1); [done|done|]. apply owned_range in Hod; [lia|done]. }
    pose proof (st_disk _ _ _ _ _ HS2) as Hd2. pose proof (al_good h e2 (do_alloc e2 Hd2)) as Hg2.
    eapply run_conseq; [apply run_write_owned; [done|done|]|].
    { rewrite u32_set_length, <- Ebd2. by apply (block_length h). }
    intros rc e3 (K1 & K2 & _). destruct (Z.eqb_spec rc 0) as [->|Hrc]; cbn [negb].
    2: { apply run_ret. split; [by eapply tx_trans|]. split; [done|]. intros Hh [?|Hr]; [lia|].
         destruct (Hroom Hh Hr) as [E1 _]. destruct Hr as [Hr _]. rewrite Elf in Hr. congruence. }
    destruct (K2 eq_refl) as [K3 K4]. pose proof (tx_geo h _ _ Htx2) as Hge2.
    assert (placed e2 inode1 e3 inode1 n (Sind di) sind) as Hpl.
    { apply set_sind; try done; rewrite ?Ed; try done; [apply HS2|apply Hod|by rewrite Ebd2|by rewrite (geo_entries e e2)| |].
      - pose proof (owned_range e2 sind Hg2 T2). lia.
      - rewrite <- Ed. change (block_of e2 inode1 (Sind di) = 0). by rewrite Hs, Eo. }
    assert (stage e1 inode1 n e3 inode1) as HS3.
    { apply (stage_fresh e1 e2 e3 dindirect inode1 inode1 n (Sind di) sind); try done; [|apply Hf1].
      intros b [_ Hb] ->. by apply (Hb Dind I). }
    pose proof (stage_trans _ _ _ _ _ _ _ HS HS3) as HS03.
    destruct (Hlf e3 (tx_geo h _ _ (st_tx _ _ _ _ _ HS03))) as [Elf3 Eix3]. rewrite <- Eix3.
    apply run_leaf; [done|done|unfold capacity; lia| |by eapply touched_owned| |].
    + rewrite Elf3, (Hpl (Sind di)); [by rewrite decide_True|]. by apply (geo_valid e1 e2); [apply (tx_geo h _ _ H1)|].
    + by rewrite (to_keep _ _ _ K3).
    + intros Hh Hr. destruct (Hroom Hh Hr) as [E1 _]. destruct Hr as [Hr _]. rewrite Elf in Hr. congruence.
  - destruct T4 as [-> T5]. apply run_ret. cbn [Z.eqb negb].
    pose proof (stage_trans _ _ _ _ _ _ _ HS HS2) as HS02. destruct (Hlf e2 (tx_geo h _ _ Htx2)) as [Elf2 Eix2].
    rewrite <- Eix2. apply run_leaf; [done|done|unfold capacity; lia| |done|done|].
    + by rewrite Elf2, Hs, Eo.
    + intros Hh Hr. destruct (Hroom Hh Hr) as [E1 E2]. rewrite Elf, <- E1, Eo. split; [done|].
      rewrite <- E2. by apply H3.
Qed.
Lemma run_append e inode n x :
  disk_ok e -> file_ok e inode n -> spare_for e inode n x -> n < capacity e ->
  run (append_block_to_inode inode n x) e (append_post e inode n x).
Proof.
  intros Hd Hf Hx Hn. pose proof (al_good h e (do_alloc e Hd)) as Hg. destruct (block_bs e Hg) as (_ & _ & HE).
  pose proof (fo_range _ _ _ Hf) as Hr. pose proof (fo_length _ _ _ Hf) as Hl.
  pose proof (owned_range e x Hg (proj1 Hx)) as Hxr. unfold append_block_to_inode.
  destruct (Z.ltb_spec n 12) as [H12|H12].
  { apply run_ret. split; [by apply tx_refl|]. split; [|done]. intros _. cbn [snd].
    apply (added_placed e inode n x e (-1)); [done..| | | |done|].
    - apply looked_touched; [done|]. by apply looked_refl.
    - intros b [Hb _] ->. apply owned_range in Hb; [lia|done].
    - by rewrite u32_set_length.
    - apply set_direct; [done|lia|lia]. }
  apply run_get. cbv zeta. fold (entries e). destruct (Z.ltb_spec (n - 12) (entries e)) as [Hs|Hs].
  - assert (forall e1, same_geo e e1 -> leaf e1 n = Ind /\ leaf_index e1 n = n - 12) as Hlf.
    { intros e1 Hge1. unfold leaf, leaf_index. rewrite (geo_entries e e1) by done. by destruct (Z.ltb_spec (n - 12) (entries e)); [|lia]. }
    apply run_bind. eapply run_conseq; [apply (run_open_pointer e inode n Ind (40 + 12 * 4) Hd Hf); left; split_and!; lia || done|].
    intros [rc [t buf]] e1 (H1 & H2 & H3). cbn [block_of] in *. destruct (Hlf e ltac:(done)) as [Elf _].
    destruct (Z.eqb_spec rc 0) as [->|Hrc]; cbn [negb].
    2: { apply run_ret. split; [done|]. split; [done|]. intros Hh [?|[Hr0 _]]; [lia|]. rewrite Elf in Hr0.
         destruct Hrc. by apply H3. }
    destruct (H2 eq_refl) as (HS & T1 & T2 & T3 & T4). destruct (Hlf e1 (tx_geo h _ _ H1)) as [Elf1 Eix1].
    rewrite <- Eix1. apply run_leaf; [done|done|lia|by rewrite Elf1|done|done|].
    intros Hh [Hr0 _]. rewrite Elf in *. cbn [block_of] in *. destruct (H3 Hh Hr0) as [_ Hu]. split; [|done].
    pose proof (T4 Hr0 Ind I) as E1. cbn [block_of] in E1. congruence.
  - unfold capacity in Hn. destruct (deep_index e (n - 12 - entries e)) as [Hdi Hsi]; [lia|lia|].
    destruct (Z.geb_spec ((n - 12 - entries e) / entries e) (entries e)); [lia|].
    apply run_bind. eapply run_conseq; [apply (run_open_pointer e inode n Dind (40 + 13 * 4) Hd Hf); right; split_and!; lia || done|].
    intros [rc [t buf]] e1 (H1 & H2 & H3). cbn [block_of] in *.
    assert (has_room e inode n -> dindirect_of inode <> 0) as Hnz.
    { intros [Hr0 _] E0. apply Hr0. unfold leaf. destruct (Z.ltb_spec (n - 12) (entries e)); [lia|]. cbn [block_of]. by rewrite E0. }
    destruct (Z.eqb_spec rc 0) as [->|Hrc]; cbn [negb].
    2: { apply run_ret. split; [done|]. split; [done|]. intros Hh [?|Hr0]; [lia|]. destruct Hrc. by apply H3; auto. }
    destruct (H2 eq_refl) as (HS & T1 & T2 & T3 & T4).
    apply run_deep; [done|done|unfold capacity; lia|done|done|done|]. intros Hh Hr0. specialize (Hnz Hr0).
    split; [|by apply H3]. apply T4; [done|]. apply (leaf_valid e n n); [done|unfold capacity; lia].
Qed.

(** ** Walking *)
Lemma collect_spec buf off i count room :
  (forall k, i <= k < i + Z.of_nat (count `min` room) -> u32_get buf (off + k * 4) <> 0) ->
  collect buf off i count room = ((fun k => u32_get buf (off + k * 4)) <$> seqZ i (Z.of_nat (count `min` room)), false).
Proof.
  revert i room. induction count as [|count IH]; intros i [|room] Hk; [done..|]. cbn [collect].
  destruct (Z.eqb_spec (u32_get buf (off + i * 4)) 0) as [E|_]; [by destruct (Hk i ltac:(lia))|].
  rewrite IH by (intros k Hi; apply Hk; lia). cbn [Nat.min]. rewrite Nat2Z.inj_succ, (seqZ_cons i) by lia. cbn [fmap list_fmap].
  by rewrite Z.pred_succ, Z.add_1_r.
Qed.
Lemma run_walk_indirect e0 e t count room :
  good e0 -> looked h e0 e -> t <> 0 ->
  (forall k, 0 <= k < Z.of_nat (count `min` room) -> entry_of e0 t k <> 0) ->
  run (walk_indirect t count room) e (fun '(rc, (l, z)) e' =>
    looked h e0 e' /\ (rc = 0 -> l = entry_of e0 t <$> seqZ 0 (Z.of_nat (count `min` room)) /\ z = false) /\ (h -> rc = 0)).
Proof.
  intros Hg Hl Ht Hk. unfold walk_indirect. apply run_bind. eapply run_conseq; [apply run_block_read, Hl|].
  intros [rc buf] e1 (L1 & L2 & L3). pose proof (looked_trans h _ _ _ Hl L1) as L01.
  destruct (Z.eqb_spec rc 0) as [->|Hrc]; cbn [negb]; apply run_ret.
  2: { split; [done|]. split; [done|]. intros Hh. by destruct Hrc; auto. }
  assert (forall k, u32_get buf (0 + k * 4) = entry_of e0 t k) as Hb.
  { intros k. rewrite (L3 eq_refl), (idle_block h e0 e) by (by apply idle_looked). unfold entry_of.
    by destruct (Z.eqb_spec t 0). }
  rewrite collect_spec by (intros k Hi; rewrite Hb; apply Hk; lia).
  split; [done|]. split; [|done]. intros _. split; [|done]. apply list_fmap_ext. intros. apply Hb.
Qed.
(** The numbers of the data blocks beyond the singly indirect ones. *)
Definition deep_block e dind (k : Z) : Z := entry_of e (entry_of e dind (k / entries e)) (k mod entries e).
Lemma run_walk_dindirect e0 e dind di count room :
  good e0 -> looked h e0 e -> dind <> 0 -> 0 <= di ->
  Z.of_nat room <= Z.of_nat count * entries e0 ->
  (forall k, di * entries e0 <= k < di * entries e0 + Z.of_nat room -> deep_block e0 dind k <> 0) ->
  run (walk_dindirect (block_at e0 dind) di count (Z.to_nat (entries e0)) room) e (fun '(rc, l) e' =>
    looked h e0 e' /\ (rc = 0 -> l = deep_block e0 dind <$> seqZ (di * entries e0) (Z.of_nat room)) /\ (h -> rc = 0)).
Proof.
  intros Hg Hl Hd. destruct (block_bs e0 Hg) as (_ & _ & HE). revert di room e Hl.
  induction count as [|count IH]; intros di room e Hl Hdi Hroom Hk; cbn [walk_dindirect].
  { apply run_ret. destruct room; [done|lia]. }
  destruct room as [|room']; [by apply run_ret|]. set (room := S room') in *. set (E := entries e0) in *.
  assert (forall k, 0 <= k < E -> deep_block e0 dind (di * E + k) = entry_of e0 (entry_of e0 dind di) k) as Hdb.
  { intros k Hk'. unfold deep_block. fold E. replace (di * E + k) with (k + di * E) by lia.
    by rewrite Z.div_add, Z.mod_add, Z.div_small, Z.mod_small by lia. }
  assert (u32_get (block_at e0 dind) (di * 4) = entry_of e0 dind di) as Es by (unfold entry_of; by destruct (Z.eqb_spec dind 0)).
  rewrite Es. destruct (Z.eqb_spec (entry_of e0 dind di) 0) as [E0|Hne].
  { destruct (Hk (di * E + 0)); [lia|]. rewrite Hdb by lia. by rewrite E0. }
  set (m := (Z.to_nat E `min` room)%nat). assert (Z.of_nat m = Z.min E (Z.of_nat room)) as Hm by lia.
  apply run_bind. eapply run_conseq; [apply (run_walk_indirect e0 e); [done|done|done|]|].
  { intros k Hk'. rewrite <- Hdb by lia. apply Hk. lia. }
  intros [rc [l z]] e1 (L1 & L2 & L3). fold m in L2. destruct (Z.eqb_spec rc 0) as [->|Hrc]; cbn [negb].
  2: { apply run_ret. split; [done|]. split; [done|]. intros Hh. by destruct Hrc; auto. }
  destruct (L2 eq_refl) as [-> ->]. rewrite length_fmap, length_seqZ, Nat2Z.id. apply run_bind.
  eapply run_conseq; [apply (IH (di + 1) (room - m)%nat e1 L1); [lia|nia|]|].
  { intros k Hk'. apply Hk. nia. }
  intros [rc l'] e2 (K1 & K2 & K3). destruct (Z.eqb_spec rc 0) as [->|Hrc]; cbn [negb]; apply run_ret.
  2: { split; [done|]. split; [done|]. intros Hh. by destruct Hrc; auto. }
  split; [done|]. split; [|done]. intros _. rewrite (K2 eq_refl).
  replace (Z.of_nat room) with (Z.of_nat m + Z.of_nat (room - m)) by lia.
  rewrite seqZ_app, fmap_app by lia. f_equal.
  - apply list_eq. intros k. rewrite !list_lookup_fmap. destruct (decide (k < m)%nat) as [Hkm|Hkm].
    + rewrite !lookup_seqZ_lt by lia. cbn. f_equal. symmetry. apply Hdb. lia.
    + by rewrite !lookup_seqZ_ge by lia.
  - f_equal. destruct (decide (room <= m)%nat); [by replace (Z.of_nat (room - m)) with 0 by lia|]. f_equal. lia.
Qed.
Lemma seqZ_fmap_shift (f g : Z -> Z) a b n :
  (forall k, 0 <= k < n -> f (a + k) = g (b + k)) -> f <$> seqZ a n = g <$> seqZ b n.
Proof.
  intros Hk. apply list_eq. intros k. rewrite !list_lookup_fmap. destruct (decide (Z.of_nat k < n)).
  - rewrite !lookup_seqZ_lt by lia. cbn [fmap option_fmap option_map]. f_equal. apply Hk. lia.
  - by rewrite !lookup_seqZ_ge by lia.
Qed.
Lemma file_blocks_app e inode a b : 0 <= a -> 0 <= b ->
  file_blocks e inode (a + b) = file_blocks e inode a ++ ((fun i => block_of e inode (Data i)) <$> seqZ a b).
Proof. intros Ha Hb. unfold file_blocks. by rewrite (seqZ_app 0 a b), fmap_app by lia. Qed.
(** The singly indirect blocks. *)
Lemma run_walk_middle e inode n :
  good e -> file_ok e inode n -> 12 < n ->
  run (if (12 <? Z.to_nat n)%nat && negb (indirect_of inode =? 0)
       then walk_indirect (indirect_of inode) (Z.to_nat (entries e)) (Z.to_nat n - 12) else mret (0, ([], false))) e
    (fun '(rc, (l, z)) e' => looked h e e' /\
      (rc = 0 -> l = (fun i => block_of e inode (Data i)) <$> seqZ 12 (Z.min (entries e) (n - 12)) /\ z = false) /\
      (h -> rc = 0)).
Proof.
  intros Hg Hf Hm. destruct (block_bs e Hg) as (_ & _ & HE). destruct (Nat.ltb_spec 12 (Z.to_nat n)); [|lia]. cbn [andb].
  assert (forall k, 0 <= k < Z.min (entries e) (n - 12) -> block_of e inode (Data (12 + k)) = entry_of e (indirect_of inode) (0 + k)) as Hb.
  { intros k Hk. cbn [block_of]. destruct (Z.ltb_spec (12 + k) 12); [lia|].
    replace (12 + k - 12) with k by lia. by destruct (Z.ltb_spec k (entries e)); [|lia]. }
  destruct (Z.eqb_spec (indirect_of inode) 0) as [E0|Hne]; cbn [negb].
  { destruct (fo_data _ _ _ Hf (12 + 0) ltac:(lia)). rewrite Hb by lia. by rewrite E0. }
  eapply run_conseq; [apply (run_walk_indirect e e); [done|by apply looked_refl|done|]|].
  { intros k Hk. rewrite <- (Z.add_0_l k), <- Hb by lia. apply (fo_data _ _ _ Hf). lia. }
  intros [rc [l z]] e1 (L1 & L2 & L3). split; [done|]. split; [|done]. intros Erc. destruct (L2 Erc) as [-> ->]. split; [|done].
  replace (Z.of_nat (Z.to_nat (entries e) `min` (Z.to_nat n - 12))) with (Z.min (entries e) (n - 12)) by lia.
  symmetry. by apply seqZ_fmap_shift.
Qed.
(** The doubly indirect ones. *)
Lemma run_walk_last e inode n e1 l0 l1 :
  let l01 := l0 ++ l1 in
  good e -> file_ok e inode n -> 12 < n -> looked h e e1 ->
  l01 = file_blocks e inode (Z.min (12 + entries e) n) -> length l01 = Z.to_nat (Z.min (12 + entries e) n) ->
  run (if (length l01 <? Z.to_nat n)%nat && negb (dindirect_of inode =? 0) then
         '(rc, dindbuf) ← metadata_block_read (dindirect_of inode);
         if negb (rc =? 0) then mret (-1, []) else
         '(rc, l2) ← walk_dindirect dindbuf 0 (Z.to_nat (entries e)) (Z.to_nat (entries e)) (Z.to_nat n - length l01);
         if negb (rc =? 0) then mret (-1, []) else mret (0, l0 ++ l1 ++ l2)
       else mret (0, l01)) e1
    (fun '(rc, l) e' => looked h e e' /\ (rc = 0 -> l = file_blocks e inode n) /\ (h -> rc = 0)).
Proof.
  intros l01 Hg Hf H12 Hl E01 ->. destruct (block_bs e Hg) as (_ & _ & HE). pose proof (fo_range _ _ _ Hf) as Hr. unfold capacity in Hr.
  set (E := entries e) in *. destruct (Nat.ltb_spec (Z.to_nat (Z.min (12 + E) n)) (Z.to_nat n)) as [Hmn|Hmn]; cbn [andb].
  2: { apply run_ret. split; [done|]. split; [|done]. intros _. rewrite E01. f_equal. lia. }
  rewrite Z.min_l in * by lia. set (d := n - (12 + E)).
  assert (forall k, 0 <= k < d -> block_of e inode (Data (12 + E + k)) = deep_block e (dindirect_of inode) (0 * E + k)) as Hdb.
  { intros k Hk. cbn [block_of]. fold E. destruct (Z.ltb_spec (12 + E + k) 12); [lia|].
    destruct (Z.ltb_spec (12 + E + k - 12) E); [lia|]. by replace (12 + E + k - 12 - E) with (0 * E + k) by lia. }
  destruct (Z.eqb_spec (dindirect_of inode) 0) as [Ed|Hd]; cbn [negb].
  { destruct (fo_data _ _ _ Hf (12 + E + 0) ltac:(lia)). rewrite Hdb by lia. unfold deep_block. by rewrite Ed. }
  apply run_bind. eapply run_conseq; [apply run_block_read, Hl|]. intros [rc buf] e2 (K1 & K2 & K3).
  pose proof (looked_trans h _ _ _ Hl K1) as K01. destruct (Z.eqb_spec rc 0) as [->|Hrc]; cbn [negb].
  2: { apply run_ret. split; [done|]. split; [done|]. intros Hh. by destruct Hrc; auto. }
  rewrite (K3 eq_refl), (idle_block h e e1) by (by apply idle_looked).
  replace (Z.to_nat n - Z.to_nat (12 + E))%nat with (Z.to_nat d) by lia. apply run_bind. eapply run_conseq.
  { apply (run_walk_dindirect e e2 (dindirect_of inode) 0); [done|done|done|done|fold E; nia|fold E].
    intros k Hk. replace k with (0 * E + k) by lia. rewrite <- Hdb by lia. apply (fo_data _ _ _ Hf). lia. }
  intros [rc l2] e3 (M1 & M2 & M3). destruct (Z.eqb_spec rc 0) as [->|Hrc]; cbn [negb]; apply run_ret.
  2: { split; [done|]. split; [done|]. intros Hh. by destruct Hrc; auto. }
  split; [done|]. split; [|done]. intros _. rewrite app_assoc. fold l01. rewrite E01, (M2 eq_refl), Z2Nat.id by lia.
  trans (file_blocks e inode (12 + E + d)); [|f_equal; lia]. rewrite (file_blocks_app e inode (12 + E) d) by lia. f_equal. symmetry.
  apply seqZ_fmap_shift. exact Hdb.
Qed.
Lemma run_walk e inode n :
  good e -> file_ok e inode n ->
  run (walk_inode_blocks inode n) e (fun '(rc, l) e' =>
    looked h e e' /\ (rc = 0 -> l = file_blocks e inode n) /\ (h -> rc = 0)).
Proof.
  intros Hg Hf. destruct (block_bs e Hg) as (_ & _ & HE). pose proof (fo_range _ _ _ Hf) as Hr.
  unfold walk_inode_blocks. apply run_get. fold (entries e). cbv zeta.
  assert (forall i, 0 <= i < 12 -> block_of e inode (Data i) = u32_get inode (40 + i * 4)) as Hb.
  { intros i Hi. cbn [block_of]. by destruct (Z.ltb_spec i 12); [|lia]. }
  rewrite collect_spec by (intros i Hi; rewrite <- Hb by lia; apply (fo_data _ _ _ Hf); lia).
  set (l0 := _ <$> seqZ 0 (Z.of_nat (12 `min` Z.to_nat n))).
  assert (l0 = file_blocks e inode (Z.min 12 n)) as E0.
  { subst l0. unfold file_blocks. replace (Z.of_nat (12 `min` Z.to_nat n)) with (Z.min 12 n) by lia.
    apply list_fmap_ext. intros k i Hi%list_elem_of_lookup_2%elem_of_seqZ. symmetry. apply Hb. lia. }
  assert (length l0 = (12 `min` Z.to_nat n)%nat) as Hl0 by (subst l0; by rewrite length_fmap, length_seqZ, Nat2Z.id).
  clearbody l0. rewrite Hl0. destruct (Z.le_gt_cases n 12) as [Hn|Hn].
  { rewrite Nat.min_r by lia. rewrite Nat.ltb_irrefl. cbn [andb]. apply run_bind, run_ret. cbn [Z.eqb negb].
    rewrite app_nil_r, Hl0, Nat.min_r, Nat.ltb_irrefl by lia. apply run_ret.
    split; [by apply looked_refl|]. split; [|done]. intros _. by rewrite E0, Z.min_r by lia. }
  rewrite Nat.min_l by lia. rewrite Z.min_l in E0 by lia. apply run_bind.
  eapply run_conseq; [by apply run_walk_middle|]. intros [rc [l1 z]] e1 (L1 & L2 & L3).
  destruct (Z.eqb_spec rc 0) as [->|Hrc]; cbn [negb].
  2: { apply run_ret. split; [done|]. split; [done|]. intros Hh. by destruct Hrc; auto. }
  destruct (L2 eq_refl) as [E1 ->]. set (m := Z.min (entries e) (n - 12)) in *.
  apply run_walk_last; try done.
  - rewrite E0, E1, <- file_blocks_app by lia. f_equal. lia.
  - rewrite length_app, Hl0, E1, length_fmap, length_seqZ. lia.
Qed.
End blockmap.

(** C21: the block map of a file is the list of its blocks.  On a file system whose bitmap covers what the file system
    keeps for itself, [walk_inode_blocks] returns the blocks of a file, all of them on a healthy drive.  When
    [append_block_to_inode] reports success, a walk returns these blocks and the new one after them; the blocks of the
    file, with the blocks of entries taken for it, are in use and distinct, and every other block in use has its
    content and is not of the file.  It reports success on a healthy drive when no new block of entries is needed and
    the transaction has room. *)
Theorem block_map_append {D} `{!Blockdev D, !BlockdevLaws D} (e e1 : ext2 D) inode n x r :
  let h := healthy (e_dev e) in
  disk_ok h e -> file_ok e inode n -> spare_for e inode n x -> n < capacity e ->
  append_block_to_inode inode n x e = (r, e1) ->
  (forall r0 e0, walk_inode_blocks inode n e = (r0, e0) ->
    (forall l, r0 = Ret (0, l) -> l = file_blocks e inode n) /\ (h -> exists l, r0 = Ret (0, l))) /\
  (forall inode1, r = Ret (0, inode1) ->
    disk_ok h e1 /\ file_ok e1 inode1 (n + 1) /\
    (forall b, spare_for e inode n b ->
      block_at e1 b = block_at e b /\ (b <> x -> spare_for e1 inode1 (n + 1) b)) /\
    (forall r2 e2, walk_inode_blocks inode1 (n + 1) e1 = (r2, e2) ->
      (forall l, r2 = Ret (0, l) -> l = file_blocks e inode n ++ [x]) /\ (h -> exists l, r2 = Ret (0, l)))) /\
  (h -> n < 12 \/ has_room e inode n -> exists inode1, r = Ret (0, inode1)).
Proof.
  intros h Hd Hf Hx Hn E. pose proof (run_append h e inode n x Hd Hf Hx Hn) as Ha. unfold run in Ha. rewrite E in Ha.
  assert (forall e' inode' n' r0 e0, good h e' -> file_ok e' inode' n' -> walk_inode_blocks inode' n' e' = (r0, e0) ->
    (forall l, r0 = Ret (0, l) -> l = file_blocks e' inode' n') /\ (h -> exists l, r0 = Ret (0, l))) as Hw.
  { intros e' inode' n' r0 e0 Hg' Hf' E'. pose proof (run_walk h e' inode' n' Hg' Hf') as Hr. unfold run in Hr.
    rewrite E' in Hr. destruct r0 as [[rc l]|]; [|by split]. destruct Hr as (_ & H2 & H3). split.
    - intros l' [= -> ->]. auto.
    - intros Hh. exists l. by rewrite (H3 Hh). }
  split; [intros r0 e0; apply Hw; [apply Hd|done]|]. destruct r as [[rc inode1]|]; [|by split].
  destruct Ha as (H1 & H2 & H3). cbn [fst snd] in *. split.
  - intros inode2 [= -> <-]. destruct (H2 eq_refl) as [A1 A2 A3 A4]. split; [done|]. split; [done|]. split; [done|].
    intros r2 e2 E2. rewrite <- A3. by apply (Hw e1 inode1 (n + 1) r2 e2); [apply A1| |].
  - intros Hh Hr. exists inode1. by rewrite (H3 Hh Hr).
Qed.

(** ** A file of twelve blocks gets its first block of entries *)
(** The small file system with blocks 1 to 33 in use; the file has blocks 21 to 32. *)
Definition demo_map_medium : Z -> list Z := fun a =>
  if a =? 4 then demo_gd ++ zeros 480 else if a =? 6 then [255; 255; 255; 255; 1] ++ zeros 507 else zeros 512.
Definition demo_map : ext2 ramdisk :=
  (demo_geometry (mk_ramdisk demo_map_medium [] [])) <| g_journal_records := [] |>.
Definition demo_map_inode : list Z :=
  foldl (fun inode i => u32_set (40 + i * 4) (21 + i) inode) (zeros 128) (seqZ 0 12).
Lemma demo_map_good h : good h demo_map.
Proof.
  split.
  - split; [done|apply NoDup_nil_2|apply (Nat.le_0_l 64)|apply list.Forall_nil_2].
  - split; first [reflexivity|split; (reflexivity || discriminate)|discriminate].
  - reflexivity.
  - intros a. change (length (demo_map_medium a) = 512%nat). unfold demo_map_medium.
    destruct (a =? 4); [done|]. by destruct (a =? 6).
  - done.
Qed.
Lemma demo_map_areas a : area_valid demo_fs a ->
  area_start demo_map a = area_start demo_fs a /\ area_size demo_map a = area_size demo_fs a.
Proof.
  destruct a as [| |[] g|g]; cbn [area_valid]; intros Hg;
    try (assert (g = 0) as -> by (change (g_num_groups demo_fs) with 1 in Hg; lia)); split; vm_compute; reflexivity.
Qed.
Lemma demo_map_geo : same_geo demo_fs demo_map.
Proof. split; vm_compute; reflexivity. Qed.
Lemma demo_map_alloc h : alloc_ok h demo_map.
Proof. exact (same_areas_ok h demo_fs demo_map (demo_alloc_ok h) (demo_map_good h) demo_map_geo demo_map_areas). Qed.
Lemma demo_map_used b : 1 <= b <= 33 -> block_used demo_map b = true.
Proof.
  intros Hb. assert (forallb (block_used demo_map) (seqZ 1 33) = true) as HF by (vm_compute; reflexivity).
  rewrite forallb_forall in HF. apply HF, list_elem_of_In, elem_of_seqZ. lia.
Qed.
Lemma demo_map_storage b : 21 <= b -> storage demo_map b.
Proof.
  intros Hb. split; [lia|]. intros a Ha. pose proof (proj1 (geo_area_valid _ _ a demo_map_geo) Ha) as Hv.
  destruct (demo_map_areas a Hv) as [-> ->].
  destruct (demo_areas a Hv) as [-> ->]. change (g_block_size demo_map) with 1024. unfold apart.
  destruct a as [| |[]|]; lia.
Qed.
Lemma demo_map_disk h : disk_ok h demo_map.
Proof.
  split; [apply demo_map_alloc|by split|]. intros b [Hb _] Hu. change (g_first_data_block demo_map) with 1 in Hb.
  apply demo_map_storage. apply Z.nlt_ge. intros Hlt. by rewrite demo_map_used in Hu by lia.
Qed.
Lemma demo_map_owned b : 21 <= b <= 33 -> owned demo_map b.
Proof.
  intros Hb. split_and!; [|apply demo_map_used; lia|apply demo_map_storage; lia].
  unfold is_block. change (g_first_data_block demo_map) with 1. change (g_blocks_count demo_map) with 4096. lia.
Qed.
Lemma demo_map_data i : 0 <= i < 12 -> block_of demo_map demo_map_inode (Data i) = 21 + i.
Proof.
  intros Hi. assert (forallb (fun i => block_of demo_map demo_map_inode (Data i) =? 21 + i) (seqZ 0 12) = true) as HF
    by (vm_compute; reflexivity).
  rewrite forallb_forall in HF. apply Z.eqb_eq, HF, list_elem_of_In, elem_of_seqZ. lia.
Qed.
Lemma demo_map_tables p : (forall i, p <> Data i) -> block_of demo_map demo_map_inode p = 0.
Proof.
  intros Hp. assert (indirect_of demo_map_inode = 0 /\ dindirect_of demo_map_inode = 0) as [E1 E2] by (vm_compute; done).
  destruct p as [| |j|i]; cbn [block_of]; rewrite ?E1, ?E2; [done..|]. by destruct (Hp i).
Qed.
Lemma demo_map_file : file_ok demo_map demo_map_inode 12.
Proof.
  assert (forall p, valid demo_map 12 p -> block_of demo_map demo_map_inode p <> 0 -> exists i, p = Data i /\ 0 <= i < 12) as Hp.
  { intros p Hv H0. destruct p as [| |j|i]; [by rewrite demo_map_tables in H0..|]. eauto. }
  split; [vm_compute; reflexivity|by split| | |].
  - intros i Hi. rewrite demo_map_data by done. lia.
  - intros p Hv H0. destruct (Hp p Hv H0) as (i & -> & Hi). rewrite demo_map_data by done. apply demo_map_owned. lia.
  - intros p p' Hv Hv' H0 E. destruct (Hp p Hv H0) as (i & -> & Hi). rewrite E in H0.
    destruct (Hp p' Hv' H0) as (i' & -> & Hi'). rewrite !demo_map_data in E by done. f_equal. lia.
Qed.
Lemma demo_map_spare : spare_for demo_map demo_map_inode 12 33.
Proof.
  split; [apply demo_map_owned; lia|]. intros p Hv. destruct p as [| |j|i]; [by rewrite demo_map_tables..|].
  cbn [valid] in Hv. rewrite demo_map_data by done. lia.
Qed.
Definition demo_map_next : ext2 ramdisk := (append_block_to_inode demo_map_inode 12 33 demo_map).2.
Lemma demo_map_append : exists inode1,
  append_block_to_inode demo_map_inode 12 33 demo_map = (Ret (0, inode1), demo_map_next) /\ indirect_of inode1 = 34.
Proof.
  exists (u32_set 88 34 demo_map_inode). split; [|vm_compute; reflexivity].
  unfold demo_map_next. apply pair_fst. vm_compute. reflexivity.
Qed.
Lemma block_map_append_witness : exists inode1,
  append_block_to_inode demo_map_inode 12 33 demo_map = (Ret (0, inode1), demo_map_next) /\
  indirect_of inode1 = 34 /\ file_ok demo_map_next inode1 13 /\
  forall e2 l, walk_inode_blocks inode1 13 demo_map_next = (Ret (0, l), e2) ->
    l = file_blocks demo_map demo_map_inode 12 ++ [33].
Proof.
  destruct demo_map_append as (inode1 & E & E1). exists inode1. split; [exact E|]. split; [exact E1|].
  destruct (@block_map_append ramdisk _ _ demo_map demo_map_next demo_map_inode 12 33 (Ret (0, inode1))
    (demo_map_disk _) demo_map_file demo_map_spare eq_refl E) as (_ & H2 & _).
  destruct (H2 inode1 eq_refl) as (_ & H3 & _ & H4). split; [exact H3|]. intros e2 l E2.
  exact (proj1 (H4 _ _ E2) l eq_refl).
Defined.
