(* ===== verification/Ext2Dir.v ===== *)
(** * Directories and paths of the ext2 file server

    [src/src/servers/fs/ext2/path.c]: entries of a directory block are inserted,
    removed and looked up, and a path is resolved through directories and
    symbolic links.  A block of entries is shown to be a list of entries on which
    these operations act as they should. *)
From Stdlib Require Import ZArith Lia.
From stdpp Require Import base numbers sets list list_numbers functions relations.
From S2P Require Import Prelude Ext2Journal Ext2Crash Ext2Txn Ext2Disk Ext2Store Ext2Alloc.

Notation VFS_PATH_MAX := 32 (only parsing).
Notation EXT2_S_IFLNK := 0xA000 (only parsing).
Notation SLASH := 47 (only parsing).
Notation DOT := 46 (only parsing).

Definition align4 (x : Z) : Z := Z.land (u32 (x + 3)) (Z.lnot 3).

(** ** One block of entries *)
(** [ino], name length, type and name of an entry at [off]. *)
Definition put_dirent (off ino : Z) (name : list Z) (file_type : Z) (buf : list Z) : list Z :=
  blit (off + 8) name (put (off + 7) file_type (put (off + 6) (u8 (Z.of_nat (length name))) (u32_set off ino buf))).
(** The block with a new entry, where one has room for it. *)
Fixpoint insert_entry (fuel : nat) (dirbuf : list Z) (block_size off new_ino : Z) (name : list Z) (file_type : Z)
    : option (list Z) :=
  match fuel with
  | O => None
  | S fuel =>
    if off + 8 <=? block_size then
      let ino := u32_get dirbuf off in
      let rec_len := u16_get dirbuf (off + 4) in
      let nl := at_ dirbuf (off + 6) in
      if rec_len <? 8 then None else
      let ideal := if ino =? 0 then 0 else align4 (8 + nl) in
      let avail := u32 (rec_len - ideal) in
      if avail >=? align4 (8 + Z.of_nat (length name)) then
        if ino =? 0 then Some (put_dirent off new_ino name file_type dirbuf)
        else
          let new_off := off + ideal in
          Some (put_dirent new_off new_ino name file_type
                 (u16_set (new_off + 4) (u16 (rec_len - ideal)) (u16_set (off + 4) (u16 ideal) dirbuf)))
      else insert_entry fuel dirbuf block_size (off + rec_len) new_ino name file_type
    else None
  end.

(** A block that is not a chain of entries is [Corrupt]. *)
Inductive removal := Missing | Corrupt | Removed (ino : Z) (buf : list Z).
Fixpoint remove_entry (fuel : nat) (dirbuf : list Z) (block_size off prev_off : Z) (name : list Z) : removal :=
  match fuel with
  | O => Missing
  | S fuel =>
    if off + 8 <=? block_size then
      let ino := u32_get dirbuf off in
      let rec_len := u16_get dirbuf (off + 4) in
      let nl := at_ dirbuf (off + 6) in
      if (rec_len <? 8) || (rec_len >? block_size - off) then Corrupt else
      if negb (ino =? 0) && (nl =? Z.of_nat (length name)) && bool_decide (slice (off + 8) nl dirbuf = name) then
        Removed ino
          (if negb (prev_off =? block_size)
           then u16_set (prev_off + 4) (u16 (u16_get dirbuf (prev_off + 4) + rec_len)) dirbuf
           else u32_set off 0 dirbuf)
      else remove_entry fuel dirbuf block_size (off + rec_len) off name
    else Missing
  end.
(** Some entry in use is neither "." nor ".."; [None] for a block that is no chain. *)
Fixpoint has_entries (fuel : nat) (dirbuf : list Z) (block_size off : Z) : option bool :=
  match fuel with
  | O => Some false
  | S fuel =>
    if off + 8 <=? block_size then
      let rec_len := u16_get dirbuf (off + 4) in
      let nl := at_ dirbuf (off + 6) in
      if (rec_len <? 8) || (rec_len >? block_size - off) then None else
      let is_dot := (nl =? 1) && (at_ dirbuf (off + 8) =? DOT) in
      let is_dotdot := (nl =? 2) && (at_ dirbuf (off + 8) =? DOT) && (at_ dirbuf (off + 9) =? DOT) in
      if negb (u32_get dirbuf off =? 0) && negb is_dot && negb is_dotdot then Some true
      else has_entries fuel dirbuf block_size (off + rec_len)
    else Some false
  end.
(** Where ".." is. *)
Fixpoint find_dotdot (fuel : nat) (dirbuf : list Z) (block_size off : Z) : option (option Z) :=
  match fuel with
  | O => Some None
  | S fuel =>
    if off + 8 <=? block_size then
      let rec_len := u16_get dirbuf (off + 4) in
      if (rec_len <? 8) || (rec_len >? block_size - off) then None else
      if negb (u32_get dirbuf off =? 0) && (at_ dirbuf (off + 6) =? 2) && (at_ dirbuf (off + 8) =? DOT) &&
         (at_ dirbuf (off + 9) =? DOT) then Some (Some off)
      else find_dotdot fuel dirbuf block_size (off + rec_len)
    else Some None
  end.

(** ** Paths *)
Definition copy_path (src : list Z) : option (list Z) :=
  if (length src <=? 31)%nat then Some src else None.
Definition root_names : list (list Z) :=
  [[98; 105; 110; 47]; [115; 98; 105; 110; 47]; [117; 115; 114; 47]; [101; 116; 99; 47]; [118; 97; 114; 47];
   [98; 111; 111; 116; 47]].
Definition is_root_relative_target (target : list Z) : bool :=
  (at_ target 0 =? SLASH) || existsb (fun r => bool_decide (take (length r) target = r)) root_names.
(** A C string ends at its first 0. *)
Fixpoint cstr (l : list Z) : list Z :=
  match l with [] => [] | c :: l => if c =? 0 then [] else c :: cstr l end.
(** [prefix] is the mount prefix, empty for the root file system. *)
Definition expand_target (prefix work target rest : list Z) (segment_start : Z) : option (list Z) :=
  let base_len := if is_root_relative_target target then 0 else segment_start in
  let target_start :=
    if at_ target 0 =? SLASH then
      if negb (bool_decide (prefix = [])) && bool_decide (take (length prefix) target = prefix)
      then Z.of_nat (length prefix) else 1
    else 0 in
  copy_path (take (Z.to_nat base_len) work ++ drop (Z.to_nat target_start) target ++ rest).

Section dirs.
Context {D : Type} `{!Blockdev D}.
Implicit Types e : ext2 D.

Definition replace_symlink (prefix work : list Z) (segment_start : Z) (rest : list Z) (ino : Z) : M D (option (list Z)) :=
  '(rc, inode_buf) ← inode_io ino [] false;
  if negb (rc =? 0) then mret None else
  let target_len := u32_get inode_buf 4 in
  if (target_len =? 0) || (target_len >? 60) then mret None else
  mret (expand_target prefix work (cstr (slice 40 target_len inode_buf)) rest segment_start).

(** The blocks of a directory. *)
Definition dir_blocks (inode : list Z) : M D (Z * list Z) :=
  need_blocks ← get (size_blocks (u32_get inode 4));
  walk_inode_blocks inode need_blocks.
(** [None]: no block has room. *)
Fixpoint insert_in_blocks (blocks : list Z) (new_ino : Z) (name : list Z) (file_type : Z) : M D (option Z) :=
  match blocks with
  | [] => mret None
  | b :: blocks =>
    '(rc, dirbuf) ← metadata_block_read b;
    if negb (rc =? 0) then mret (Some (-1)) else
    bs ← get g_block_size;
    match insert_entry (dir_fuel bs) dirbuf bs 0 new_ino name file_type with
    | Some buf => rc ← metadata_block_write b buf; mret (Some rc)
    | None => insert_in_blocks blocks new_ino name file_type
    end
  end.
Definition insert_dirent_in_dir (parent_ino new_ino : Z) (name : list Z) (file_type : Z) : M D Z :=
  stored ← get (fun e => if g_dirent_file_type e then file_type else 0);
  '(rc, parent) ← inode_io parent_ino [] false;
  if negb (rc =? 0) then mret (-1) else
  '(rc, blocks) ← dir_blocks parent;
  if negb (rc =? 0) then mret (-1) else
  placed ← insert_in_blocks blocks new_ino name stored;
  match placed with
  | Some rc => mret rc
  | None =>
    let nblocks := Z.of_nat (length blocks) in
    if nblocks >=? EXT2FS_MAX_BLOCKS then mret (-1) else
    '(rc, new_block) ← alloc_block;
    if negb (rc =? 0) then mret (-1) else
    bs ← get g_block_size;
    rc ← metadata_block_write new_block (put_dirent 0 new_ino name stored (u16_set 4 (u16 bs) (zeros bs)));
    if negb (rc =? 0) then mret (-1) else
    '(rc, parent') ← append_block_to_inode parent nblocks new_block;
    if negb (rc =? 0) then free_block new_block;; mret (-1) else
    let parent' := u32_set 4 (u32 (u32_get parent 4 + bs)) parent' in
    sectors ← get (compute_i_blocks_sectors parent' (nblocks + 1));
    '(rc, _) ← inode_io parent_ino (u32_set 28 sectors parent') true;
    mret rc
  end.
Fixpoint remove_in_blocks (blocks : list Z) (name : list Z) : M D (Z * Z) :=
  match blocks with
  | [] => mret (-1, 0)
  | b :: blocks =>
    '(rc, dirbuf) ← metadata_block_read b;
    if negb (rc =? 0) then mret (-1, 0) else
    bs ← get g_block_size;
    match remove_entry (dir_fuel bs) dirbuf bs 0 bs name with
    | Corrupt => mret (-1, 0)
    | Removed ino buf =>
      rc ← metadata_block_write b buf;
      if negb (rc =? 0) then mret (-1, 0) else mret (0, ino)
    | Missing => remove_in_blocks blocks name
    end
  end.
Definition remove_dirent_from_dir (parent_ino : Z) (name : list Z) : M D (Z * Z) :=
  '(rc, parent) ← inode_io parent_ino [] false;
  if negb (rc =? 0) then mret (-1, 0) else
  '(rc, blocks) ← dir_blocks parent;
  if negb (rc =? 0) then mret (-1, 0) else
  remove_in_blocks blocks name.

(** The inode's blocks, when it is a directory. *)
Definition opened_dir (ino : Z) : M D (Z * list Z) :=
  '(rc, inode_buf) ← inode_io ino [] false;
  if negb (rc =? 0) || negb (Z.land (u16_get inode_buf 0) 0xF000 =? EXT2_S_IFDIR) then mret (-1, []) else
  dir_blocks inode_buf.
Fixpoint empty_blocks (blocks : list Z) : M D Z :=
  match blocks with
  | [] => mret 1
  | b :: blocks =>
    '(rc, dirbuf) ← metadata_block_read b;
    if negb (rc =? 0) then mret (-1) else
    bs ← get g_block_size;
    match has_entries (dir_fuel bs) dirbuf bs 0 with
    | None => mret (-1)
    | Some true => mret 0
    | Some false => empty_blocks blocks
    end
  end.
Definition dir_is_empty (ino : Z) : M D Z :=
  '(rc, blocks) ← opened_dir ino;
  if negb (rc =? 0) then mret (-1) else empty_blocks blocks.
Definition dir_parent_ino (ino : Z) : M D (Z * Z) :=
  '(rc, (parent, _, _)) ← find_in_dir ino [DOT; DOT];
  mret (rc, parent).
Fixpoint relink_blocks (blocks : list Z) (parent_ino : Z) : M D Z :=
  match blocks with
  | [] => mret (-1)
  | b :: blocks =>
    '(rc, dirbuf) ← metadata_block_read b;
    if negb (rc =? 0) then mret (-1) else
    bs ← get g_block_size;
    match find_dotdot (dir_fuel bs) dirbuf bs 0 with
    | None => mret (-1)
    | Some (Some off) => metadata_block_write b (u32_set off parent_ino dirbuf)
    | Some None => relink_blocks blocks parent_ino
    end
  end.
Definition set_dir_parent_ino (ino parent_ino : Z) : M D Z :=
  '(rc, blocks) ← opened_dir ino;
  if negb (rc =? 0) then mret (-1) else relink_blocks blocks parent_ino.

(** *** Resolving a path *)
Fixpoint skip_slashes (l : list Z) : list Z :=
  match l with [] => [] | c :: r => if c =? SLASH then skip_slashes r else l end.
Fixpoint segment (l : list Z) : list Z :=
  match l with [] => [] | c :: r => if c =? SLASH then [] else c :: segment r end.
(** A walk ends with a result, with a symbolic link replaced, or at the end of a path without a leaf. *)
Inductive path_step := Resolved (rc parent : Z) (leaf : list Z) | Restart (work : list Z) | AtEnd.
(** [rest] is [work] from the current position on; every round uses up a segment of it. *)
Fixpoint walk_path (fuel : nat) (prefix work rest : list Z) (cur_ino : Z) (follow_final : bool) : M D path_step :=
  match fuel with
  | O => mret AtEnd
  | S fuel =>
    let rest := skip_slashes rest in
    if bool_decide (rest = []) then mret AtEnd else
    let segment_start := Z.of_nat (length work - length rest) in
    let name := segment rest in
    let rest := drop (length name) rest in
    let is_final := bool_decide (rest = []) in
    '(rc, (next_ino, _, next_is_dir)) ← find_in_dir cur_ino name;
    if negb (rc =? 0) then
      mret (if is_final then Resolved 0 cur_ino name else Resolved (-1) 0 [])
    else
      '(rc, inode_buf) ← inode_io next_ino [] false;
      if negb (rc =? 0) then mret (Resolved (-1) 0 []) else
      if (Z.land (u16_get inode_buf 0) 0xF000 =? EXT2_S_IFLNK) && (negb is_final || follow_final) then
        w ← replace_symlink prefix work segment_start rest next_ino;
        mret (match w with None => Resolved (-1) 0 [] | Some work => Restart work end)
      else if is_final then mret (Resolved 0 cur_ino name)
      else if negb next_is_dir then mret (Resolved (-2) 0 [])
      else walk_path fuel prefix work rest next_ino follow_final
  end.
Fixpoint resolve_hops (hops : nat) (prefix work : list Z) (follow_final : bool) : M D (Z * (Z * list Z)) :=
  match hops with
  | O => mret (-1, (0, []))
  | S hops =>
    r ← walk_path (S (length work)) prefix work work EXT2FS_ROOT_INODE follow_final;
    match r with
    | Resolved rc parent leaf => mret (rc, (parent, leaf))
    | Restart work => resolve_hops hops prefix work follow_final
    | AtEnd => mret (0, (EXT2FS_ROOT_INODE, []))
    end
  end.
Definition resolve_path (prefix rel : list Z) (follow_final : bool) : M D (Z * (Z * list Z)) :=
  match copy_path rel with
  | None => mret (-1, (0, []))
  | Some work => resolve_hops 8 prefix work follow_final
  end.
End dirs.

(** ** A block as a list of entries *)
Record dirent := mk_dirent { d_ino : Z; d_len : Z; d_name : list Z }.
Definition name_len (d : dirent) : Z := Z.of_nat (length (d_name d)).
(** The entry [d] at [off]: its name fits, and the next entry is at a multiple of 4. *)
Record entry_at (buf : list Z) (off : Z) (d : dirent) : Prop := {
  en_ino : u32_get buf off = d_ino d;
  en_len : u16_get buf (off + 4) = d_len d;
  en_nl : at_ buf (off + 6) = name_len d;
  en_name : slice (off + 8) (name_len d) buf = d_name d;
  en_fits : 8 + name_len d <= d_len d;
  en_align : d_len d mod 4 = 0
}.
Fixpoint dir_at (block_size : Z) (buf : list Z) (off : Z) (l : list dirent) : Prop :=
  match l with
  | [] => off = block_size
  | d :: l => entry_at buf off d /\ dir_at block_size buf (off + d_len d) l
  end.
Definition live (d : dirent) (name : list Z) : bool := negb (d_ino d =? 0) && bool_decide (d_name d = name).
Fixpoint dir_lookup (l : list dirent) (name : list Z) : option Z :=
  match l with
  | [] => None
  | d :: l => if live d name then Some (d_ino d) else dir_lookup l name
  end.
(** The room behind an entry. *)
Definition ideal_len (d : dirent) : Z := if d_ino d =? 0 then 0 else align4 (8 + name_len d).
Fixpoint dir_insert (l : list dirent) (ino : Z) (name : list Z) : option (list dirent) :=
  match l with
  | [] => None
  | d :: l =>
    if d_len d - ideal_len d >=? align4 (8 + Z.of_nat (length name)) then
      Some (if d_ino d =? 0 then mk_dirent ino (d_len d) name :: l
            else mk_dirent (d_ino d) (ideal_len d) (d_name d) :: mk_dirent ino (d_len d - ideal_len d) name :: l)
    else cons d <$> dir_insert l ino name
  end.
(** [prev] is the entry before [l]. *)
Fixpoint dir_remove_after (prev : dirent) (l : list dirent) (name : list Z) : option (Z * list dirent) :=
  match l with
  | [] => None
  | d :: l =>
    if live d name then Some (d_ino d, mk_dirent (d_ino prev) (d_len prev + d_len d) (d_name prev) :: l)
    else prod_map id (cons prev) <$> dir_remove_after d l name
  end.
Definition dir_remove (l : list dirent) (name : list Z) : option (Z * list dirent) :=
  match l with
  | [] => None
  | d :: l => if live d name then Some (d_ino d, mk_dirent 0 (d_len d) (d_name d) :: l) else dir_remove_after d l name
  end.

Lemma align4_spec x : 0 <= x < 2 ^ 31 -> x <= align4 x < x + 4 /\ align4 x mod 4 = 0.
Proof.
  intros Hx. unfold align4. rewrite u32_small by lia. change (Z.lnot 3) with (- 4).
  assert (Z.land (x + 3) (-4) = (x + 3) / 4 * 4) as ->.
  { change (-4) with (Z.lnot (Z.ones 2)). rewrite <- Z.ldiff_land, Z.ldiff_ones_r, Z.shiftl_mul_pow2, Z.shiftr_div_pow2 by lia.
    done. }
  split; [|apply Z.mod_mul; lia]. pose proof (Z.div_mod (x + 3) 4 ltac:(lia)).
  pose proof (Z.mod_pos_bound (x + 3) 4 ltac:(lia)). lia.
Qed.

(** An entry depends on its own bytes. *)
Lemma entry_ext buf buf' off d :
  length buf = length buf' -> (forall j, off <= j < off + 8 + name_len d -> at_ buf j = at_ buf' j) ->
  0 <= off -> entry_at buf off d -> entry_at buf' off d.
Proof.
  intros Hl Hat Ho [H1 H2 H3 H4 H5 H6]. assert (0 <= name_len d) by (unfold name_len; lia).
  split; try done.
  - rewrite <- H1. apply u32_get_at. intros k Hk. symmetry. apply Hat. lia.
  - rewrite <- H2. unfold u16_get. rewrite !Hat by lia. done.
  - rewrite <- H3. symmetry. apply Hat. lia.
  - rewrite <- H4. apply at_ext.
    + unfold slice. rewrite !length_take, !length_drop. lia.
    + intros j Hj. assert (j < name_len d) by (unfold slice in Hj; rewrite length_take in Hj; lia).
      rewrite !at_slice by lia. symmetry. apply Hat. lia.
Qed.
Lemma dir_ext bs buf buf' off l :
  length buf = length buf' -> (forall j, off <= j -> at_ buf j = at_ buf' j) -> 0 <= off ->
  dir_at bs buf off l -> dir_at bs buf' off l.
Proof.
  intros Hl. revert off. induction l as [|d l IH]; intros off Hat Ho; [done|]. intros [He Hd].
  assert (0 <= d_len d) by (pose proof (en_fits _ _ _ He); unfold name_len in *; lia). split.
  - apply (entry_ext buf); [done| |done|done]. intros j Hj. apply Hat. lia.
  - apply IH; [|lia|done]. intros j Hj. apply Hat. lia.
Qed.
Lemma dir_bound bs buf off l : dir_at bs buf off l -> off + 8 * Z.of_nat (length l) <= bs.
Proof.
  revert off. induction l as [|d l IH]; intros off Hd; cbn in *; [lia|]. destruct Hd as [He Hd].
  pose proof (IH _ Hd). pose proof (en_fits _ _ _ He). unfold name_len in *. lia.
Qed.
Lemma live_spec buf off d name : entry_at buf off d ->
  negb (u32_get buf off =? 0) && (at_ buf (off + 6) =? Z.of_nat (length name)) &&
    bool_decide (slice (off + 8) (at_ buf (off + 6)) buf = name) = live d name.
Proof.
  intros [H1 H2 H3 H4 _ _]. unfold live. rewrite H1, H3, H4. rewrite <- andb_assoc. f_equal.
  destruct (Z.eqb_spec (name_len d) (Z.of_nat (length name))) as [|Hne]; [done|]. cbn [andb].
  symmetry. apply bool_decide_eq_false_2. intros <-. by apply Hne.
Qed.
(** [find_entry] looks the name up. *)
Lemma find_entry_spec bs buf fuel off l name :
  dir_at bs buf off l -> (length l < fuel)%nat -> find_entry fuel buf bs off name = dir_lookup l name.
Proof.
  revert off l. induction fuel as [|fuel IH]; intros off l Hd Hf; [lia|]. cbn [find_entry].
  destruct l as [|d l]; cbn [dir_at dir_lookup] in *.
  - subst off. by rewrite (proj2 (Z.leb_gt _ _)) by lia.
  - pose proof (dir_bound _ _ _ (d :: l) Hd) as Hb. destruct Hd as [He Hd]. cbn [length] in *.
    pose proof (en_fits _ _ _ He). assert (0 <= name_len d) by (unfold name_len; lia).
    rewrite (proj2 (Z.leb_le _ _)) by lia. rewrite (live_spec buf off d name He), (en_len _ _ _ He), (en_ino _ _ _ He).
    rewrite (proj2 (Z.ltb_ge _ _)) by lia. destruct (live d name); [done|]. apply IH; [done|lia].
Qed.

Lemma align4_le x y : 0 <= x < 2 ^ 31 -> x <= y -> y mod 4 = 0 -> align4 x <= y.
Proof.
  intros Hx Hxy Hy. destruct (align4_spec x Hx) as [Ha Hm].
  pose proof (Z.div_mod y 4 ltac:(lia)). pose proof (Z.div_mod (align4 x) 4 ltac:(lia)). lia.
Qed.
Lemma put_dirent_length off ino name ft buf : length (put_dirent off ino name ft buf) = length buf.
Proof. unfold put_dirent. by rewrite blit_length, !put_length, u32_set_length. Qed.
Lemma put_dirent_at off ino name ft buf j :
  0 <= off -> off + 8 + Z.of_nat (length name) <= Z.of_nat (length buf) -> 0 <= j ->
  (j < off \/ off + 4 <= j < off + 6 \/ off + 8 + Z.of_nat (length name) <= j) ->
  at_ (put_dirent off ino name ft buf) j = at_ buf j.
Proof.
  intros Ho Hl Hj Hd. unfold put_dirent.
  rewrite at_blit by (rewrite ?put_length, ?u32_set_length; lia).
  rewrite !at_put by (rewrite ?put_length, ?u32_set_length; lia).
  destruct (Z.leb_spec (off + 8) j), (Z.ltb_spec j (off + 8 + Z.of_nat (length name))); cbn [andb]; try lia;
    (destruct (Z.eqb_spec (off + 7) j); [lia|]; destruct (Z.eqb_spec (off + 6) j); [lia|]; apply at_u32_set_ne; lia).
Qed.
(** The entry that was put is there. *)
Lemma put_dirent_entry off ino name ft buf len :
  0 <= off -> off + 8 + Z.of_nat (length name) <= Z.of_nat (length buf) ->
  0 <= ino < 2 ^ 32 -> (length name <= 255)%nat -> u16_get buf (off + 4) = len ->
  8 + Z.of_nat (length name) <= len -> len mod 4 = 0 ->
  entry_at (put_dirent off ino name ft buf) off (mk_dirent ino len name).
Proof.
  intros Ho Hl Hi Hn Hlen Hf Ha.
  assert (Hat : forall j, off <= j < off + 4 -> at_ (put_dirent off ino name ft buf) j = at_ (u32_set off ino buf) j).
  { intros j Hj. unfold put_dirent. rewrite at_blit by (rewrite ?put_length, ?u32_set_length; lia).
    rewrite !at_put by (rewrite ?put_length, ?u32_set_length; lia).
    destruct (Z.leb_spec (off + 8) j); [lia|]. cbn [andb].
    destruct (Z.eqb_spec (off + 7) j); [lia|]. destruct (Z.eqb_spec (off + 6) j); [lia|done]. }
  split; cbn [d_ino d_len d_name name_len]; unfold name_len; cbn [d_name]; [| | | |done|done].
  - rewrite (u32_get_at _ (u32_set off ino buf) off off); [apply u32_get_set; lia|]. intros k Hk. apply Hat. lia.
  - rewrite <- Hlen. unfold u16_get. by rewrite !put_dirent_at by lia.
  - unfold put_dirent. rewrite at_blit by (rewrite ?put_length, ?u32_set_length; lia).
    rewrite !at_put by (rewrite ?put_length, ?u32_set_length; lia).
    destruct (Z.leb_spec (off + 8) (off + 6)); [lia|]. cbn [andb].
    destruct (Z.eqb_spec (off + 7) (off + 6)); [lia|]. rewrite Z.eqb_refl. apply u8_small. lia.
  - pose proof (slice_length (off + 8) (Z.of_nat (length name)) (put_dirent off ino name ft buf)) as Hs.
    rewrite put_dirent_length in Hs. specialize (Hs ltac:(lia) ltac:(lia) ltac:(lia)).
    apply at_ext; [lia|]. intros j Hj. rewrite at_slice by lia. unfold put_dirent.
    rewrite at_blit by (rewrite ?put_length, ?u32_set_length; lia).
    destruct (Z.leb_spec (off + 8) (off + 8 + j)), (Z.ltb_spec (off + 8 + j) (off + 8 + Z.of_nat (length name)));
      cbn [andb]; try lia. f_equal. lia.
Qed.
(** An entry whose length was changed. *)
Lemma set_len_entry buf off d len :
  0 <= off -> off + 8 + name_len d <= Z.of_nat (length buf) -> 0 <= len < 2 ^ 16 ->
  entry_at buf off d -> 8 + name_len d <= len -> len mod 4 = 0 ->
  entry_at (u16_set (off + 4) len buf) off (mk_dirent (d_ino d) len (d_name d)).
Proof.
  intros Ho Hl Hlen [H1 H2 H3 H4 _ _] Hf Ha. assert (0 <= name_len d) by (unfold name_len; lia).
  assert (Hs : slice (off + 8) (name_len d) (u16_set (off + 4) len buf) = d_name d).
  { rewrite <- H4. apply at_ext.
    - unfold slice. by rewrite !length_take, !length_drop, u16_set_length.
    - intros j Hj. assert (j < name_len d) by (unfold slice in Hj; rewrite length_take in Hj; lia).
      rewrite !at_slice by lia. apply at_u16_set_ne; lia. }
  split; unfold name_len in *; cbn [d_ino d_len d_name] in *; [| | |done|done|done].
  - rewrite <- H1. apply u32_get_u16_set; lia.
  - apply u16_get_set; lia.
  - rewrite <- H3. apply at_u16_set_ne; lia.
Qed.

(** *** Inserting *)
Section block.
Context (bs : Z) (Hbs : 0 < bs <= 4096).

(** An entry in use is split. *)
Lemma split_entry buf off d l ino name ft :
  Z.of_nat (length buf) = bs -> 0 <= off -> dir_at bs buf off (d :: l) -> d_ino d <> 0 ->
  0 <= ino < 2 ^ 32 -> (length name <= 255)%nat ->
  align4 (8 + Z.of_nat (length name)) <= d_len d - ideal_len d ->
  let buf' := put_dirent (off + ideal_len d) ino name ft
    (u16_set (off + ideal_len d + 4) (u16 (d_len d - ideal_len d)) (u16_set (off + 4) (u16 (ideal_len d)) buf)) in
  dir_at bs buf' off (mk_dirent (d_ino d) (ideal_len d) (d_name d) :: mk_dirent ino (d_len d - ideal_len d) name :: l) /\
  (forall j, 0 <= j < off -> at_ buf' j = at_ buf j).
Proof.
  intros Hl Ho [He Hd] Hu Hi Hn Hroom. pose proof (dir_bound _ _ _ _ Hd) as Hb.
  pose proof (en_fits _ _ _ He). pose proof (en_align _ _ _ He) as Ha. assert (0 <= name_len d) by (unfold name_len; lia).
  destruct (align4_spec (8 + Z.of_nat (length name)) ltac:(lia)) as [Hneed _].
  assert (ideal_len d = align4 (8 + name_len d)) as Eid by (unfold ideal_len; by destruct (Z.eqb_spec (d_ino d) 0)).
  destruct (align4_spec (8 + name_len d) ltac:(lia)) as [Hid Him]. rewrite <- Eid in Hid, Him.
  rewrite (u16_small (ideal_len d)), (u16_small (d_len d - ideal_len d)) by lia.
  set (b1 := u16_set (off + 4) (ideal_len d) buf).
  set (b2 := u16_set (off + ideal_len d + 4) (d_len d - ideal_len d) b1).
  assert (length b1 = length buf) as L1 by apply u16_set_length.
  assert (length b2 = length buf) as L2 by (unfold b2; by rewrite u16_set_length).
  assert (forall j, 0 <= j < off + ideal_len d -> at_ b2 j = at_ b1 j) as A2.
  { intros j Hj. apply at_u16_set_ne; lia. }
  cbv zeta. split; [split; [|split]|].
  - apply (entry_ext b1); [by rewrite put_dirent_length, L1, L2| |done|].
    + cbn [d_name]. unfold name_len at 1. cbn [d_name]. fold (name_len d). intros j Hj.
      rewrite put_dirent_at, A2 by lia. done.
    + apply set_len_entry; [done|lia|lia|done|lia|done].
  - cbn [d_len]. apply put_dirent_entry; [lia|lia|done|done| |lia|].
    + apply u16_get_set; lia.
    + pose proof (Z.div_mod (d_len d) 4 ltac:(lia)). pose proof (Z.div_mod (ideal_len d) 4 ltac:(lia)).
      replace (d_len d - ideal_len d) with (0 + (d_len d / 4 - ideal_len d / 4) * 4) by lia. by rewrite Z.mod_add.
  - cbn [d_len]. replace (off + ideal_len d + (d_len d - ideal_len d)) with (off + d_len d) by lia.
    apply (dir_ext bs buf); [by rewrite put_dirent_length| |lia|done].
    intros j Hj. rewrite put_dirent_at by lia. unfold b2, b1. rewrite !at_u16_set_ne by (rewrite ?u16_set_length; lia). done.
  - intros j Hj. rewrite put_dirent_at, A2 by lia. apply at_u16_set_ne; lia.
Qed.
(** An entry not in use is taken. *)
Lemma reuse_entry buf off d l ino name ft :
  Z.of_nat (length buf) = bs -> 0 <= off -> dir_at bs buf off (d :: l) ->
  0 <= ino < 2 ^ 32 -> (length name <= 255)%nat -> align4 (8 + Z.of_nat (length name)) <= d_len d ->
  dir_at bs (put_dirent off ino name ft buf) off (mk_dirent ino (d_len d) name :: l) /\
  (forall j, 0 <= j < off -> at_ (put_dirent off ino name ft buf) j = at_ buf j).
Proof.
  intros Hl Ho [He Hd] Hi Hn Hroom. pose proof (dir_bound _ _ _ _ Hd) as Hb.
  destruct (align4_spec (8 + Z.of_nat (length name)) ltac:(lia)) as [Hneed _].
  split; [split|].
  - apply put_dirent_entry; [lia|lia|done|done|apply (en_len _ _ _ He)|lia|apply (en_align _ _ _ He)].
  - cbn [d_len]. apply (dir_ext bs buf); [by rewrite put_dirent_length| |lia|done].
    intros j Hj. by rewrite put_dirent_at by lia.
  - intros j Hj. apply put_dirent_at; lia.
Qed.
Lemma insert_entry_spec fuel buf off l ino name ft :
  Z.of_nat (length buf) = bs -> 0 <= off -> dir_at bs buf off l -> (length l < fuel)%nat ->
  0 <= ino < 2 ^ 32 -> (length name <= 255)%nat ->
  match insert_entry fuel buf bs off ino name ft with
  | Some buf' => exists l', dir_insert l ino name = Some l' /\ dir_at bs buf' off l' /\ length buf' = length buf /\
                 forall j, 0 <= j < off -> at_ buf' j = at_ buf j
  | None => dir_insert l ino name = None
  end.
Proof.
  intros Hl Ho Hd Hf Hi Hn. revert off l Ho Hd Hf. induction fuel as [|fuel IH]; intros off l Ho Hd Hf; [lia|].
  cbn [insert_entry]. destruct l as [|d l].
  { cbn in Hd. subst off. by rewrite (proj2 (Z.leb_gt _ _)) by lia. }
  pose proof (dir_bound _ _ _ (d :: l) Hd) as Hb. pose proof Hd as [He Hd']. cbn [length] in Hb, Hf.
  pose proof (dir_bound _ _ _ _ Hd') as Hb'. pose proof (en_fits _ _ _ He). assert (0 <= name_len d) by (unfold name_len; lia).
  rewrite (proj2 (Z.leb_le _ _)), (en_len _ _ _ He), (en_ino _ _ _ He), (en_nl _ _ _ He) by lia.
  rewrite (proj2 (Z.ltb_ge _ _)) by lia. fold (ideal_len d).
  assert (0 <= ideal_len d <= d_len d) as Hid.
  { unfold ideal_len. destruct (d_ino d =? 0); [lia|]. destruct (align4_spec (8 + name_len d) ltac:(lia)).
    pose proof (align4_le (8 + name_len d) (d_len d) ltac:(lia) ltac:(lia) (en_align _ _ _ He)). lia. }
  rewrite u32_small by lia. cbn [dir_insert].
  destruct (Z.geb_spec (d_len d - ideal_len d) (align4 (8 + Z.of_nat (length name)))) as [Hroom|Hroom].
  - destruct (Z.eqb_spec (d_ino d) 0) as [E0|E0].
    + assert (ideal_len d = 0) as Eid by (unfold ideal_len; by rewrite E0). rewrite Eid in Hroom.
      destruct (reuse_entry buf off d l ino name ft Hl Ho Hd Hi Hn ltac:(lia)) as [H1 H2].
      eexists. split; [done|]. split; [done|]. split; [apply put_dirent_length|done].
    + destruct (split_entry buf off d l ino name ft Hl Ho Hd E0 Hi Hn Hroom) as [H1 H2].
      eexists. split; [done|]. split; [done|]. split; [by rewrite put_dirent_length, !u16_set_length|done].
  - specialize (IH (off + d_len d) l ltac:(lia) Hd' ltac:(lia)).
    destruct (insert_entry fuel buf bs (off + d_len d) ino name ft) as [buf'|]; [|by rewrite IH].
    destruct IH as (l' & E & Hd2 & Hl2 & Hat). exists (d :: l'). rewrite E. split; [done|]. split; [split; [|done]|].
    + apply (entry_ext buf); [done| |done|done]. intros j Hj. symmetry. apply Hat. lia.
    + split; [done|]. intros j Hj. apply Hat. lia.
Qed.

(** *** Removing *)
Definition removal_ok (buf : list Z) (off : Z) (r : removal) (o : option (Z * list dirent)) : Prop :=
  match r with
  | Missing => o = None
  | Corrupt => False
  | Removed ino buf' => exists l', o = Some (ino, l') /\ dir_at bs buf' off l' /\ length buf' = length buf /\
                        forall j, 0 <= j < off -> at_ buf' j = at_ buf j
  end.
Lemma remove_after_spec fuel buf prev_off prev l name :
  Z.of_nat (length buf) = bs -> 0 <= prev_off -> dir_at bs buf prev_off (prev :: l) -> (length l < fuel)%nat ->
  removal_ok buf prev_off (remove_entry fuel buf bs (prev_off + d_len prev) prev_off name) (dir_remove_after prev l name).
Proof.
  intros Hl. revert prev_off prev l. induction fuel as [|fuel IH]; intros prev_off prev l Ho Hd Hf; [lia|].
  pose proof Hd as [Hp Hd']. cbn [remove_entry]. pose proof (dir_bound _ _ _ _ Hd') as Hb. pose proof (en_fits _ _ _ Hp).
  assert (0 <= name_len prev) by (unfold name_len; lia). set (off := prev_off + d_len prev) in *.
  destruct l as [|d l].
  { cbn in Hd'. rewrite (proj2 (Z.leb_gt _ _)) by lia. done. }
  pose proof Hd' as [He Hd2]. pose proof (dir_bound _ _ _ _ Hd2) as Hb2. cbn [length] in Hb, Hf.
  pose proof (en_fits _ _ _ He). assert (0 <= name_len d) by (unfold name_len; lia).
  rewrite (proj2 (Z.leb_le _ _)) by lia. rewrite (live_spec buf off d name He), (en_len _ _ _ He), (en_ino _ _ _ He).
  rewrite (proj2 (Z.ltb_ge _ _)) by lia. replace (d_len d >? bs - off) with false by (symmetry; rewrite Z.gtb_ltb; apply Z.ltb_ge; lia).
  cbn [orb dir_remove_after]. destruct (live d name).
  - replace (prev_off =? bs) with false by (symmetry; apply Z.eqb_neq; lia). cbn [negb removal_ok].
    rewrite (en_len _ _ _ Hp), u16_small by lia. eexists. split; [done|]. split; [split|].
    + apply set_len_entry; [done|lia|lia|done|lia|].
      rewrite Z.add_mod, (en_align _ _ _ Hp), (en_align _ _ _ He) by lia. done.
    + cbn [d_len]. replace (prev_off + (d_len prev + d_len d)) with (off + d_len d) by lia.
      apply (dir_ext bs buf); [by rewrite u16_set_length| |lia|done]. intros j Hj. symmetry. apply at_u16_set_ne; lia.
    + split; [apply u16_set_length|]. intros j Hj. apply at_u16_set_ne; lia.
  - specialize (IH off d l ltac:(lia) Hd' ltac:(lia)). unfold removal_ok in *.
    destruct (remove_entry fuel buf bs (off + d_len d) off name) as [| |ino buf']; [by rewrite IH|done|].
    destruct IH as (l' & E & Hd3 & Hl3 & Hat). exists (prev :: l'). rewrite E. split; [done|]. split; [split; [|done]|].
    + apply (entry_ext buf); [done| |done|done]. intros j Hj. symmetry. apply Hat. lia.
    + split; [done|]. intros j Hj. apply Hat. lia.
Qed.
Lemma remove_entry_spec fuel buf l name :
  Z.of_nat (length buf) = bs -> dir_at bs buf 0 l -> (length l < fuel)%nat ->
  removal_ok buf 0 (remove_entry fuel buf bs 0 bs name) (dir_remove l name).
Proof.
  intros Hl Hd Hf. destruct fuel as [|fuel]; [lia|]. destruct l as [|d l]; [cbn in Hd; lia|].
  cbn [remove_entry]. pose proof Hd as [He Hd']. pose proof (dir_bound _ _ _ _ Hd') as Hb. cbn [length] in Hf.
  pose proof (en_fits _ _ _ He). assert (0 <= name_len d) by (unfold name_len; lia).
  rewrite (proj2 (Z.leb_le _ _)) by lia. rewrite (live_spec buf 0 d name He), (en_len _ _ _ He), (en_ino _ _ _ He).
  rewrite (proj2 (Z.ltb_ge _ _)) by lia. replace (d_len d >? bs - 0) with false by (symmetry; rewrite Z.gtb_ltb; apply Z.ltb_ge; lia).
  cbn [orb dir_remove]. destruct (live d name).
  - rewrite Z.eqb_refl. cbn [negb removal_ok]. eexists. split; [done|]. split; [split|].
    + destruct He as [H1 H2 H3 H4 H5 H6]. split; unfold name_len in *; cbn [d_ino d_len d_name] in *; [| | | |done|done].
      * apply u32_get_set; lia.
      * rewrite <- H2. unfold u16_get. by rewrite !at_u32_set_ne by lia.
      * rewrite <- H3. apply at_u32_set_ne; lia.
      * transitivity (slice (0 + 8) (Z.of_nat (length (d_name d))) buf); [|exact H4]. apply at_ext.
        -- unfold slice. by rewrite !length_take, !length_drop, u32_set_length.
        -- intros j Hj. assert (j < Z.of_nat (length (d_name d))) by (unfold slice in Hj; rewrite length_take in Hj; lia).
           rewrite !at_slice by lia. apply at_u32_set_ne; lia.
    + cbn [d_len]. apply (dir_ext bs buf); [by rewrite u32_set_length| |lia|done].
      intros j Hj. symmetry. apply at_u32_set_ne; lia.
    + split; [apply u32_set_length|]. intros j Hj. lia.
  - apply (remove_after_spec fuel buf 0 d l name Hl); [lia|done|lia].
Qed.
End block.

(** *** What lookups see *)
(** The names in use, in order. *)
Definition live_names (l : list dirent) : list (list Z) :=
  omap (fun d => if d_ino d =? 0 then None else Some (d_name d)) l.
Lemma lookup_None l name : dir_lookup l name = None <-> name ∉ live_names l.
Proof.
  induction l as [|d l IH]; cbn [dir_lookup live_names omap list_omap]; [split; [intros _; apply not_elem_of_nil|done]|].
  unfold live. destruct (Z.eqb_spec (d_ino d) 0); cbn [negb andb]; [done|].
  fold (live_names l). rewrite list.not_elem_of_cons. case_bool_decide; [naive_solver|]. rewrite IH. naive_solver.
Qed.
Lemma insert_lookup l ino name l' nm :
  ino <> 0 -> dir_lookup l name = None -> dir_insert l ino name = Some l' ->
  dir_lookup l' nm = if decide (nm = name) then Some ino else dir_lookup l nm.
Proof.
  intros Hi. revert l'. induction l as [|d l IH]; intros l' Hn; [done|]. cbn [dir_insert].
  cbn [dir_lookup] in Hn. destruct (live d name) eqn:El; [done|].
  assert (forall n, live (mk_dirent ino n name) nm = bool_decide (nm = name)) as Hnew.
  { intros n. unfold live. cbn. destruct (Z.eqb_spec ino 0); [done|]. cbn. apply bool_decide_ext. naive_solver. }
  destruct (_ >=? _).
  - intros [= <-]. destruct (Z.eqb_spec (d_ino d) 0) as [E0|E0]; cbn [dir_lookup].
    + rewrite Hnew. assert (live d nm = false) as -> by (unfold live; by rewrite E0).
      case_decide; [by rewrite bool_decide_eq_true_2|by rewrite bool_decide_eq_false_2].
    + rewrite Hnew. change (live (mk_dirent (d_ino d) (ideal_len d) (d_name d)) nm) with (live d nm). cbn [d_ino].
      case_decide as Hd; [|by rewrite bool_decide_eq_false_2]. subst nm. by rewrite El, bool_decide_eq_true_2.
  - destruct (dir_insert l ino name) as [l2|] eqn:E; [|done]. intros [= <-]. cbn [dir_lookup].
    rewrite (IH l2 Hn eq_refl). case_decide as Hd; [|done]. subst nm. by rewrite El.
Qed.
Lemma removed_lookup d l name nm :
  NoDup (live_names (d :: l)) -> live d name = true ->
  dir_lookup l nm = if decide (nm = name) then None else dir_lookup (d :: l) nm.
Proof.
  intros Hn Hl. cbn [dir_lookup]. unfold live in *. cbn [live_names omap list_omap] in Hn.
  destruct (Z.eqb_spec (d_ino d) 0); [done|]. cbn [negb andb] in *. apply bool_decide_eq_true in Hl. subst name.
  apply list.NoDup_cons in Hn as [Hn _]. case_decide as Hd; [subst nm; by apply lookup_None|].
  by rewrite bool_decide_eq_false_2 by congruence.
Qed.
Lemma NoDup_live_tail d l : NoDup (live_names (d :: l)) -> NoDup (live_names l).
Proof.
  cbn [live_names omap list_omap]. destruct (d_ino d =? 0); [done|]. by intros [_ ?]%list.NoDup_cons.
Qed.
Lemma remove_after_lookup prev l name ino l' nm :
  NoDup (live_names l) -> live prev name = false -> dir_remove_after prev l name = Some (ino, l') ->
  dir_lookup (prev :: l) name = Some ino /\
  dir_lookup l' nm = if decide (nm = name) then None else dir_lookup (prev :: l) nm.
Proof.
  revert prev ino l'. induction l as [|d l IH]; intros prev ino l' Hn Hp; [done|]. cbn [dir_remove_after].
  destruct (live d name) eqn:El.
  - intros [= <- <-]. split; [cbn [dir_lookup]; by rewrite Hp, El|].
    cbn [dir_lookup]. change (live (mk_dirent (d_ino prev) (d_len prev + d_len d) (d_name prev)) nm) with (live prev nm).
    cbn [d_ino]. rewrite (removed_lookup d l name nm Hn El). cbn [dir_lookup].
    destruct (decide (nm = name)) as [->|]; [by rewrite Hp|by destruct (live prev nm), (live d nm)].
  - destruct (dir_remove_after d l name) as [[i l2]|] eqn:E; [|done]. intros [= <- <-].
    destruct (IH d i l2 (NoDup_live_tail d l Hn) El E) as [H1 H2].
    split; [cbn [dir_lookup] in *; by rewrite Hp|]. cbn [dir_lookup] in *. rewrite H2.
    destruct (decide (nm = name)) as [->|]; [by rewrite Hp|done].
Qed.
Lemma remove_lookup l name ino l' nm :
  NoDup (live_names l) -> dir_remove l name = Some (ino, l') ->
  dir_lookup l name = Some ino /\ dir_lookup l' nm = if decide (nm = name) then None else dir_lookup l nm.
Proof.
  destruct l as [|d l]; [done|]. cbn [dir_remove]. intros Hn. destruct (live d name) eqn:El.
  - intros [= <- <-]. split; [cbn [dir_lookup]; by rewrite El|].
    rewrite <- (removed_lookup d l name nm Hn El). done.
  - intros E. by apply remove_after_lookup; [apply (NoDup_live_tail d)| |].
Qed.
Lemma remove_None l name : dir_remove l name = None -> dir_lookup l name = None.
Proof.
  assert (forall p l, dir_remove_after p l name = None -> dir_lookup l name = None) as H.
  { intros p l'. revert p. induction l' as [|d l' IH]; intros p; [done|]. cbn. destruct (live d name); [done|].
    destruct (dir_remove_after d l' name) eqn:E; [done|]. intros _. by apply (IH d). }
  destruct l as [|d l]; [done|]. cbn. destruct (live d name); [done|]. apply H.
Qed.

(** C22: a directory block is a map from names to inodes.  In a block that is a chain of entries [find_entry] looks a
    name up; [insert_entry] of a new name, where it finds room, leaves a chain in which that name is found and every
    other name is found as before; [remove_entry] fails only for a name that is not there, and otherwise leaves a chain
    in which the name is gone and every other name is found as before. *)
Theorem directory_block bs buf l ino name ft :
  0 < bs <= 4096 -> Z.of_nat (length buf) = bs -> dir_at bs buf 0 l -> NoDup (live_names l) ->
  0 < ino < 2 ^ 32 -> (length name <= 255)%nat ->
  let find b nm := find_entry (dir_fuel bs) b bs 0 nm in
  (forall nm, find buf nm = dir_lookup l nm) /\
  (forall buf', find buf name = None -> insert_entry (dir_fuel bs) buf bs 0 ino name ft = Some buf' ->
    (exists l', dir_at bs buf' 0 l') /\
    forall nm, find buf' nm = if decide (nm = name) then Some ino else find buf nm) /\
  match remove_entry (dir_fuel bs) buf bs 0 bs name with
  | Missing => find buf name = None
  | Corrupt => False
  | Removed i buf' => find buf name = Some i /\ (exists l', dir_at bs buf' 0 l') /\
      forall nm, find buf' nm = if decide (nm = name) then None else find buf nm
  end.
Proof.
  intros Hbs Hl Hd Hn Hi Hnl find.
  assert (forall b k, dir_at bs b 0 k -> forall nm, find b nm = dir_lookup k nm) as Hfind.
  { intros b k Hk nm. apply find_entry_spec; [done|]. pose proof (dir_bound _ _ _ _ Hk). unfold dir_fuel.
    assert (Z.of_nat (length k) <= bs / 8) by (apply Z.div_le_lower_bound; lia). lia. }
  assert (length l < dir_fuel bs)%nat as Hf.
  { pose proof (dir_bound _ _ _ _ Hd). unfold dir_fuel.
    assert (Z.of_nat (length l) <= bs / 8) by (apply Z.div_le_lower_bound; lia). lia. }
  split; [by apply Hfind|]. split.
  - intros buf' Hno E. pose proof (insert_entry_spec bs Hbs (dir_fuel bs) buf 0 l ino name ft Hl ltac:(lia) Hd Hf
      ltac:(lia) Hnl) as Hs. rewrite E in Hs. destruct Hs as (l' & El & Hd' & _ & _). split; [by exists l'|].
    intros nm. rewrite (Hfind buf' l' Hd'), (Hfind buf l Hd). rewrite (Hfind buf l Hd) in Hno.
    by apply insert_lookup; [lia| |].
  - pose proof (remove_entry_spec bs Hbs (dir_fuel bs) buf l name Hl Hd Hf) as Hr. unfold removal_ok in Hr.
    destruct (remove_entry (dir_fuel bs) buf bs 0 bs name) as [| |i buf']; [|done|].
    + rewrite (Hfind buf l Hd). by apply remove_None.
    + destruct Hr as (l' & El & Hd' & _ & _). destruct (remove_lookup l name i l' name Hn El) as [H1 _].
      split; [by rewrite (Hfind buf l Hd)|]. split; [by exists l'|].
      intros nm. rewrite (Hfind buf' l' Hd'), (Hfind buf l Hd). by apply (remove_lookup l name i l' nm Hn El).
Qed.
(** A block as [insert_dirent_in_dir] starts it, with one name. *)
Definition demo_dir : list Z := put_dirent 0 11 [97] 1 (u16_set 4 1024 (zeros 1024)).
Lemma directory_block_witness :
  find_entry (dir_fuel 1024) demo_dir 1024 0 [97] = Some 11 /\
  match insert_entry (dir_fuel 1024) demo_dir 1024 0 12 [98; 99] 2 with
  | Some buf' => find_entry (dir_fuel 1024) buf' 1024 0 [98; 99] = Some 12 /\
                 find_entry (dir_fuel 1024) buf' 1024 0 [97] = Some 11
  | None => False
  end.
Proof.
  assert (dir_at 1024 demo_dir 0 [mk_dirent 11 1024 [97]]) as Hd.
  { split; [|reflexivity]. split; first [reflexivity|discriminate]. }
  destruct (directory_block 1024 demo_dir [mk_dirent 11 1024 [97]] 12 [98; 99] 2 ltac:(lia) ltac:(reflexivity) Hd
    ltac:(apply NoDup_singleton) ltac:(lia) ltac:(cbn; lia)) as (H1 & H2 & _).
  split; [apply (H1 [97])|]. destruct (insert_entry (dir_fuel 1024) demo_dir 1024 0 12 [98; 99] 2) as [buf'|] eqn:E.
  - destruct (H2 buf' ltac:(vm_compute; reflexivity) eq_refl) as [_ H3]. split; [apply (H3 [98; 99])|].
    rewrite (H3 [97]). exact (H1 [97]).
  - vm_compute in E. discriminate.
Defined.
